(** * XBee profiles: a shallow embedding of [digi/xbee/profile.py]

    The development follows the layout of the Python module:
    - [Py]: the few Python built-ins the module relies on ([int], [str.split],
      [str.upper], [bytearray(s, 'utf8')], insertion-ordered [dict]);
    - [Codec]: [XBeeSettingType], [XBeeSettingFormat] and
      [XBeeProfileSetting._setting_value_to_bytearray];
    - [Archive]: the parts of [XBeeProfile] that parse the firmware descriptor
      (region lock, AT settings) and its finaliser [__del__];
    - [Updater]: [_ProfileUpdater], as a state-and-exception monad over a
      device handle whose collaborators are driven by an oracle;
    - [Entry]: [apply_xbee_profile].

    Python [str] values are modelled by [string], one [ascii] per code point
    (code points below 256). *)

From Stdlib Require Import ZArith List String Ascii Bool Lia Sorted.
From Stdlib Require Import RelationClasses Morphisms.
Import ListNotations.
Open Scope string_scope.
Open Scope list_scope.
Open Scope Z_scope.

(* ===================================================================== *)
(** * Python built-ins *)
(* ===================================================================== *)

Module Py.

Definition ord (c : ascii) : Z := Z.of_N (N_of_ascii c).

(** [bytearray(s, 'utf8')]: one byte below U+0080, two bytes from U+0080 to
    U+00FF. *)
Definition utf8_char (c : ascii) : list Z :=
  let n := ord c in
  if n <? 128 then [n]
  else [Z.lor 192 (Z.shiftr n 6); Z.lor 128 (Z.land n 63)].

Fixpoint utf8 (s : string) : list Z :=
  match s with
  | EmptyString => []
  | String c r => utf8_char c ++ utf8 r
  end.

(** [str.upper()] on the ASCII letters (AT mnemonics are ASCII). *)
Definition upper_char (c : ascii) : ascii :=
  let n := ord c in
  if (97 <=? n) && (n <=? 122) then ascii_of_N (Z.to_N (n - 32)) else c.

Fixpoint upper (s : string) : string :=
  match s with
  | EmptyString => EmptyString
  | String c r => String (upper_char c) (upper r)
  end.

(** [sep in s] for a one-character [sep]. *)
Fixpoint contains (sep : ascii) (s : string) : bool :=
  match s with
  | EmptyString => false
  | String c r => Ascii.eqb c sep || contains sep r
  end.

(** [s.split(sep)] for a one-character [sep]: every occurrence splits, empty
    fields are kept. *)
Fixpoint split_acc (sep : ascii) (cur : string) (s : string) : list string :=
  match s with
  | EmptyString => [cur]
  | String c r =>
      if Ascii.eqb c sep then cur :: split_acc sep EmptyString r
      else split_acc sep (String.append cur (String c EmptyString)) r
  end.

Definition split (sep : ascii) (s : string) : list string :=
  split_acc sep EmptyString s.

(** Characters [int()] strips around a [str] literal. *)
Definition is_space (c : ascii) : bool :=
  let n := ord c in
  ((9 <=? n) && (n <=? 13)) || ((28 <=? n) && (n <=? 32))
  || (n =? 133) || (n =? 160).

Fixpoint lstrip (s : string) : string :=
  match s with
  | String c r => if is_space c then lstrip r else s
  | EmptyString => EmptyString
  end.

Fixpoint rev_string_acc (s acc : string) : string :=
  match s with
  | EmptyString => acc
  | String c r => rev_string_acc r (String c acc)
  end.

Definition rev_string (s : string) : string := rev_string_acc s EmptyString.

Definition strip (s : string) : string :=
  rev_string (lstrip (rev_string (lstrip s))).

(** Value of a digit in the given base (10 or 16), if it is one. *)
Definition digit (base : Z) (c : ascii) : option Z :=
  let n := ord c in
  let v := if (48 <=? n) && (n <=? 57) then n - 48
           else if (65 <=? n) && (n <=? 70) then n - 55
           else if (97 <=? n) && (n <=? 102) then n - 87
           else 99 in
  if v <? base then Some v else None.

(** Digits with single underscores between them; [after_digit] tells whether
    the previous character was a digit (an underscore is legal only then),
    [seen] whether at least one digit has been read. *)
Fixpoint digits (base : Z) (after_digit seen : bool) (acc : Z) (s : string)
  : option Z :=
  match s with
  | EmptyString => if after_digit && seen then Some acc else None
  | String c r =>
      if Ascii.eqb c "_"%char then
        if after_digit then digits base false seen acc r else None
      else
        match digit base c with
        | Some v => digits base true true (acc * base + v) r
        | None => None
        end
  end.

Definition unsigned_literal (base : Z) (s : string) : option Z :=
  match s with
  | String "0" (String x r) =>
      if (base =? 16) && (Ascii.eqb x "x" || Ascii.eqb x "X")
      then digits base true false 0 r
      else digits base false false 0 s
  | _ => digits base false false 0 s
  end.

(** [int(s, base)] for [base] 10 or 16; [None] stands for [ValueError]. *)
Definition int (base : Z) (s : string) : option Z :=
  match strip s with
  | String "+" r => unsigned_literal base r
  | String "-" r => option_map Z.opp (unsigned_literal base r)
  | t => unsigned_literal base t
  end.

(** [int(c, base=0)] for a string of exactly one character: a decimal digit
    is its value, anything else (letters included, since no [0x] prefix
    fits) is a [ValueError]. *)
Definition int_base0_char (c : ascii) : option Z := digit 10 c.

(** Insertion-ordered [dict]: assignment to an existing key keeps the key's
    position, assignment to a new key appends. *)
Section Dict.
Context {K V : Type} (eqb : K -> K -> bool).

Fixpoint dict_set (d : list (K * V)) (k : K) (v : V) : list (K * V) :=
    match d with
    | [] => [(k, v)]
    | (k', v') :: r =>
        if eqb k' k then (k', v) :: r else (k', v') :: dict_set r k v
    end.

Fixpoint dict_get (d : list (K * V)) (k : K) : option V :=
    match d with
    | [] => None
    | (k', v') :: r => if eqb k' k then Some v' else dict_get r k
    end.
End Dict.


(** Exception classes named in the module, with the built-in ones its
    expressions can raise. *)
Inductive exn_class :=
| ValueError | TypeError | AttributeError | IndexError
| PermissionError | FileExistsError | OtherError
| ParseError | BadZipFile | LargeZipFile | SerialException
| XBeeException | TimeoutException | ATCommandException
| InvalidOperatingModeException | FirmwareUpdateException
| FileSystemException | FileSystemNotSupportedException
| ReadProfileException | UpdateProfileException.

Definition exn_class_eqb (a b : exn_class) : bool :=
  match a, b with
  | ValueError, ValueError | TypeError, TypeError
  | AttributeError, AttributeError | IndexError, IndexError
  | PermissionError, PermissionError | FileExistsError, FileExistsError
  | OtherError, OtherError | ParseError, ParseError
  | BadZipFile, BadZipFile | LargeZipFile, LargeZipFile
  | SerialException, SerialException | XBeeException, XBeeException
  | TimeoutException, TimeoutException
  | ATCommandException, ATCommandException
  | InvalidOperatingModeException, InvalidOperatingModeException
  | FirmwareUpdateException, FirmwareUpdateException
  | FileSystemException, FileSystemException
  | FileSystemNotSupportedException, FileSystemNotSupportedException
  | ReadProfileException, ReadProfileException
  | UpdateProfileException, UpdateProfileException => true
  | _, _ => false
  end.

(** Direct base class inside the modelled hierarchy ([None]: the base is
    [Exception] or a built-in outside it).  [ReadProfileException] and
    [UpdateProfileException] derive from [XBeeException] in this module; the
    other edges are those of the imported exception modules. *)
Definition base_class (c : exn_class) : option exn_class :=
  match c with
  | TimeoutException | ATCommandException | InvalidOperatingModeException
  | FirmwareUpdateException | FileSystemException
  | ReadProfileException | UpdateProfileException => Some XBeeException
  | FileSystemNotSupportedException => Some FileSystemException
  | _ => None
  end.

(** [issubclass(c, b)]: the hierarchy has depth two. *)
Definition issubclass (c b : exn_class) : bool :=
  exn_class_eqb c b
  || match base_class c with
     | Some c1 =>
         exn_class_eqb c1 b
         || match base_class c1 with
            | Some c2 => exn_class_eqb c2 b
            | None => false
            end
     | None => false
     end.

(** A raised exception: its class and [str(exc)]. *)
Record exn := Exn { exn_cls : exn_class; exn_msg : string }.

Definition isinstance (e : exn) (b : exn_class) : bool :=
  issubclass (exn_cls e) b.

(** Outcome of evaluating a Python expression or statement. *)
Inductive result (A : Type) :=
| Ok (a : A)
| Raise (e : exn).
Arguments Ok {A} a.
Arguments Raise {A} e.

(** The values a setting payload can take: a [bytearray], a [str] or [None]. *)
Inductive value :=
| Bytes (b : list Z)
| Str (s : string)
| NoneV.

(** Truth value of a payload ([if v:]). *)
Definition truthy (v : value) : bool :=
  match v with
  | Bytes [] | Str EmptyString | NoneV => false
  | _ => true
  end.

End Py.

(* ===================================================================== *)
(** * Setting codec: [XBeeSettingType], [XBeeSettingFormat],
      [XBeeProfileSetting] *)
(* ===================================================================== *)

Module XBeeSettingType.

Inductive t := NUMBER | COMBO | TEXT | BUTTON | NO_TYPE.

Definition all : list t := [NUMBER; COMBO; TEXT; BUTTON; NO_TYPE].

Definition tag (x : t) : string :=
  match x with
  | NUMBER => "number" | COMBO => "combo" | TEXT => "text"
  | BUTTON => "button" | NO_TYPE => "none"
  end.

(** [XBeeSettingType.get(tag)]; the tag is an element text, hence possibly
    [None], which matches no member. *)
Definition get (tg : option string) : option t :=
  match tg with
  | Some s => find (fun x => String.eqb (tag x) s) all
  | None => None
  end.

End XBeeSettingType.

Module XBeeSettingFormat.

Inductive t := HEX | ASCII | IPV4 | IPV6 | PHONE | NO_FORMAT.

Definition all : list t := [HEX; ASCII; IPV4; IPV6; PHONE; NO_FORMAT].

Definition tag (x : t) : string :=
  match x with
  | HEX => "HEX" | ASCII => "ASCII" | IPV4 => "IPV4"
  | IPV6 => "IPV6" | PHONE => "PHONE" | NO_FORMAT => "none"
  end.

Definition get (tg : option string) : option t :=
  match tg with
  | Some s => find (fun x => String.eqb (tag x) s) all
  | None => None
  end.

End XBeeSettingFormat.

Module Codec.
Import Py.

Definition _IPV4_SEPARATOR : ascii := ".".
Definition _IPV6_SEPARATOR : ascii := ":".

(** Modelled from the spec: [utils.hex_string_to_bytes] lives in the utility
    module, outside this file.  The codec table says the raw text is decoded
    "as a hexadecimal string": two hexadecimal digits per byte. *)
Fixpoint hex_pairs (s : string) : option (list Z) :=
  match s with
  | EmptyString => Some []
  | String a (String b r) =>
      match digit 16 a, digit 16 b, hex_pairs r with
      | Some h, Some l, Some t => Some (16 * h + l :: t)
      | _, _, _ => None
      end
  | String _ EmptyString => None
  end.

Definition hex_string_to_bytes (v : option string) : result value :=
  match v with
  | None => Raise (Exn TypeError "hex string expected")
  | Some s =>
      match hex_pairs s with
      | Some b => Ok (Bytes b)
      | None => Raise (Exn ValueError "invalid hexadecimal string")
      end
  end.

(** [bytearray(v, 'utf8')]. *)
Definition bytearray_utf8 (v : option string) : result value :=
  match v with
  | None => Raise (Exn TypeError "encoding without a string argument")
  | Some s => Ok (Bytes (utf8 s))
  end.

(** [list(map(int, tokens))]. *)
Fixpoint map_int (tokens : list string) : option (list Z) :=
  match tokens with
  | [] => Some []
  | tk :: r =>
      match int 10 tk, map_int r with
      | Some n, Some t => Some (n :: t)
      | _, _ => None
      end
  end.

(** [bytearray(octets)]: every item must be in [range(0, 256)]. *)
Definition bytearray_of_ints (l : list Z) : result value :=
  if forallb (fun n => (0 <=? n) && (n <? 256)) l then Ok (Bytes l)
  else Raise (Exn ValueError "byte must be in range(0, 256)").

Definition ipv4_to_bytes (v : option string) : result value :=
  match v with
  | None => Raise (Exn AttributeError "'NoneType' object has no attribute 'split'")
  | Some s =>
      match map_int (split _IPV4_SEPARATOR s) with
      | Some octets => bytearray_of_ints octets
      | None => Raise (Exn ValueError "invalid literal for int() with base 10")
      end
  end.

Definition raw_value (v : option string) : value :=
  match v with
  | Some s => Str s
  | None => NoneV
  end.

(** [XBeeProfileSetting._setting_value_to_bytearray].  The type and the format
    come from the [get] look-ups and so can be [None]. *)
Definition _setting_value_to_bytearray
  (ty : option XBeeSettingType.t) (fmt : option XBeeSettingFormat.t)
  (v : option string) : result value :=
  match ty with
  | Some XBeeSettingType.COMBO | Some XBeeSettingType.NUMBER =>
      hex_string_to_bytes v
  | Some XBeeSettingType.TEXT =>
      match fmt with
      | Some XBeeSettingFormat.ASCII | Some XBeeSettingFormat.PHONE =>
          bytearray_utf8 v
      | Some XBeeSettingFormat.HEX | Some XBeeSettingFormat.NO_FORMAT =>
          hex_string_to_bytes v
      | Some XBeeSettingFormat.IPV4 => ipv4_to_bytes v
      | Some XBeeSettingFormat.IPV6 =>
          match v with
          | None => Raise (Exn TypeError "argument of type 'NoneType' is not iterable")
          | Some s =>
              if contains _IPV6_SEPARATOR s then bytearray_utf8 v
              else Ok (raw_value v)
          end
      | None => Ok (raw_value v)
      end
  | Some XBeeSettingType.BUTTON | Some XBeeSettingType.NO_TYPE =>
      Ok (Bytes [])
  | None => Ok (raw_value v)
  end.

(** [XBeeProfileSetting]: the constructor stores its arguments and the encoded
    payload. *)
Record XBeeProfileSetting := {
  name : string;
  type : option XBeeSettingType.t;
  format : option XBeeSettingFormat.t;
  value : option string;
  bytearray_value : Py.value
}.

Definition new_XBeeProfileSetting
  (nm : string) (ty : option XBeeSettingType.t)
  (fmt : option XBeeSettingFormat.t) (v : option string)
  : result XBeeProfileSetting :=
  match _setting_value_to_bytearray ty fmt v with
  | Ok b => Ok {| name := nm; type := ty; format := fmt; value := v;
                  bytearray_value := b |}
  | Raise e => Raise e
  end.

End Codec.

(* ===================================================================== *)
(** * [XBeeProfile]: firmware descriptor parsing and release *)
(* ===================================================================== *)

Module Archive.
Import Py Codec.

(** ** Region lock *)

(** [int(element.text)] on an optional element: [find] gives [None] when the
    element is absent, and the text of an empty element is [None]. *)
Definition int_of_element (el : option (option string)) : result (option Z) :=
  match el with
  | None => Ok None
  | Some None => Raise (Exn TypeError "int() argument must be a string")
  | Some (Some txt) =>
      match int 10 txt with
      | Some n => Ok (Some n)
      | None => Raise (Exn ValueError "invalid literal for int() with base 10")
      end
  end.

(** The region-lock block of [_parse_xml_firmware_file].  [render] stands for
    [utils.hex_to_string(utils.int_to_bytes(v, num_bytes=2), pretty=False)],
    whose code is in the utility module. *)
Definition resolve_region_lock (render : Z -> string) (firmware_version : Z)
  (region_lock : option Z) : result (option Z) :=
  match region_lock with
  | Some r =>
      if r =? 99 then
        let fw_version_str := render firmware_version in
        if negb (Nat.eqb (String.length fw_version_str) 4) then Ok (Some 0)
        else
          match substring 1 1 fw_version_str with
          | String c EmptyString =>
              match int_base0_char c with
              | Some n => Ok (Some n)
              | None =>
                  Raise (Exn ValueError "invalid literal for int() with base 0")
              end
          | _ => Raise (Exn ValueError "invalid literal for int() with base 0")
          end
      else Ok (Some r)
  | None => Ok None
  end.

Definition parse_region_lock (render : Z -> string) (firmware_version : Z)
  (element : option (option string)) : result (option Z) :=
  match int_of_element element with
  | Ok r => resolve_region_lock render firmware_version r
  | Raise e => Raise e
  end.

(** Modelled from the spec: [utils.int_to_bytes] and [utils.hex_to_string] are
    not part of this file.  The firmware version is rendered "as a fixed
    2-byte hex string": its big-endian bytes, padded on the left to two
    bytes, two upper-case hexadecimal digits per byte.  A version above
    0xFFFF takes more than two bytes, which is the case the length test of
    the parser is there for. *)
Fixpoint be_bytes (fuel : nat) (n : Z) (acc : list Z) : list Z :=
  match fuel with
  | O => acc
  | S f =>
      let acc' := Z.land n 255 :: acc in
      if Z.shiftr n 8 =? 0 then acc' else be_bytes f (Z.shiftr n 8) acc'
  end.

Definition int_to_bytes (n : Z) (num_bytes : nat) : list Z :=
  let b := be_bytes (S (Z.to_nat (Z.log2 n))) n [] in
  repeat 0 (num_bytes - List.length b) ++ b.

Definition hex_char (d : Z) : ascii :=
  ascii_of_N (Z.to_N (if d <? 10 then 48 + d else 55 + d)).

Fixpoint hex_to_string (b : list Z) : string :=
  match b with
  | [] => EmptyString
  | x :: r => String (hex_char (x / 16)) (String (hex_char (x mod 16))
                                            (hex_to_string r))
  end.

Definition fw_version_str (firmware_version : Z) : string :=
  hex_to_string (int_to_bytes firmware_version 2).

(** ** AT settings *)

(** A [setting] node of the firmware descriptor as the parser reads it: the
    [command] attribute and the children [control_type], [format] and
    [default_value], each absent ([None]) or present with its text. *)
Record firmware_setting := {
  fs_command : option string;
  fs_control_type : option (option string);
  fs_format : option (option string);
  fs_default_value : option (option string)
}.

Definition opt_string_eqb (a b : option string) : bool :=
  match a, b with
  | Some x, Some y => String.eqb x y
  | None, None => true
  | _, _ => false
  end.

Definition setting_type_of (e : firmware_setting) : option XBeeSettingType.t :=
  match fs_control_type e with
  | None => Some XBeeSettingType.NO_TYPE
  | Some txt => XBeeSettingType.get txt
  end.

Definition setting_format_of (e : firmware_setting)
  : option XBeeSettingFormat.t :=
  match fs_format e with
  | None => Some XBeeSettingFormat.NO_FORMAT
  | Some txt => XBeeSettingFormat.get txt
  end.

(** [_raw_settings]: command attribute and element text of each profile
    setting, in document order. *)
Definition raw_settings := list (option string * option string).

(** [_profile_settings]: settings by upper-case name, in insertion order. *)
Definition profile_settings := list (string * XBeeProfileSetting).

(** Body of the test [firmware_setting_element.get("command") ==
    setting_element]: build the setting, log it (the log arguments read
    [type.description] and [format.description]) and store it by name. *)
Definition add_profile_setting (setting_element setting_value : option string)
  (e : firmware_setting) (acc : profile_settings) : result profile_settings :=
  let setting_type := setting_type_of e in
  let setting_format := setting_format_of e in
  match setting_element with
  | None =>
      Raise (Exn AttributeError "'NoneType' object has no attribute 'upper'")
  | Some c =>
      match new_XBeeProfileSetting (upper c) setting_type setting_format
              setting_value with
      | Raise x => Raise x
      | Ok ps =>
          match type ps, format ps with
          | Some _, Some _ => Ok (dict_set String.eqb acc (name ps) ps)
          | _, _ =>
              Raise (Exn AttributeError
                       "'NoneType' object has no attribute 'description'")
          end
      end
  end.

(** Inner loop: [for firmware_setting_element in root.findall(".//setting")]. *)
Fixpoint match_firmware_settings (setting_element setting_value : option string)
  (elements : list firmware_setting) (acc : profile_settings)
  : result profile_settings :=
  match elements with
  | [] => Ok acc
  | e :: r =>
      if opt_string_eqb (fs_command e) setting_element then
        match add_profile_setting setting_element setting_value e acc with
        | Ok acc' =>
            match_firmware_settings setting_element setting_value r acc'
        | Raise x => Raise x
        end
      else match_firmware_settings setting_element setting_value r acc
  end.

(** Outer loop: [for setting_element, setting_value in
    self._raw_settings.items()]. *)
Fixpoint parse_at_settings_from (raw : raw_settings)
  (elements : list firmware_setting) (acc : profile_settings)
  : result profile_settings :=
  match raw with
  | [] => Ok acc
  | (k, v) :: r =>
      match match_firmware_settings k v elements acc with
      | Ok acc' => parse_at_settings_from r elements acc'
      | Raise x => Raise x
      end
  end.

(** The "Parse AT settings" block of [_parse_xml_firmware_file], starting from
    the empty [_profile_settings] of the constructor. *)
Definition parse_at_settings (raw : raw_settings)
  (elements : list firmware_setting) : result profile_settings :=
  parse_at_settings_from raw elements [].

(** What a stored setting owes to the raw pair and the catalog entry it was
    built from. *)
Definition built_from (raw : raw_settings) (elements : list firmware_setting)
  (entry : string * XBeeProfileSetting) : Prop :=
  exists c v e,
    In (Some c, v) raw /\ In e elements /\ fs_command e = Some c
    /\ fst entry = upper c /\ name (snd entry) = upper c
    /\ value (snd entry) = v
    /\ type (snd entry) = setting_type_of e
    /\ format (snd entry) = setting_format_of e
    /\ (fs_control_type e = None ->
        type (snd entry) = Some XBeeSettingType.NO_TYPE)
    /\ (fs_format e = None ->
        format (snd entry) = Some XBeeSettingFormat.NO_FORMAT).

(** Does the catalog hold an entry for this command? *)
Definition has_match (elements : list firmware_setting)
  (kv : option string * option string) : bool :=
  existsb (fun e => opt_string_eqb (fs_command e) (fst kv)) elements.

(** ** Release of the scratch directory *)

(** Attributes set on the instance by [__init__]. *)
Definition instance_attributes : list string :=
  ["_profile_file"; "_profile_folder"; "_profile_xml_file";
   "_firmware_xml_file"; "_bootloader_file"; "_version";
   "_flash_firmware_option"; "_description"; "_reset_settings";
   "_raw_settings"; "_profile_settings"; "_file_system_path";
   "_remote_file_system_image"; "_cellular_firmware_files";
   "_cellular_bootloader_files"; "_firmware_version"; "_hardware_version";
   "_compatibility_number"; "_region_lock"; "_has_local_filesystem";
   "_has_remote_filesystem"; "_has_local_firmware"; "_has_remote_firmware";
   "_protocol"].

(** Methods and properties of the class. *)
Definition class_attributes : list string :=
  ["__init__"; "__del__"; "_parse_xml_profile_file"; "_uncompress_profile";
   "_initialize_profile"; "_check_profile_integrity";
   "_parse_xml_firmware_file"; "get_setting_default_value";
   "_throw_read_exception"; "profile_file"; "version";
   "flash_firmware_option"; "description"; "reset_settings";
   "has_local_filesystem"; "has_remote_filesystem"; "has_filesystem";
   "has_local_firmware_files"; "has_remote_firmware_files";
   "has_firmware_files"; "profile_settings"; "firmware_version";
   "hardware_version"; "compatibility_number"; "region_lock";
   "firmware_description_file"; "file_system_path";
   "remote_file_system_image"; "bootloader_file"; "protocol"].

(** [hasattr(self, a)] for an initialised [XBeeProfile]. *)
Definition hasattr (a : string) : bool :=
  existsb (String.eqb a) (instance_attributes ++ class_attributes).

(** The disk, as the set of directories that exist. *)
Definition disk := list string.

Definition isdir (fs : disk) (d : string) : bool := existsb (String.eqb d) fs.

Definition rmtree (fs : disk) (d : string) : disk :=
  filter (fun x => negb (String.eqb x d)) fs.

(** The first step of [_uncompress_profile]: [tempfile.mkdtemp()] creates the
    directory [d] and the profile records it in [_profile_folder]. *)
Definition mkdtemp_step (d : string) (fs : disk) : option string * disk :=
  (Some d, d :: fs).

(** [XBeeProfile.__del__], on the value of [_profile_folder]. *)
Definition __del__ (_profile_folder : option string) (fs : disk) : disk :=
  if negb (hasattr "profile_folder") then fs
  else
    match _profile_folder with
    | Some d => if isdir fs d then rmtree fs d else fs
    | None => fs
    end.

End Archive.

(* ===================================================================== *)
(** * Sample inputs *)
(* ===================================================================== *)

Module Samples.
Import Archive.

(** A catalog with a complete entry for NI and a bare entry for D7, and a
    profile that sets NI, ID and D7. *)
Definition catalog_NI : list firmware_setting :=
  [{| fs_command := Some "NI"; fs_control_type := Some (Some "text");
      fs_format := Some (Some "ASCII"); fs_default_value := Some (Some " ") |};
   {| fs_command := Some "D7"; fs_control_type := None;
      fs_format := None; fs_default_value := Some (Some "1") |}].

Definition raw_NI_ID : raw_settings :=
  [(Some "NI", Some "node"); (Some "ID", Some "7FFF"); (Some "D7", Some "1")].

End Samples.

(* ===================================================================== *)
(** * [_ProfileUpdater] *)
(* ===================================================================== *)

Module FlashFirmwareOption.

Inductive t := FLASH_ALWAYS | FLASH_DIFFERENT | DONT_FLASH.

Definition code (x : t) : Z :=
  match x with
  | FLASH_ALWAYS => 0 | FLASH_DIFFERENT => 1 | DONT_FLASH => 2
  end.

Definition get (c : Z) : option t :=
  find (fun x => code x =? c) [FLASH_ALWAYS; FLASH_DIFFERENT; DONT_FLASH].

End FlashFirmwareOption.

Module FirmwareBaudrate.

Definition table : list (Z * Z) :=
  [(0, 1200); (1, 2400); (2, 4800); (3, 9600); (4, 19200); (5, 38400);
   (6, 57600); (7, 115200); (8, 230400); (9, 460800); (10, 921600)].

(** [FirmwareBaudrate.get(index).baudrate] for an integer index. *)
Definition get (index : Z) : option Z :=
  option_map snd (find (fun p => fst p =? index) table).

End FirmwareBaudrate.

Module FirmwareParity.

Inductive t := NONE | EVEN | ODD | MARK | SPACE.

Definition get (index : Z) : option t :=
  option_map snd
    (find (fun p => fst p =? index)
       [(0, NONE); (1, EVEN); (2, ODD); (3, MARK); (4, SPACE)]).

End FirmwareParity.

Module FirmwareStopbits.

Inductive t := SB_1 | SB_2 | SB_1_5.

Definition get (index : Z) : option t :=
  option_map snd
    (find (fun p => fst p =? index) [(0, SB_1); (1, SB_2); (2, SB_1_5)]).

End FirmwareStopbits.

Module Updater.
Import Py.

(** ** Constants of the module *)

Definition _ERROR_FILESYSTEM_NOT_SUPPORTED : string :=
  "XBee device does not have file system support".
Definition _ERROR_FIRMWARE_NOT_COMPATIBLE : string :=
  "The XBee profile is not compatible with the device firmware".
Definition _ERROR_HARDWARE_NOT_COMPATIBLE : string :=
  "The XBee profile is not compatible with the device hardware".
Definition _ERROR_OPEN_DEVICE : string := "Error opening XBee device: ".
Definition _ERROR_PROFILE_UNCOMPRESS : string :=
  "Error un-compressing profile file: ".
Definition _ERROR_PROFILE_TEMP_DIR : string :=
  "Error creating temporary directory: ".
Definition _ERROR_READ_REMOTE_PARAMETER : string :=
  "Error reading remote parameter: ".
Definition _ERROR_UPDATE_FILESYSTEM : string :=
  "Error updating XBee filesystem: ".
Definition _ERROR_UPDATE_FILESYSTEM_PROTOCOL_CHANGE : string :=
  "Cannot update the device filesystem as the device protocol has changed and it is no longer reachable".
Definition _ERROR_UPDATE_FIRMWARE : string := "Error updating XBee firmware: ".
Definition _ERROR_UPDATE_SERIAL_PORT : string :=
  "Error re-configuring XBee device serial port: ".
Definition _ERROR_UPDATE_SETTINGS : string := "Error updating XBee settings: ".
Definition _ERROR_UPDATE_SETTINGS_PROTOCOL_CHANGE : string :=
  "Cannot apply profile settings as the device protocol has changed and it is no longer reachable".
Definition _ERROR_UPDATE_TARGET_INFORMATION : string :=
  "Error reading new target information: ".
(** [firmware.ERROR_HARDWARE_VERSION_NOT_SUPPORTED] and
    [filesystem.ERROR_FILESYSTEM_NOT_SUPPORTED] are texts of the imported
    modules. *)
Definition ERROR_HARDWARE_VERSION_NOT_SUPPORTED : string :=
  "XBee hardware version is not supported".
Definition ERROR_FILESYSTEM_NOT_SUPPORTED : string :=
  "The XBee does not support file system".

Definition _PARAMETER_READ_RETRIES : nat := 3.
Definition _PARAMETER_WRITE_RETRIES : nat := 3.

(** [ATStringCommand.X.command] is the two-letter mnemonic [X]. *)
Definition _PARAMETERS_SERIAL_PORT : list string := ["BD"; "NB"; "SB"; "D7"].
Definition _PARAMETERS_CACHE : list string := ["NI"; "CE"; "SM"; "BR"; "MY"].
Definition _PARAMETERS_NETWORK : list string :=
  ["ID"; "CH"; "HP"; "CM"; "BR"; "EE"; "KY"].

Definition _TASK_CONNECT_FILESYSTEM : string :=
  "Connecting with device filesystem".
Definition _TASK_FORMAT_FILESYSTEM : string := "Formatting filesystem".
Definition _TASK_READING_DEVICE_PARAMETERS : string :=
  "Reading device parameters".
Definition _TASK_UPDATE_SETTINGS : string := "Updating XBee settings".

Definition _VALUE_CTS_ON : string := "1".

(** [OperatingMode.AT_MODE.code], [API_MODE.code], [ESCAPED_API_MODE.code]:
    the cleanup block documents 1 and 2 as the API modes, the file-system
    block 0 as the transparent mode. *)
Definition AT_MODE_code : Z := 0.
Definition API_MODE_code : Z := 1.
Definition ESCAPED_API_MODE_code : Z := 2.

Definition mem (s : string) (l : list string) : bool :=
  existsb (String.eqb s) l.

(** ** The profile, as the updater reads it *)

Record XBeeProfile := {
  profile_settings : list (string * Codec.XBeeProfileSetting);
  reset_settings : bool;
  flash_firmware_option : FlashFirmwareOption.t;
  firmware_version : Z;
  hardware_version : option Z;
  has_local_filesystem : bool;
  has_remote_filesystem : bool;
  protocol : Z
}.

Definition has_filesystem (p : XBeeProfile) : bool :=
  has_local_filesystem p || has_remote_filesystem p.

(** ** Update target *)

Inductive target :=
| SerialPort (port : string)
| LocalXBee
| RemoteXBee.

Definition is_str (t : target) : bool :=
  match t with SerialPort _ => true | _ => false end.

Definition is_remote (t : target) : bool :=
  match t with RemoteXBee => true | _ => false end.

(** ** Device handle *)

Record port_parameters := {
  baudrate : Z;
  parity : FirmwareParity.t;
  stopbits : FirmwareStopbits.t;
  rtscts : bool
}.

(** Modelled from the spec: the device handle is a collaborator ("device
    identity accessors (firmware/hardware version, protocol, open/close,
    is-remote), ... auto-apply toggle, serial-framing get/apply"); it is "a
    single mutable shared resource (serial framing, timeout, auto-apply flag,
    open/closed state)".  The record holds what its accessors return. *)
Record device := {
  is_open : bool;
  sync_ops_timeout : Z;
  apply_changes_enabled : bool;
  operating_mode : Z;
  dev_firmware_version : option (list Z);
  dev_hardware_version : option Z;
  dev_protocol : Z;
  serial_settings : port_parameters
}.

Definition set_is_open (b : bool) (d : device) : device :=
  {| is_open := b; sync_ops_timeout := sync_ops_timeout d;
     apply_changes_enabled := apply_changes_enabled d;
     operating_mode := operating_mode d;
     dev_firmware_version := dev_firmware_version d;
     dev_hardware_version := dev_hardware_version d;
     dev_protocol := dev_protocol d; serial_settings := serial_settings d |}.

Definition set_timeout (t : Z) (d : device) : device :=
  {| is_open := is_open d; sync_ops_timeout := t;
     apply_changes_enabled := apply_changes_enabled d;
     operating_mode := operating_mode d;
     dev_firmware_version := dev_firmware_version d;
     dev_hardware_version := dev_hardware_version d;
     dev_protocol := dev_protocol d; serial_settings := serial_settings d |}.

(** The synchronous-operation timeout and the auto-apply flag are settings of
    the handle itself, changed through their setters only: whatever a
    collaborator does to the device, it leaves them as they are. *)
Definition keep_config (old new : device) : device :=
  {| is_open := is_open new; sync_ops_timeout := sync_ops_timeout old;
     apply_changes_enabled := apply_changes_enabled old;
     operating_mode := operating_mode new;
     dev_firmware_version := dev_firmware_version new;
     dev_hardware_version := dev_hardware_version new;
     dev_protocol := dev_protocol new;
     serial_settings := serial_settings new |}.

Definition set_apply_changes (b : bool) (d : device) : device :=
  {| is_open := is_open d; sync_ops_timeout := sync_ops_timeout d;
     apply_changes_enabled := b;
     operating_mode := operating_mode d;
     dev_firmware_version := dev_firmware_version d;
     dev_hardware_version := dev_hardware_version d;
     dev_protocol := dev_protocol d; serial_settings := serial_settings d |}.

(** ** Calls to collaborators, and what the run leaves behind *)

Inductive call :=
| c_open (force_settings : bool)
| c_close
| c_get_parameter (parameter : string)
| c_set_parameter (parameter : string) (v : value)
| c_update_firmware
| c_update_local_firmware (port : string)
| c_apply_settings (pp : port_parameters)
| c_read_device_info
| c_network_clear
| c_network_remove_device
| c_check_fs_support
| c_get_file_manager
| c_fm_format
| c_fm_put_dir
| c_fs_connect
| c_fs_format_filesystem
| c_fs_put_dir
| c_fs_disconnect
| c_update_filesystem_image
| c_mkdtemp
| c_extractall
| c_fill_paths
| c_get_setting_default_value (setting_name : string).

Inductive event :=
| e_call (c : call) (raised : option exn)
| e_progress (task : string) (percent : option Z)
| e_sleep (milliseconds : Z)
| e_set_sync_ops_timeout (t : Z)
| e_enable_apply_changes (b : bool).

(** What a collaborator answers to one call: the exception it raises if any,
    what it does to the device handle, the progress it reports when it was
    given the callback, and its return value. *)
Record response := {
  resp_exn : option exn;
  resp_dev : device -> device;
  resp_progress : list (string * option Z);
  resp_bytes : list Z;
  resp_bool : bool;
  resp_text : option string
}.

(** The collaborators of one run.  [oracle] answers each call from the events
    so far, so that a retry may get a different answer. *)
Record collaborators := {
  oracle : list event -> call -> response;
  determine_protocol : option Z -> Z -> Z;
  device_determine_protocol : option Z -> Z -> Z;
  HardwareVersion_get : Z -> option Z;
  firmware_SUPPORTED_HARDWARE_VERSIONS : list Z;
  filesystem_SUPPORTED_HARDWARE_VERSIONS : list Z;
  DIGI_MESH : Z
}.

(** ** The updater's own fields *)

Record session := {
  _xbee_device : bool;
  _was_connected : bool;
  _device_firmware_version : option Z;
  _device_hardware_version : option Z;
  _protocol_changed_by_fw : bool;
  _protocol_changed_by_settings : bool;
  _xpro_ap : value;
  profile_protocol : Z;
  _profile_folder : bool
}.

Record state := {
  dev : device;
  ses : session;
  trace : list event
}.

(** [_ProfileUpdater.__init__]. *)
Definition init_session (t : target) (p : XBeeProfile) : session :=
  {| _xbee_device := negb (is_str t);
     _was_connected := true;
     _device_firmware_version := None;
     _device_hardware_version := None;
     _protocol_changed_by_fw := false;
     _protocol_changed_by_settings := false;
     _xpro_ap := NoneV;
     profile_protocol := protocol p;
     _profile_folder := false |}.

Definition init_state (t : target) (p : XBeeProfile) (d : device) : state :=
  {| dev := d; ses := init_session t p; trace := [] |}.

(** ** State and exception monad *)

Definition M (A : Type) : Type := state -> result A * state.

Definition ret {A} (a : A) : M A := fun s => (Ok a, s).

Definition raise {A} (e : exn) : M A := fun s => (Raise e, s).

Definition bind {A B} (m : M A) (f : A -> M B) : M B :=
  fun s =>
    match m s with
    | (Ok a, s') => f a s'
    | (Raise e, s') => (Raise e, s')
    end.

Notation "x <- m ;; k" := (bind m (fun x => k))
  (at level 61, m at next level, right associativity).
Notation "m ;; k" := (bind m (fun _ => k))
  (at level 61, right associativity).

(** [try: m except ...: h]: [h e] is the handler of the first clause that
    matches [e], if one does. *)
Definition try_except {A} (m : M A) (h : exn -> option (M A)) : M A :=
  fun s =>
    match m s with
    | (Ok a, s') => (Ok a, s')
    | (Raise e, s') =>
        match h e with
        | Some k => k s'
        | None => (Raise e, s')
        end
    end.

(** [try: m finally: f]. *)
Definition try_finally {A} (m : M A) (f : M unit) : M A :=
  fun s =>
    match m s with
    | (r, s') =>
        match f s' with
        | (Ok _, s'') => (r, s'')
        | (Raise e, s'') => (Raise e, s'')
        end
    end.

Definition gets {A} (f : state -> A) : M A := fun s => (Ok (f s), s).

Definition emit (e : event) : M unit :=
  fun s => (Ok tt, {| dev := dev s; ses := ses s; trace := trace s ++ [e] |}).

Definition modify_dev (f : device -> device) : M unit :=
  fun s => (Ok tt, {| dev := f (dev s); ses := ses s; trace := trace s |}).

Definition modify_ses (f : session -> session) : M unit :=
  fun s => (Ok tt, {| dev := dev s; ses := f (ses s); trace := trace s |}).

Definition when (b : bool) (m : M unit) : M unit := if b then m else ret tt.

Definition on (cls : list exn_class) {A} (k : exn -> M A) (e : exn)
  : option (M A) :=
  if existsb (isinstance e) cls then Some (k e) else None.

Definition UpdateProfileException_ (msg : string) : exn :=
  Exn UpdateProfileException msg.

Definition with_xbee_device (b : bool) (x : session) : session :=
  {| _xbee_device := b; _was_connected := _was_connected x;
     _device_firmware_version := _device_firmware_version x;
     _device_hardware_version := _device_hardware_version x;
     _protocol_changed_by_fw := _protocol_changed_by_fw x;
     _protocol_changed_by_settings := _protocol_changed_by_settings x;
     _xpro_ap := _xpro_ap x; profile_protocol := profile_protocol x;
     _profile_folder := _profile_folder x |}.

Definition with_was_connected (b : bool) (x : session) : session :=
  {| _xbee_device := _xbee_device x; _was_connected := b;
     _device_firmware_version := _device_firmware_version x;
     _device_hardware_version := _device_hardware_version x;
     _protocol_changed_by_fw := _protocol_changed_by_fw x;
     _protocol_changed_by_settings := _protocol_changed_by_settings x;
     _xpro_ap := _xpro_ap x; profile_protocol := profile_protocol x;
     _profile_folder := _profile_folder x |}.

Definition with_device_firmware_version (v : option Z) (x : session)
  : session :=
  {| _xbee_device := _xbee_device x; _was_connected := _was_connected x;
     _device_firmware_version := v;
     _device_hardware_version := _device_hardware_version x;
     _protocol_changed_by_fw := _protocol_changed_by_fw x;
     _protocol_changed_by_settings := _protocol_changed_by_settings x;
     _xpro_ap := _xpro_ap x; profile_protocol := profile_protocol x;
     _profile_folder := _profile_folder x |}.

Definition with_device_hardware_version (v : option Z) (x : session)
  : session :=
  {| _xbee_device := _xbee_device x; _was_connected := _was_connected x;
     _device_firmware_version := _device_firmware_version x;
     _device_hardware_version := v;
     _protocol_changed_by_fw := _protocol_changed_by_fw x;
     _protocol_changed_by_settings := _protocol_changed_by_settings x;
     _xpro_ap := _xpro_ap x; profile_protocol := profile_protocol x;
     _profile_folder := _profile_folder x |}.

Definition with_protocol_changed_by_fw (b : bool) (x : session) : session :=
  {| _xbee_device := _xbee_device x; _was_connected := _was_connected x;
     _device_firmware_version := _device_firmware_version x;
     _device_hardware_version := _device_hardware_version x;
     _protocol_changed_by_fw := b;
     _protocol_changed_by_settings := _protocol_changed_by_settings x;
     _xpro_ap := _xpro_ap x; profile_protocol := profile_protocol x;
     _profile_folder := _profile_folder x |}.

Definition with_protocol_changed_by_settings (b : bool) (x : session)
  : session :=
  {| _xbee_device := _xbee_device x; _was_connected := _was_connected x;
     _device_firmware_version := _device_firmware_version x;
     _device_hardware_version := _device_hardware_version x;
     _protocol_changed_by_fw := _protocol_changed_by_fw x;
     _protocol_changed_by_settings := b;
     _xpro_ap := _xpro_ap x; profile_protocol := profile_protocol x;
     _profile_folder := _profile_folder x |}.

Definition with_xpro_ap (v : value) (x : session) : session :=
  {| _xbee_device := _xbee_device x; _was_connected := _was_connected x;
     _device_firmware_version := _device_firmware_version x;
     _device_hardware_version := _device_hardware_version x;
     _protocol_changed_by_fw := _protocol_changed_by_fw x;
     _protocol_changed_by_settings := _protocol_changed_by_settings x;
     _xpro_ap := v; profile_protocol := profile_protocol x;
     _profile_folder := _profile_folder x |}.

Definition with_profile_protocol (p : Z) (x : session) : session :=
  {| _xbee_device := _xbee_device x; _was_connected := _was_connected x;
     _device_firmware_version := _device_firmware_version x;
     _device_hardware_version := _device_hardware_version x;
     _protocol_changed_by_fw := _protocol_changed_by_fw x;
     _protocol_changed_by_settings := _protocol_changed_by_settings x;
     _xpro_ap := _xpro_ap x; profile_protocol := p;
     _profile_folder := _profile_folder x |}.

Definition with_profile_folder (b : bool) (x : session) : session :=
  {| _xbee_device := _xbee_device x; _was_connected := _was_connected x;
     _device_firmware_version := _device_firmware_version x;
     _device_hardware_version := _device_hardware_version x;
     _protocol_changed_by_fw := _protocol_changed_by_fw x;
     _protocol_changed_by_settings := _protocol_changed_by_settings x;
     _xpro_ap := _xpro_ap x; profile_protocol := profile_protocol x;
     _profile_folder := b |}.

(** Running values of the settings phase: [setting_index],
    [previous_percent], [network_settings_changed],
    [cache_settings_changed]. *)
Record counters := {
  setting_index : Z;
  previous_percent : Z;
  network_settings_changed : bool;
  cache_settings_changed : bool
}.

(** Flags and parameters of [_check_port_settings_changed]. *)
Record port_changes := {
  baudrate_changed : bool;
  parity_changed : bool;
  stop_bits_changed : bool;
  cts_flow_control_changed : bool;
  params : port_parameters
}.

Definition none_has_no (attribute : string) : exn :=
  Exn AttributeError
    (String.append "'NoneType' object has no attribute '"
       (String.append attribute "'")).

(** [int(text, 16)] on a text that may be [None]. *)
Definition int16 (text : option string) : result Z :=
  match text with
  | None => Raise (Exn TypeError "int() can't convert non-string with explicit base")
  | Some s =>
      match int 16 s with
      | Some n => Ok n
      | None => Raise (Exn ValueError "invalid literal for int() with base 16")
      end
  end.

Definition lift {A} (r : result A) : M A := fun s => (r, s).

Definition lift_opt {A} (o : option A) (e : exn) : M A :=
  match o with
  | Some a => ret a
  | None => raise e
  end.

(** The fields of [_ProfileUpdater] that [__init__] sets once and for all,
    with the collaborators of the run. *)
Record _ProfileUpdater := {
  collab : collaborators;
  _target : target;
  _xbee_profile : XBeeProfile;
  (** [self._timeout]: the only constructor call, in [apply_xbee_profile],
      passes the resolved timeout, a number. *)
  _timeout : Z;
  (** Whether a progress callback was given. *)
  _progress_callback : bool
}.

Definition _is_local (self : _ProfileUpdater) : bool := negb (is_remote (_target self)).

(** [self._target] when it is a port name. *)
Definition target_port (self : _ProfileUpdater) : string :=
  match _target self with
  | SerialPort port => port
  | _ => EmptyString
  end.

(** A call to a collaborator: answered by the oracle from the events so far,
    recorded, and raising what the collaborator raises. *)
Definition invoke (self : _ProfileUpdater) (c : call) : M response :=
  fun s =>
    let r := oracle (collab self) (trace s) c in
    let s' := {| dev := keep_config (dev s) (resp_dev r (dev s));
                 ses := ses s;
                 trace := trace s ++ [e_call c (resp_exn r)] |} in
    match resp_exn r with
    | Some e => (Raise e, s')
    | None => (Ok r, s')
    end.

Definition report (p : string * option Z) : event :=
  e_progress (fst p) (snd p).

(** A call that is handed the progress callback: what it reports reaches the
    callback when there is one. *)
Definition invoke_with_progress (self : _ProfileUpdater) (c : call) : M response :=
  fun s =>
    let r := oracle (collab self) (trace s) c in
    let reported := if _progress_callback self then map report (resp_progress r)
                    else [] in
    let s' := {| dev := keep_config (dev s) (resp_dev r (dev s));
                 ses := ses s;
                 trace := trace s ++ reported ++ [e_call c (resp_exn r)] |} in
    match resp_exn r with
    | Some e => (Raise e, s')
    | None => (Ok r, s')
    end.

(** [if self._progress_callback is not None: self._progress_callback(task,
    percent)]. *)
Definition progress (self : _ProfileUpdater) (task : string) (percent : option Z) : M unit :=
  when (_progress_callback self) (emit (e_progress task percent)).

Definition sleep (milliseconds : Z) : M unit := emit (e_sleep milliseconds).

(** [device.open()]: may fail; the device is open when it returns. *)
Definition device_open (self : _ProfileUpdater) (force_settings : bool) : M unit :=
  _ <- invoke self (c_open force_settings) ;;
  modify_dev (set_is_open true).

(** [device.close()]: the device is closed when it returns. *)
Definition device_close : M unit :=
  emit (e_call c_close None) ;;
  modify_dev (set_is_open false).

Definition set_sync_ops_timeout (t : Z) : M unit :=
  emit (e_set_sync_ops_timeout t) ;;
  modify_dev (set_timeout t).

Definition enable_apply_changes (b : bool) : M unit :=
  emit (e_enable_apply_changes b) ;;
  modify_dev (set_apply_changes b).

(** ** Lazy extraction of the profile ([XBeeProfile._uncompress_profile] and
    the accessors that trigger it) *)

Definition _uncompress_profile (self : _ProfileUpdater) : M unit :=
  try_except
    (_ <- invoke self c_mkdtemp ;; modify_ses (with_profile_folder true))
    (on [PermissionError; FileExistsError]
        (fun e => raise (Exn ReadProfileException
                           (String.append _ERROR_PROFILE_TEMP_DIR (exn_msg e))))) ;;
  try_except
    (_ <- invoke self c_extractall ;; ret tt)
    (fun e => Some (raise (Exn ReadProfileException
                             (String.append _ERROR_PROFILE_UNCOMPRESS
                                (exn_msg e))))) ;;
  _ <- invoke self c_fill_paths ;;
  ret tt.

(** [firmware_description_file], [bootloader_file], [file_system_path],
    [remote_file_system_image]. *)
Definition asset_path (self : _ProfileUpdater) : M unit :=
  extracted <- gets (fun s => _profile_folder (ses s)) ;;
  when (negb extracted) (_uncompress_profile self).

(** ** [_read_parameter_with_retries] *)

Fixpoint _read_parameter_with_retries (self : _ProfileUpdater) (parameter : string) (retries : nat)
  : M (list Z) :=
  match retries with
  | O =>
      raise (Exn XBeeException
               (String.append "Timeout reading parameter '"
                  (String.append parameter "'")))
  | S n =>
      try_except
        (r <- invoke self (c_get_parameter parameter) ;; ret (resp_bytes r))
        (on [TimeoutException]
            (fun _ => sleep 200 ;; _read_parameter_with_retries self parameter n))
  end.

(** ** [_set_parameter_with_retries] *)

Fixpoint set_parameter_loop (self : _ProfileUpdater) (parameter : string)
  (v : value) (retries : nat) (msg : string) : M unit :=
  match retries with
  | O =>
      raise (Exn XBeeException
               (String.append "Error setting parameter '"
                  (String.append parameter (String.append "': " msg))))
  | S n =>
      try_except
        (_ <- invoke self (c_set_parameter parameter v) ;; ret tt)
        (on [TimeoutException; ATCommandException]
            (fun e =>
               when (negb (Nat.eqb n 0))
                 (sleep (if _is_local self then 200 else 5000)) ;;
               set_parameter_loop self parameter v n (exn_msg e)))
  end.

Definition _set_parameter_with_retries (self : _ProfileUpdater) (parameter : string) (v : value)
  (retries : nat) : M unit :=
  set_parameter_loop self parameter v retries "".

(** ** [_read_device_parameters] *)

(** "Sanitize firmware version": [int(utils.hex_to_string(v).replace(" ",
    ""), 16)]. *)
Definition sanitize_firmware_version (v : option (list Z)) : result Z :=
  match v with
  | None => Raise (Exn TypeError "'NoneType' object is not iterable")
  | Some b => int16 (Some (Archive.hex_to_string b))
  end.

Definition _read_device_parameters (self : _ProfileUpdater) : M unit :=
  progress self _TASK_READING_DEVICE_PARAMETERS (Some 0) ;;
  fw <- (if _is_local self then
           opened <- gets (fun s => is_open (dev s)) ;;
           when (negb opened)
             (modify_ses (with_was_connected false) ;;
              try_except (device_open self false)
                (on [XBeeException]
                    (fun e => raise (UpdateProfileException_
                                       (String.append _ERROR_OPEN_DEVICE
                                          (exn_msg e)))))) ;;
           fw <- gets (fun s => dev_firmware_version (dev s)) ;;
           hw <- gets (fun s => dev_hardware_version (dev s)) ;;
           modify_ses (with_device_hardware_version hw) ;;
           ret fw
         else
           try_except
             (fw <- _read_parameter_with_retries self "VR" _PARAMETER_READ_RETRIES ;;
              hv <- _read_parameter_with_retries self "HV" _PARAMETER_READ_RETRIES ;;
              code <- lift_opt (hd_error hv)
                        (Exn IndexError "bytearray index out of range") ;;
              modify_ses (with_device_hardware_version
                            (HardwareVersion_get (collab self) code)) ;;
              ret (Some fw))
             (on [XBeeException]
                 (fun e => raise (UpdateProfileException_
                                    (String.append _ERROR_READ_REMOTE_PARAMETER
                                       (exn_msg e)))))) ;;
  v <- lift (sanitize_firmware_version fw) ;;
  modify_ses (with_device_firmware_version (Some v)) ;;
  hw <- gets (fun s => _device_hardware_version (ses s)) ;;
  _ <- lift_opt hw (none_has_no "code") ;;
  ret tt.

(** ** [_update_firmware] *)

Definition _update_firmware (self : _ProfileUpdater) : M unit :=
  try_except
    (has_device <- gets (fun s => _xbee_device (ses s)) ;;
     asset_path self ;;
     asset_path self ;;
     _ <- invoke_with_progress self
            (if has_device then c_update_firmware
             else c_update_local_firmware (target_port self)) ;;
     ret tt)
    (on [FirmwareUpdateException]
        (fun e => raise (UpdateProfileException_
                           (String.append _ERROR_UPDATE_FIRMWARE (exn_msg e))))).

(** ** [_check_port_settings_changed] *)

Definition with_baudrate (b : Z) (c : port_changes) : port_changes :=
  {| baudrate_changed := true; parity_changed := parity_changed c;
     stop_bits_changed := stop_bits_changed c;
     cts_flow_control_changed := cts_flow_control_changed c;
     params := {| baudrate := b; parity := parity (params c);
                  stopbits := stopbits (params c);
                  rtscts := rtscts (params c) |} |}.

Definition with_parity (p : FirmwareParity.t) (c : port_changes)
  : port_changes :=
  {| baudrate_changed := baudrate_changed c; parity_changed := true;
     stop_bits_changed := stop_bits_changed c;
     cts_flow_control_changed := cts_flow_control_changed c;
     params := {| baudrate := baudrate (params c); parity := p;
                  stopbits := stopbits (params c);
                  rtscts := rtscts (params c) |} |}.

Definition with_stopbits (b : FirmwareStopbits.t) (c : port_changes)
  : port_changes :=
  {| baudrate_changed := baudrate_changed c;
     parity_changed := parity_changed c; stop_bits_changed := true;
     cts_flow_control_changed := cts_flow_control_changed c;
     params := {| baudrate := baudrate (params c);
                  parity := parity (params c); stopbits := b;
                  rtscts := rtscts (params c) |} |}.

Definition with_rtscts (b : bool) (c : port_changes) : port_changes :=
  {| baudrate_changed := baudrate_changed c;
     parity_changed := parity_changed c;
     stop_bits_changed := stop_bits_changed c;
     cts_flow_control_changed := true;
     params := {| baudrate := baudrate (params c);
                  parity := parity (params c);
                  stopbits := stopbits (params c); rtscts := b |} |}.

Definition baudrate_of (text : option string) : result Z :=
  match int16 text with
  | Ok n =>
      match FirmwareBaudrate.get n with
      | Some b => Ok b
      | None => Raise (none_has_no "baudrate")
      end
  | Raise e => Raise e
  end.

Definition parity_of (text : option string) : result FirmwareParity.t :=
  match int16 text with
  | Ok n =>
      match FirmwareParity.get n with
      | Some b => Ok b
      | None => Raise (none_has_no "parity")
      end
  | Raise e => Raise e
  end.

Definition stopbits_of (text : option string) : result FirmwareStopbits.t :=
  match int16 text with
  | Ok n =>
      match FirmwareStopbits.get n with
      | Some b => Ok b
      | None => Raise (none_has_no "stop_bits")
      end
  | Raise e => Raise e
  end.

Definition opt_eqb (a : option string) (b : string) : bool :=
  match a with
  | Some x => String.eqb x b
  | None => false
  end.

(** One round of the loop over the profile settings. *)
Definition port_setting (setting : Codec.XBeeProfileSetting)
  (c : port_changes) : result port_changes :=
  let nm := upper (Codec.name setting) in
  if mem nm _PARAMETERS_SERIAL_PORT then
    if String.eqb nm "BD" then
      match baudrate_of (Codec.value setting) with
      | Ok b => Ok (with_baudrate b c)
      | Raise e => Raise e
      end
    else if String.eqb nm "NB" then
      match parity_of (Codec.value setting) with
      | Ok p => Ok (with_parity p c)
      | Raise e => Raise e
      end
    else if String.eqb nm "SB" then
      match stopbits_of (Codec.value setting) with
      | Ok b => Ok (with_stopbits b c)
      | Raise e => Raise e
      end
    else if String.eqb nm "D7" then
      Ok (with_rtscts (opt_eqb (Codec.value setting) _VALUE_CTS_ON) c)
    else Ok c
  else Ok c.

Fixpoint port_settings (l : list (string * Codec.XBeeProfileSetting))
  (c : port_changes) : result port_changes :=
  match l with
  | [] => Ok c
  | (_, setting) :: r =>
      match port_setting setting c with
      | Ok c' => port_settings r c'
      | Raise e => Raise e
      end
  end.

(** [self._xbee_profile.get_setting_default_value(name)]: re-reads the
    firmware descriptor. *)
Definition get_setting_default_value (self : _ProfileUpdater) (setting_name : string)
  : M (option string) :=
  r <- invoke self (c_get_setting_default_value setting_name) ;;
  ret (resp_text r).

Definition port_defaults (self : _ProfileUpdater) (c : port_changes) : M port_changes :=
  c1 <- (if baudrate_changed c then ret c
         else d <- get_setting_default_value self "BD" ;;
              b <- lift (baudrate_of d) ;; ret (with_baudrate b c)) ;;
  c2 <- (if parity_changed c1 then ret c1
         else d <- get_setting_default_value self "NB" ;;
              p <- lift (parity_of d) ;; ret (with_parity p c1)) ;;
  c3 <- (if stop_bits_changed c2 then ret c2
         else d <- get_setting_default_value self "SB" ;;
              b <- lift (stopbits_of d) ;; ret (with_stopbits b c2)) ;;
  ret (if cts_flow_control_changed c3 then c3 else with_rtscts true c3).

Definition _check_port_settings_changed (self : _ProfileUpdater) : M unit :=
  pp <- gets (fun s => serial_settings (dev s)) ;;
  c <- lift (port_settings (profile_settings (_xbee_profile self))
               {| baudrate_changed := false; parity_changed := false;
                  stop_bits_changed := false;
                  cts_flow_control_changed := false; params := pp |}) ;;
  c <- (if reset_settings (_xbee_profile self) || is_str (_target self)
        then port_defaults self c else ret c) ;;
  when (baudrate_changed c || parity_changed c || stop_bits_changed c
        || cts_flow_control_changed c)
    (try_except
       (device_close ;;
        _ <- invoke self (c_apply_settings (params c)) ;;
        device_open self false)
       (on [XBeeException; SerialException]
           (fun e => raise (UpdateProfileException_
                              (String.append _ERROR_UPDATE_SERIAL_PORT
                                 (exn_msg e)))))).

(** ** Protocol change predictions *)

Definition _check_protocol_changed_by_fw (self : _ProfileUpdater) : M bool :=
  orig_protocol <- gets (fun s => dev_protocol (dev s)) ;;
  let new_protocol :=
    determine_protocol (collab self) (hardware_version (_xbee_profile self))
      (firmware_version (_xbee_profile self)) in
  ret (negb (orig_protocol =? new_protocol)
       && (FlashFirmwareOption.code (flash_firmware_option (_xbee_profile self)) <? 2)).

Definition _check_protocol_changed_by_settings (self : _ProfileUpdater) : M bool :=
  p <- gets (fun s => profile_protocol (ses s)) ;;
  when (p =? DIGI_MESH (collab self))
    (modify_ses (with_profile_protocol
                   (device_determine_protocol (collab self) (hardware_version (_xbee_profile self))
                      (firmware_version (_xbee_profile self))))) ;;
  current <- gets (fun s => dev_protocol (dev s)) ;;
  p' <- gets (fun s => profile_protocol (ses s)) ;;
  ret (negb (current =? p')
       && (FlashFirmwareOption.code (flash_firmware_option (_xbee_profile self)) <? 2)).

(** ** [_update_device_settings] *)

Definition next_setting (name : string) (c : counters) : counters :=
  {| setting_index := setting_index c + 1;
     previous_percent := previous_percent c;
     network_settings_changed :=
       network_settings_changed c || mem name _PARAMETERS_NETWORK;
     cache_settings_changed :=
       cache_settings_changed c || mem name _PARAMETERS_CACHE |}.

Definition next_index (c : counters) : counters :=
  {| setting_index := setting_index c + 1;
     previous_percent := previous_percent c;
     network_settings_changed := network_settings_changed c;
     cache_settings_changed := cache_settings_changed c |}.

Definition with_previous_percent (p : Z) (c : counters) : counters :=
  {| setting_index := setting_index c;
     previous_percent := p;
     network_settings_changed := network_settings_changed c;
     cache_settings_changed := cache_settings_changed c |}.

Definition all_changed (c : counters) : counters :=
  {| setting_index := setting_index c;
     previous_percent := previous_percent c;
     network_settings_changed := true;
     cache_settings_changed := true |}.

(** [percent = setting_index * 100 // num_settings], reported when there is a
    callback and it differs from [previous_percent]. *)
Definition percent_of (num_settings : Z) (c : counters) : Z :=
  setting_index c * 100 / num_settings.

Definition report_step (self : _ProfileUpdater) (num_settings : Z) (c : counters) : M counters :=
  let percent := percent_of num_settings c in
  if _progress_callback self && negb (percent =? previous_percent c) then
    emit (e_progress _TASK_UPDATE_SETTINGS (Some percent)) ;;
    ret (with_previous_percent percent c)
  else ret c.

(** The restore-defaults step. *)
Definition reset_step (self : _ProfileUpdater) (num_settings : Z) (c : counters) : M counters :=
  c <- report_step self num_settings c ;;
  _set_parameter_with_retries self "RE" (Bytes []) _PARAMETER_WRITE_RETRIES ;;
  when (_is_local self)
    (modify_ses (with_xpro_ap (Bytes [AT_MODE_code])) ;;
     mode <- gets (fun s => operating_mode (dev s)) ;;
     _set_parameter_with_retries self "AP" (Bytes [mode])
       _PARAMETER_WRITE_RETRIES) ;;
  ret (all_changed (next_index c)).

(** [for setting in self._xbee_profile.profile_settings.values()]. *)
Fixpoint settings_loop (self : _ProfileUpdater) (num_settings : Z)
  (l : list (string * Codec.XBeeProfileSetting)) (c : counters) : M counters :=
  match l with
  | [] => ret c
  | (_, setting) :: r =>
      c <- report_step self num_settings c ;;
      let name := upper (Codec.name setting) in
      (if _is_local self && String.eqb name "AP" then
         modify_ses (with_xpro_ap (Codec.bytearray_value setting))
       else
         _set_parameter_with_retries self name (Codec.bytearray_value setting)
           _PARAMETER_WRITE_RETRIES) ;;
      settings_loop self num_settings r (next_setting name c)
  end.

(** "Write settings": the [WR] step. *)
Definition write_step (self : _ProfileUpdater) (num_settings : Z) (c : counters) : M counters :=
  c <- report_step self num_settings c ;;
  _set_parameter_with_retries self "WR" (Bytes []) _PARAMETER_WRITE_RETRIES ;;
  ret (next_index c).

(** "Apply changes": the [AC] step, retried. *)
Fixpoint apply_changes_loop (self : _ProfileUpdater) (retries : nat) : M unit :=
  match retries with
  | O => ret tt
  | S n =>
      try_except
        (_set_parameter_with_retries self "AC" (Bytes []) _PARAMETER_WRITE_RETRIES)
        (on [XBeeException]
            (fun e => if Nat.eqb n 0 then raise e else apply_changes_loop self n))
  end.

Definition apply_step (self : _ProfileUpdater) (num_settings : Z) (c : counters) : M counters :=
  _ <- report_step self num_settings c ;;
  apply_changes_loop self _PARAMETER_READ_RETRIES ;;
  ret c.

(** [num_settings]. *)
Definition total_steps (self : _ProfileUpdater) : Z :=
  Z.of_nat (List.length (profile_settings (_xbee_profile self))) + 2
  + (if reset_settings (_xbee_profile self) || is_str (_target self) then 1 else 0).

(** The body of the [try] of [_update_device_settings], up to "Write
    settings": first report, restore-defaults step, settings loop and the
    [WR] step. *)
Definition queue_settings (self : _ProfileUpdater) : M counters :=
  let c := {| setting_index := 1; previous_percent := 0;
              network_settings_changed := false;
              cache_settings_changed := false |} in
  progress self _TASK_UPDATE_SETTINGS (Some 0) ;;
  c <- (if reset_settings (_xbee_profile self) || is_str (_target self)
        then reset_step self (total_steps self) c else ret c) ;;
  c <- settings_loop self (total_steps self)
         (profile_settings (_xbee_profile self)) c ;;
  write_step self (total_steps self) c.

(** The whole body of that [try]: the steps above, then "Apply changes". *)
Definition write_settings (self : _ProfileUpdater) : M counters :=
  c <- queue_settings self ;;
  apply_step self (total_steps self) c.

(** "Read cache settings again". *)
Fixpoint read_device_info_loop (self : _ProfileUpdater) (retries : nat) : M unit :=
  match retries with
  | O => ret tt
  | S n =>
      try_except
        (_ <- invoke self c_read_device_info ;; ret tt)
        (on [XBeeException]
            (fun e =>
               if Nat.eqb n 0 then
                 raise (UpdateProfileException_
                          (String.append _ERROR_UPDATE_TARGET_INFORMATION
                             (exn_msg e)))
               else
                 sleep (if _is_local self then 200 else 5000) ;;
                 read_device_info_loop self n))
  end.

Definition _update_device_settings (self : _ProfileUpdater) : M unit :=
  let n := List.length (profile_settings (_xbee_profile self)) in
  if Nat.eqb n 0 && negb (reset_settings (_xbee_profile self))
     && negb (is_str (_target self))
  then ret tt
  else
    by_fw <- gets (fun s => _protocol_changed_by_fw (ses s)) ;;
    if is_remote (_target self) && by_fw
       && (negb (Nat.eqb n 0) || reset_settings (_xbee_profile self))
    then raise (UpdateProfileException_ _ERROR_UPDATE_SETTINGS_PROTOCOL_CHANGE)
    else
      old_apply_settings_value <-
        gets (fun s => apply_changes_enabled (dev s)) ;;
      enable_apply_changes false ;;
      c <- try_except (write_settings self)
             (on [XBeeException]
                 (fun e => raise (UpdateProfileException_
                                    (String.append _ERROR_UPDATE_SETTINGS
                                       (exn_msg e))))) ;;
      enable_apply_changes old_apply_settings_value ;;
      when (_is_local self) (_check_port_settings_changed self) ;;
      if is_str (_target self) then ret tt
      else
        by_settings <- gets (fun s => _protocol_changed_by_settings (ses s)) ;;
        when (network_settings_changed c || by_settings)
          (_ <- invoke self (if _is_local self then c_network_clear
                        else c_network_remove_device) ;;
           ret tt) ;;
        when (cache_settings_changed c || by_settings)
          (when (negb (_is_local self) && network_settings_changed c)
             (sleep 15000) ;;
           read_device_info_loop self _PARAMETER_READ_RETRIES).

(** ** [_update_file_system] and [_legacy_update_file_system] *)

Definition filesystem_errors (e : exn) : option (M unit) :=
  if isinstance e FileSystemNotSupportedException then
    Some (raise (UpdateProfileException_ _ERROR_FILESYSTEM_NOT_SUPPORTED))
  else if isinstance e FileSystemException then
    Some (raise (UpdateProfileException_
                   (String.append _ERROR_UPDATE_FILESYSTEM (exn_msg e))))
  else None.

Definition _legacy_update_file_system (self : _ProfileUpdater) : M unit :=
  if _is_local self && has_local_filesystem (_xbee_profile self) then
    try_finally
      (try_except
         (progress self _TASK_CONNECT_FILESYSTEM None ;;
          sleep 200 ;;
          _ <- invoke self c_fs_connect ;;
          progress self _TASK_FORMAT_FILESYSTEM None ;;
          _ <- invoke self c_fs_format_filesystem ;;
          asset_path self ;;
          _ <- invoke_with_progress self c_fs_put_dir ;;
          ret tt)
         filesystem_errors)
      (try_except
         (_ <- invoke self c_fs_disconnect ;; ret tt)
         (on [InvalidOperatingModeException] (fun _ => ret tt)))
  else if negb (_is_local self) && has_remote_filesystem (_xbee_profile self) then
    by_fw <- gets (fun s => _protocol_changed_by_fw (ses s)) ;;
    by_settings <- gets (fun s => _protocol_changed_by_settings (ses s)) ;;
    if by_fw || by_settings then
      raise (UpdateProfileException_ _ERROR_UPDATE_FILESYSTEM_PROTOCOL_CHANGE)
    else
      try_except
        (asset_path self ;;
         _ <- invoke_with_progress self c_update_filesystem_image ;;
         ret tt)
        (on [FileSystemException]
            (fun e => raise (UpdateProfileException_
                               (String.append _ERROR_UPDATE_FILESYSTEM
                                  (exn_msg e)))))
  else ret tt.

Definition _update_file_system (self : _ProfileUpdater) : M unit :=
  supported <- (if has_local_filesystem (_xbee_profile self)
                then r <- invoke self c_check_fs_support ;; ret (resp_bool r)
                else ret false) ;;
  if supported then
    try_except
      (_ <- invoke self c_get_file_manager ;;
       progress self _TASK_FORMAT_FILESYSTEM None ;;
       _ <- invoke self c_fm_format ;;
       asset_path self ;;
       _ <- invoke_with_progress self c_fm_put_dir ;;
       ret tt)
      filesystem_errors
  else (_legacy_update_file_system self).

(** ** [update_profile] *)

Definition opt_Z_eqb (a b : option Z) : bool :=
  match a, b with
  | Some x, Some y => x =? y
  | None, None => true
  | _, _ => false
  end.

(** First block of the [try]: read the device parameters, check the hardware
    and predict protocol changes, or set the fields for a recovery. *)
Definition read_and_check (self : _ProfileUpdater) : M unit :=
  has_device <- gets (fun s => _xbee_device (ses s)) ;;
  if has_device then
    _read_device_parameters self ;;
    hw <- gets (fun s => _device_hardware_version (ses s)) ;;
    _ <- lift_opt hw (none_has_no "code") ;;
    (if negb (opt_Z_eqb hw (hardware_version (_xbee_profile self))) then
       raise (UpdateProfileException_ _ERROR_HARDWARE_NOT_COMPATIBLE)
     else ret tt) ;;
    by_fw <- _check_protocol_changed_by_fw self ;;
    modify_ses (with_protocol_changed_by_fw by_fw) ;;
    by_settings <- _check_protocol_changed_by_settings self ;;
    modify_ses (with_protocol_changed_by_settings by_settings)
  else
    modify_ses (with_was_connected false) ;;
    modify_ses (with_device_firmware_version (Some 0)) ;;
    modify_ses (with_device_hardware_version None) ;;
    modify_ses (with_protocol_changed_by_fw false) ;;
    modify_ses (with_protocol_changed_by_settings false).

(** "Check flash firmware option": the value of [flash_firmware]. *)
Definition flash_decision (self : _ProfileUpdater) : M bool :=
  fw <- gets (fun s => _device_firmware_version (ses s)) ;;
  let firmware_is_the_same :=
    opt_Z_eqb fw (Some (firmware_version (_xbee_profile self))) in
  match flash_firmware_option (_xbee_profile self) with
  | FlashFirmwareOption.FLASH_ALWAYS => ret true
  | FlashFirmwareOption.FLASH_DIFFERENT => ret (negb firmware_is_the_same)
  | FlashFirmwareOption.DONT_FLASH =>
      if negb firmware_is_the_same then
        raise (UpdateProfileException_ _ERROR_FIRMWARE_NOT_COMPATIBLE)
      else ret false
  end.

Definition supported_or_raise (supported : list Z) (msg : string) : M unit :=
  hw <- gets (fun s => _device_hardware_version (ses s)) ;;
  match hw with
  | Some code =>
      if existsb (Z.eqb code) supported then ret tt
      else raise (UpdateProfileException_ msg)
  | None => ret tt
  end.

(** "Update firmware if required". *)
Definition flash_phase (self : _ProfileUpdater) (flash_firmware : bool) : M unit :=
  has_device <- gets (fun s => _xbee_device (ses s)) ;;
  when (negb has_device || flash_firmware)
    (supported_or_raise (firmware_SUPPORTED_HARDWARE_VERSIONS (collab self))
       ERROR_HARDWARE_VERSION_NOT_SUPPORTED ;;
     (_update_firmware self)).

(** After a recovery the port becomes a local device handle. *)
Definition recovery_open (self : _ProfileUpdater) : M unit :=
  has_device <- gets (fun s => _xbee_device (ses s)) ;;
  when (negb has_device)
    (modify_ses (with_xbee_device true) ;;
     device_open self true ;;
     hw <- gets (fun s => dev_hardware_version (dev s)) ;;
     modify_ses (with_device_hardware_version hw)).

(** "Update the file system if required". *)
Definition filesystem_phase (self : _ProfileUpdater) : M unit :=
  when (has_filesystem (_xbee_profile self))
    (supported_or_raise (filesystem_SUPPORTED_HARDWARE_VERSIONS (collab self))
       ERROR_FILESYSTEM_NOT_SUPPORTED ;;
     (_update_file_system self)).

(** What follows the first block: flash decision and flash, recovery handle,
    settings, file system. *)
Definition update_steps (self : _ProfileUpdater) : M unit :=
  flash_firmware <- flash_decision self ;;
  flash_phase self flash_firmware ;;
  recovery_open self ;;
  _update_device_settings self ;;
  filesystem_phase self.

(** The body of the [try] of [update_profile]. *)
Definition try_body (self : _ProfileUpdater) : M unit :=
  read_and_check self ;;
  update_steps self.

Definition first_byte (v : value) : option Z :=
  match v with
  | Bytes (b :: _) => Some b
  | _ => None
  end.

(** The test of "Restore AP mode only for local XBees and valid operating
    modes"; the first item of a [str] payload is no integer. *)
Definition must_restore_ap (self : _ProfileUpdater) (ap : value) (mode : Z) : bool :=
  _is_local self && truthy ap
  && match first_byte ap with
     | Some b =>
         negb (b =? mode)
         && ((b =? API_MODE_code) || (b =? ESCAPED_API_MODE_code))
     | None => false
     end.

Definition restore_operating_mode (self : _ProfileUpdater) : M unit :=
  ap <- gets (fun s => _xpro_ap (ses s)) ;;
  mode <- gets (fun s => operating_mode (dev s)) ;;
  when (must_restore_ap self ap mode)
    (orig_ac_value <- gets (fun s => apply_changes_enabled (dev s)) ;;
     enable_apply_changes true ;;
     _set_parameter_with_retries self "AP" ap _PARAMETER_WRITE_RETRIES ;;
     _set_parameter_with_retries self "WR" (Bytes []) _PARAMETER_WRITE_RETRIES ;;
     enable_apply_changes orig_ac_value).

Definition restore_sync_ops_timeout (old_sync_ops_timeout : option Z)
  : M unit :=
  match old_sync_ops_timeout with
  | Some t => set_sync_ops_timeout t
  | None => ret tt
  end.

Definition restore_connection (self : _ProfileUpdater) : M unit :=
  has_device <- gets (fun s => _xbee_device (ses s)) ;;
  when (_is_local self && has_device)
    (was_connected <- gets (fun s => _was_connected (ses s)) ;;
     opened <- gets (fun s => is_open (dev s)) ;;
     if was_connected && negb opened then device_open self false
     else if negb was_connected && opened then device_close
     else ret tt).

(** The [finally] block of [update_profile]. *)
Definition cleanup (self : _ProfileUpdater) (old_sync_ops_timeout : option Z) : M unit :=
  restore_operating_mode self ;;
  restore_sync_ops_timeout old_sync_ops_timeout ;;
  (restore_connection self).

(** "Change sync ops timeout". *)
Definition change_sync_ops_timeout (self : _ProfileUpdater) : M (option Z) :=
  has_device <- gets (fun s => _xbee_device (ses s)) ;;
  if has_device then
    old <- gets (fun s => sync_ops_timeout (dev s)) ;;
    set_sync_ops_timeout (_timeout self) ;;
    ret (Some old)
  else ret None.

Definition update_profile (self : _ProfileUpdater) : M unit :=
  old_sync_ops_timeout <- change_sync_ops_timeout self ;;
  try_finally (try_body self) (cleanup self old_sync_ops_timeout).


(** ** Reading a run *)

(** The settings writes, the firmware-flash calls, the file-system operations
    and the connection calls among the collaborator calls. *)
Definition is_settings_write (c : call) : bool :=
  match c with
  | c_set_parameter _ _ => true
  | _ => false
  end.

Definition is_flash (c : call) : bool :=
  match c with
  | c_update_firmware | c_update_local_firmware _ => true
  | _ => false
  end.

Definition is_filesystem_operation (c : call) : bool :=
  match c with
  | c_check_fs_support | c_get_file_manager | c_fm_format | c_fm_put_dir
  | c_fs_connect | c_fs_format_filesystem | c_fs_put_dir | c_fs_disconnect
  | c_update_filesystem_image => true
  | _ => false
  end.

Definition is_connection_call (c : call) : bool :=
  match c with
  | c_open _ | c_close => true
  | _ => false
  end.

Definition is_AP_write (c : call) : bool :=
  match c with
  | c_set_parameter parameter _ => String.eqb parameter "AP"
  | _ => false
  end.

(** The calls of a trace, in order. *)
Fixpoint calls (t : list event) : list call :=
  match t with
  | [] => []
  | e_call c _ :: r => c :: calls r
  | _ :: r => calls r
  end.

(** How many calls of a kind a trace holds. *)
Definition call_count (kind : call -> bool) (t : list event) : nat :=
  List.length (filter kind (calls t)).

(** The percentages handed to the progress callback for a task. *)
Fixpoint percentages (task : string) (t : list event) : list Z :=
  match t with
  | [] => []
  | e_progress tk (Some p) :: r =>
      if String.eqb tk task then p :: percentages task r
      else percentages task r
  | _ :: r => percentages task r
  end.

(** The percentages handed to the progress callback, whatever the task. *)
Fixpoint percents (t : list event) : list Z :=
  match t with
  | [] => []
  | e_progress _ (Some p) :: r => p :: percents r
  | _ :: r => percents r
  end.

(** The percentages of [evs] increase, lie above [lo] and up to [hi], and
    each is the integer percentage of some step [k] out of [N]. *)
Definition step_percent (N lo hi : Z) (evs : list event) : Prop :=
  StronglySorted Z.lt (percents evs)
  /\ Forall (fun p => lo < p <= hi
                      /\ exists k, 0 <= k <= N /\ p = k * 100 / N)
       (percents evs).

(** The counters between two steps: the next step is [setting_index], and
    with a callback [previous_percent] is the percentage of the step
    before. *)
Definition counters_ok (callback : bool) (N : Z) (c : counters) : Prop :=
  1 <= setting_index c
  /\ (callback = true ->
      previous_percent c = (setting_index c - 1) * 100 / N).

(** A step that reports percentages between [lo] and [hi], and ends, when
    it succeeds, with a result that satisfies [Q]. *)
Definition advances (N lo hi : Z) {A} (Q : A -> Prop) (m : M A) : Prop :=
  forall s,
    exists evs,
      trace (snd (m s)) = trace s ++ evs
      /\ step_percent N lo hi evs
      /\ forall a, fst (m s) = Ok a -> Q a.

(** Each report of 100 for the settings task in [evs] stands between the
    [WR] write that returned and an attempt of the [AC] write. *)
Definition full_report_placed (evs : list event) : Prop :=
  forall pre post,
    evs = pre ++ e_progress _TASK_UPDATE_SETTINGS (Some 100) :: post ->
    (exists pre',
        pre = pre' ++ [e_call (c_set_parameter "WR" (Bytes [])) None])
    /\ exists raised post',
         post = e_call (c_set_parameter "AC" (Bytes [])) raised :: post'.

(** Whether a write of [parameter] that raised nothing is in the trace. *)
Definition written (parameter : string) (t : list event) : bool :=
  existsb (fun e =>
             match e with
             | e_call (c_set_parameter q _) None => String.eqb q parameter
             | _ => false
             end) t.

(** Whether a write of [parameter] was attempted at all. *)
Definition attempted (parameter : string) (t : list event) : bool :=
  existsb (fun c =>
             match c with
             | c_set_parameter q _ => String.eqb q parameter
             | _ => false
             end) (calls t).

Definition new_ProfileUpdater (W : collaborators) (t : target)
  (p : XBeeProfile) (timeout : Z) (progress_callback : bool)
  : _ProfileUpdater :=
  {| collab := W; _target := t; _xbee_profile := p; _timeout := timeout;
     _progress_callback := progress_callback |}.

(** A failed attempt of the write of [parameter], or the pause before the
    next one. *)
Definition is_retry (parameter : string) (v : value) (e : event) : Prop :=
  match e with
  | e_sleep _ => True
  | e_call (c_set_parameter q w) (Some _) => q = parameter /\ w = v
  | _ => False
  end.

(** An attempt of the write of [parameter], failed or not, or a pause. *)
Definition is_attempt (parameter : string) (v : value) (e : event) : Prop :=
  is_retry parameter v e \/ e = e_call (c_set_parameter parameter v) None.

(** The payload the settings loop withholds: that of the last AP setting of
    the profile, if there is one. *)
Fixpoint withheld_ap (l : list (string * Codec.XBeeProfileSetting))
  (ap : value) : value :=
  match l with
  | [] => ap
  | (_, setting) :: r =>
      withheld_ap r
        (if String.eqb (upper (Codec.name setting)) "AP"
         then Codec.bytearray_value setting else ap)
  end.

(** The fields that only the parameter read and the settings phase write. *)
Definition read_fields (x : session) : option Z * bool * value * bool :=
  (_device_firmware_version x, _was_connected x, _xpro_ap x, _xbee_device x).

(** The state when the [try] block is entered. *)
Definition at_try (self : _ProfileUpdater) (d : device) : state :=
  snd (change_sync_ops_timeout self
         (init_state (_target self) (_xbee_profile self) d)).

(** The outcome and the state of the first block (parameter read, hardware
    check, protocol predictions). *)
Definition after_read (self : _ProfileUpdater) (d : device)
  : result unit * state :=
  read_and_check self (at_try self d).

(** The state when the [finally] block is entered. *)
Definition at_cleanup (self : _ProfileUpdater) (d : device) : state :=
  snd (try_body self (at_try self d)).

(** [old_sync_ops_timeout] as the [finally] block sees it. *)
Definition saved_timeout (self : _ProfileUpdater) (d : device) : option Z :=
  if is_str (_target self) then None else Some (sync_ops_timeout d).

(** The outcome of the [finally] block itself. *)
Definition cleanup_outcome (self : _ProfileUpdater) (d : device)
  : result unit :=
  fst (cleanup self (saved_timeout self d) (at_cleanup self d)).

(** One call of [update_profile()] on the device [d]. *)
Definition run (self : _ProfileUpdater) (d : device) : result unit * state :=
  update_profile self (init_state (_target self) (_xbee_profile self) d).

End Updater.

(* ===================================================================== *)
(** * [apply_xbee_profile] *)
(* ===================================================================== *)

Module Entry.
Import Py.

Definition _ERROR_TARGET_INVALID : string := "Invalid update target".
Definition _ERROR_PROFILE_NOT_VALID : string := "The XBee profile is not valid".
Definition _ERROR_PROFILE_INVALID : string := "Invalid XBee profile: ".

Definition _REMOTE_DEFAULT_TIMEOUT : Z := 20.
Definition _LOCAL_DEFAULT_TIMEOUT : Z := 3.

(** The [target] argument: a [str], an [XBeeDevice], a [RemoteXBeeDevice] or
    anything else. *)
Inductive target_arg :=
| a_str (port : string)
| a_XBeeDevice
| a_RemoteXBeeDevice
| a_other.

Definition to_target (t : target_arg) : option Updater.target :=
  match t with
  | a_str port => Some (Updater.SerialPort port)
  | a_XBeeDevice => Some Updater.LocalXBee
  | a_RemoteXBeeDevice => Some Updater.RemoteXBee
  | a_other => None
  end.

(** What the call comes to: an exception before the update starts, the whole
    operation handed to the communication interface, or a run of the
    updater; the last two with the timeout they were given. *)
Inductive outcome :=
| Raised (e : exn)
| Delegated (timeout : Z)
| Updated (timeout : Z) (r : result unit * Updater.state).

(** The default of "if not timeout: timeout = ...". *)
Definition default_timeout (t : Updater.target) : Z :=
  if Updater.is_str t || Updater.is_remote t
  then _REMOTE_DEFAULT_TIMEOUT else _LOCAL_DEFAULT_TIMEOUT.

(** [not timeout]: an absent timeout and a zero timeout are both false. *)
Definition not_timeout (timeout : option Z) : bool :=
  match timeout with
  | None => true
  | Some v => v =? 0
  end.

(** The timeout after "if not timeout: timeout = ...". *)
Definition resolve_timeout (t : Updater.target) (timeout : option Z) : Z :=
  if not_timeout timeout then default_timeout t
  else match timeout with
       | Some v => v
       | None => default_timeout t
       end.

(** [comm_iface and comm_iface.supports_apply_profile()]. *)
Definition takes_over (comm_iface : option bool) : bool :=
  match comm_iface with
  | Some supports_apply_profile => supports_apply_profile
  | None => false
  end.

Section Apply.

Variable W : Updater.collaborators.
(** Whether [profile_path] is a [str], and what [XBeeProfile(profile_path)]
    gives: the profile with its [has_local_firmware_files] flag, or the
    exception of the constructor. *)
Variable profile_path_is_str : bool.
Variable constructed : result (Updater.XBeeProfile * bool).
(** The communication interface of the target, if any, with the answer of
    its [supports_apply_profile()]. *)
Variable comm_iface : option bool.
Variable d : Updater.device.

Definition apply_xbee_profile (target : target_arg) (timeout : option Z)
  (progress_callback : bool) : outcome :=
  match to_target target with
  | None => Raised (Exn ValueError _ERROR_TARGET_INVALID)
  | Some t =>
      if negb profile_path_is_str then
        Raised (Exn ValueError _ERROR_PROFILE_NOT_VALID)
      else
        match constructed with
        | Raise e =>
            if isinstance e ValueError || isinstance e ReadProfileException
            then Raised (Exn UpdateProfileException
                           (String.append _ERROR_PROFILE_INVALID (exn_msg e)))
            else Raised e
        | Ok (xbee_profile, has_local_firmware_files) =>
            let timeout := resolve_timeout t timeout in
            if Updater.is_str t && negb has_local_firmware_files then
              Raised (Exn UpdateProfileException
                        (String.append _ERROR_PROFILE_INVALID
                           " Profile must include the firmware binary files to use with a serial port"))
            else if negb (Updater.is_str t)
                    && match comm_iface with
                       | Some supports_apply_profile => supports_apply_profile
                       | None => false
                       end
            then Delegated timeout
            else Updated timeout
                   (Updater.run
                      (Updater.new_ProfileUpdater W t xbee_profile timeout
                         progress_callback) d)
        end
  end.

End Apply.

End Entry.

(* ===================================================================== *)
(** * Frames of the updater's steps *)
(* ===================================================================== *)

Module Frame.
Import Updater.

Section Def.
Context {T : Type}.
(** The collaborator calls a step may make, the part of the updater's fields
    it keeps, and what is assumed of that part. *)
Variable okc : call -> bool.
Variable kept : session -> T.
Variable J : T -> Prop.

Definition allowed (e : event) : Prop :=
  match e with
  | e_call c _ => okc c = true
  | _ => True
  end.

(** [s'] comes after [s]: the trace has grown by allowed events and the kept
    fields are the same. *)
Definition extends (s s' : state) : Prop :=
  (exists evs, trace s' = trace s ++ evs /\ Forall allowed evs)
  /\ kept (ses s') = kept (ses s).

(** Whatever the outcome, the step only extends the state. *)
Definition holds {A} (m : M A) : Prop :=
  forall s, J (kept (ses s)) -> extends s (snd (m s)).

End Def.

(** The trace part of a frame. *)
Definition grows (okc : call -> bool) (s s' : state) : Prop :=
  exists evs, trace s' = trace s ++ evs /\ Forall (allowed okc) evs.

End Frame.

(* ===================================================================== *)
(** * Sample runs *)
(* ===================================================================== *)

Module Scenarios.
Import Py Updater.

Definition succeeds : response :=
  {| resp_exn := None; resp_dev := fun d => d; resp_progress := [];
     resp_bytes := []; resp_bool := false; resp_text := Some "0" |}.

Definition times_out : response :=
  {| resp_exn := Some (Exn TimeoutException "timeout");
     resp_dev := fun d => d; resp_progress := [];
     resp_bytes := []; resp_bool := false; resp_text := None |}.

(** Collaborators that answer every call, and collaborators whose device
    times out on the writes of the parameters [failing]. *)
Definition collaborators_with (failing : list string) : collaborators :=
  {| oracle := fun _ c =>
       match c with
       | c_set_parameter p _ => if mem p failing then times_out else succeeds
       | _ => succeeds
       end;
     determine_protocol := fun _ _ => 3;
     device_determine_protocol := fun _ _ => 3;
     HardwareVersion_get := fun code => Some code;
     firmware_SUPPORTED_HARDWARE_VERSIONS := [0x40; 0x41; 0x42];
     filesystem_SUPPORTED_HARDWARE_VERSIONS := [0x40; 0x41; 0x42];
     DIGI_MESH := 3 |}.

(** An open local XBee 3 in escaped API mode with firmware 0x100A. *)
Definition xbee3 : device :=
  {| is_open := true; sync_ops_timeout := 4; apply_changes_enabled := true;
     operating_mode := 2;
     dev_firmware_version := Some [0x10; 0x0A];
     dev_hardware_version := Some 0x41;
     dev_protocol := 3;
     serial_settings := {| baudrate := 9600; parity := FirmwareParity.NONE;
                           stopbits := FirmwareStopbits.SB_1;
                           rtscts := false |} |}.

Definition setting (name : string) (ty : XBeeSettingType.t)
  (fmt : XBeeSettingFormat.t) (v : string) (b : value)
  : string * Codec.XBeeProfileSetting :=
  (name, {| Codec.name := name; Codec.type := Some ty;
            Codec.format := Some fmt; Codec.value := Some v;
            Codec.bytearray_value := b |}).

Definition setting_AP : string * Codec.XBeeProfileSetting :=
  setting "AP" XBeeSettingType.COMBO XBeeSettingFormat.NO_FORMAT "1"
    (Bytes [1]).

Definition setting_NI : string * Codec.XBeeProfileSetting :=
  setting "NI" XBeeSettingType.TEXT XBeeSettingFormat.ASCII "node"
    (Bytes [110; 111; 100; 101]).

(** A profile for that hardware, with the given flash option, firmware
    version, settings and reset flag, and no file system. *)
Definition profile_of (option : FlashFirmwareOption.t) (fw : Z)
  (settings : list (string * Codec.XBeeProfileSetting)) (reset : bool)
  : XBeeProfile :=
  {| profile_settings := settings; reset_settings := reset;
     flash_firmware_option := option; firmware_version := fw;
     hardware_version := Some 0x41; has_local_filesystem := false;
     has_remote_filesystem := false; protocol := 3 |}.

(** Same firmware, flash if different, one setting, everything answers. *)
Definition plain_update : _ProfileUpdater :=
  new_ProfileUpdater (collaborators_with [])
    LocalXBee
    (profile_of FlashFirmwareOption.FLASH_DIFFERENT 0x100A [setting_NI] false)
    3 true.

(** The profile sets AP then NI, and every write of NI and AP times out. *)
Definition unreachable_update : _ProfileUpdater :=
  new_ProfileUpdater (collaborators_with ["NI"; "AP"])
    LocalXBee
    (profile_of FlashFirmwareOption.FLASH_DIFFERENT 0x100A
       [setting_AP; setting_NI] false)
    3 true.

(** The profile sets AP to 1 on a device in mode 2, and everything answers:
    the loop leaves AP alone and the [finally] block writes it. *)
Definition deferred_update : _ProfileUpdater :=
  new_ProfileUpdater (collaborators_with []) LocalXBee
    (profile_of FlashFirmwareOption.FLASH_DIFFERENT 0x100A
       [setting_AP; setting_NI] false)
    3 true.

(** The apply-changes write never gets through. *)
Definition unapplied_update : _ProfileUpdater :=
  new_ProfileUpdater (collaborators_with ["AC"])
    LocalXBee
    (profile_of FlashFirmwareOption.FLASH_DIFFERENT 0x100A [setting_NI] false)
    3 true.

(** A reset of the settings, and no setting to write. *)
Definition reset_update : _ProfileUpdater :=
  new_ProfileUpdater (collaborators_with [])
    LocalXBee
    (profile_of FlashFirmwareOption.FLASH_DIFFERENT 0x100A [] true)
    3 true.

(** The profile forbids the flash and is for another firmware; here the
    hardware differs as well. *)
Definition frozen_update : _ProfileUpdater :=
  new_ProfileUpdater (collaborators_with [])
    LocalXBee
    (profile_of FlashFirmwareOption.DONT_FLASH 0x100B [setting_NI] false)
    3 true.

Definition xbee2 : device :=
  {| is_open := true; sync_ops_timeout := 4; apply_changes_enabled := true;
     operating_mode := 2;
     dev_firmware_version := Some [0x10; 0x0A];
     dev_hardware_version := Some 0x40;
     dev_protocol := 3;
     serial_settings := serial_settings xbee3 |}.

End Scenarios.

(* ===================================================================== *)
(** * Shapes of traces *)
(* ===================================================================== *)

Module Attempts.
Import Py Updater.

(** The exceptions [_set_parameter_with_retries] retries on, and the one
    [_read_parameter_with_retries] retries on. *)
Definition retried_write (e : exn) : bool :=
  existsb (isinstance e) [TimeoutException; ATCommandException].

Definition retried_read (e : exn) : bool :=
  existsb (isinstance e) [TimeoutException].

(** Failed calls, each followed by a pause. *)
Definition failures_then_pause (c : call) (pause : Z) (errors : list exn)
  : list event :=
  flat_map (fun e => [e_call c (Some e); e_sleep pause]) errors.

(** Failed calls with a pause between them, and none after the last. *)
Fixpoint failures_between_pauses (c : call) (pause : Z) (errors : list exn)
  : list event :=
  match errors with
  | [] => []
  | e :: r =>
      match r with
      | [] => [e_call c (Some e)]
      | _ :: _ =>
          e_call c (Some e) :: e_sleep pause
          :: failures_between_pauses c pause r
      end
  end.

(** [0.2 if self._is_local else 5], in milliseconds. *)
Definition write_pause (self : _ProfileUpdater) : Z :=
  if _is_local self then 200 else 5000.

(** The message of the exception raised when the write retries are used
    up. *)
Definition write_error (parameter msg : string) : exn :=
  Exn XBeeException
    (String.append "Error setting parameter '"
       (String.append parameter (String.append "': " msg))).

Definition read_error (parameter : string) : exn :=
  Exn XBeeException
    (String.append "Timeout reading parameter '"
       (String.append parameter "'")).

(** The writes the device accepted, in order. *)
Fixpoint accepted (t : list event) : list (string * value) :=
  match t with
  | [] => []
  | e_call (c_set_parameter p v) None :: r => (p, v) :: accepted r
  | _ :: r => accepted r
  end.

(** What the settings phase sets out to write: the reset with, on a local
    device, the operating mode [mode] written back; the settings of the
    profile in their order, without AP on a local device; the write to
    non-volatile memory and the application of the changes. *)
Definition planned_writes (self : _ProfileUpdater) (mode : Z)
  : list (string * value) :=
  (if reset_settings (_xbee_profile self) || is_str (_target self)
   then ("RE", Bytes [])
        :: (if _is_local self then [("AP", Bytes [mode])] else [])
   else [])
  ++ map (fun kv => (upper (Codec.name (snd kv)),
                     Codec.bytearray_value (snd kv)))
       (filter (fun kv => negb (_is_local self
                                && String.eqb (upper (Codec.name (snd kv)))
                                     "AP"))
          (profile_settings (_xbee_profile self)))
  ++ [("WR", Bytes []); ("AC", Bytes [])].

(** Whether [_update_device_settings] has anything to do. *)
Definition nothing_to_update (self : _ProfileUpdater) : bool :=
  Nat.eqb (List.length (profile_settings (_xbee_profile self))) 0
  && negb (reset_settings (_xbee_profile self))
  && negb (is_str (_target self)).

(** The step follows the plan [P] from [s]: what it gets accepted is the
    beginning of [P], and all of [P] when it returns. *)
Definition follows {A} (P : list (string * value)) (m : M A) (s : state)
  : Prop :=
  exists done rest,
    P = done ++ rest
    /\ accepted (trace (snd (m s))) = accepted (trace s) ++ done
    /\ forall a, fst (m s) = Ok a -> rest = [].

End Attempts.

(* ===================================================================== *)
(** * Settings of the handle *)
(* ===================================================================== *)

Module Handle.
Import Py Updater.

(** The step leaves a setting [field] of the handle as it is, whatever its
    outcome. *)
Definition keeps {T A} (field : device -> T) (m : M A) : Prop :=
  forall s, field (dev (snd (m s))) = field (dev s).

(** The test of "For remote nodes that changed the protocol, raise an
    exception if there are settings to apply or reset". *)
Definition unreachable_for_settings (self : _ProfileUpdater) (s : state)
  : bool :=
  is_remote (_target self) && _protocol_changed_by_fw (ses s)
  && (negb (Nat.eqb (List.length (profile_settings (_xbee_profile self))) 0)
      || reset_settings (_xbee_profile self)).

(** What the [except XBeeException] clause of the settings phase makes of
    an exception of the [try] block. *)
Definition settings_error (e : exn) : exn :=
  if existsb (isinstance e) [XBeeException]
  then UpdateProfileException_ (String.append _ERROR_UPDATE_SETTINGS (exn_msg e))
  else e.

End Handle.

(* ===================================================================== *)
(** * Serial port settings of a profile *)
(* ===================================================================== *)

Module Port.
Import Py Updater.

(** Whether a setting of the profile is named [nm], and the last one that
    is. *)
Definition names (nm : string) (l : list (string * Codec.XBeeProfileSetting))
  : bool :=
  existsb (fun kv => String.eqb (upper (Codec.name (snd kv))) nm) l.

Fixpoint last_named (nm : string)
  (l : list (string * Codec.XBeeProfileSetting))
  : option Codec.XBeeProfileSetting :=
  match l with
  | [] => None
  | kv :: r =>
      match last_named nm r with
      | Some st => Some st
      | None =>
          if String.eqb (upper (Codec.name (snd kv))) nm
          then Some (snd kv) else None
      end
  end.

(** Whether the profile sets one of BD, NB, SB and D7. *)
Definition sets_serial_port (l : list (string * Codec.XBeeProfileSetting))
  : bool :=
  names "BD" l || names "NB" l || names "SB" l || names "D7" l.

(** The flags and parameters [_check_port_settings_changed] starts from. *)
Definition unchanged (pp : port_parameters) : port_changes :=
  {| baudrate_changed := false; parity_changed := false;
     stop_bits_changed := false; cts_flow_control_changed := false;
     params := pp |}.

(** A look-up of a default value that returned. *)
Definition is_default_lookup (e : event) : Prop :=
  exists n, e = e_call (c_get_setting_default_value n) None.


(** The look-up of the default value of [n] that returned, made unless the
    profile set the parameter; and what the look-up answers after the
    events [t]. *)
Definition lookup_unless (changed : bool) (n : string) : list event :=
  if changed then [] else [e_call (c_get_setting_default_value n) None].

Definition default_text (self : _ProfileUpdater) (t : list event)
  (n : string) : option string :=
  resp_text (oracle (collab self) t (c_get_setting_default_value n)).

End Port.

(* ===================================================================== *)
(** * Firmware and file system steps *)
(* ===================================================================== *)

Module Transfer.
Import Py Updater.

(** The calls that extract the profile archive. *)
Definition is_extraction (c : call) : bool :=
  match c with
  | c_mkdtemp | c_extractall | c_fill_paths => true
  | _ => false
  end.

(** The flash call of [_update_firmware]: that of the device handle, or
    that of the serial port. *)
Definition flash_call (self : _ProfileUpdater) (s : state) : call :=
  if _xbee_device (ses s) then c_update_firmware
  else c_update_local_firmware (target_port self).

Definition is_disconnect (c : call) : bool :=
  match c with
  | c_fs_disconnect => true
  | _ => false
  end.

(** The [try] ... [except] part of the local branch of
    [_legacy_update_file_system], without its [finally]. *)
Definition legacy_transfer (self : _ProfileUpdater) : M unit :=
  try_except
    (progress self _TASK_CONNECT_FILESYSTEM None ;;
     sleep 200 ;;
     _ <- invoke self c_fs_connect ;;
     progress self _TASK_FORMAT_FILESYSTEM None ;;
     _ <- invoke self c_fs_format_filesystem ;;
     asset_path self ;;
     _ <- invoke_with_progress self c_fs_put_dir ;;
     ret tt)
    filesystem_errors.

End Transfer.

(* ===================================================================== *)
(** * Reading the stored settings *)
(* ===================================================================== *)

Module Stored.
Import Py Codec Archive.

(** The names a descriptor stores the raw pairs under: the upper-case
    command of each pair that has a catalog entry, in document order. *)
Definition matched_names (raw : raw_settings)
  (elements : list firmware_setting) : list string :=
  flat_map (fun kv =>
              match fst kv with
              | Some c => if has_match elements kv then [upper c] else []
              | None => []
              end) raw.

Section Keys.
Context {K : Type} (eqb : K -> K -> bool).

(** The first occurrence of each item, in order. *)
Fixpoint first_occurrences (l : list K) : list K :=
    match l with
    | [] => []
    | x :: r => x :: filter (fun y => negb (eqb y x)) (first_occurrences r)
    end.

(** The keys of a [dict] after an assignment to [k]. *)
Definition add_key (l : list K) (k : K) : list K :=
    if existsb (eqb k) l then l else l ++ [k].

End Keys.

(** An item of a [bytearray]. *)
Definition is_byte (n : Z) : Prop := 0 <= n < 256.

(** The cases in which [_setting_value_to_bytearray] falls through to its
    last line, [return self._value]. *)
Definition kept_as_text (ty : option XBeeSettingType.t)
  (fmt : option XBeeSettingFormat.t) (v : option string) : bool :=
  match ty with
  | None => true
  | Some XBeeSettingType.TEXT =>
      match fmt with
      | None => true
      | Some XBeeSettingFormat.IPV6 =>
          match v with
          | Some s => negb (contains _IPV6_SEPARATOR s)
          | None => false
          end
      | Some _ => false
      end
  | Some _ => false
  end.

(** What a stored setting holds: a type and a format, and the payload the
    codec gives for them; the payload is a byte array, or the text of an
    IPv6 setting that has no separator. *)
Definition well_formed (entry : string * XBeeProfileSetting) : Prop :=
  let ps := snd entry in
  exists ty fmt,
    type ps = Some ty /\ format ps = Some fmt
    /\ _setting_value_to_bytearray (type ps) (format ps) (value ps)
       = Ok (bytearray_value ps)
    /\ match bytearray_value ps with
       | Bytes l => Forall is_byte l
       | Str s =>
           ty = XBeeSettingType.TEXT /\ fmt = XBeeSettingFormat.IPV6
           /\ value ps = Some s /\ contains _IPV6_SEPARATOR s = false
       | NoneV => False
       end.

(** Every character of [s] passes the test [p]. *)
Fixpoint all_chars (p : ascii -> bool) (s : string) : bool :=
  match s with
  | EmptyString => true
  | String c r => p c && all_chars p r
  end.

Definition is_decimal_digit (c : ascii) : bool :=
  (48 <=? ord c) && (ord c <=? 57).

(** The decimal text of a natural number, [str(n)]. *)
Definition digit_char (d : Z) : ascii := ascii_of_N (Z.to_N (48 + d)).

Fixpoint decimal_digits (fuel : nat) (n : Z) : string :=
  match fuel with
  | O => EmptyString
  | S f =>
      if n <? 10 then String (digit_char n) EmptyString
      else String.append (decimal_digits f (n / 10))
             (String (digit_char (n mod 10)) EmptyString)
  end.

Definition decimal (n : Z) : string := decimal_digits (S (Z.to_nat n)) n.

(** The value of a string of decimal digits read after the value [acc]. *)
Fixpoint decimal_value (acc : Z) (s : string) : Z :=
  match s with
  | EmptyString => acc
  | String c r => decimal_value (acc * 10 + (ord c - 48)) r
  end.

(** Dotted notation: ['.'.join(str(n) for n in l)]. *)
Fixpoint dotted (l : list Z) : string :=
  match l with
  | [] => EmptyString
  | x :: r =>
      match r with
      | [] => decimal x
      | _ :: _ =>
          String.append (decimal x) (String _IPV4_SEPARATOR (dotted r))
      end
  end.

(** A profile that names NI twice, in lower and in upper case, around D7,
    and a catalog with an entry for each spelling. *)
Definition raw_mixed_case : raw_settings :=
  [(Some "ni", Some "a"); (Some "D7", Some "1"); (Some "NI", Some "b")].

Definition catalog_mixed_case : list firmware_setting :=
  {| fs_command := Some "ni"; fs_control_type := Some (Some "text");
     fs_format := Some (Some "ASCII"); fs_default_value := None |}
  :: Samples.catalog_NI.

End Stored.

(* ===================================================================== *)
(** * [XBeeProfile]: the archive and [profile.xml] *)
(* ===================================================================== *)

Module Package.
Import Py Archive.

(** Modelled from the spec: [firmware.EXTENSION_XML] is a constant of the
    firmware module, outside this file.  The archive holds a "root
    [profile.xml]" and "a firmware descriptor matching that prefix +
    [.xml]". *)
Definition EXTENSION_XML : string := ".xml".

Definition _PROFILE_XML_FILE_NAME : string :=
  String.append "profile" EXTENSION_XML.
Definition _FIRMWARE_FOLDER_NAME : string := "radio_fw".
Definition _WILDCARD_XML : string := String.append "*" EXTENSION_XML.
Definition _LOCAL_FILESYSTEM_FOLDER : string := "filesystem".
Definition _REMOTE_FILESYSTEM_FOLDER : string := "remote_filesystem".

Definition _ERROR_FIRMWARE_FOLDER_NOT_EXIST : string :=
  "Firmware folder does not exist".
Definition _ERROR_FIRMWARE_XML_NOT_EXIST : string :=
  "Firmware XML file does not exist".
Definition _ERROR_PROFILE_XML_NOT_EXIST : string :=
  "Profile XML file does not exist".
Definition _ERROR_PROFILE_XML_INVALID : string :=
  "Invalid profile XML file contents: ".
Definition _ERROR_PROFILE_XML_PARSE : string :=
  "Error parsing profile XML file: ".

(** [XBeeProfile._throw_read_exception]. *)
Definition _throw_read_exception {A} (message : string) : result A :=
  Raise (Exn ReadProfileException message).

(** [s.startswith(p)]. *)
Fixpoint startswith (s p : string) {struct p} : bool :=
  match p with
  | EmptyString => true
  | String a p' =>
      match s with
      | String b s' => Ascii.eqb b a && startswith s' p'
      | EmptyString => false
      end
  end.

(** [fnmatch] on a POSIX system (names are compared as they are), for a
    pattern made of literal characters and [*], which stands for any run of
    characters, path separators included. *)
Fixpoint fnmatchcase (pat : string) : string -> bool :=
  match pat with
  | EmptyString =>
      fun name => match name with EmptyString => true | _ => false end
  | String p pat' =>
      if Ascii.eqb p "*" then
        fix star (name : string) : bool :=
          fnmatchcase pat' name
          || match name with
             | EmptyString => false
             | String _ r => star r
             end
      else
        fun name =>
          match name with
          | String c r => Ascii.eqb c p && fnmatchcase pat' r
          | EmptyString => false
          end
  end.

(** [fnmatch.filter(names, pat)]. *)
Definition fnmatch_filter (names : list string) (pat : string) : list string :=
  filter (fnmatchcase pat) names.

(** [XBeeProfile._check_profile_integrity], on the member names of the
    archive; the result holds [_has_local_filesystem] and
    [_has_remote_filesystem]. *)
Definition _check_profile_integrity (files : list string)
  : result (bool * bool) :=
  if negb (existsb (String.eqb _PROFILE_XML_FILE_NAME) files) then
    _throw_read_exception _ERROR_PROFILE_XML_NOT_EXIST
  else if negb (existsb (fun f => startswith f _FIRMWARE_FOLDER_NAME) files)
  then _throw_read_exception _ERROR_FIRMWARE_FOLDER_NOT_EXIST
  else if Nat.eqb (List.length
                     (fnmatch_filter files
                        (String.append _FIRMWARE_FOLDER_NAME _WILDCARD_XML)))
            0
  then _throw_read_exception _ERROR_FIRMWARE_XML_NOT_EXIST
  else
    Ok (existsb (fun f => startswith f _LOCAL_FILESYSTEM_FOLDER) files,
        existsb (fun f => startswith f _REMOTE_FILESYSTEM_FOLDER) files).

(** The elements of [profile.xml] the parser looks up: each is absent
    ([None]) or present with its text; the [setting] elements come with
    their [command] attribute and their text, in document order. *)
Record profile_document := {
  pd_description_file : option (option string);
  pd_profile_version : option (option string);
  pd_flash_fw_action : option (option string);
  pd_description : option (option string);
  pd_reset_settings : option (option string);
  pd_settings : list (option string * option string)
}.

(** The attributes [_parse_xml_profile_file] fills. *)
Record profile_fields := {
  _firmware_xml_file : string;
  _version : Z;
  _flash_firmware_option : FlashFirmwareOption.t;
  _description : option string;
  _reset_settings : bool;
  _raw_settings : raw_settings
}.

Definition quote : string := String (ascii_of_N 34) EmptyString.

(** [_FIRMWARE_FOLDER_NAME + "/" + text]. *)
Definition firmware_file_name (text : option string) : result string :=
  match text with
  | Some t =>
      Ok (String.append _FIRMWARE_FOLDER_NAME (String.append "/" t))
  | None =>
      Raise (Exn TypeError
               (String.append "can only concatenate str (not "
                  (String.append quote
                     (String.append "NoneType"
                        (String.append quote ") to str")))))
  end.

(** [text in ("True", "true", "1")]. *)
Definition is_true_text (text : option string) : bool :=
  existsb (opt_string_eqb text) [Some "True"; Some "true"; Some "1"].

(** The loop over the [setting] elements, on the empty [_raw_settings] of
    the constructor: [self._raw_settings[setting_name] = setting_value]. *)
Definition read_at_settings (setting_elements : list (option string * option string))
  : raw_settings :=
  fold_left (fun d kv => dict_set opt_string_eqb d (fst kv) (snd kv))
    setting_elements [].

(** The statements of [_parse_xml_profile_file] after the document is
    parsed; the defaults are those the constructor sets. *)
Definition read_profile_document (root : profile_document)
  : result profile_fields :=
  match pd_description_file root with
  | None =>
      _throw_read_exception
        (String.append _ERROR_PROFILE_XML_INVALID
           "missing firmware file element")
  | Some text =>
      match firmware_file_name text with
      | Raise e => Raise e
      | Ok firmware_xml_file =>
          match int_of_element (pd_profile_version root) with
          | Raise e => Raise e
          | Ok version =>
              match int_of_element (pd_flash_fw_action root) with
              | Raise e => Raise e
              | Ok code =>
                  let flash_firmware_option :=
                    match code with
                    | Some c => FlashFirmwareOption.get c
                    | None => Some FlashFirmwareOption.FLASH_DIFFERENT
                    end in
                  match flash_firmware_option with
                  | None =>
                      _throw_read_exception
                        (String.append _ERROR_PROFILE_XML_INVALID
                           "invalid flash firmware option")
                  | Some option =>
                      Ok {| _firmware_xml_file := firmware_xml_file;
                            _version := match version with
                                        | Some n => n
                                        | None => 0
                                        end;
                            _flash_firmware_option := option;
                            _description :=
                              match pd_description root with
                              | Some text => text
                              | None => None
                              end;
                            _reset_settings :=
                              match pd_reset_settings root with
                              | Some text => is_true_text text
                              | None => true
                              end;
                            _raw_settings :=
                              read_at_settings (pd_settings root) |}
                  end
              end
          end
      end
  end.

(** [XBeeProfile._parse_xml_profile_file]; [parsed] is what
    [ElementTree.parse(zip_file.open(...)).getroot()] gives. *)
Definition _parse_xml_profile_file (parsed : result profile_document)
  : result profile_fields :=
  match (match parsed with
         | Ok root => read_profile_document root
         | Raise e => Raise e
         end) with
  | Raise exc =>
      if isinstance exc ParseError then
        _throw_read_exception
          (String.append _ERROR_PROFILE_XML_PARSE (exn_msg exc))
      else Raise exc
  | Ok fields => Ok fields
  end.

(** The text of the last [setting] element with the command [k]. *)
Definition last_text (setting_elements : list (option string * option string))
  (k : option string) : option (option string) :=
  option_map snd
    (find (fun kv => opt_string_eqb (fst kv) k) (rev setting_elements)).

(** [XBeeProfile.get_setting_default_value]: the first [setting] element
    with the command decides. *)
Fixpoint first_default_value (elements : list firmware_setting)
  (setting_name : string) : option string :=
  match elements with
  | [] => None
  | e :: r =>
      if opt_string_eqb (fs_command e) (Some setting_name) then
        match fs_default_value e with
        | None => None
        | Some text => text
        end
      else first_default_value r setting_name
  end.

(** [parsed] is what opening the archive member and
    [ElementTree.parse(xml_file).getroot()] followed by
    [findall("firmware/settings/setting")] come to: the [setting] elements,
    or the exception raised on the way.  The [except] clause logs a
    [ParseError], a [BadZipFile] or a [LargeZipFile] and the method
    returns [None]; any other exception leaves the method. *)
Definition get_setting_default_value
  (parsed : result (list firmware_setting)) (setting_name : string)
  : result (option string) :=
  match parsed with
  | Ok elements => Ok (first_default_value elements setting_name)
  | Raise exc =>
      if existsb (isinstance exc) [ParseError; BadZipFile; LargeZipFile]
      then Ok None
      else Raise exc
  end.

(** A descriptor that lists BD twice, the first time without a default. *)
Definition catalog_BD_twice : list firmware_setting :=
  [{| fs_command := Some "NI"; fs_control_type := None; fs_format := None;
      fs_default_value := Some (Some " ") |};
   {| fs_command := Some "BD"; fs_control_type := None; fs_format := None;
      fs_default_value := None |};
   {| fs_command := Some "BD"; fs_control_type := None; fs_format := None;
      fs_default_value := Some (Some "3") |}].

End Package.

(* ===================================================================== *)
(** * Order of the file system calls *)
(* ===================================================================== *)

Module Ordering.
Import Py Updater.

Definition returned (raised : option exn) : bool :=
  match raised with
  | None => true
  | Some _ => false
  end.

(** Whether the file system has been formatted through the manager of the
    file system API (first flag) and through the legacy manager (second
    flag): a format call that returned sets the flag, one that raised
    clears it. *)
Definition flags_after_event (fl : bool * bool) (e : event) : bool * bool :=
  match e with
  | e_call c_fm_format raised => (returned raised, snd fl)
  | e_call c_fs_format_filesystem raised => (fst fl, returned raised)
  | _ => fl
  end.

Definition flags_after (fl : bool * bool) (t : list event) : bool * bool :=
  fold_left flags_after_event t fl.

(** Every [put_dir] of the trace comes after a format of the same manager
    that returned. *)
Fixpoint formatted_first (fl : bool * bool) (t : list event) : bool :=
  match t with
  | [] => true
  | e :: r =>
      match e with
      | e_call c_fm_put_dir _ => fst fl
      | e_call c_fs_put_dir _ => snd fl
      | _ => true
      end
      && formatted_first (flags_after_event fl e) r
  end.

(** The calls that neither format nor write the file system. *)
Definition is_neutral (c : call) : bool :=
  match c with
  | c_fm_format | c_fs_format_filesystem | c_fm_put_dir | c_fs_put_dir => false
  | _ => true
  end.

(** A step that keeps the order when it starts with flags that satisfy
    [P], and ends, when it returns, with flags that satisfy [Q]. *)
Definition ordered (P Q : bool * bool -> Prop) {A} (m : M A) : Prop :=
  forall s fl,
    P fl ->
    exists evs,
      trace (snd (m s)) = trace s ++ evs
      /\ formatted_first fl evs = true
      /\ forall a, fst (m s) = Ok a -> Q (flags_after fl evs).

(** A recovery through the port [COM1]: the firmware of the profile is
    that of the device, and everything answers. *)
Definition recovery_update : _ProfileUpdater :=
  new_ProfileUpdater (Scenarios.collaborators_with [])
    (SerialPort "COM1")
    (Scenarios.profile_of FlashFirmwareOption.DONT_FLASH 0
       [Scenarios.setting_NI] false)
    20 true.

Definition unopened : device := set_is_open false Scenarios.xbee3.

End Ordering.

(* ===================================================================== *)
(** * The scratch directory of a run *)
(* ===================================================================== *)

Module Scratch.
Import Py Updater.

(** A [tempfile.mkdtemp()] that returned: from then on a scratch directory
    exists. *)
Definition is_created (e : event) : bool :=
  match e with
  | e_call c_mkdtemp None => true
  | _ => false
  end.

Definition created (t : list event) : nat :=
  List.length (filter is_created t).

Definition is_extractall (c : call) : bool :=
  match c with
  | c_extractall => true
  | _ => false
  end.

(** The calls that neither create the directory nor extract the archive. *)
Definition leaves_archive (c : call) : bool :=
  match c with
  | c_mkdtemp | c_extractall => false
  | _ => true
  end.

(** [_profile_folder] is set exactly when a directory has been created, and
    the archive has been extracted no more often than that. *)
Definition one_directory (s : state) : Prop :=
  created (trace s) = (if _profile_folder (ses s) then 1 else 0)%nat
  /\ (call_count is_extractall (trace s) <= created (trace s))%nat.

(** A step that keeps an invariant of the state, whatever its outcome. *)
Definition preserves (Inv : state -> Prop) {A} (m : M A) : Prop :=
  forall s, Inv s -> Inv (snd (m s)).

End Scratch.

(* ===================================================================== *)
(** * What the settings phase refreshes *)
(* ===================================================================== *)

Module Refresh.
Import Py Updater.

Definition is_network_drop (c : call) : bool :=
  match c with
  | c_network_clear | c_network_remove_device => true
  | _ => false
  end.

Definition is_info_read (c : call) : bool :=
  match c with
  | c_read_device_info => true
  | _ => false
  end.

(** The calls of the settings phase before its refresh part. *)
Definition is_not_refresh (c : call) : bool :=
  negb (is_network_drop c || is_info_read c).

(** Whether the profile holds a setting of the group, by upper-case name. *)
Definition names_any (group : list string) (self : _ProfileUpdater) : bool :=
  existsb (fun kv => mem (upper (Codec.name (snd kv))) group)
    (profile_settings (_xbee_profile self)).

(** The profile resets the settings or is applied through a serial port. *)
Definition restores_defaults (self : _ProfileUpdater) : bool :=
  reset_settings (_xbee_profile self) || is_str (_target self).

Definition network_is_stale (self : _ProfileUpdater) (s : state) : bool :=
  restores_defaults self || names_any _PARAMETERS_NETWORK self
  || _protocol_changed_by_settings (ses s).

Definition cache_is_stale (self : _ProfileUpdater) (s : state) : bool :=
  restores_defaults self || names_any _PARAMETERS_CACHE self
  || _protocol_changed_by_settings (ses s).

(** [get_network().clear()] on a local device,
    [get_local_xbee_device().get_network().remove_device(...)] on a remote
    one. *)
Definition drop_call (self : _ProfileUpdater) : call :=
  if _is_local self then c_network_clear else c_network_remove_device.

(** The profile sets the PAN identifier of a local device. *)
Definition network_update : _ProfileUpdater :=
  new_ProfileUpdater (Scenarios.collaborators_with []) LocalXBee
    (Scenarios.profile_of FlashFirmwareOption.FLASH_DIFFERENT 0x100A
       [Scenarios.setting "ID" XBeeSettingType.NUMBER XBeeSettingFormat.HEX
          "7FFF" (Bytes [127; 255])] false)
    3 true.

End Refresh.

(* ===================================================================== *)
(** * Hardware the libraries do not support *)
(* ===================================================================== *)

Module Hardware.
Import Py Updater.

(** [code not in SUPPORTED_HARDWARE_VERSIONS]. *)
Definition unsupported (supported : list Z) (code : Z) : bool :=
  negb (existsb (Z.eqb code) supported).

(** A local device whose hardware (0x50) the libraries do not list, and a
    profile for that hardware that asks for the flash and holds a file
    system. *)
Definition odd_device : device :=
  {| is_open := true; sync_ops_timeout := 4; apply_changes_enabled := true;
     operating_mode := 2;
     dev_firmware_version := Some [0x10; 0x0A];
     dev_hardware_version := Some 0x50;
     dev_protocol := 3;
     serial_settings := serial_settings Scenarios.xbee3 |}.

Definition odd_update : _ProfileUpdater :=
  new_ProfileUpdater (Scenarios.collaborators_with []) LocalXBee
    {| profile_settings := [Scenarios.setting_NI]; reset_settings := false;
       flash_firmware_option := FlashFirmwareOption.FLASH_ALWAYS;
       firmware_version := 0x100B; hardware_version := Some 0x50;
       has_local_filesystem := true; has_remote_filesystem := false;
       protocol := 3 |}
    3 true.

End Hardware.

(* ===================================================================== *)
(** * The steps of the settings phase *)
(* ===================================================================== *)

Module Schedule.
Import Py Updater.

(** [previous_percent], [setting_index] and the two flags as the [try]
    block of [_update_device_settings] sets them first. *)
Definition first_counters : counters :=
  {| setting_index := 1; previous_percent := 0;
     network_settings_changed := false;
     cache_settings_changed := false |}.

(** The [try] block of [_update_device_settings] up to the return of the
    [RE] write of the restore-defaults step. *)
Definition reset_write (self : _ProfileUpdater) : M unit :=
  progress self _TASK_UPDATE_SETTINGS (Some 0) ;;
  c <- report_step self (total_steps self) first_counters ;;
  _set_parameter_with_retries self "RE" (Bytes []) _PARAMETER_WRITE_RETRIES.

(** [self._xbee_device.operating_mode.code] as the restore-defaults step
    reads it, once the [RE] write has returned, in a phase entered in the
    state [s]: the mode it writes back as AP. *)
Definition mode_written_back (self : _ProfileUpdater) (s : state) : Z :=
  operating_mode
    (dev (snd (reset_write self (snd (enable_apply_changes false s))))).

(** No answer of a collaborator changes the operating mode the handle
    reports. *)
Definition mode_is_stable (self : _ProfileUpdater) : Prop :=
  forall t c d,
    operating_mode (resp_dev (oracle (collab self) t c) d) = operating_mode d.


(** The writes of one round of the loop over the profile settings: none
    for the AP setting of a local device, the write of the setting
    otherwise. *)
Definition setting_writes (self : _ProfileUpdater)
  (kv : string * Codec.XBeeProfileSetting) : list (string * value) :=
  let name := upper (Codec.name (snd kv)) in
  if _is_local self && String.eqb name "AP" then []
  else [(name, Codec.bytearray_value (snd kv))].

(** The writes of the restore-defaults step: RE and, on a local device,
    the operating mode [mode] written back as AP. *)
Definition reset_writes (self : _ProfileUpdater) (mode : Z)
  : list (string * value) :=
  ("RE", Bytes []) :: (if _is_local self then [("AP", Bytes [mode])] else []).

(** The steps of the phase in order, each with its writes: the
    restore-defaults step when the settings are reset or the target is a
    serial port, one step for each setting of the profile, the [WR] step and
    the [AC] step. *)
Definition step_writes (self : _ProfileUpdater) (mode : Z)
  : list (list (string * value)) :=
  (if reset_settings (_xbee_profile self) || is_str (_target self)
   then [reset_writes self mode] else [])
  ++ map (setting_writes self) (profile_settings (_xbee_profile self))
  ++ [[("WR", Bytes [])]; [("AC", Bytes [])]].

(** [setting_index * 100 // num_settings] for the step [k]. *)
Definition percent (self : _ProfileUpdater) (k : Z) : Z :=
  k * 100 / total_steps self.

(** What the callback is given before step [k]: its percentage, when
    there is a callback and the percentage is not that of step [k - 1];
    nothing otherwise. *)
Definition report_of (self : _ProfileUpdater) (k : Z) : list event :=
  if _progress_callback self
     && negb (percent self k =? percent self (k - 1))
  then [e_progress _TASK_UPDATE_SETTINGS (Some (percent self k))]
  else [].

(** The first report of the phase. *)
Definition first_report (self : _ProfileUpdater) : list event :=
  if _progress_callback self
  then [e_progress _TASK_UPDATE_SETTINGS (Some 0)] else [].

(** The events of the writes [w] of one step, made in their order: each
    write is attempted (failed attempts and pauses, [is_retry]) until it
    is accepted, and the next one comes only after that.  The flag tells
    whether all of them were accepted. *)
Inductive carried_out
  : list (string * value) -> list event -> bool -> Prop :=
| carried_all : carried_out [] [] true
| carried_stuck p v r retries :
    Forall (is_retry p v) retries ->
    carried_out ((p, v) :: r) retries false
| carried_next p v r retries rest b :
    Forall (is_retry p v) retries ->
    carried_out r rest b ->
    carried_out ((p, v) :: r)
      (retries ++ e_call (c_set_parameter p v) None :: rest) b.

(** The events of the steps [k], [k + 1], ... of the phase, whose writes
    are [steps]: each step starts with its report and goes on with its
    writes, and the next step starts only when all the writes of the step
    were accepted.  The flag tells whether all the steps were carried
    out. *)
Inductive scheduled (self : _ProfileUpdater)
  : Z -> list (list (string * value)) -> list event -> bool -> Prop :=
| scheduled_end k : scheduled self k [] [] true
| scheduled_stuck k w rest work :
    carried_out w work false ->
    scheduled self k (w :: rest) (report_of self k ++ work) false
| scheduled_next k w rest work tail b :
    carried_out w work true ->
    scheduled self (k + 1) rest tail b ->
    scheduled self k (w :: rest) (report_of self k ++ work ++ tail) b.

(** The code [m], run from [s], carries out the writes [w]; and it goes
    through the steps [steps] from step [k] on, with a result that
    satisfies [Q] when it gets through all of them. *)
Definition does (w : list (string * value)) {A} (m : M A) (s : state)
  : Prop :=
  exists work b,
    trace (snd (m s)) = trace s ++ work
    /\ carried_out w work b
    /\ (b = true -> exists a, fst (m s) = Ok a)
    /\ (b = false -> exists e, fst (m s) = Raise e).

Definition goes_through (self : _ProfileUpdater) (k : Z)
  (steps : list (list (string * value))) {A} (Q : A -> Prop) (m : M A)
  (s : state) : Prop :=
  exists evs b,
    trace (snd (m s)) = trace s ++ evs
    /\ scheduled self k steps evs b
    /\ (b = true -> exists a, fst (m s) = Ok a /\ Q a)
    /\ (b = false -> exists e, fst (m s) = Raise e).

(** The phase returns at once or raises before its [try] block: there is
    nothing to update, or the target is a remote node that the new
    firmware takes to another protocol. *)
Definition settings_skipped (self : _ProfileUpdater) (s : state) : bool :=
  Attempts.nothing_to_update self || Handle.unreachable_for_settings self s.


(** The [try] block of [update_profile] up to the settings phase: the
    first block, the flash decision, the flash and the handle of a
    recovery. *)
Definition before_settings (self : _ProfileUpdater) : M unit :=
  read_and_check self ;;
  flash_firmware <- flash_decision self ;;
  flash_phase self flash_firmware ;;
  recovery_open self.

(** The state in which the [try] block reaches the settings phase, or
    leaves before it. *)
Definition at_settings (self : _ProfileUpdater) (d : device) : state :=
  snd (before_settings self (at_try self d)).

End Schedule.

(* ===================================================================== *)
(** * Properties *)
(* ===================================================================== *)

Example py_int_dec_192 : Py.int 10 "192" = Some 192.
Proof. reflexivity. Qed.

Example py_int_hex_prefix : Py.int 16 " 0x1f " = Some 31.
Proof. reflexivity. Qed.

Example py_int_dec_empty : Py.int 10 "" = None.
Proof. reflexivity. Qed.

Example py_int_underscore : Py.int 10 "1__0" = None /\ Py.int 10 "1_0" = Some 10.
Proof. split; reflexivity. Qed.

Example py_split_ip : Py.split "." "192.168.1.1" = ["192"; "168"; "1"; "1"].
Proof. reflexivity. Qed.

Example py_split_empty_fields : Py.split "." "a..b." = ["a"; ""; "b"; ""].
Proof. reflexivity. Qed.

Section CodecEquations.
Import Py Codec.

(** C8. The reference equations of the setting codec: a Number or Combo
    setting (whatever its format) encodes "1A2B" as the bytes 0x1A, 0x2B; a
    Text/Ipv4 setting encodes "192.168.1.1" as 192, 168, 1, 1; a Button
    setting encodes any raw value as the empty byte sequence; a Text/Ascii
    setting encodes "ABC" as its UTF-8 bytes 65, 66, 67. *)
Theorem codec_reference_equations :
  (forall fmt,
      _setting_value_to_bytearray (Some XBeeSettingType.NUMBER) fmt
        (Some "1A2B") = Ok (Bytes [0x1A; 0x2B]))
  /\ (forall fmt,
         _setting_value_to_bytearray (Some XBeeSettingType.COMBO) fmt
           (Some "1A2B") = Ok (Bytes [0x1A; 0x2B]))
  /\ _setting_value_to_bytearray (Some XBeeSettingType.TEXT)
       (Some XBeeSettingFormat.IPV4) (Some "192.168.1.1")
     = Ok (Bytes [192; 168; 1; 1])
  /\ (forall fmt raw,
         _setting_value_to_bytearray (Some XBeeSettingType.BUTTON) fmt raw
         = Ok (Bytes []))
  /\ _setting_value_to_bytearray (Some XBeeSettingType.TEXT)
       (Some XBeeSettingFormat.ASCII) (Some "ABC")
     = Ok (Bytes (utf8 "ABC"))
  /\ utf8 "ABC" = [65; 66; 67].
Proof.
  split; [intros fmt; reflexivity|].
  split; [intros fmt; reflexivity|].
  split; [reflexivity|].
  split; [intros fmt raw; reflexivity|].
  split; reflexivity.
Qed.

End CodecEquations.

Section RegionLock.
Import Py Archive.

Example fw_version_str_1234 : fw_version_str 0x1234 = "1234".
Proof. reflexivity. Qed.

Example fw_version_str_short : fw_version_str 0x12 = "0012".
Proof. reflexivity. Qed.

Example fw_version_str_long : fw_version_str 0x1100A = "01100A".
Proof. reflexivity. Qed.

Example region_lock_hex_letter :
  exists e, parse_region_lock fw_version_str 0x1A34 (Some (Some "99")) = Raise e.
Proof. eexists. reflexivity. Qed.

End RegionLock.

Section RegionLockResolution.
Import Py Archive.

Lemma substring_index_1 (s : string) :
  String.length s = 4%nat ->
  exists c, String.get 1 s = Some c /\ substring 1 1 s = String c EmptyString.
Proof.
  destruct s as [|a [|b [|c [|d [|e r]]]]]; simpl; try discriminate.
  intros _. exists b. split; reflexivity.
Qed.

(** C9. When the region element of the firmware descriptor reads 99, the
    region lock is 0 if the rendered firmware version is not 4 characters
    long, and otherwise the base-0 integer parse of the character at index 1
    of that string (an error when that character is no decimal digit); a
    version rendered as "1234" gives region 2. *)
Theorem region_lock_sentinel_resolution
  (render : Z -> string) (fw : Z) (txt : string)
  (Hsentinel : int 10 txt = Some 99) :
  (String.length (render fw) <> 4%nat ->
   parse_region_lock render fw (Some (Some txt)) = Ok (Some 0))
  /\ (String.length (render fw) = 4%nat ->
      exists c, String.get 1 (render fw) = Some c
        /\ parse_region_lock render fw (Some (Some txt))
           = match int_base0_char c with
             | Some n => Ok (Some n)
             | None =>
                 Raise (Exn ValueError "invalid literal for int() with base 0")
             end)
  /\ (render fw = "1234" ->
      parse_region_lock render fw (Some (Some txt)) = Ok (Some 2)).
Proof.
  unfold parse_region_lock, int_of_element, resolve_region_lock.
  rewrite Hsentinel. simpl (99 =? 99).
  split; [|split].
  - intros Hlen. apply Nat.eqb_neq in Hlen. rewrite Hlen. reflexivity.
  - intros Hlen. destruct (substring_index_1 _ Hlen) as [c [Hget Hsub]].
    exists c. split; [exact Hget|].
    rewrite Hlen, Hsub. reflexivity.
  - intros ->. reflexivity.
Qed.

Lemma region_lock_sentinel_resolution_witness :
  int 10 "99" = Some 99
  /\ parse_region_lock fw_version_str 0x1234 (Some (Some "99")) = Ok (Some 2).
Proof.
  split; [reflexivity|].
  apply (region_lock_sentinel_resolution fw_version_str 0x1234 "99");
    reflexivity.
Defined.

End RegionLockResolution.

Section Release.
Import Py Archive.

(** C3. Once the lazy extraction has created the scratch directory, the
    finaliser of the profile leaves it on disk: [hasattr(self,
    'profile_folder')] is false for every profile (the attribute is
    [_profile_folder]), so [__del__] returns before the removal. *)
Theorem del_keeps_scratch_directory (d : string) (fs : disk) :
  hasattr "profile_folder" = false
  /\ (let (folder, fs') := mkdtemp_step d fs in
      folder = Some d /\ isdir fs' d = true
      /\ __del__ folder fs' = fs' /\ isdir (__del__ folder fs') d = true).
Proof.
  split; [reflexivity|].
  unfold mkdtemp_step, __del__. simpl.
  rewrite String.eqb_refl. simpl. repeat split.
Qed.

(** With the intended attribute test the same finaliser would remove it. *)
Lemma rmtree_removes (d : string) (fs : disk) : isdir (rmtree fs d) d = false.
Proof.
  unfold isdir, rmtree. induction fs as [|x r IH]; simpl; [reflexivity|].
  destruct (String.eqb x d) eqn:E; simpl; [exact IH|].
  rewrite String.eqb_sym, E. exact IH.
Qed.

End Release.

Section SettingsCatalog.
Import Py Codec Archive Samples.

#[local] Arguments add_profile_setting : simpl never.

Lemma opt_string_eqb_eq (a b : option string) :
  opt_string_eqb a b = true <-> a = b.
Proof.
  destruct a as [x|], b as [y|]; simpl; split; try discriminate; auto.
  - intros H. apply String.eqb_eq in H. now subst.
  - intros H. inversion H. apply String.eqb_refl.
Qed.

Lemma In_dict_set {V : Type} (d : list (string * V)) k v n x :
  In (n, x) (dict_set String.eqb d k v) -> (n, x) = (k, v) \/ In (n, x) d.
Proof.
  induction d as [|[k' v'] r IH]; simpl.
  - intros [H|[]]. left. now symmetry.
  - destruct (String.eqb k' k) eqn:E.
    + apply String.eqb_eq in E. subst k'.
      intros [H|H]; [left; now symmetry | right; now right].
    + intros [H|H]; [right; now left|].
      destruct (IH H) as [H'|H']; [now left | right; now right].
Qed.

Lemma dict_get_set_same {V : Type} (d : list (string * V)) k v :
  dict_get String.eqb (dict_set String.eqb d k v) k = Some v.
Proof.
  induction d as [|[k' v'] r IH]; simpl.
  - now rewrite String.eqb_refl.
  - destruct (String.eqb k' k) eqn:E; simpl; rewrite E; auto.
Qed.

Lemma dict_get_set_keeps {V : Type} (d : list (string * V)) k v k0 :
  dict_get String.eqb d k0 <> None ->
  dict_get String.eqb (dict_set String.eqb d k v) k0 <> None.
Proof.
  induction d as [|[k' v'] r IH]; simpl; [congruence|].
  destruct (String.eqb k' k) eqn:E; simpl;
    destruct (String.eqb k' k0) eqn:E0; auto; congruence.
Qed.

Lemma add_profile_setting_inv k v e acc acc' :
  add_profile_setting k v e acc = Ok acc' ->
  exists c ps,
    k = Some c /\ acc' = dict_set String.eqb acc (upper c) ps
    /\ name ps = upper c /\ value ps = v
    /\ type ps = setting_type_of e /\ format ps = setting_format_of e.
Proof.
  unfold add_profile_setting, new_XBeeProfileSetting.
  destruct k as [c|]; [|discriminate].
  destruct (_setting_value_to_bytearray _ _ _) as [b|x]; [|discriminate].
  simpl. destruct (setting_type_of e) eqn:Ht; [|discriminate].
  destruct (setting_format_of e) eqn:Hf; [|discriminate].
  intros H. inversion H; subst. eexists _, _. repeat split; simpl; eauto.
Qed.

Lemma match_firmware_settings_built raw elements k v :
  In (k, v) raw ->
  forall els acc acc',
    incl els elements ->
    Forall (built_from raw elements) acc ->
    match_firmware_settings k v els acc = Ok acc' ->
    Forall (built_from raw elements) acc'.
Proof.
  intros Hraw els. induction els as [|e r IH]; simpl; intros acc acc' Hincl Hacc H.
  - inversion H; now subst.
  - assert (Hr : incl r elements) by (intros x Hx; apply Hincl; now right).
    destruct (opt_string_eqb (fs_command e) k) eqn:E.
    + destruct (add_profile_setting k v e acc) as [acc1|x] eqn:Ha; [|discriminate].
      apply (IH acc1 acc' Hr); [|exact H].
      destruct (add_profile_setting_inv _ _ _ _ _ Ha)
        as [c [ps [-> [-> [Hn [Hv [Ht Hf]]]]]]].
      apply opt_string_eqb_eq in E.
      apply Forall_forall. intros [n x] Hin.
      apply In_dict_set in Hin. destruct Hin as [Hin|Hin].
      * inversion Hin; subst n x. exists c, v, e.
        repeat split; simpl; auto.
        -- apply Hincl. now left.
        -- intros Hnone. rewrite Ht. unfold setting_type_of. now rewrite Hnone.
        -- intros Hnone. rewrite Hf. unfold setting_format_of. now rewrite Hnone.
      * rewrite Forall_forall in Hacc. now apply Hacc.
    + now apply (IH acc acc' Hr).
Qed.

Lemma match_firmware_settings_keeps k v els k0 :
  forall acc acc',
    match_firmware_settings k v els acc = Ok acc' ->
    dict_get String.eqb acc k0 <> None ->
    dict_get String.eqb acc' k0 <> None.
Proof.
  induction els as [|e r IH]; simpl; intros acc acc' H Hk.
  - inversion H; now subst.
  - destruct (opt_string_eqb (fs_command e) k).
    + destruct (add_profile_setting k v e acc) as [acc1|x] eqn:Ha;
        [|discriminate H].
      apply (IH acc1 acc' H).
      destruct (add_profile_setting_inv _ _ _ _ _ Ha) as [c [ps [_ [-> _]]]].
      now apply dict_get_set_keeps.
    + now apply (IH acc acc').
Qed.

Lemma match_firmware_settings_stores c v els :
  forall acc acc',
    match_firmware_settings (Some c) v els acc = Ok acc' ->
    has_match els (Some c, v) = true ->
    dict_get String.eqb acc' (upper c) <> None.
Proof.
  unfold has_match. simpl.
  induction els as [|e r IH]; simpl; intros acc acc' H Hm; [discriminate|].
  destruct (opt_string_eqb (fs_command e) (Some c)) eqn:E.
  - destruct (add_profile_setting (Some c) v e acc) as [acc1|x] eqn:Ha;
      [|discriminate H].
    apply (match_firmware_settings_keeps _ _ _ _ _ _ H).
    destruct (add_profile_setting_inv _ _ _ _ _ Ha) as [c' [ps [Hc [-> _]]]].
    inversion Hc; subst c'. rewrite dict_get_set_same. discriminate.
  - simpl in Hm. now apply (IH acc acc').
Qed.

Lemma match_firmware_settings_unmatched k v els acc :
  has_match els (k, v) = false ->
  match_firmware_settings k v els acc = Ok acc.
Proof.
  unfold has_match. simpl. induction els as [|e r IH]; simpl; [reflexivity|].
  intros H. apply orb_false_iff in H. destruct H as [H1 H2].
  rewrite H1. now apply IH.
Qed.

Lemma parse_from_built raw elements :
  forall rest acc d,
    incl rest raw ->
    Forall (built_from raw elements) acc ->
    parse_at_settings_from rest elements acc = Ok d ->
    Forall (built_from raw elements) d.
Proof.
  induction rest as [|[k v] r IH]; simpl; intros acc d Hincl Hacc H.
  - inversion H; now subst.
  - destruct (match_firmware_settings k v elements acc) as [acc1|x] eqn:Hm;
      [|discriminate].
    apply (IH acc1 d); [intros y Hy; apply Hincl; now right | | exact H].
    apply (match_firmware_settings_built raw elements k v
             (Hincl _ (or_introl eq_refl)) elements acc acc1
             (incl_refl _) Hacc Hm).
Qed.

Lemma parse_from_keeps elements k0 :
  forall rest acc d,
    parse_at_settings_from rest elements acc = Ok d ->
    dict_get String.eqb acc k0 <> None ->
    dict_get String.eqb d k0 <> None.
Proof.
  induction rest as [|[k v] r IH]; simpl; intros acc d H Hk.
  - inversion H; now subst.
  - destruct (match_firmware_settings k v elements acc) as [acc1|x] eqn:Hm;
      [|discriminate H].
    apply (IH acc1 d H). now apply (match_firmware_settings_keeps _ _ _ _ _ _ Hm).
Qed.

Lemma parse_from_stores elements c v :
  forall rest acc d,
    parse_at_settings_from rest elements acc = Ok d ->
    In (Some c, v) rest ->
    has_match elements (Some c, v) = true ->
    dict_get String.eqb d (upper c) <> None.
Proof.
  induction rest as [|[k w] r IH]; simpl; intros acc d H Hin Hm; [contradiction|].
  destruct (match_firmware_settings k w elements acc) as [acc1|x] eqn:Hs;
    [|discriminate H].
  destruct Hin as [Heq|Hin].
  - inversion Heq; subst k w.
    apply (parse_from_keeps _ _ _ _ _ H).
    now apply (match_firmware_settings_stores _ _ _ _ _ Hs).
  - now apply (IH acc1 d).
Qed.

Lemma parse_from_filter elements :
  forall raw acc,
    parse_at_settings_from (filter (has_match elements) raw) elements acc
    = parse_at_settings_from raw elements acc.
Proof.
  induction raw as [|[k v] r IH]; simpl; intros acc; [reflexivity|].
  destruct (has_match elements (k, v)) eqn:Hm; simpl.
  - destruct (match_firmware_settings k v elements acc); auto.
  - rewrite (match_firmware_settings_unmatched _ _ _ _ Hm). apply IH.
Qed.

(** C2 (as the parser has it). In a successfully parsed descriptor a raw
    (command, value) pair yields a profile setting exactly when its command
    matches an entry of the firmware catalog: every stored setting is built
    from a raw pair and a matching entry, with type [NO_TYPE] / format
    [NO_FORMAT] when that entry has no [control_type] / [format] child; every
    matched pair is stored under its upper-case command; and the pairs
    without a match are skipped, with no setting and no error (parsing
    without them gives the same outcome). *)
Theorem parse_at_settings_matches_catalog
  (raw : raw_settings) (elements : list firmware_setting)
  (d : profile_settings)
  (Hparsed : parse_at_settings raw elements = Ok d) :
  Forall (built_from raw elements) d
  /\ (forall c v, In (Some c, v) raw ->
        has_match elements (Some c, v) = true ->
        dict_get String.eqb d (upper c) <> None)
  /\ parse_at_settings (filter (has_match elements) raw) elements = Ok d.
Proof.
  unfold parse_at_settings in *. split; [|split].
  - apply (parse_from_built raw elements raw [] d); auto using incl_refl.
  - intros c v Hin Hm. now apply (parse_from_stores elements c v raw [] d).
  - now rewrite parse_from_filter.
Qed.

Lemma parse_at_settings_matches_catalog_witness :
  exists d,
    parse_at_settings raw_NI_ID catalog_NI = Ok d
    /\ Forall (built_from raw_NI_ID catalog_NI) d
    /\ parse_at_settings (filter (has_match catalog_NI) raw_NI_ID) catalog_NI
       = Ok d.
Proof.
  eexists. split; [reflexivity|].
  pose proof (parse_at_settings_matches_catalog raw_NI_ID catalog_NI _
                eq_refl) as [H1 [_ H3]].
  split; [exact H1 | exact H3].
Defined.

(** C2, counterexample. The raw pair ("ID", "7FFF") has no entry in the
    catalog: the descriptor parses, and no setting named ID comes out (in
    particular none of type [NO_TYPE]). *)
Lemma unmatched_setting_is_dropped :
  In (Some "ID", Some "7FFF") raw_NI_ID
  /\ has_match catalog_NI (Some "ID", Some "7FFF") = false
  /\ exists d,
       parse_at_settings raw_NI_ID catalog_NI = Ok d
       /\ dict_get String.eqb d "ID" = None
       /\ map fst d = ["NI"; "D7"]
       /\ ~ exists ps, In ps d /\ name (snd ps) = "ID".
Proof.
  split; [right; left; reflexivity|].
  split; [reflexivity|].
  eexists. split; [reflexivity|].
  split; [reflexivity|]. split; [reflexivity|].
  intros [ps [Hin Hn]]. simpl in Hin.
  destruct Hin as [<-|[<-|[]]]; simpl in Hn; discriminate Hn.
Qed.

End SettingsCatalog.

Section EntryPoint.
Import Py Entry.

(** C10. A caller-supplied timeout of 0 is not kept: the test is [not
    timeout], so 0 is replaced like an absent timeout.  A call with
    timeout 0 that gets past the checks hands 20 to the updater for a
    serial port, and 3 for a local device and 20 for a remote one to the
    communication interface that takes the operation over or else to the
    updater, which runs with that timeout; the whole call is the call
    without a timeout.  Any other timeout is handed on as it is. *)
Theorem zero_timeout_is_replaced_by_default
  (W : Updater.collaborators) (profile_path_is_str : bool)
  (constructed : result (Updater.XBeeProfile * bool))
  (comm_iface : option bool) (d : Updater.device)
  (target : target_arg) (progress_callback : bool) :
  (forall port, resolve_timeout (Updater.SerialPort port) (Some 0) = 20)
  /\ resolve_timeout Updater.RemoteXBee (Some 0) = 20
  /\ resolve_timeout Updater.LocalXBee (Some 0) = 3
  /\ (forall t, resolve_timeout t (Some 0) = resolve_timeout t None)
  /\ apply_xbee_profile W profile_path_is_str constructed comm_iface d
       target (Some 0) progress_callback
     = apply_xbee_profile W profile_path_is_str constructed comm_iface d
         target None progress_callback
  /\ (forall port xbee_profile,
         apply_xbee_profile W true (Ok (xbee_profile, true)) comm_iface d
           (a_str port) (Some 0) progress_callback
         = Updated 20
             (Updater.run
                (Updater.new_ProfileUpdater W (Updater.SerialPort port)
                   xbee_profile 20 progress_callback) d))
  /\ (forall xbee_profile has_local_firmware_files,
         apply_xbee_profile W true
           (Ok (xbee_profile, has_local_firmware_files)) comm_iface d
           a_XBeeDevice (Some 0) progress_callback
         = if takes_over comm_iface then Delegated 3
           else Updated 3
                  (Updater.run
                     (Updater.new_ProfileUpdater W Updater.LocalXBee
                        xbee_profile 3 progress_callback) d))
  /\ (forall xbee_profile has_local_firmware_files,
         apply_xbee_profile W true
           (Ok (xbee_profile, has_local_firmware_files)) comm_iface d
           a_RemoteXBeeDevice (Some 0) progress_callback
         = if takes_over comm_iface then Delegated 20
           else Updated 20
                  (Updater.run
                     (Updater.new_ProfileUpdater W Updater.RemoteXBee
                        xbee_profile 20 progress_callback) d))
  /\ (forall t xbee_profile has_local_firmware_files v,
         to_target target = Some t -> v <> 0 ->
         Updater.is_str t && negb has_local_firmware_files = false ->
         apply_xbee_profile W true
           (Ok (xbee_profile, has_local_firmware_files)) comm_iface d
           target (Some v) progress_callback
         = if negb (Updater.is_str t) && takes_over comm_iface
           then Delegated v
           else Updated v
                  (Updater.run
                     (Updater.new_ProfileUpdater W t xbee_profile v
                        progress_callback) d)).
Proof.
  split; [intros port; reflexivity|].
  split; [reflexivity|]. split; [reflexivity|].
  assert (H : forall t, resolve_timeout t (Some 0) = resolve_timeout t None)
    by (intros t; reflexivity).
  split; [exact H|].
  split.
  { unfold apply_xbee_profile.
    destruct (to_target target) as [t|]; [|reflexivity].
    now rewrite H. }
  split; [reflexivity|].
  split; [intros p hf; unfold apply_xbee_profile, takes_over; simpl;
          destruct comm_iface as [[|]|]; reflexivity|].
  split; [intros p hf; unfold apply_xbee_profile, takes_over; simpl;
          destruct comm_iface as [[|]|]; reflexivity|].
  intros t p hf v Ht Hv Hf. unfold apply_xbee_profile. rewrite Ht. simpl.
  rewrite Hf.
  assert (R : resolve_timeout t (Some v) = v).
  { unfold resolve_timeout, not_timeout.
    apply Z.eqb_neq in Hv. now rewrite Hv. }
  rewrite R. unfold takes_over.
  destruct (negb (Updater.is_str t)); simpl; [|reflexivity].
  destruct comm_iface as [[|]|]; reflexivity.
Qed.

(** A non-zero timeout is kept. *)
Lemma nonzero_timeout_is_kept (t : Updater.target) (v : Z) :
  v <> 0 -> resolve_timeout t (Some v) = v.
Proof.
  intros Hv. unfold resolve_timeout, not_timeout.
  apply Z.eqb_neq in Hv. now rewrite Hv.
Qed.

End EntryPoint.

(* --------------------------------------------------------------------- *)
(** ** Frame rules *)
(* --------------------------------------------------------------------- *)

Section FrameRules.
Import Py Updater Frame.
Context {T : Type}.
Variable okc : call -> bool.
Variable kept : session -> T.
Variable J : T -> Prop.

Local Abbreviation extends := (Frame.extends okc kept).
Local Abbreviation holds := (Frame.holds okc kept J).

Lemma extends_refl (s : state) : extends s s.
Proof.
  split; [|reflexivity]. exists []. now rewrite app_nil_r.
Qed.

Lemma extends_trans (s1 s2 s3 : state) :
  extends s1 s2 -> extends s2 s3 -> extends s1 s3.
Proof.
  intros [[e1 [H1 F1]] K1] [[e2 [H2 F2]] K2]. split.
  - exists (e1 ++ e2). split.
    + now rewrite H2, H1, app_assoc.
    + apply Forall_app. now split.
  - congruence.
Qed.

Lemma extends_J (s s' : state) :
  extends s s' -> J (kept (ses s)) -> J (kept (ses s')).
Proof. intros [_ K] H. now rewrite K. Qed.

Lemma holds_ret {A} (a : A) : holds (ret a).
Proof. intros s _. apply extends_refl. Qed.

Lemma holds_raise {A} (e : exn) : holds (@raise A e).
Proof. intros s _. apply extends_refl. Qed.

Lemma holds_gets {A} (f : state -> A) : holds (gets f).
Proof. intros s _. apply extends_refl. Qed.

Lemma holds_lift {A} (r : result A) : holds (lift r).
Proof. intros s _. apply extends_refl. Qed.

Lemma holds_lift_opt {A} (o : option A) (e : exn) : holds (lift_opt o e).
Proof. destruct o; [apply holds_ret | apply holds_raise]. Qed.

Lemma holds_bind {A B} (m : M A) (f : A -> M B) :
  holds m -> (forall a, holds (f a)) -> holds (bind m f).
Proof.
  intros Hm Hf s HJ. unfold bind.
  pose proof (Hm s HJ) as E. destruct (m s) as [[a|e] s1]; simpl in *.
  - apply extends_trans with s1; [exact E|].
    apply Hf. now apply (extends_J s).
  - exact E.
Qed.

(** After a read of the state, what was read can be used. *)
Lemma holds_gets_bind {A B} (f : state -> A) (k : A -> M B) :
  (forall s, J (kept (ses s)) -> holds (k (f s))) -> holds (bind (gets f) k).
Proof. intros H s HJ. unfold bind, gets. simpl. now apply (H s HJ). Qed.

Lemma holds_try_except {A} (m : M A) (h : exn -> option (M A)) :
  holds m -> (forall e k, h e = Some k -> holds k) -> holds (try_except m h).
Proof.
  intros Hm Hh s HJ. unfold try_except.
  pose proof (Hm s HJ) as E. destruct (m s) as [[a|e] s1]; simpl in *.
  - exact E.
  - destruct (h e) as [k|] eqn:Hk; [|exact E].
    apply extends_trans with s1; [exact E|].
    apply (Hh e k Hk). now apply (extends_J s).
Qed.

Lemma holds_try_except_on {A} (m : M A) cls (k : exn -> M A) :
  holds m -> (forall e, holds (k e)) -> holds (try_except m (on cls k)).
Proof.
  intros Hm Hk. apply holds_try_except; [exact Hm|].
  intros e k'. unfold on. destruct (existsb _ cls); [|discriminate].
  intros H. inversion H. apply Hk.
Qed.

Lemma holds_try_except_all {A} (m : M A) (k : exn -> M A) :
  holds m -> (forall e, holds (k e)) ->
  holds (try_except m (fun e => Some (k e))).
Proof.
  intros Hm Hk. apply holds_try_except; [exact Hm|].
  intros e k' H. inversion H. apply Hk.
Qed.

Lemma holds_try_finally {A} (m : M A) (f : M unit) :
  holds m -> holds f -> holds (try_finally m f).
Proof.
  intros Hm Hf s HJ. unfold try_finally.
  pose proof (Hm s HJ) as E. destruct (m s) as [r s1]; simpl in *.
  pose proof (Hf s1 (extends_J _ _ E HJ)) as E'.
  destruct (f s1) as [[u|e] s2]; simpl in *;
    now apply extends_trans with s1.
Qed.

Lemma holds_emit (e : event) : allowed okc e -> holds (emit e).
Proof.
  intros He s _. split; [|reflexivity].
  exists [e]. split; [reflexivity|]. now constructor.
Qed.

Lemma holds_modify_dev (f : device -> device) : holds (modify_dev f).
Proof.
  intros s _. split; [|reflexivity]. exists []. simpl. now rewrite app_nil_r.
Qed.

Lemma holds_modify_ses (f : session -> session) :
  (forall x, kept (f x) = kept x) -> holds (modify_ses f).
Proof.
  intros Hf s _. split; [|apply Hf]. exists []. simpl. now rewrite app_nil_r.
Qed.

Lemma holds_invoke (self : _ProfileUpdater) (c : call) :
  okc c = true -> holds (invoke self c).
Proof.
  intros Hc s _. unfold invoke.
  destruct (resp_exn _); (split; [|reflexivity]);
    (eexists; split; [reflexivity|]); now repeat constructor.
Qed.

Lemma holds_invoke_with_progress (self : _ProfileUpdater) (c : call) :
  okc c = true -> holds (invoke_with_progress self c).
Proof.
  intros Hc s _. unfold invoke_with_progress.
  assert (F : forall l, Forall (allowed okc) (map report l)).
  { induction l; simpl; constructor; auto. exact I. }
  destruct (resp_exn _); (split; [|reflexivity]);
    (eexists; split; [reflexivity|]);
    (apply Forall_app; split;
     [destruct (_progress_callback self); [apply F | constructor]
     | now repeat constructor]).
Qed.

Lemma bind_Ok {A B} (m : M A) (f : A -> M B) s a s' :
  m s = (Ok a, s') -> bind m f s = f a s'.
Proof. intros H. unfold bind. now rewrite H. Qed.

Lemma bind_Raise {A B} (m : M A) (f : A -> M B) s e s' :
  m s = (Raise e, s') -> bind m f s = (Raise e, s').
Proof. intros H. unfold bind. now rewrite H. Qed.

End FrameRules.

(* --------------------------------------------------------------------- *)
(** ** Frames of the steps of [_ProfileUpdater] *)
(* --------------------------------------------------------------------- *)

Create HintDb frames.

Ltac frame :=
  repeat (first
    [ progress (unfold Updater.when)
    | match goal with
      | |- Frame.holds _ _ _ (Updater.ret _) => apply holds_ret
      | |- Frame.holds _ _ _ (Updater.raise _) => apply holds_raise
      | |- Frame.holds _ _ _ (Updater.gets _) => apply holds_gets
      | |- Frame.holds _ _ _ (Updater.lift _) => apply holds_lift
      | |- Frame.holds _ _ _ (Updater.lift_opt _ _) => apply holds_lift_opt
      | |- Frame.holds _ _ _ (Updater.modify_dev _) => apply holds_modify_dev
      | |- Frame.holds _ _ _ (Updater.modify_ses _) =>
          apply holds_modify_ses; solve [auto]
      | |- Frame.holds _ _ _ (Updater.emit _) => apply holds_emit; exact I
      | |- Frame.holds _ _ _ (Updater.invoke _ _) =>
          apply holds_invoke; solve [auto]
      | |- Frame.holds _ _ _ (Updater.invoke_with_progress _ _) =>
          apply holds_invoke_with_progress; solve [auto]
      | |- Frame.holds _ _ _ (Updater.try_except _ (Updater.on _ _)) =>
          apply holds_try_except_on; [|intro]
      | |- Frame.holds _ _ _ (Updater.try_except _ (fun e => Some _)) =>
          apply holds_try_except_all; [|intro]
      | |- Frame.holds _ _ _ (Updater.try_finally _ _) =>
          apply holds_try_finally
      | |- Frame.holds _ _ _ (Updater.bind _ _) => apply holds_bind; [|intro]
      | |- Frame.holds _ _ _ (if ?b then _ else _) => case_eq b; intro
      | |- Frame.holds _ _ _ (match ?x with _ => _ end) => case_eq x; intros
      end
    | solve [auto with frames] ]).

Section Steps.
Import Py Updater Frame.
Context {T : Type}.
Variable self : _ProfileUpdater.
Variable okc : call -> bool.
Variable kept : session -> T.
Variable J : T -> Prop.

Local Abbreviation holds := (Frame.holds okc kept J).

(** Which fields a step may write without touching the kept part. *)
Hypothesis K_xbee_device : forall b x, kept (with_xbee_device b x) = kept x.
Hypothesis K_was_connected : forall b x, kept (with_was_connected b x) = kept x.
Hypothesis K_device_firmware_version :
  forall v x, kept (with_device_firmware_version v x) = kept x.
Hypothesis K_device_hardware_version :
  forall v x, kept (with_device_hardware_version v x) = kept x.
Hypothesis K_protocol_changed_by_fw :
  forall b x, kept (with_protocol_changed_by_fw b x) = kept x.
Hypothesis K_protocol_changed_by_settings :
  forall b x, kept (with_protocol_changed_by_settings b x) = kept x.
Hypothesis K_xpro_ap : forall v x, kept (with_xpro_ap v x) = kept x.
Hypothesis K_profile_protocol :
  forall p x, kept (with_profile_protocol p x) = kept x.
Hypothesis K_profile_folder :
  forall b x, kept (with_profile_folder b x) = kept x.

(** Which calls are allowed. *)
Hypothesis H_open : _is_local self = true -> forall f, okc (c_open f) = true.
Hypothesis H_close : _is_local self = true -> okc c_close = true.
Hypothesis H_get :
  _is_local self = false -> forall p, okc (c_get_parameter p) = true.
Hypothesis H_set_step :
  forall p v, mem p ["RE"; "WR"; "AC"] = true ->
              okc (c_set_parameter p v) = true.
Hypothesis H_set_AP :
  _is_local self = true -> forall v, okc (c_set_parameter "AP" v) = true.
Hypothesis H_set_setting :
  forall p v, _is_local self && String.eqb p "AP" = false ->
              okc (c_set_parameter p v) = true.
Hypothesis H_flash : forall c, is_flash c = true -> okc c = true.
Hypothesis H_serial :
  _is_local self = true -> forall pp, okc (c_apply_settings pp) = true.
Hypothesis H_info : okc c_read_device_info = true.
Hypothesis H_network_clear : okc c_network_clear = true.
Hypothesis H_network_remove : okc c_network_remove_device = true.
Hypothesis H_fs : forall c, is_filesystem_operation c = true -> okc c = true.
Hypothesis H_mkdtemp : okc c_mkdtemp = true.
Hypothesis H_extractall : okc c_extractall = true.
Hypothesis H_fill_paths : okc c_fill_paths = true.
Hypothesis H_default :
  forall n, okc (c_get_setting_default_value n) = true.

(** What is assumed of the kept part: the target is a device handle. *)
Hypothesis J_device : forall x, J (kept x) -> _xbee_device x = true.

Lemma holds_progress task percent : holds (progress self task percent).
Proof. unfold progress. frame. Qed.

Lemma holds_sleep ms : holds (sleep ms).
Proof. unfold sleep. frame. Qed.

Lemma holds_set_sync_ops_timeout t : holds (set_sync_ops_timeout t).
Proof. unfold set_sync_ops_timeout. frame. Qed.

Lemma holds_enable_apply_changes b : holds (enable_apply_changes b).
Proof. unfold enable_apply_changes. frame. Qed.

Lemma holds_device_open f :
  _is_local self = true -> holds (device_open self f).
Proof. intros L. unfold device_open. frame. Qed.

Lemma holds_device_close : _is_local self = true -> holds device_close.
Proof.
  intros L. unfold device_close. apply holds_bind; [|intro; frame].
  apply holds_emit. simpl. auto.
Qed.

#[local] Hint Resolve holds_progress holds_sleep holds_set_sync_ops_timeout
  holds_enable_apply_changes holds_device_open holds_device_close : frames.

Lemma holds__uncompress_profile : holds (_uncompress_profile self).
Proof. unfold _uncompress_profile. frame. Qed.

#[local] Hint Resolve holds__uncompress_profile : frames.

Lemma holds_asset_path : holds (asset_path self).
Proof. unfold asset_path. frame. Qed.

Lemma holds__read_parameter_with_retries p n :
  _is_local self = false -> holds (_read_parameter_with_retries self p n).
Proof. intros L. induction n as [|n IH]; simpl; frame. Qed.

Lemma holds_set_parameter_loop p v n msg :
  okc (c_set_parameter p v) = true -> holds (set_parameter_loop self p v n msg).
Proof. intros Hc. revert msg. induction n as [|n IH]; intros msg; simpl; frame. Qed.

Lemma holds__set_parameter_with_retries p v n :
  okc (c_set_parameter p v) = true ->
  holds (_set_parameter_with_retries self p v n).
Proof. intros Hc. now apply holds_set_parameter_loop. Qed.

#[local] Hint Resolve holds_asset_path holds__read_parameter_with_retries
  holds__set_parameter_with_retries : frames.

Lemma holds__read_device_parameters : holds (_read_device_parameters self).
Proof. unfold _read_device_parameters. frame. Qed.

Lemma holds__update_firmware : holds (_update_firmware self).
Proof.
  unfold _update_firmware. frame.
  apply holds_invoke_with_progress.
  match goal with |- okc (if ?b then _ else _) = true => destruct b end;
    apply H_flash; reflexivity.
Qed.

Lemma holds_get_setting_default_value n :
  holds (get_setting_default_value self n).
Proof. unfold get_setting_default_value. frame. Qed.

#[local] Hint Resolve holds__read_device_parameters holds__update_firmware
  holds_get_setting_default_value : frames.

Lemma holds_port_defaults c : holds (port_defaults self c).
Proof. unfold port_defaults. frame. Qed.

#[local] Hint Resolve holds_port_defaults : frames.

Lemma holds__check_port_settings_changed :
  _is_local self = true -> holds (_check_port_settings_changed self).
Proof. intros L. unfold _check_port_settings_changed. frame. Qed.

Lemma holds__check_protocol_changed_by_fw :
  holds (_check_protocol_changed_by_fw self).
Proof. unfold _check_protocol_changed_by_fw. frame. Qed.

Lemma holds__check_protocol_changed_by_settings :
  holds (_check_protocol_changed_by_settings self).
Proof. unfold _check_protocol_changed_by_settings. frame. Qed.

Lemma holds_report_step n c : holds (report_step self n c).
Proof. unfold report_step. frame. Qed.

#[local] Hint Resolve holds__check_port_settings_changed
  holds__check_protocol_changed_by_fw
  holds__check_protocol_changed_by_settings holds_report_step : frames.

Lemma holds_reset_step n c : holds (reset_step self n c).
Proof. unfold reset_step. frame. Qed.

Lemma holds_settings_loop n l :
  forall c, holds (settings_loop self n l c).
Proof.
  induction l as [|[k setting] r IH]; intros c; simpl; frame.
Qed.

Lemma holds_write_step n c : holds (write_step self n c).
Proof. unfold write_step. frame. Qed.

Lemma holds_apply_changes_loop n : holds (apply_changes_loop self n).
Proof. induction n as [|n IH]; simpl; frame. Qed.

#[local] Hint Resolve holds_reset_step holds_settings_loop holds_write_step
  holds_apply_changes_loop : frames.

Lemma holds_apply_step n c : holds (apply_step self n c).
Proof. unfold apply_step. frame. Qed.

#[local] Hint Resolve holds_apply_step : frames.

Lemma holds_queue_settings : holds (queue_settings self).
Proof. unfold queue_settings. frame. Qed.

#[local] Hint Resolve holds_queue_settings : frames.

Lemma holds_write_settings : holds (write_settings self).
Proof. unfold write_settings. frame. Qed.

Lemma holds_read_device_info_loop n : holds (read_device_info_loop self n).
Proof. induction n as [|n IH]; simpl; frame. Qed.

#[local] Hint Resolve holds_write_settings holds_read_device_info_loop : frames.

Lemma holds__update_device_settings : holds (_update_device_settings self).
Proof.
  unfold _update_device_settings. frame.
  apply holds_invoke. destruct (_is_local self); assumption.
Qed.

Lemma holds_filesystem_errors (m : M unit) :
  holds m -> holds (try_except m filesystem_errors).
Proof.
  intros Hm. apply holds_try_except; [exact Hm|].
  intros e k. unfold filesystem_errors.
  destruct (isinstance e FileSystemNotSupportedException);
    [intros H; inversion H; frame|].
  destruct (isinstance e FileSystemException);
    [intros H; inversion H; frame | discriminate].
Qed.

Lemma holds__legacy_update_file_system :
  holds (_legacy_update_file_system self).
Proof.
  unfold _legacy_update_file_system. frame;
    apply holds_filesystem_errors; frame.
Qed.

#[local] Hint Resolve holds__update_device_settings
  holds__legacy_update_file_system : frames.

Lemma holds__update_file_system : holds (_update_file_system self).
Proof.
  unfold _update_file_system. frame. apply holds_filesystem_errors. frame.
Qed.

Lemma holds_read_and_check : holds (read_and_check self).
Proof. unfold read_and_check. frame. Qed.

Lemma holds_flash_decision : holds (flash_decision self).
Proof. unfold flash_decision. frame. Qed.

Lemma holds_supported_or_raise l msg : holds (supported_or_raise l msg).
Proof. unfold supported_or_raise. frame. Qed.

#[local] Hint Resolve holds__update_file_system holds_read_and_check
  holds_flash_decision holds_supported_or_raise : frames.

Lemma holds_flash_phase b : holds (flash_phase self b).
Proof. unfold flash_phase. frame. Qed.

Lemma holds_recovery_open : holds (recovery_open self).
Proof.
  unfold recovery_open. apply holds_gets_bind. intros s HJ.
  rewrite (J_device _ HJ). simpl. frame.
Qed.

Lemma holds_filesystem_phase : holds (filesystem_phase self).
Proof. unfold filesystem_phase. frame. Qed.

#[local] Hint Resolve holds_flash_phase holds_recovery_open
  holds_filesystem_phase : frames.

(** The steps after the flash decision. *)
Lemma holds_after_flash :
  holds (recovery_open self ;; _update_device_settings self ;;
         filesystem_phase self).
Proof. frame. Qed.

Lemma holds_update_steps : holds (update_steps self).
Proof. unfold update_steps. frame. Qed.

Lemma holds_restore_operating_mode : holds (restore_operating_mode self).
Proof.
  unfold restore_operating_mode.
  apply holds_bind; [frame|]. intros ap.
  apply holds_bind; [frame|]. intros mode.
  unfold when. case_eq (must_restore_ap self ap mode); intros E; [|frame].
  assert (L : _is_local self = true).
  { unfold must_restore_ap in E. apply andb_true_iff in E. destruct E as [E _].
    apply andb_true_iff in E. now destruct E as [E _]. }
  frame.
Qed.

Lemma holds_restore_sync_ops_timeout old :
  holds (restore_sync_ops_timeout old).
Proof. unfold restore_sync_ops_timeout. frame. Qed.

Lemma holds_restore_connection : holds (restore_connection self).
Proof.
  unfold restore_connection.
  apply holds_bind; [frame|]. intros has_device.
  unfold when. case_eq (_is_local self && has_device); intros E; [|frame].
  apply andb_true_iff in E. destruct E as [L _]. frame.
Qed.

#[local] Hint Resolve holds_restore_operating_mode
  holds_restore_sync_ops_timeout holds_restore_connection : frames.

Lemma holds_cleanup old : holds (cleanup self old).
Proof. unfold cleanup. frame. Qed.

Lemma holds_change_sync_ops_timeout : holds (change_sync_ops_timeout self).
Proof. unfold change_sync_ops_timeout. frame. Qed.

Lemma holds_try_body : holds (try_body self).
Proof. unfold try_body. frame. apply holds_update_steps. Qed.

Lemma holds_update_profile : holds (update_profile self).
Proof.
  unfold update_profile. frame.
  - apply holds_change_sync_ops_timeout.
  - apply holds_try_body.
  - apply holds_cleanup.
Qed.

(** With [FLASH_DIFFERENT] and the profile's firmware version on the device,
    the steps after the first block go without the flash. *)
Hypothesis J_same_firmware :
  forall x, J (kept x) ->
            _device_firmware_version x
            = Some (firmware_version (_xbee_profile self)).
Hypothesis Flash_different :
  flash_firmware_option (_xbee_profile self)
  = FlashFirmwareOption.FLASH_DIFFERENT.

Lemma holds_update_steps_same_firmware : holds (update_steps self).
Proof.
  intros s HJ. unfold update_steps.
  assert (E1 : flash_decision self s = (Ok false, s)).
  { unfold flash_decision, bind, gets. simpl.
    rewrite Flash_different, (J_same_firmware _ HJ). simpl.
    now rewrite Z.eqb_refl. }
  assert (E2 : flash_phase self false s = (Ok tt, s)).
  { unfold flash_phase, bind, gets, when. simpl.
    now rewrite (J_device _ HJ). }
  rewrite (bind_Ok _ _ _ _ _ E1), (bind_Ok _ _ _ _ _ E2).
  now apply holds_after_flash.
Qed.

End Steps.

(* --------------------------------------------------------------------- *)
(** ** Stages of a run *)
(* --------------------------------------------------------------------- *)

Section Stages.
Import Py Updater Frame.

Variable self : _ProfileUpdater.
Variable d : device.

Lemma run_unfold :
  run self d
  = try_finally (try_body self) (cleanup self (saved_timeout self d))
      (at_try self d).
Proof.
  unfold run, update_profile, at_try, saved_timeout, change_sync_ops_timeout,
    bind, gets, init_state, init_session.
  simpl. destruct (is_str (_target self)); reflexivity.
Qed.

Lemma at_try_session :
  ses (at_try self d) = init_session (_target self) (_xbee_profile self).
Proof.
  unfold at_try, change_sync_ops_timeout, bind, gets, init_state. simpl.
  destruct (is_str (_target self)); reflexivity.
Qed.

Lemma at_try_device :
  dev (at_try self d)
  = if is_str (_target self) then d else set_timeout (_timeout self) d.
Proof.
  unfold at_try, change_sync_ops_timeout, bind, gets, init_state. simpl.
  destruct (is_str (_target self)); reflexivity.
Qed.

Lemma at_try_trace :
  trace (at_try self d)
  = if is_str (_target self) then []
    else [e_set_sync_ops_timeout (_timeout self)].
Proof.
  unfold at_try, change_sync_ops_timeout, bind, gets, init_state. simpl.
  destruct (is_str (_target self)); reflexivity.
Qed.

(** The state on entry of the [finally] block, by the outcome of the first
    block. *)
Lemma at_cleanup_unfold :
  at_cleanup self d
  = match fst (after_read self d) with
    | Ok _ => snd (update_steps self (snd (after_read self d)))
    | Raise _ => snd (after_read self d)
    end.
Proof.
  unfold at_cleanup, after_read, try_body, bind.
  destruct (read_and_check self (at_try self d)) as [[u|e] s1]; reflexivity.
Qed.

Lemma run_state :
  snd (run self d) = snd (cleanup self (saved_timeout self d) (at_cleanup self d)).
Proof.
  rewrite run_unfold. unfold try_finally, at_cleanup.
  destruct (try_body self (at_try self d)) as [r sb]. simpl.
  destruct (cleanup self (saved_timeout self d) sb) as [[u|e] sc]; reflexivity.
Qed.

Lemma run_outcome :
  cleanup_outcome self d = Ok tt ->
  fst (run self d) = fst (try_body self (at_try self d)).
Proof.
  rewrite run_unfold. unfold cleanup_outcome, try_finally, at_cleanup.
  fold (saved_timeout self d).
  destruct (try_body self (at_try self d)) as [r sb]. simpl.
  destruct (cleanup self (saved_timeout self d) sb) as [[u|e] sc]; simpl;
    [reflexivity | discriminate].
Qed.

End Stages.

(** The trace part of a frame. *)
Section Growth.
Import Py Updater Frame.

Lemma grows_refl okc s : grows okc s s.
Proof. exists []. now rewrite app_nil_r. Qed.

Lemma grows_trans okc s1 s2 s3 :
  grows okc s1 s2 -> grows okc s2 s3 -> grows okc s1 s3.
Proof.
  intros [e1 [H1 F1]] [e2 [H2 F2]]. exists (e1 ++ e2). split.
  - now rewrite H2, H1, app_assoc.
  - apply Forall_app. now split.
Qed.

Lemma holds_grows {T A} okc (kept : session -> T) J (m : M A) s :
  holds okc kept J m -> J (kept (ses s)) -> grows okc s (snd (m s)).
Proof. intros H HJ. exact (proj1 (H s HJ)). Qed.

Lemma holds_kept {T A} okc (kept : session -> T) J (m : M A) s :
  holds okc kept J m -> J (kept (ses s)) ->
  kept (ses (snd (m s))) = kept (ses s).
Proof. intros H HJ. exact (proj2 (H s HJ)). Qed.

Lemma calls_app t1 t2 : calls (t1 ++ t2) = calls t1 ++ calls t2.
Proof.
  induction t1 as [|e r IH]; simpl; [reflexivity|].
  destruct e; simpl; now rewrite ?IH.
Qed.

(** A trace of allowed events holds no call of a forbidden kind. *)
Lemma allowed_call_count (kind : call -> bool) evs :
  Forall (allowed (fun c => negb (kind c))) evs -> call_count kind evs = 0%nat.
Proof.
  unfold call_count. induction 1 as [|e r He _ IH]; simpl; [reflexivity|].
  destruct e; simpl; auto.
  simpl in He. apply negb_true_iff in He. now rewrite He.
Qed.

Lemma grows_weaken (okc okc' : call -> bool) s s' :
  (forall c, okc c = true -> okc' c = true) ->
  grows okc s s' -> grows okc' s s'.
Proof.
  intros Hw [evs [H F]]. exists evs. split; [exact H|].
  eapply Forall_impl; [|exact F]. intros [] He; simpl in *; auto.
Qed.

Lemma grows_call_count (kind : call -> bool) s s' :
  grows (fun c => negb (kind c)) s s' ->
  call_count kind (trace s') = call_count kind (trace s).
Proof.
  intros [evs [H F]]. rewrite H. unfold call_count.
  rewrite calls_app, filter_app, length_app.
  fold (call_count kind evs). rewrite (allowed_call_count kind evs F).
  apply Nat.add_0_r.
Qed.

End Growth.

(* --------------------------------------------------------------------- *)
(** ** What the first block establishes *)
(* --------------------------------------------------------------------- *)

Section FirstBlock.
Import Py Updater Frame.

Variable self : _ProfileUpdater.

Lemma bind_inv {A B} (m : M A) (f : A -> M B) s b s1 :
  bind m f s = (Ok b, s1) ->
  exists a s', m s = (Ok a, s') /\ f a s' = (Ok b, s1).
Proof.
  unfold bind. destruct (m s) as [[a|e] s']; [|discriminate].
  intros H. now exists a, s'.
Qed.

Lemma modify_ses_inv f s (u : unit) s1 :
  modify_ses f s = (Ok u, s1) ->
  s1 = {| dev := dev s; ses := f (ses s); trace := trace s |}.
Proof. unfold modify_ses. intros H. now inversion H. Qed.

Lemma gets_inv {A} (f : state -> A) s a s1 :
  gets f s = (Ok a, s1) -> a = f s /\ s1 = s.
Proof. unfold gets. intros H. now inversion H. Qed.

Lemma lift_inv {A} (r : result A) s a s1 :
  lift r s = (Ok a, s1) -> r = Ok a /\ s1 = s.
Proof. unfold lift. intros H. now inversion H. Qed.

Lemma lift_opt_inv {A} (o : option A) e s a s1 :
  lift_opt o e s = (Ok a, s1) -> o = Some a /\ s1 = s.
Proof.
  unfold lift_opt. destruct o; unfold ret, raise; intros H;
    now inversion H.
Qed.

(** A successful parameter read has stored a firmware version. *)
Lemma read_device_parameters_firmware s u s1 :
  _read_device_parameters self s = (Ok u, s1) ->
  exists v, _device_firmware_version (ses s1) = Some v.
Proof.
  unfold _read_device_parameters. intros H.
  apply bind_inv in H as (? & s2 & _ & H).
  apply bind_inv in H as (fw & s3 & _ & H).
  apply bind_inv in H as (v & s4 & _ & H).
  apply bind_inv in H as (? & s5 & H5 & H).
  apply modify_ses_inv in H5.
  apply bind_inv in H as (hw & s6 & H6 & H).
  apply gets_inv in H6 as [_ ->].
  apply bind_inv in H as (? & s7 & H7 & H).
  apply lift_opt_inv in H7 as [_ ->].
  inversion H; subst. exists v. reflexivity.
Qed.

(** What follows the parameter read in the first block keeps the fields
    [read_fields], the trace and the device. *)
Lemma read_and_check_device s :
  _xbee_device (ses s) = true ->
  forall r s1, read_and_check self s = (r, s1) ->
  exists r' s', _read_device_parameters self s = (r', s')
    /\ read_fields (ses s1) = read_fields (ses s')
    /\ trace s1 = trace s' /\ dev s1 = dev s'
    /\ (r = Ok tt -> r' = Ok tt).
Proof.
  intros Hd r s1. unfold read_and_check, bind at 1, gets at 1. simpl.
  rewrite Hd. unfold bind at 1.
  destruct (_read_device_parameters self s) as [[[]|e] s'] eqn:E.
  - intros H. exists (Ok tt), s'. split; [reflexivity|].
    revert H. unfold bind, gets, lift_opt, modify_ses, ret, raise, when,
      _check_protocol_changed_by_fw, _check_protocol_changed_by_settings.
    simpl.
    repeat (simpl; unfold bind, gets, when, modify_ses, ret, raise;
            match goal with
            | |- context [if ?b then _ else _] => destruct b
            | |- context [match ?x with Some _ => _ | None => _ end] =>
                destruct x
            end);
      simpl; intros H; inversion H; subst; simpl;
      repeat split; discriminate.
  - intros H. inversion H; subst. exists (Raise e), s1.
    repeat split. discriminate.
Qed.

Lemma read_and_check_firmware s s1 :
  _xbee_device (ses s) = true ->
  read_and_check self s = (Ok tt, s1) ->
  exists v, _device_firmware_version (ses s1) = Some v.
Proof.
  intros Hd H.
  destruct (read_and_check_device s Hd _ _ H) as (r' & s' & E & K & _ & _ & Hr).
  rewrite (Hr eq_refl) in E.
  destruct (read_device_parameters_firmware _ _ _ E) as [v Hv].
  exists v. unfold read_fields in K. inversion K. congruence.
Qed.

End FirstBlock.

(* --------------------------------------------------------------------- *)
(** ** The flash decision *)
(* --------------------------------------------------------------------- *)

Section FlashDecision.
Import Py Updater Frame.

(** Side conditions of the frame lemmas, for a call policy given by a
    closed boolean function. *)
Ltac policy :=
  intros; simpl in *;
  try reflexivity; try assumption; try tauto;
  try match goal with
      | c : call |- _ => destruct c; simpl in *; try reflexivity;
                         try discriminate
      end.

(** C6. On a device handle with [FLASH_DIFFERENT], when the firmware
    version read from the device is the profile's, the run makes no
    firmware-flash call at all (neither the device's [update_firmware] nor
    [update_local_firmware]). *)
Theorem same_firmware_is_never_flashed
  (self : _ProfileUpdater) (d : device)
  (Hdevice : is_str (_target self) = false)
  (Hoption : flash_firmware_option (_xbee_profile self)
             = FlashFirmwareOption.FLASH_DIFFERENT)
  (Hsame : forall v,
      _device_firmware_version (ses (snd (after_read self d))) = Some v ->
      v = firmware_version (_xbee_profile self)) :
  call_count is_flash (trace (snd (run self d))) = 0%nat.
Proof.
  set (okc := fun c => negb (is_flash c)).
  assert (Hd0 : _xbee_device (ses (at_try self d)) = true).
  { rewrite at_try_session. simpl. now rewrite Hdevice. }
  (* first block *)
  assert (G1 : grows okc (at_try self d) (snd (after_read self d))
               /\ _xbee_device (ses (snd (after_read self d))) = true).
  { pose proof (holds_read_and_check self okc _xbee_device (fun _ => True))
      as H.
    unfold after_read. split.
    - apply (holds_grows _ _ _ _ _ ltac:(apply H; policy) I).
    - rewrite (holds_kept _ _ _ _ _ ltac:(apply H; policy) I). exact Hd0. }
  destruct G1 as [G1 Hd1].
  (* the steps after it *)
  assert (G2 : grows okc (snd (after_read self d)) (at_cleanup self d)).
  { rewrite at_cleanup_unfold.
    destruct (after_read self d) as [[[]|e] s1] eqn:E; simpl in *;
      [|apply grows_refl].
    destruct (read_and_check_firmware self _ _ Hd0 E) as [v Hv].
    pose proof (Hsame v Hv) as ->.
    set (kept := fun x => (_device_firmware_version x, _xbee_device x)).
    set (J := fun p : option Z * bool =>
                p = (Some (firmware_version (_xbee_profile self)), true)).
    apply (holds_grows okc kept J).
    - apply holds_update_steps_same_firmware; unfold kept, J; policy;
        try (match goal with H : (_, _) = (_, _) |- _ => now inversion H end).
    - unfold kept, J. now rewrite Hv, Hd1. }
  (* the finally block *)
  assert (G3 : grows okc (at_cleanup self d) (snd (run self d))).
  { rewrite run_state.
    apply (holds_grows okc (fun _ => tt) (fun _ => True)); [|exact I].
    apply holds_cleanup; policy. }
  rewrite (grows_call_count is_flash _ _ G3),
    (grows_call_count is_flash _ _ G2), (grows_call_count is_flash _ _ G1).
  rewrite at_try_trace, Hdevice. reflexivity.
Qed.

End FlashDecision.

Section FlashDecisionSample.
Import Py Updater Scenarios.

Lemma same_firmware_is_never_flashed_witness :
  call_count is_flash (trace (snd (run plain_update xbee3))) = 0%nat.
Proof.
  apply same_firmware_is_never_flashed.
  - reflexivity.
  - reflexivity.
  - intros v H. vm_compute in H. inversion H. reflexivity.
Defined.

Example plain_update_trace :
  run plain_update xbee3
  = (Ok tt,
     {| dev := xbee3; ses := ses (snd (run plain_update xbee3));
        trace :=
          [e_set_sync_ops_timeout 3;
           e_progress _TASK_READING_DEVICE_PARAMETERS (Some 0);
           e_enable_apply_changes false;
           e_progress _TASK_UPDATE_SETTINGS (Some 0);
           e_progress _TASK_UPDATE_SETTINGS (Some 33);
           e_call (c_set_parameter "NI" (Bytes [110; 111; 100; 101])) None;
           e_progress _TASK_UPDATE_SETTINGS (Some 66);
           e_call (c_set_parameter "WR" (Bytes [])) None;
           e_progress _TASK_UPDATE_SETTINGS (Some 100);
           e_call (c_set_parameter "AC" (Bytes [])) None;
           e_enable_apply_changes true;
           e_call c_read_device_info None;
           e_set_sync_ops_timeout 4] |}).
Proof. vm_compute. reflexivity. Qed.

End FlashDecisionSample.

(* --------------------------------------------------------------------- *)
(** ** The connection of a local device *)
(* --------------------------------------------------------------------- *)

Section LocalConnection.
Import Py Updater Frame.

Variable self : _ProfileUpdater.
Hypothesis Hlocal : _is_local self = true.

(** The parameter read of a local device records whether it was open, and
    leaves it open when it succeeds. *)
Lemma read_device_parameters_local s r s' :
  _read_device_parameters self s = (r, s') ->
  _was_connected (ses s') = (is_open (dev s) && _was_connected (ses s))
  /\ _xbee_device (ses s') = _xbee_device (ses s)
  /\ _xpro_ap (ses s') = _xpro_ap (ses s)
  /\ (r = Ok tt -> is_open (dev s') = true).
Proof.
  unfold _read_device_parameters. rewrite Hlocal.
  unfold progress, device_open, invoke, sanitize_firmware_version, int16.
  repeat (simpl; unfold bind, gets, when, modify_ses, modify_dev, emit, ret,
            raise, lift, lift_opt, try_except, on;
          match goal with
          | |- context [if ?b then _ else _] => destruct b eqn:?
          | |- context [match ?x with Some _ => _ | None => _ end] =>
              destruct x eqn:?
          end);
    simpl; intros H; inversion H; subst; simpl;
    repeat split; try discriminate; try reflexivity;
    destruct (is_open (dev s)); simpl in *;
    try discriminate; reflexivity.
Qed.

End LocalConnection.

(* --------------------------------------------------------------------- *)
(** ** The [finally] block *)
(* --------------------------------------------------------------------- *)

Section Cleanup.
Import Py Updater Frame.

Variable self : _ProfileUpdater.

Ltac run_all :=
  repeat (simpl; unfold bind, gets, when, modify_ses, modify_dev, emit, ret,
            raise, lift, lift_opt, try_except, on;
          match goal with
          | |- context [if ?b then _ else _] => destruct b eqn:?
          | |- context [match ?x with Some _ => _ | None => _ end] =>
              destruct x eqn:?
          end).

Lemma restore_operating_mode_skip s :
  must_restore_ap self (_xpro_ap (ses s)) (operating_mode (dev s)) = false ->
  restore_operating_mode self s = (Ok tt, s).
Proof.
  intros H. unfold restore_operating_mode, bind, gets, when. simpl.
  now rewrite H.
Qed.

Lemma restore_sync_ops_timeout_sets t s :
  exists s', restore_sync_ops_timeout (Some t) s = (Ok tt, s')
    /\ sync_ops_timeout (dev s') = t /\ ses s' = ses s
    /\ is_open (dev s') = is_open (dev s)
    /\ trace s' = trace s ++ [e_set_sync_ops_timeout t].
Proof.
  unfold restore_sync_ops_timeout, set_sync_ops_timeout, bind, emit,
    modify_dev. simpl. eexists. repeat split.
Qed.

Lemma restore_connection_timeout s :
  sync_ops_timeout (dev (snd (restore_connection self s)))
  = sync_ops_timeout (dev s).
Proof.
  unfold restore_connection, device_open, device_close, invoke.
  run_all; reflexivity.
Qed.

Lemma restore_connection_open s s' :
  _is_local self = true -> _xbee_device (ses s) = true ->
  restore_connection self s = (Ok tt, s') ->
  is_open (dev s') = _was_connected (ses s).
Proof.
  intros L D. unfold restore_connection, device_open, device_close, invoke,
    bind, gets, when, emit, modify_dev, ret.
  simpl. rewrite L, D. simpl.
  destruct (_was_connected (ses s)), (is_open (dev s)) eqn:O; simpl;
    try (intros H; inversion H; subst; simpl; congruence).
  destruct (resp_exn _); intros H; inversion H; subst; reflexivity.
Qed.

(** With the device open, or recorded as closed, the connection is settled
    without a call that can fail. *)
Lemma restore_connection_settled s :
  (_is_local self && _xbee_device (ses s) = true ->
   is_open (dev s) = true \/ _was_connected (ses s) = false) ->
  exists s', restore_connection self s = (Ok tt, s')
    /\ grows (fun c => negb (is_settings_write c
                             || is_filesystem_operation c)) s s'.
Proof.
  intros H. unfold restore_connection, device_close.
  destruct (_is_local self && _xbee_device (ses s)) eqn:E;
    unfold bind, gets, when, emit, modify_dev; simpl; rewrite E;
    [|eexists; split; [reflexivity | apply grows_refl]].
  specialize (H eq_refl).
  destruct (_was_connected (ses s)), (is_open (dev s)); simpl;
    try (destruct H; discriminate);
    eexists; (split; [reflexivity|]); try apply grows_refl.
  eexists. split; [reflexivity|]. repeat constructor.
Qed.

(** The first two steps of the block keep the fields of the parameter
    read. *)
Lemma restore_steps_keep old :
  holds (fun _ => true) read_fields (fun _ => True)
    (restore_operating_mode self ;; restore_sync_ops_timeout old).
Proof.
  apply holds_bind; [|intros _].
  - apply holds_restore_operating_mode; reflexivity.
  - apply holds_restore_sync_ops_timeout.
Qed.

Lemma cleanup_timeout t s s' :
  cleanup self (Some t) s = (Ok tt, s') -> sync_ops_timeout (dev s') = t.
Proof.
  unfold cleanup. intros H.
  apply bind_inv in H as (? & s1 & _ & H).
  apply bind_inv in H as (? & s2 & H2 & H).
  destruct (restore_sync_ops_timeout_sets t s1) as (s2' & E & Ht & _).
  rewrite E in H2. inversion H2; subst s2'.
  rewrite <- Ht, <- (restore_connection_timeout s2). now rewrite H.
Qed.

Lemma cleanup_open old s s' :
  _is_local self = true -> _xbee_device (ses s) = true ->
  cleanup self old s = (Ok tt, s') ->
  is_open (dev s') = _was_connected (ses s).
Proof.
  intros L D H.
  assert (K : read_fields
                (ses (snd ((restore_operating_mode self ;;
                            restore_sync_ops_timeout old) s)))
              = read_fields (ses s))
    by (apply (holds_kept _ _ _ _ _ (restore_steps_keep old) I)).
  unfold cleanup in H.
  assert (H' : bind (restore_operating_mode self ;;
                     restore_sync_ops_timeout old)
                 (fun _ => restore_connection self) s = (Ok tt, s')).
  { revert H. unfold bind.
    destruct (restore_operating_mode self s) as [[u|e] s1]; [|auto].
    destruct (restore_sync_ops_timeout old s1) as [[u'|e] s2]; auto. }
  apply bind_inv in H' as (? & s2 & E & H').
  rewrite E in K. simpl in K. unfold read_fields in K. inversion K.
  rewrite (restore_connection_open s2 s' L); congruence.
Qed.

End Cleanup.

(* --------------------------------------------------------------------- *)
(** ** Restoring the device handle *)
(* --------------------------------------------------------------------- *)

Section Restore.
Import Py Updater Frame Scenarios.

Ltac policy :=
  intros; simpl in *;
  try reflexivity; try assumption; try tauto;
  try match goal with
      | c : call |- _ => destruct c; simpl in *; try reflexivity;
                         try discriminate
      end.

(** The connection flag on entry of the [finally] block is the state of the
    connection when the run started. *)
Lemma was_connected_at_cleanup (self : _ProfileUpdater) (d : device) :
  _target self = LocalXBee ->
  _was_connected (ses (at_cleanup self d)) = is_open d
  /\ _xbee_device (ses (at_cleanup self d)) = true.
Proof.
  intros Ht.
  assert (L : _is_local self = true) by (unfold _is_local; now rewrite Ht).
  assert (S0 : ses (at_try self d)
               = init_session (_target self) (_xbee_profile self))
    by apply at_try_session.
  assert (D0 : _xbee_device (ses (at_try self d)) = true)
    by (rewrite S0, Ht; reflexivity).
  assert (O0 : is_open (dev (at_try self d)) = is_open d)
    by (rewrite at_try_device, Ht; reflexivity).
  rewrite at_cleanup_unfold. unfold after_read.
  destruct (read_and_check self (at_try self d)) as [r s1] eqn:E.
  destruct (read_and_check_device self _ D0 _ _ E)
    as (r' & s' & E' & K & _ & _ & _).
  destruct (read_device_parameters_local self L _ _ _ E')
    as (W & D & _ & _).
  unfold read_fields in K.
  assert (K1 : _was_connected (ses s1) = _was_connected (ses s'))
    by congruence.
  assert (K2 : _xbee_device (ses s1) = _xbee_device (ses s'))
    by congruence.
  assert (W1 : _was_connected (ses s1) = is_open d).
  { rewrite K1, W, O0, S0. simpl. apply andb_true_r. }
  assert (D1 : _xbee_device (ses s1) = true) by congruence.
  simpl. destruct r as [[]|e]; [|now split].
  set (kept := fun x => (_was_connected x, _xbee_device x)).
  set (J := fun p : bool * bool => snd p = true).
  assert (H : kept (ses (snd (update_steps self s1))) = kept (ses s1)).
  { apply (holds_kept (fun _ => true) kept J); [|exact D1].
    apply holds_update_steps; unfold kept, J; policy. }
  unfold kept in H. inversion H. split; congruence.
Qed.

(** X12. What the [finally] block achieves when it raises nothing itself.
    On a device handle, whatever the outcome of the phases before it (normal
    completion or an error of the parameter read, the flash, the settings or
    the file system), the synchronous-operation timeout is back to its value
    before the call; the connection of a local device is back to its state
    on entry (reopened if it was open, closed if it was closed); no open or
    close call is made on a remote device; and the caller gets the outcome
    of the phases. *)
Theorem cleanup_restores_timeout_and_connection
  (self : _ProfileUpdater) (d : device)
  (Hdevice : is_str (_target self) = false)
  (Hcleanup : cleanup_outcome self d = Ok tt) :
  sync_ops_timeout (dev (snd (run self d))) = sync_ops_timeout d
  /\ (_target self = LocalXBee ->
      is_open (dev (snd (run self d))) = is_open d)
  /\ (_target self = RemoteXBee ->
      call_count is_connection_call (trace (snd (run self d))) = 0%nat)
  /\ fst (run self d) = fst (try_body self (at_try self d)).
Proof.
  assert (C : cleanup self (saved_timeout self d) (at_cleanup self d)
              = (Ok tt, snd (run self d))).
  { rewrite run_state. unfold cleanup_outcome in Hcleanup.
    destruct (cleanup self (saved_timeout self d) (at_cleanup self d))
      as [r s]. simpl in *. subst r. reflexivity. }
  split; [|split; [|split]].
  - unfold saved_timeout in C. rewrite Hdevice in C.
    apply (cleanup_timeout self _ _ _ C).
  - intros Ht.
    destruct (was_connected_at_cleanup self d Ht) as [W D].
    rewrite <- W. apply (cleanup_open self _ _ _) with (3 := C); [|exact D].
    unfold _is_local. now rewrite Ht.
  - intros Ht.
    assert (L : _is_local self = false)
      by (unfold _is_local; now rewrite Ht).
    set (okc := fun c => negb (is_connection_call c)).
    assert (G : grows okc
                  (init_state (_target self) (_xbee_profile self) d)
                  (snd (run self d))).
    { unfold run.
      apply (holds_grows okc _xbee_device (fun b => b = true)).
      - apply holds_update_profile; policy; congruence.
      - simpl. now rewrite Hdevice. }
    rewrite (grows_call_count is_connection_call _ _ G). reflexivity.
  - now apply run_outcome.
Qed.

Lemma cleanup_restores_timeout_and_connection_witness :
  sync_ops_timeout (dev (snd (run plain_update xbee3))) = 4
  /\ is_open (dev (snd (run plain_update xbee3))) = true.
Proof.
  destruct (cleanup_restores_timeout_and_connection plain_update xbee3)
    as (H1 & H2 & _).
  - reflexivity.
  - vm_compute. reflexivity.
  - split; [exact H1 | exact (H2 eq_refl)].
Defined.

(** C1, at an input where the restoration is missed. The profile sets AP
    (withheld) and NI on a local device in escaped API mode; the device stops
    answering, so the settings phase raises its update error; the [finally]
    block then tries the withheld AP write first, which fails as well, and
    the statements after it are not reached: the timeout of the handle stays
    at the value of the call (3 instead of 4), and what the caller gets is
    the error of that write, not an update error. *)
Theorem failed_cleanup_keeps_call_timeout :
  is_str (_target unreachable_update) = false
  /\ fst (try_body unreachable_update (at_try unreachable_update xbee3))
     = Raise (UpdateProfileException_
                "Error updating XBee settings: Error setting parameter 'NI': timeout")
  /\ fst (run unreachable_update xbee3)
     = Raise (Exn XBeeException "Error setting parameter 'AP': timeout")
  /\ sync_ops_timeout xbee3 = 4
  /\ sync_ops_timeout (dev (snd (run unreachable_update xbee3))) = 3
  /\ sync_ops_timeout (dev (snd (run unreachable_update xbee3)))
     <> sync_ops_timeout xbee3.
Proof.
  split; [reflexivity|]. split; [vm_compute; reflexivity|].
  split; [vm_compute; reflexivity|].
  split; [reflexivity|]. split; [vm_compute; reflexivity|].
  vm_compute. discriminate.
Qed.

End Restore.

(* --------------------------------------------------------------------- *)
(** ** A profile that must not flash *)
(* --------------------------------------------------------------------- *)

Section DontFlash.
Import Py Updater Frame Scenarios.

Ltac policy :=
  intros; simpl in *;
  try reflexivity; try assumption; try tauto;
  try match goal with
      | c : call |- _ => destruct c; simpl in *; try reflexivity;
                         try discriminate
      end.

Lemma opt_Z_eqb_neq (a : option Z) (b : Z) :
  a <> Some b -> opt_Z_eqb a (Some b) = false.
Proof.
  destruct a as [x|]; simpl; [|reflexivity].
  intros H. apply Z.eqb_neq. congruence.
Qed.

(** C5 (as the code has it). With [DONT_FLASH], when the first block goes
    through (the parameters are read and the hardware is the profile's) and
    the firmware version read from the device is not the profile's, the run
    fails with the firmware-incompatible update error, and has made no
    settings write and no file-system operation. *)
Theorem dont_flash_mismatch_fails_fast
  (self : _ProfileUpdater) (d : device)
  (Hoption : flash_firmware_option (_xbee_profile self)
             = FlashFirmwareOption.DONT_FLASH)
  (Hread : fst (after_read self d) = Ok tt)
  (Hdiff : _device_firmware_version (ses (snd (after_read self d)))
           <> Some (firmware_version (_xbee_profile self))) :
  fst (run self d)
  = Raise (UpdateProfileException_ _ERROR_FIRMWARE_NOT_COMPATIBLE)
  /\ call_count is_settings_write (trace (snd (run self d))) = 0%nat
  /\ call_count is_filesystem_operation (trace (snd (run self d))) = 0%nat.
Proof.
  set (okc := fun c => negb (is_settings_write c
                             || is_filesystem_operation c)).
  destruct (after_read self d) as [r s1] eqn:E. simpl in *. subst r.
  unfold after_read in E.
  (* the fields after the first block *)
  assert (F : grows okc (at_try self d) s1
              /\ _xpro_ap (ses s1) = NoneV
              /\ _xbee_device (ses s1) = negb (is_str (_target self))).
  { set (kept := fun x => (_xpro_ap x, _xbee_device x)).
    pose proof (holds_read_and_check self okc kept (fun _ => True)) as H.
    assert (H' : holds okc kept (fun _ => True) (read_and_check self))
      by (apply H; unfold kept; policy).
    pose proof (holds_grows _ _ _ _ (at_try self d) H' I) as G.
    pose proof (holds_kept _ _ _ _ (at_try self d) H' I) as K.
    rewrite E in G, K. simpl in G, K. unfold kept in K.
    rewrite at_try_session in K. simpl in K.
    split; [exact G|]. split; congruence. }
  destruct F as (G1 & A1 & D1).
  (* the device of a local target is open *)
  assert (O1 : _is_local self && _xbee_device (ses s1) = true ->
               is_open (dev s1) = true).
  { intros H. apply andb_true_iff in H. destruct H as [L D].
    assert (D0 : _xbee_device (ses (at_try self d)) = true).
    { rewrite at_try_session. simpl. congruence. }
    destruct (read_and_check_device self _ D0 _ _ E)
      as (r' & s' & E' & _ & _ & Hd & Hr).
    rewrite (Hr eq_refl) in E'.
    destruct (read_device_parameters_local self L _ _ _ E')
      as (_ & _ & _ & O).
    rewrite Hd. now apply O. }
  (* the body stops at the flash decision *)
  assert (B : try_body self (at_try self d)
              = (Raise (UpdateProfileException_
                          _ERROR_FIRMWARE_NOT_COMPATIBLE), s1)).
  { unfold try_body. rewrite (bind_Ok _ _ _ _ _ E).
    unfold update_steps. apply bind_Raise.
    unfold flash_decision, bind, gets. simpl.
    rewrite Hoption, (opt_Z_eqb_neq _ _ Hdiff). reflexivity. }
  (* the finally block goes through *)
  assert (C : exists s2,
             cleanup self (saved_timeout self d) s1 = (Ok tt, s2)
             /\ grows okc s1 s2).
  { unfold cleanup.
    rewrite (bind_Ok _ _ s1 tt s1).
    2:{ apply restore_operating_mode_skip. rewrite A1.
        unfold must_restore_ap. simpl. now rewrite andb_false_r. }
    unfold saved_timeout. destruct (is_str (_target self)) eqn:T.
    - simpl restore_sync_ops_timeout. rewrite (bind_Ok _ _ s1 tt s1)
        by reflexivity.
      apply restore_connection_settled. intros H. left. now apply O1.
    - destruct (restore_sync_ops_timeout_sets (sync_ops_timeout d) s1)
        as (s2 & E2 & _ & S2 & O2 & T2).
      rewrite (bind_Ok _ _ _ _ _ E2).
      destruct (restore_connection_settled self s2) as (s3 & E3 & G3).
      { rewrite S2, O2. intros H. left. now apply O1. }
      exists s3. split; [exact E3|].
      apply grows_trans with s2; [|exact G3].
      exists [e_set_sync_ops_timeout (sync_ops_timeout d)].
      split; [exact T2 | repeat constructor]. }
  destruct C as (s2 & C & G2).
  assert (R : run self d
              = (Raise (UpdateProfileException_
                          _ERROR_FIRMWARE_NOT_COMPATIBLE), s2)).
  { rewrite run_unfold. unfold try_finally. now rewrite B, C. }
  rewrite R. simpl. split; [reflexivity|].
  assert (G : grows okc (at_try self d) s2)
    by (apply grows_trans with s1; assumption).
  assert (Z0 : forall kind,
             call_count kind (trace (at_try self d)) = 0%nat).
  { intros kind. rewrite at_try_trace.
    destruct (is_str (_target self)); reflexivity. }
  split.
  - rewrite (grows_call_count is_settings_write (at_try self d) s2);
      [apply Z0|].
    apply (grows_weaken okc); [|exact G].
    unfold okc. intros c H. apply negb_true_iff in H.
    apply orb_false_iff in H. apply negb_true_iff. tauto.
  - rewrite (grows_call_count is_filesystem_operation (at_try self d) s2);
      [apply Z0|].
    apply (grows_weaken okc); [|exact G].
    unfold okc. intros c H. apply negb_true_iff in H.
    apply orb_false_iff in H. apply negb_true_iff. tauto.
Qed.

Lemma dont_flash_mismatch_fails_fast_witness :
  fst (run frozen_update xbee3)
  = Raise (UpdateProfileException_ _ERROR_FIRMWARE_NOT_COMPATIBLE)
  /\ call_count is_settings_write (trace (snd (run frozen_update xbee3)))
     = 0%nat.
Proof.
  destruct (dont_flash_mismatch_fails_fast frozen_update xbee3)
    as (H1 & H2 & _).
  - reflexivity.
  - vm_compute. reflexivity.
  - vm_compute. discriminate.
  - split; [exact H1 | exact H2].
Defined.

(** C5, counterexample. The profile forbids the flash and is for firmware
    0x100B; the device runs 0x100A, on other hardware: the run fails with
    the hardware-incompatible error, not the firmware-incompatible one. *)
Lemma hardware_mismatch_comes_first :
  flash_firmware_option (_xbee_profile frozen_update)
  = FlashFirmwareOption.DONT_FLASH
  /\ sanitize_firmware_version (dev_firmware_version xbee2) = Ok 0x100A
  /\ firmware_version (_xbee_profile frozen_update) = 0x100B
  /\ fst (run frozen_update xbee2)
     = Raise (UpdateProfileException_ _ERROR_HARDWARE_NOT_COMPATIBLE)
  /\ fst (run frozen_update xbee2)
     <> Raise (UpdateProfileException_ _ERROR_FIRMWARE_NOT_COMPATIBLE).
Proof.
  split; [reflexivity|]. split; [reflexivity|]. split; [reflexivity|].
  split; [vm_compute; reflexivity|]. vm_compute. discriminate.
Qed.

End DontFlash.

(* --------------------------------------------------------------------- *)
(** ** Writes with retries *)
(* --------------------------------------------------------------------- *)

Section Writes.
Import Py Updater Frame.

Variable self : _ProfileUpdater.

(** A write that gets through ends the trace with the accepted call, after
    failed attempts and pauses only; it leaves the updater's fields and the
    auto-apply flag alone. *)
Lemma set_parameter_loop_ok p v n :
  forall msg s s',
    set_parameter_loop self p v n msg s = (Ok tt, s') ->
    exists evs,
      trace s' = trace s ++ evs ++ [e_call (c_set_parameter p v) None]
      /\ Forall (is_retry p v) evs
      /\ apply_changes_enabled (dev s') = apply_changes_enabled (dev s)
      /\ ses s' = ses s.
Proof.
  induction n as [|n IH]; intros msg s s'; simpl; [discriminate|].
  unfold try_except, bind at 1, invoke.
  destruct (resp_exn (oracle (collab self) (trace s) (c_set_parameter p v)))
    as [e|] eqn:E; simpl.
  - unfold on. destruct (existsb (isinstance e) _); [|discriminate].
    unfold bind at 1, when, sleep, emit.
    destruct (negb (n =? 0)%nat); simpl; intros H;
      apply IH in H as (evs & Ht & Hf & Ha & Hs); simpl in *.
    + exists (e_call (c_set_parameter p v) (Some e)
              :: e_sleep (if _is_local self then 200 else 5000) :: evs).
      rewrite Ht, <- !app_assoc. simpl.
      repeat split; auto. repeat constructor; auto.
    + exists (e_call (c_set_parameter p v) (Some e) :: evs).
      rewrite Ht, <- !app_assoc. simpl.
      repeat split; auto. repeat constructor; auto.
  - unfold ret. intros H. inversion H; subst. exists []. simpl.
    repeat split. constructor.
Qed.

Lemma set_parameter_with_retries_ok p v n s s' :
  _set_parameter_with_retries self p v n s = (Ok tt, s') ->
  exists evs,
    trace s' = trace s ++ evs ++ [e_call (c_set_parameter p v) None]
    /\ Forall (is_retry p v) evs
    /\ apply_changes_enabled (dev s') = apply_changes_enabled (dev s)
    /\ ses s' = ses s.
Proof. apply set_parameter_loop_ok. Qed.

End Writes.

(* --------------------------------------------------------------------- *)
(** ** The operating mode of a local device *)
(* --------------------------------------------------------------------- *)

Section OperatingMode.
Import Py Updater Frame Scenarios.

Variable self : _ProfileUpdater.
Hypothesis Hlocal : _is_local self = true.

Ltac policy :=
  intros; simpl in *;
  try reflexivity; try assumption; try tauto;
  try match goal with
      | c : call |- _ => destruct c; simpl in *; try reflexivity;
                         try discriminate
      end.

Lemma settings_loop_no_AP_write n l c s :
  call_count is_AP_write (trace (snd (settings_loop self n l c s)))
  = call_count is_AP_write (trace s).
Proof.
  apply grows_call_count.
  apply (holds_grows _ (fun _ => tt) (fun _ => True)); [|exact I].
  apply holds_settings_loop; [reflexivity|].
  intros p v H. rewrite Hlocal in H. simpl in *. now rewrite H.
Qed.

Lemma report_step_session n c s :
  ses (snd (report_step self n c s)) = ses s.
Proof.
  unfold report_step. destruct (_progress_callback self && _); reflexivity.
Qed.

Lemma settings_loop_withholds n l :
  forall c s c' s',
    settings_loop self n l c s = (Ok c', s') ->
    _xpro_ap (ses s') = withheld_ap l (_xpro_ap (ses s)).
Proof.
  induction l as [|[k setting] r IH]; intros c s c' s'; simpl.
  - unfold ret. intros H. now inversion H.
  - intros H. apply bind_inv in H as (c1 & s1 & H1 & H).
    apply bind_inv in H as (? & s2 & H2 & H).
    apply IH in H. rewrite H. f_equal.
    assert (S1 : ses s1 = ses s)
      by (rewrite <- (report_step_session n c s); now rewrite H1).
    rewrite Hlocal in H2. simpl in H2.
    destruct (String.eqb (upper (Codec.name setting)) "AP").
    + apply modify_ses_inv in H2. subst s2. reflexivity.
    + destruct x. apply set_parameter_with_retries_ok in H2
        as (_ & _ & _ & _ & S2). congruence.
Qed.

Lemma must_restore_ap_spec ap mode :
  must_restore_ap self ap mode = true
  <-> exists b rest,
        ap = Bytes (b :: rest) /\ b <> mode
        /\ (b = API_MODE_code \/ b = ESCAPED_API_MODE_code).
Proof.
  unfold must_restore_ap. rewrite Hlocal. split.
  - destruct ap as [[|b rest]|str|]; simpl; try discriminate.
    + intros H. apply andb_true_iff in H. destruct H as [H1 H2].
      apply negb_true_iff, Z.eqb_neq in H1.
      apply orb_true_iff in H2. rewrite !Z.eqb_eq in H2.
      now exists b, rest.
    + rewrite andb_false_r. discriminate.
  - intros (b & rest & -> & H1 & H2). simpl.
    apply andb_true_iff. split.
    + now apply negb_true_iff, Z.eqb_neq.
    + apply orb_true_iff. now rewrite !Z.eqb_eq.
Qed.

Lemma restore_operating_mode_writes s s' :
  must_restore_ap self (_xpro_ap (ses s)) (operating_mode (dev s)) = true ->
  restore_operating_mode self s = (Ok tt, s') ->
  exists evs1 evs2,
    trace s'
    = trace s ++ [e_enable_apply_changes true] ++ evs1
      ++ [e_call (c_set_parameter "AP" (_xpro_ap (ses s))) None] ++ evs2
      ++ [e_call (c_set_parameter "WR" (Bytes [])) None;
          e_enable_apply_changes (apply_changes_enabled (dev s))]
    /\ Forall (is_retry "AP" (_xpro_ap (ses s))) evs1
    /\ Forall (is_retry "WR" (Bytes [])) evs2
    /\ apply_changes_enabled (dev s') = apply_changes_enabled (dev s).
Proof.
  intros M. unfold restore_operating_mode, bind at 1, gets at 1. simpl.
  unfold bind at 1, gets at 1. simpl. rewrite M. simpl.
  unfold bind at 1, gets at 1. simpl. intros H.
  apply bind_inv in H as ([] & s1 & H1 & H).
  apply bind_inv in H as ([] & s2 & H2 & H).
  apply bind_inv in H as ([] & s3 & H3 & H).
  unfold enable_apply_changes, bind, emit, modify_dev in H1, H. simpl in *.
  inversion H1; subst s1. inversion H; subst s'. clear H1 H.
  apply set_parameter_with_retries_ok in H2 as (evs1 & T2 & F1 & _ & _).
  apply set_parameter_with_retries_ok in H3 as (evs2 & T3 & F2 & _ & _).
  simpl in *. exists evs1, evs2. rewrite T3, T2.
  repeat split; auto. now rewrite <- !app_assoc.
Qed.

End OperatingMode.

Section OperatingModeSample.
Import Py Updater Frame Scenarios.

(** C7, counterexample. With a reset on a local device in escaped API mode,
    AP is written in the settings phase, before the [finally] block is
    reached, and the byte that is withheld is 0, not the current mode 2. *)
Lemma reset_writes_operating_mode_at_once :
  _is_local reset_update = true
  /\ operating_mode xbee3 = 2
  /\ attempted "AP" (trace (at_cleanup reset_update xbee3)) = true
  /\ In (e_call (c_set_parameter "AP" (Bytes [2])) None)
       (trace (at_cleanup reset_update xbee3))
  /\ _xpro_ap (ses (at_cleanup reset_update xbee3)) = Bytes [0]
  /\ _xpro_ap (ses (at_cleanup reset_update xbee3))
     <> Bytes [operating_mode xbee3].
Proof.
  split; [reflexivity|]. split; [reflexivity|].
  split; [vm_compute; reflexivity|].
  split; [vm_compute; tauto|].
  split; [vm_compute; reflexivity|]. vm_compute. discriminate.
Qed.

End OperatingModeSample.

(* --------------------------------------------------------------------- *)
(** ** Progress of the settings phase *)
(* --------------------------------------------------------------------- *)

Section Percentages.
Import Py Updater.

Lemma percents_app t1 t2 : percents (t1 ++ t2) = percents t1 ++ percents t2.
Proof.
  induction t1 as [|e r IH]; simpl; [reflexivity|].
  destruct e as [c o|t p|ms|t|b]; simpl; try exact IH.
  destruct p; simpl; now rewrite ?IH.
Qed.

Lemma attempts_percents p v evs :
  Forall (is_attempt p v) evs -> percents evs = [].
Proof.
  induction 1 as [|e r He _ IH]; simpl; [reflexivity|].
  destruct e as [c o|t q|ms|t|b]; simpl; auto.
  destruct He as [He|He]; [destruct He | discriminate He].
Qed.

Lemma StronglySorted_app (l1 l2 : list Z) :
  StronglySorted Z.lt l1 -> StronglySorted Z.lt l2 ->
  (forall x y, In x l1 -> In y l2 -> x < y) ->
  StronglySorted Z.lt (l1 ++ l2).
Proof.
  induction l1 as [|a r IH]; simpl; intros S1 S2 H; [exact S2|].
  inversion S1 as [|? ? Sr Fa]; subst. constructor.
  - apply IH; auto.
  - apply Forall_app. split; [exact Fa|].
    apply Forall_forall. intros y Hy. apply H; auto.
Qed.

Lemma step_percent_quiet N lo hi evs :
  percents evs = [] -> step_percent N lo hi evs.
Proof. intros H. unfold step_percent. rewrite H. split; constructor. Qed.

Lemma step_percent_app N lo mid hi e1 e2 :
  step_percent N lo mid e1 -> step_percent N mid hi e2 ->
  lo <= mid -> mid <= hi -> step_percent N lo hi (e1 ++ e2).
Proof.
  intros [S1 F1] [S2 F2] L H. unfold step_percent. rewrite percents_app.
  rewrite Forall_forall in F1, F2. split.
  - apply StronglySorted_app; auto.
    intros x y Hx Hy. destruct (F1 x Hx) as [[_ ?] _].
    destruct (F2 y Hy) as [[? _] _]. lia.
  - apply Forall_app. split; apply Forall_forall; intros x Hx.
    + destruct (F1 x Hx) as [[? ?] K]. split; [lia | exact K].
    + destruct (F2 x Hx) as [[? ?] K]. split; [lia | exact K].
Qed.

Lemma step_percent_weaken N lo hi hi' evs :
  step_percent N lo hi evs -> hi <= hi' -> step_percent N lo hi' evs.
Proof.
  intros [S F] H. split; [exact S|].
  eapply Forall_impl; [|exact F]. simpl. intros p [[? ?] K].
  split; [lia | exact K].
Qed.

Lemma percent_mono N a b : 0 < N -> a <= b -> a * 100 / N <= b * 100 / N.
Proof. intros HN H. apply Z.div_le_mono; lia. Qed.

Lemma percent_total N : 0 < N -> N * 100 / N = 100.
Proof. intros HN. rewrite Z.mul_comm. apply Z.div_mul. lia. Qed.

Lemma percent_below N a : 0 < N -> a < N -> a * 100 / N < 100.
Proof. intros HN H. apply Z.div_lt_upper_bound; lia. Qed.

End Percentages.

Section WriteAttempts.
Import Py Updater.

Variable self : _ProfileUpdater.

(** Whatever its outcome, a write with retries adds attempts and pauses
    only. *)
Lemma set_parameter_loop_attempts p v n :
  forall msg s,
    exists evs,
      trace (snd (set_parameter_loop self p v n msg s)) = trace s ++ evs
      /\ Forall (is_attempt p v) evs.
Proof.
  induction n as [|n IH]; intros msg s; simpl.
  - exists []. split; [now rewrite app_nil_r | constructor].
  - unfold try_except, bind at 1, invoke.
    destruct (resp_exn (oracle (collab self) (trace s) (c_set_parameter p v)))
      as [e|] eqn:E; simpl.
    + assert (A : is_attempt p v (e_call (c_set_parameter p v) (Some e)))
        by (left; simpl; auto).
      assert (B : forall ms, is_attempt p v (e_sleep ms))
        by (intros ms; left; exact I).
      unfold on. destruct (existsb (isinstance e) _).
      * unfold bind at 1, when, sleep, emit.
        destruct (negb (n =? 0)%nat); simpl;
          match goal with
          | |- context [set_parameter_loop self p v n ?m ?s1] =>
              destruct (IH m s1) as (evs & Ht & Hf)
          end; simpl in *; rewrite Ht, <- !app_assoc; simpl;
          eexists; (split; [reflexivity|]); auto.
      * simpl. eexists. split; [reflexivity|]. auto.
    + eexists. split; [reflexivity|].
      constructor; [now right | constructor].
Qed.

Lemma set_parameter_with_retries_attempts p v n s :
  exists evs,
    trace (snd (_set_parameter_with_retries self p v n s)) = trace s ++ evs
    /\ Forall (is_attempt p v) evs.
Proof. apply set_parameter_loop_attempts. Qed.

Lemma apply_changes_loop_attempts n :
  forall s,
    exists evs,
      trace (snd (apply_changes_loop self n s)) = trace s ++ evs
      /\ Forall (is_attempt "AC" (Bytes [])) evs.
Proof.
  induction n as [|n IH]; intros s; simpl.
  - exists []. split; [now rewrite app_nil_r | constructor].
  - unfold try_except.
    destruct (set_parameter_with_retries_attempts "AC" (Bytes [])
                _PARAMETER_WRITE_RETRIES s) as (evs1 & T1 & F1).
    destruct (_set_parameter_with_retries self "AC" (Bytes [])
                _PARAMETER_WRITE_RETRIES s) as [[u|e] s1]; simpl in *.
    + now exists evs1.
    + unfold on. destruct (existsb (isinstance e) _); [|now exists evs1].
      destruct (n =? 0)%nat; [now exists evs1|].
      destruct (IH s1) as (evs2 & T2 & F2).
      exists (evs1 ++ evs2). rewrite T2, T1, app_assoc.
      split; [reflexivity|]. apply Forall_app. now split.
Qed.

End WriteAttempts.

Section SettingsProgress.
Import Py Updater.

Variable self : _ProfileUpdater.

Local Abbreviation N := (total_steps self).
Local Abbreviation cb := (_progress_callback self).
Local Abbreviation pc := (fun i : Z => i * 100 / total_steps self).

Lemma total_steps_positive : 2 <= N.
Proof.
  unfold total_steps.
  destruct (reset_settings (_xbee_profile self) || is_str (_target self));
    lia.
Qed.

Lemma pc_mono a b : a <= b -> pc a <= pc b.
Proof. apply percent_mono. pose proof total_steps_positive. lia. Qed.

Lemma advances_bind {A B} lo mid hi (Q1 : A -> Prop) (Q2 : B -> Prop)
  (m : M A) (f : A -> M B) :
  advances N lo mid Q1 m ->
  (forall a, Q1 a -> advances N mid hi Q2 (f a)) ->
  lo <= mid -> mid <= hi ->
  advances N lo hi Q2 (bind m f).
Proof.
  intros Hm Hf L H s. unfold bind.
  destruct (Hm s) as (e1 & T1 & P1 & K1).
  destruct (m s) as [[a|e] s1]; simpl in *.
  - destruct (Hf a (K1 a eq_refl) s1) as (e2 & T2 & P2 & K2).
    exists (e1 ++ e2). rewrite T2, T1, app_assoc.
    split; [reflexivity|]. split; [|exact K2].
    now apply step_percent_app with mid.
  - exists e1. split; [exact T1|]. split; [|discriminate].
    now apply step_percent_weaken with mid.
Qed.

Lemma advances_widen {A} lo lo' hi hi' (Q Q' : A -> Prop) (m : M A) :
  advances N lo hi Q m -> lo' <= lo -> hi <= hi' ->
  (forall a, Q a -> Q' a) -> advances N lo' hi' Q' m.
Proof.
  intros Hm L H HQ s. destruct (Hm s) as (evs & T & [S F] & K).
  exists evs. split; [exact T|]. split; [|auto].
  split; [exact S|]. eapply Forall_impl; [|exact F].
  simpl. intros p [[? ?] E]. split; [lia | exact E].
Qed.

(** A step that reports nothing. *)
Lemma advances_quiet {A} x (Q : A -> Prop) (m : M A) :
  (forall s, exists evs, trace (snd (m s)) = trace s ++ evs
                         /\ percents evs = []
                         /\ forall a, fst (m s) = Ok a -> Q a) ->
  advances N x x Q m.
Proof.
  intros H s. destruct (H s) as (evs & T & P & K).
  exists evs. split; [exact T|]. split; [|exact K].
  now apply step_percent_quiet.
Qed.

Lemma advances_ret {A} x (Q : A -> Prop) (a : A) :
  Q a -> advances N x x Q (ret a).
Proof.
  intros H. apply advances_quiet. intros s. exists []. unfold ret. simpl.
  split; [now rewrite app_nil_r|]. split; [reflexivity|].
  intros b E. inversion E; subst. exact H.
Qed.

Lemma advances_write x p v n :
  advances N x x (fun _ => True) (_set_parameter_with_retries self p v n).
Proof.
  apply advances_quiet. intros s.
  destruct (set_parameter_with_retries_attempts self p v n s)
    as (evs & T & F).
  exists evs. split; [exact T|]. split; [|auto].
  now apply (attempts_percents p v).
Qed.

Lemma advances_first_report :
  advances N (-1) 0 (fun _ => True)
    (progress self _TASK_UPDATE_SETTINGS (Some 0)).
Proof.
  intros s. unfold progress, when, emit, ret.
  pose proof total_steps_positive as HN.
  destruct cb; simpl.
  - eexists. split; [reflexivity|]. split; [|auto].
    split; simpl.
    + repeat constructor.
    + constructor; [|constructor]. split; [lia|].
      exists 0. split; [lia | reflexivity].
  - exists []. split; [now rewrite app_nil_r|]. split; [|auto].
    split; constructor.
Qed.

(** The report before step [setting_index]. *)
Lemma advances_report_step c :
  counters_ok cb N c -> setting_index c <= N ->
  advances N (pc (setting_index c - 1)) (pc (setting_index c))
    (fun c1 => setting_index c1 = setting_index c
               /\ (cb = true -> previous_percent c1 = pc (setting_index c)))
    (report_step self N c).
Proof.
  intros [H1 Hp] HN s. unfold report_step, percent_of.
  pose proof (pc_mono (setting_index c - 1) (setting_index c) ltac:(lia))
    as Hm.
  cbv beta in *.
  destruct cb eqn:C; simpl.
  - specialize (Hp eq_refl).
    destruct (setting_index c * 100 / N =? previous_percent c) eqn:E; simpl.
    + apply Z.eqb_eq in E. exists []. split; [now rewrite app_nil_r|].
      split; [split; constructor|].
      unfold ret. intros a Ha. inversion Ha; subst. now split.
    + apply Z.eqb_neq in E.
      unfold bind, emit, ret. simpl. eexists. split; [reflexivity|].
      split.
      * split; simpl.
        -- repeat constructor.
        -- constructor; [|constructor]. split; [lia|].
           exists (setting_index c). split; [lia | reflexivity].
      * intros a Ha. inversion Ha; subst. simpl. now split.
  - exists []. split; [now rewrite app_nil_r|].
    split; [split; constructor|].
    unfold ret. intros a Ha. inversion Ha; subst.
    split; [reflexivity | discriminate].
Qed.

Lemma counters_ok_next (c1 c2 : counters) i :
  1 <= i -> setting_index c1 = i ->
  (cb = true -> previous_percent c1 = pc i) ->
  setting_index c2 = setting_index c1 + 1 ->
  previous_percent c2 = previous_percent c1 ->
  counters_ok cb N c2.
Proof.
  intros Hi H1 Hp H2 H3. split; [lia|].
  intros C. rewrite H3, (Hp C), H2, H1. f_equal. f_equal. lia.
Qed.

Lemma advances_reset_step c :
  counters_ok cb N c -> setting_index c <= N ->
  advances N (pc (setting_index c - 1)) (pc (setting_index c))
    (fun c' => counters_ok cb N c'
               /\ setting_index c' = setting_index c + 1)
    (reset_step self N c).
Proof.
  intros Hc HN. unfold reset_step.
  eapply advances_bind;
    [apply (advances_report_step c Hc HN) | | apply pc_mono; lia | lia].
  intros c1 [I1 P1].
  eapply advances_bind; [apply advances_write | | lia | lia].
  intros _ _.
  eapply advances_bind with (mid := pc (setting_index c))
                            (Q1 := fun _ => True);
    [| | apply Z.le_refl | apply Z.le_refl].
  - unfold when. destruct (_is_local self); [|now apply advances_ret].
    apply (advances_bind _ (pc (setting_index c)) _ (fun _ => True));
      [apply advances_quiet | | lia | lia].
    + intros s. exists []. split; [now rewrite app_nil_r|]. auto.
    + intros _ _.
      apply (advances_bind _ (pc (setting_index c)) _ (fun _ => True));
        [apply advances_quiet | | lia | lia].
      * intros s. exists []. split; [now rewrite app_nil_r|]. auto.
      * intros mode _. apply advances_write.
  - intros _ _. apply advances_ret. destruct Hc as [H1 _]. split.
    + apply (counters_ok_next c1 _ (setting_index c)); auto; simpl; lia.
    + simpl. lia.
Qed.

Lemma advances_settings_loop l :
  forall c,
    counters_ok cb N c ->
    setting_index c + Z.of_nat (List.length l) <= N + 1 ->
    advances N (pc (setting_index c - 1))
      (pc (setting_index c + Z.of_nat (List.length l) - 1))
      (fun c' => counters_ok cb N c'
                 /\ setting_index c'
                    = setting_index c + Z.of_nat (List.length l))
      (settings_loop self N l c).
Proof.
  induction l as [|[k setting] r IH]; intros c Hc HN.
  - simpl. replace (setting_index c + 0 - 1) with (setting_index c - 1)
      by lia.
    apply advances_ret. split; [exact Hc | lia].
  - change (List.length ((k, setting) :: r)) with (S (List.length r)) in *.
    rewrite Nat2Z.inj_succ in *.
    simpl settings_loop.
    assert (Hi : setting_index c <= N) by lia.
    destruct Hc as [H1 Hp].
    eapply advances_bind;
      [apply (advances_report_step c (conj H1 Hp) Hi) |
      | apply pc_mono; lia | apply pc_mono; lia].
    intros c1 [I1 P1].
    eapply advances_bind with (mid := pc (setting_index c))
                              (Q1 := fun _ => True);
      [ | | lia | apply pc_mono; lia].
    + destruct (_is_local self && _); [|apply advances_write].
      apply advances_quiet. intros s. exists [].
      split; [now rewrite app_nil_r|]. auto.
    + intros _ _.
      set (c2 := next_setting (upper (Codec.name setting)) c1).
      assert (Hc2 : counters_ok cb N c2).
      { apply (counters_ok_next c1 c2 (setting_index c)); auto. }
      assert (I2 : setting_index c2 = setting_index c + 1)
        by (unfold c2; simpl; lia).
      eapply advances_widen; [apply (IH c2 Hc2) | | | ]; rewrite ?I2.
      * lia.
      * replace (setting_index c + 1 - 1) with (setting_index c) by lia.
        lia.
      * apply pc_mono. lia.
      * intros c' [K1 K2]. split; [exact K1 | lia].
Qed.

Lemma advances_write_step c :
  counters_ok cb N c -> setting_index c <= N ->
  advances N (pc (setting_index c - 1)) (pc (setting_index c))
    (fun c' => counters_ok cb N c'
               /\ setting_index c' = setting_index c + 1)
    (write_step self N c).
Proof.
  intros Hc HN. unfold write_step.
  eapply advances_bind;
    [apply (advances_report_step c Hc HN) | | apply pc_mono; lia | lia].
  intros c1 [I1 P1].
  eapply advances_bind; [apply advances_write | | lia | lia].
  intros _ _. apply advances_ret. destruct Hc as [H1 _]. split.
  - apply (counters_ok_next c1 _ (setting_index c)); auto; simpl; lia.
  - simpl. lia.
Qed.

(** Up to the [WR] step the percentages stay below 100; the next step is the
    last one. *)
Lemma advances_queue_settings :
  advances N (-1) (pc (N - 1))
    (fun c => counters_ok cb N c /\ setting_index c = N)
    (queue_settings self).
Proof.
  pose proof total_steps_positive as HN.
  assert (P0 : pc 0 = 0) by reflexivity.
  unfold queue_settings.
  set (c0 := {| setting_index := 1; previous_percent := 0;
                network_settings_changed := false;
                cache_settings_changed := false |}).
  assert (Hc0 : counters_ok cb N c0) by (split; simpl; [lia | auto]).
  set (r := if reset_settings (_xbee_profile self) || is_str (_target self)
            then 1 else 0).
  assert (HNr : N = Z.of_nat (List.length (profile_settings
                                            (_xbee_profile self)))
                    + 2 + r) by reflexivity.
  assert (Hr : 0 <= r <= 1) by (unfold r; destruct (_ || _); lia).
  eapply advances_bind with (mid := 0);
    [apply advances_first_report | | lia |].
  2:{ rewrite <- P0. apply pc_mono. lia. }
  intros _ _.
  eapply advances_bind with
    (mid := pc r)
    (Q1 := fun c => counters_ok cb N c /\ setting_index c = 1 + r).
  - unfold r. destruct (reset_settings (_xbee_profile self) || _).
    + eapply advances_widen; [apply (advances_reset_step c0 Hc0) | | | ].
      * simpl. lia.
      * simpl. rewrite Zdiv_0_l. lia.
      * apply Z.le_refl.
      * intros c [K1 K2]. split; [exact K1 | simpl in K2; lia].
    + rewrite P0. apply advances_ret. split; [exact Hc0 | reflexivity].
  - intros c [Hc Ic].
    eapply advances_bind with
      (mid := pc (N - 2))
      (Q1 := fun c => counters_ok cb N c /\ setting_index c = N - 1).
    + eapply advances_widen;
        [apply (advances_settings_loop _ c Hc) | | | ]; rewrite ?Ic.
      * lia.
      * replace (1 + r - 1) with r by lia. lia.
      * apply pc_mono. lia.
      * intros c' [K1 K2]. split; [exact K1 | lia].
    + intros c' [Hc' Ic'].
      eapply advances_widen;
        [apply (advances_write_step c' Hc') | | | ]; rewrite ?Ic'.
      * lia.
      * replace (N - 1 - 1) with (N - 2) by lia. lia.
      * lia.
      * intros c'' [K1 K2]. split; [exact K1 | lia].
    + apply pc_mono. lia.
    + apply pc_mono. lia.
  - rewrite <- P0. apply pc_mono. lia.
  - apply pc_mono. lia.
Qed.


(** *** Steps that report nothing *)

Local Abbreviation quiet x m := (advances N x x (fun _ => True) m).

Lemma step_percent_still lo evs :
  step_percent N lo lo evs -> percents evs = [].
Proof.
  intros [_ F]. destruct (percents evs) as [|p r]; [reflexivity|].
  inversion F as [|? ? [Hp _] _]; subst. lia.
Qed.

Lemma step_percent_le lo hi evs p :
  step_percent N lo hi evs -> In p (percents evs) -> p <= hi.
Proof.
  intros [_ F] Hp. rewrite Forall_forall in F.
  destruct (F p Hp) as [[_ H] _]. exact H.
Qed.

Lemma quiet_bind {A B} x (Q : B -> Prop) (m : M A) (f : A -> M B) :
  quiet x m -> (forall a, advances N x x Q (f a)) ->
  advances N x x Q (bind m f).
Proof.
  intros Hm Hf. apply (advances_bind x x x (fun _ => True)); auto; lia.
Qed.

Lemma quiet_still {A} x (m : M A) :
  (forall s, trace (snd (m s)) = trace s) -> quiet x m.
Proof.
  intros H. apply advances_quiet. intros s. exists [].
  rewrite H, app_nil_r. auto.
Qed.

Lemma quiet_ret {A} x (a : A) : quiet x (ret a).
Proof. now apply quiet_still. Qed.

Lemma quiet_raise {A} x e : quiet x (@raise A e).
Proof. now apply quiet_still. Qed.

Lemma quiet_gets {A} x (f : state -> A) : quiet x (gets f).
Proof. now apply quiet_still. Qed.

Lemma quiet_lift {A} x (r : result A) : quiet x (lift r).
Proof. now apply quiet_still. Qed.

Lemma quiet_modify_dev x f : quiet x (modify_dev f).
Proof. now apply quiet_still. Qed.

Lemma quiet_modify_ses x f : quiet x (modify_ses f).
Proof. now apply quiet_still. Qed.

Lemma quiet_emit x e : percents [e] = [] -> quiet x (emit e).
Proof. intros H. apply advances_quiet. intros s. exists [e]. auto. Qed.

Lemma quiet_invoke x c : quiet x (invoke self c).
Proof.
  apply advances_quiet. intros s. unfold invoke.
  exists [e_call c (resp_exn (oracle (collab self) (trace s) c))].
  destruct (resp_exn _); simpl; auto.
Qed.

Lemma quiet_try_except {A} x (m : M A) (h : exn -> option (M A)) :
  quiet x m -> (forall e k, h e = Some k -> quiet x k) ->
  quiet x (try_except m h).
Proof.
  intros Hm Hh s. unfold try_except.
  destruct (Hm s) as (e1 & T1 & P1 & _).
  destruct (m s) as [[a|e] s1]; simpl in *.
  - exists e1. auto.
  - destruct (h e) as [k|] eqn:E; [|exists e1; auto].
    destruct (Hh e k E s1) as (e2 & T2 & P2 & _).
    exists (e1 ++ e2). rewrite T2, T1, app_assoc.
    split; [reflexivity|]. split; [|auto].
    apply step_percent_app with x; auto; lia.
Qed.

Lemma quiet_try_except_on {A} x (m : M A) cls (k : exn -> M A) :
  quiet x m -> (forall e, quiet x (k e)) -> quiet x (try_except m (on cls k)).
Proof.
  intros Hm Hk. apply quiet_try_except; [exact Hm|].
  intros e k' H. unfold on in H.
  destruct (existsb (isinstance e) cls); inversion H; subst. apply Hk.
Qed.

Create HintDb quiet.

#[local] Hint Resolve quiet_ret quiet_raise quiet_gets quiet_lift
  quiet_modify_dev quiet_modify_ses quiet_invoke : quiet.

Ltac hush :=
  repeat (first
    [ progress (unfold Updater.when)
    | match goal with
      | |- Updater.advances _ _ _ _ (Updater.bind _ _) =>
          apply quiet_bind; [|intro]
      | |- Updater.advances _ _ _ _ (Updater.try_except _ (Updater.on _ _)) =>
          apply quiet_try_except_on; [|intro]
      | |- Updater.advances _ _ _ _ (if ?b then _ else _) => destruct b
      | |- Updater.advances _ _ _ _ (match ?x with _ => _ end) => destruct x
      end
    | solve [auto with quiet] ]).

Lemma quiet_sleep x ms : quiet x (sleep ms).
Proof. now apply quiet_emit. Qed.

Lemma quiet_enable_apply_changes x b : quiet x (enable_apply_changes b).
Proof.
  unfold enable_apply_changes.
  apply quiet_bind; [now apply quiet_emit | intro; hush].
Qed.

Lemma quiet_device_open x f : quiet x (device_open self f).
Proof. unfold device_open. hush. Qed.

Lemma quiet_device_close x : quiet x device_close.
Proof.
  unfold device_close.
  apply quiet_bind; [now apply quiet_emit | intro; hush].
Qed.

#[local] Hint Resolve quiet_sleep quiet_enable_apply_changes
  quiet_device_open quiet_device_close : quiet.

Lemma quiet_get_setting_default_value x n :
  quiet x (get_setting_default_value self n).
Proof. unfold get_setting_default_value. hush. Qed.

#[local] Hint Resolve quiet_get_setting_default_value : quiet.

Lemma quiet_port_defaults x c : quiet x (port_defaults self c).
Proof. unfold port_defaults. hush. Qed.

#[local] Hint Resolve quiet_port_defaults : quiet.

Lemma quiet__check_port_settings_changed x :
  quiet x (_check_port_settings_changed self).
Proof. unfold _check_port_settings_changed. hush. Qed.

Lemma quiet_read_device_info_loop x n :
  quiet x (read_device_info_loop self n).
Proof. induction n as [|n IH]; simpl; hush. Qed.

#[local] Hint Resolve quiet__check_port_settings_changed
  quiet_read_device_info_loop : quiet.

(** *** Where 100 is reported *)

Lemma in_percents t p evs :
  In (e_progress t (Some p)) evs -> In p (percents evs).
Proof.
  induction evs as [|e r IH]; simpl; [tauto|].
  intros [H|H].
  - subst e. now left.
  - destruct e as [c o|t' q|ms|t'|b]; simpl; auto.
    destruct q; simpl; auto.
Qed.

Lemma split_inside {A} (x : A) a l pre post :
  ~ In x a -> a ++ l = pre ++ x :: post ->
  exists pre', pre = a ++ pre' /\ l = pre' ++ x :: post.
Proof.
  revert pre. induction a as [|y a IH]; intros pre Hx E; simpl in *.
  - now exists pre.
  - destruct pre as [|z pre]; simpl in E; inversion E; subst.
    + exfalso. apply Hx. now left.
    + destruct (IH pre) as (pre' & P1 & P2); auto.
      exists pre'. split; [now rewrite P1 | exact P2].
Qed.

Lemma split_before {A} (x : A) b l pre post :
  ~ In x b -> l ++ b = pre ++ x :: post ->
  exists post', post = post' ++ b /\ l = pre ++ x :: post'.
Proof.
  revert pre. induction l as [|y l IH]; intros pre Hx E; simpl in *.
  - exfalso. apply Hx. rewrite E. apply in_elt.
  - destruct pre as [|z pre]; simpl in E; inversion E; subst.
    + exists l. split; reflexivity.
    + destruct (IH pre Hx) as (post' & P1 & P2); auto.
      exists post'. split; [exact P1 | now rewrite P2].
Qed.

Lemma placed_none evs : ~ In 100 (percents evs) -> full_report_placed evs.
Proof.
  intros H pre post E. exfalso. apply H.
  apply (in_percents _TASK_UPDATE_SETTINGS). rewrite E. apply in_elt.
Qed.

Lemma placed_pad a evs b :
  full_report_placed evs -> percents a = [] -> percents b = [] ->
  full_report_placed (a ++ evs ++ b).
Proof.
  intros H Ha Hb pre post E.
  assert (Na : ~ In (e_progress _TASK_UPDATE_SETTINGS (Some 100)) a).
  { intros I. apply in_percents in I. now rewrite Ha in I. }
  assert (Nb : ~ In (e_progress _TASK_UPDATE_SETTINGS (Some 100)) b).
  { intros I. apply in_percents in I. now rewrite Hb in I. }
  destruct (split_inside _ _ _ _ _ Na E) as (pre1 & P1 & E1).
  destruct (split_before _ _ _ _ _ Nb E1) as (post1 & P2 & E2).
  destruct (H pre1 post1 E2) as [(pre' & W) (o & post' & C)].
  split.
  - exists (a ++ pre'). rewrite P1, W. now rewrite app_assoc.
  - exists o, (post' ++ b). rewrite P2, C. reflexivity.
Qed.

Lemma placed_exact pre' o rest :
  ~ In 100 (percents pre') -> percents rest = [] ->
  full_report_placed
    ((pre' ++ [e_call (c_set_parameter "WR" (Bytes [])) None])
     ++ e_progress _TASK_UPDATE_SETTINGS (Some 100)
     :: e_call (c_set_parameter "AC" (Bytes [])) o :: rest).
Proof.
  intros H1 H2 pre post E.
  assert (Na : ~ In (e_progress _TASK_UPDATE_SETTINGS (Some 100))
                 (pre' ++ [e_call (c_set_parameter "WR" (Bytes [])) None])).
  { intros I. apply in_percents in I. rewrite percents_app in I.
    simpl in I. now rewrite app_nil_r in I. }
  destruct (split_inside _ _ _ _ _ Na E) as (p1 & P1 & E1).
  destruct p1 as [|z p1]; simpl in E1.
  - injection E1 as E2. rewrite app_nil_r in P1. split.
    + now exists pre'.
    + exists o, rest. now rewrite <- E2.
  - injection E1 as Hz E2. exfalso.
    assert (I : In (e_progress _TASK_UPDATE_SETTINGS (Some 100))
                  (e_call (c_set_parameter "AC" (Bytes [])) o :: rest))
      by (rewrite E2; apply in_elt).
    destruct I as [D|I]; [discriminate D|].
    apply in_percents in I. now rewrite H2 in I.
Qed.

Lemma report_step_events c s :
  exists c' s' evs,
    report_step self N c s = (Ok c', s')
    /\ trace s' = trace s ++ evs
    /\ (evs = []
        \/ evs = [e_progress _TASK_UPDATE_SETTINGS (Some (percent_of N c))]).
Proof.
  unfold report_step. destruct (cb && negb _).
  - unfold bind, emit, ret. simpl. do 3 eexists.
    split; [reflexivity|]. simpl. split; [reflexivity|]. now right.
  - exists c, s, []. unfold ret. rewrite app_nil_r. auto.
Qed.

(** A write with retries begins with an attempt. *)
Lemma set_parameter_with_retries_first p v n s :
  exists o rest,
    trace (snd (_set_parameter_with_retries self p v (S n) s))
    = trace s ++ e_call (c_set_parameter p v) o :: rest
    /\ Forall (is_attempt p v) rest.
Proof.
  unfold _set_parameter_with_retries. simpl.
  unfold try_except, bind at 1, invoke.
  destruct (resp_exn (oracle (collab self) (trace s) (c_set_parameter p v)))
    as [e|] eqn:E; simpl.
  - assert (B : forall ms, is_attempt p v (e_sleep ms))
      by (intros ms; left; exact I).
    unfold on. destruct (existsb (isinstance e) _).
    + unfold bind at 1, when, sleep, emit.
      destruct (negb (n =? 0)%nat); simpl;
        match goal with
        | |- context [set_parameter_loop self p v n ?m ?s1] =>
            destruct (set_parameter_loop_attempts self p v n m s1)
              as (evs & Ht & Hf)
        end; simpl in *; rewrite Ht, <- !app_assoc; simpl;
        do 2 eexists; (split; [reflexivity|]); auto.
    + simpl. do 2 eexists. split; [reflexivity | constructor].
  - do 2 eexists. split; [reflexivity | constructor].
Qed.

(** The apply-changes step begins with an attempt of the [AC] write and
    reports nothing. *)
Lemma apply_changes_loop_first n s :
  exists o rest,
    trace (snd (apply_changes_loop self (S n) s))
    = trace s ++ e_call (c_set_parameter "AC" (Bytes [])) o :: rest
    /\ percents rest = [].
Proof.
  simpl. unfold try_except.
  destruct (set_parameter_with_retries_first "AC" (Bytes []) 2 s)
    as (o & r1 & T1 & F1).
  change 3%nat with _PARAMETER_WRITE_RETRIES in T1.
  pose proof (attempts_percents _ _ _ F1) as Q1.
  destruct (_set_parameter_with_retries self "AC" (Bytes [])
              _PARAMETER_WRITE_RETRIES s) as [[u|e] s1]; simpl in *.
  - now exists o, r1.
  - unfold on. destruct (existsb (isinstance e) _); [|now exists o, r1].
    destruct (n =? 0)%nat; [now exists o, r1|].
    destruct (apply_changes_loop_attempts self n s1) as (e2 & T2 & F2).
    exists o, (r1 ++ e2). rewrite T2, T1, <- app_assoc. simpl.
    split; [reflexivity|].
    now rewrite percents_app, Q1, (attempts_percents _ _ _ F2).
Qed.

Lemma step_extends {A} (m : M A) s r s' :
  Frame.holds (fun _ => true) (fun _ => tt) (fun _ => True) m ->
  m s = (r, s') -> exists evs, trace s' = trace s ++ evs.
Proof.
  intros H E. destruct (H s I) as [(evs & T & _) _].
  rewrite E in T. now exists evs.
Qed.

(** The queued writes end with the [WR] write that returned. *)
Lemma queue_settings_ok s c s1 :
  queue_settings self s = (Ok c, s1) ->
  exists pre,
    trace s1 = trace s ++ pre ++ [e_call (c_set_parameter "WR" (Bytes [])) None].
Proof.
  unfold queue_settings. intros H.
  apply bind_inv in H. destruct H as (u & sa & Ha & H).
  apply bind_inv in H. destruct H as (c1 & sb & Hb & H).
  apply bind_inv in H. destruct H as (c2 & sc & Hc & H).
  unfold write_step in H.
  apply bind_inv in H. destruct H as (c3 & sd & Hd & H).
  apply bind_inv in H. destruct H as (u' & se & He & H).
  unfold ret in H. inversion H; subst. destruct u'.
  apply (set_parameter_with_retries_ok self) in He.
  destruct He as (r & Te & _).
  apply step_extends in Ha; [|apply holds_progress].
  apply step_extends in Hb;
    [|destruct (_ || _); [apply holds_reset_step | apply holds_ret]; auto].
  apply step_extends in Hc; [|apply holds_settings_loop; auto].
  apply step_extends in Hd; [|apply holds_report_step].
  destruct Ha as (xa & Xa), Hb as (xb & Xb), Hc as (xc & Xc),
    Hd as (xd & Xd).
  exists (xa ++ xb ++ xc ++ xd ++ r).
  rewrite Te, Xd, Xc, Xb, Xa, <- !app_assoc. reflexivity.
Qed.

(** *** The body of the [try] *)

Lemma write_settings_events s :
  exists evs,
    trace (snd (write_settings self s)) = trace s ++ evs
    /\ step_percent N (-1) (pc N) evs
    /\ full_report_placed evs.
Proof.
  pose proof total_steps_positive as HN.
  assert (Hlt : pc (N - 1) < 100) by (apply percent_below; lia).
  assert (H100 : pc N = 100) by (apply percent_total; lia).
  assert (Hle : pc (N - 1) <= pc N) by (apply pc_mono; lia).
  assert (Hlo : -1 <= pc (N - 1)).
  { pose proof (pc_mono 0 (N - 1) ltac:(lia)) as H.
    change (pc 0) with 0 in H. lia. }
  destruct (advances_queue_settings s) as (e1 & T1 & P1 & K1).
  assert (B1 : ~ In 100 (percents e1)).
  { intros I. apply (step_percent_le _ _ _ _ P1) in I. lia. }
  unfold write_settings, bind.
  destruct (queue_settings self s) as [[c|e] s1] eqn:Eq; simpl in T1, K1 |- *.
  2:{ exists e1. split; [exact T1|]. split; [|now apply placed_none].
      now apply step_percent_weaken with (pc (N - 1)). }
  destruct (K1 c eq_refl) as [Hc Ic].
  destruct (queue_settings_ok s c s1 Eq) as (pre' & Tw).
  assert (E1 : e1 = pre' ++ [e_call (c_set_parameter "WR" (Bytes [])) None]).
  { apply (app_inv_head (trace s)). now rewrite <- T1. }
  unfold apply_step, bind.
  destruct (report_step_events c s1) as (c' & s2 & e2 & R & T2 & Sh).
  rewrite R.
  destruct (apply_changes_loop_first 2 s2) as (o & rest & T3 & P3).
  change 3%nat with _PARAMETER_READ_RETRIES in T3.
  exists (e1 ++ e2 ++ e_call (c_set_parameter "AC" (Bytes [])) o :: rest).
  split.
  { destruct (apply_changes_loop self _PARAMETER_READ_RETRIES s2)
      as [[u|e] s3]; unfold ret; simpl in *;
      now rewrite T3, T2, T1, <- !app_assoc. }
  assert (Pc : percent_of N c = 100).
  { unfold percent_of. rewrite Ic. exact H100. }
  rewrite Pc in Sh.
  destruct Sh as [Sh|Sh]; subst e2; simpl.
  - split.
    + apply step_percent_app with (pc (N - 1)); auto.
      now apply step_percent_quiet.
    + apply placed_none. rewrite percents_app. simpl. rewrite P3.
      now rewrite app_nil_r.
  - split.
    + apply step_percent_app with (pc (N - 1)); auto.
      unfold step_percent. simpl. rewrite P3. split.
      * repeat constructor.
      * constructor; [|constructor]. split; [lia|].
        exists N. split; [lia | now rewrite H100].
    + rewrite E1. apply placed_exact; [|exact P3].
      intros I. apply B1. rewrite E1, percents_app. apply in_or_app.
      now left.
Qed.

(** *** The whole phase *)

Local Abbreviation reports m :=
  (forall s, exists evs,
      trace (snd (m s)) = trace s ++ evs
      /\ step_percent N (-1) (pc N) evs
      /\ full_report_placed evs).

Lemma pc_total : pc N = 100.
Proof. apply percent_total. pose proof total_steps_positive. lia. Qed.

Lemma reports_quiet {A} (m : M A) : quiet (-1) m -> reports m.
Proof.
  intros H s. destruct (H s) as (evs & T & P & _).
  exists evs. split; [exact T|]. split.
  - apply step_percent_weaken with (-1); [exact P|]. rewrite pc_total. lia.
  - apply placed_none. now rewrite (step_percent_still _ _ P).
Qed.

Lemma reports_after {A B} (m : M A) (f : A -> M B) :
  quiet (-1) m -> (forall a, reports (f a)) -> reports (bind m f).
Proof.
  intros Hm Hf s. unfold bind.
  destruct (Hm s) as (e1 & T1 & P1 & _).
  destruct (m s) as [[a|e] s1]; simpl in *.
  - destruct (Hf a s1) as (e2 & T2 & P2 & F2).
    exists (e1 ++ e2). rewrite T2, T1, app_assoc.
    split; [reflexivity|]. split.
    + apply step_percent_app with (-1); auto; [lia|].
      rewrite pc_total. lia.
    + rewrite <- (app_nil_r e2), app_assoc, <- app_assoc.
      apply placed_pad; auto. now apply step_percent_still in P1.
  - exists e1. split; [exact T1|]. split.
    + apply step_percent_weaken with (-1); [exact P1|].
      rewrite pc_total. lia.
    + apply placed_none. now rewrite (step_percent_still _ _ P1).
Qed.

Lemma reports_before {A B} (m : M A) (f : A -> M B) :
  reports m -> (forall a, quiet (pc N) (f a)) -> reports (bind m f).
Proof.
  intros Hm Hf s. unfold bind.
  destruct (Hm s) as (e1 & T1 & P1 & F1).
  destruct (m s) as [[a|e] s1]; simpl in *.
  - destruct (Hf a s1) as (e2 & T2 & P2 & _).
    exists (e1 ++ e2). rewrite T2, T1, app_assoc.
    split; [reflexivity|]. split.
    + apply step_percent_app with (pc N); auto; [|lia].
      rewrite pc_total. lia.
    + change (e1 ++ e2) with ([] ++ e1 ++ e2).
      apply placed_pad; auto. now apply step_percent_still in P2.
  - exists e1. auto.
Qed.

Lemma reports_try_except {A} (m : M A) cls (k : exn -> M A) :
  reports m -> (forall e, quiet (pc N) (k e)) ->
  reports (try_except m (on cls k)).
Proof.
  intros Hm Hk s. unfold try_except.
  destruct (Hm s) as (e1 & T1 & P1 & F1).
  destruct (m s) as [[a|e] s1]; simpl in *; [exists e1; auto|].
  unfold on. destruct (existsb (isinstance e) cls); [|exists e1; auto].
  destruct (Hk e s1) as (e2 & T2 & P2 & _).
  exists (e1 ++ e2). rewrite T2, T1, app_assoc.
  split; [reflexivity|]. split.
  - apply step_percent_app with (pc N); auto; [|lia].
    rewrite pc_total. lia.
  - change (e1 ++ e2) with ([] ++ e1 ++ e2).
    apply placed_pad; auto. now apply step_percent_still in P2.
Qed.

Lemma update_device_settings_events : reports (_update_device_settings self).
Proof.
  unfold _update_device_settings.
  destruct (_ && _ && _); [apply reports_quiet; hush|].
  apply reports_after; [hush|]. intros by_fw.
  destruct (_ && _ && _); [apply reports_quiet; hush|].
  apply reports_after; [hush|]. intros old_apply_settings_value.
  apply reports_after; [hush|]. intros _.
  apply reports_before.
  - apply reports_try_except; [exact write_settings_events | intro; hush].
  - intros c. hush.
Qed.

End SettingsProgress.

Section SettingsProgressSample.
Import Py Updater Scenarios.

(** One setting, and a device that refuses every [AC] write: 33 is reported
    before anything is written, 100 before the first [AC] attempt, and the
    phase fails without [AC] ever being written. *)
Lemma full_report_precedes_apply_changes :
  let r := _update_device_settings unapplied_update
             (init_state LocalXBee (_xbee_profile unapplied_update) xbee3) in
  firstn 8 (trace (snd r))
  = [e_enable_apply_changes false;
     e_progress _TASK_UPDATE_SETTINGS (Some 0);
     e_progress _TASK_UPDATE_SETTINGS (Some 33);
     e_call (c_set_parameter "NI" (Bytes [110; 111; 100; 101])) None;
     e_progress _TASK_UPDATE_SETTINGS (Some 66);
     e_call (c_set_parameter "WR" (Bytes [])) None;
     e_progress _TASK_UPDATE_SETTINGS (Some 100);
     e_call (c_set_parameter "AC" (Bytes []))
       (Some (Exn TimeoutException "timeout"))]
  /\ percentages _TASK_UPDATE_SETTINGS (trace (snd r)) = [0; 33; 66; 100]
  /\ written "AC" (trace (snd r)) = false
  /\ fst r
     = Raise (UpdateProfileException_
                "Error updating XBee settings: Error setting parameter 'AC': timeout").
Proof. vm_compute. repeat split. Qed.

End SettingsProgressSample.

Section RetryLoops.
Import Py Updater Attempts.

Variable self : _ProfileUpdater.

Lemma last_default {A} (l : list A) (d d' : A) :
  l <> [] -> last l d = last l d'.
Proof.
  induction l as [|a r IH]; [congruence|]. intros _.
  destruct r as [|b r]; [reflexivity|].
  change (last (b :: r) d = last (b :: r) d'). apply IH. discriminate.
Qed.

(** One round of the write loop. *)
Lemma set_parameter_loop_step p v n msg s :
  set_parameter_loop self p v (S n) msg s
  = let c := c_set_parameter p v in
    let r0 := oracle (collab self) (trace s) c in
    let s1 := {| dev := keep_config (dev s) (resp_dev r0 (dev s));
                 ses := ses s;
                 trace := trace s ++ [e_call c (resp_exn r0)] |} in
    match resp_exn r0 with
    | None => (Ok tt, s1)
    | Some e =>
        if retried_write e then
          set_parameter_loop self p v n (exn_msg e)
            (if (n =? 0)%nat then s1
             else {| dev := dev s1; ses := ses s1;
                     trace := trace s1 ++ [e_sleep (write_pause self)] |})
        else (Raise e, s1)
    end.
Proof.
  simpl. unfold try_except, bind, invoke, on, when, sleep, emit, ret,
    retried_write, write_pause.
  destruct (resp_exn (oracle (collab self) (trace s) (c_set_parameter p v)))
    as [e|]; [|reflexivity].
  destruct (existsb (isinstance e) _); [|reflexivity].
  destruct (n =? 0)%nat; simpl; [destruct s|]; reflexivity.
Qed.

Lemma set_parameter_loop_outcomes p v n :
  forall msg s,
    let c := c_set_parameter p v in
    let r := set_parameter_loop self p v n msg s in
    exists errors,
      Forall (fun e => retried_write e = true) errors
      /\ ses (snd r) = ses s
      /\ ((fst r = Ok tt /\ (List.length errors < n)%nat
           /\ trace (snd r)
              = trace s ++ failures_then_pause c (write_pause self) errors
                ++ [e_call c None])
          \/ (exists x,
                 fst r = Raise x /\ retried_write x = false
                 /\ (List.length errors < n)%nat
                 /\ trace (snd r)
                    = trace s
                      ++ failures_then_pause c (write_pause self) errors
                      ++ [e_call c (Some x)])
          \/ (fst r = Raise (write_error p (last (map exn_msg errors) msg))
              /\ List.length errors = n
              /\ trace (snd r)
                 = trace s
                   ++ failures_between_pauses c (write_pause self) errors)).
Proof.
  induction n as [|n IH]; intros msg s; cbv zeta.
  - exists []. simpl. split; [constructor|]. split; [reflexivity|].
    right. right. now rewrite app_nil_r.
  - rewrite set_parameter_loop_step. cbv zeta.
    destruct (resp_exn (oracle (collab self) (trace s) (c_set_parameter p v)))
      as [e|] eqn:E.
    2:{ exists []. simpl. split; [constructor|]. split; [reflexivity|].
        left. split; [reflexivity|]. split; [lia|]. reflexivity. }
    destruct (retried_write e) eqn:R.
    2:{ exists []. simpl. split; [constructor|]. split; [reflexivity|].
        right. left. exists e. split; [reflexivity|]. split; [exact R|].
        split; [lia|]. reflexivity. }
    match goal with
    | |- context [set_parameter_loop self p v n ?m ?s1] =>
        destruct (IH m s1) as (errors & F & S1 & H); cbv zeta in *
    end.
    exists (e :: errors). split; [constructor; assumption|].
    split; [rewrite S1; now destruct (n =? 0)%nat|].
    destruct H as [(H1 & H2 & H3)
                  | [(x & H1 & H2 & H3 & H4) | (H1 & H2 & H3)]].
    + left. split; [exact H1|]. split; [simpl; lia|].
      rewrite H3. destruct (n =? 0)%nat eqn:N.
      * apply Nat.eqb_eq in N. lia.
      * simpl. now rewrite <- !app_assoc.
    + right. left. exists x. split; [exact H1|]. split; [exact H2|].
      split; [simpl; lia|]. rewrite H4. destruct (n =? 0)%nat eqn:N.
      * apply Nat.eqb_eq in N. lia.
      * simpl. now rewrite <- !app_assoc.
    + right. right. split; [|split; [simpl; lia|]].
      * assert (L : last (map exn_msg (e :: errors)) msg
                    = last (map exn_msg errors) (exn_msg e)).
        { destruct errors as [|e' errors]; [reflexivity|].
          change (map exn_msg (e :: e' :: errors))
            with (exn_msg e :: map exn_msg (e' :: errors)).
          change (last (exn_msg e :: map exn_msg (e' :: errors)) msg)
            with (last (map exn_msg (e' :: errors)) msg).
          apply last_default. discriminate. }
        now rewrite L.
      * rewrite H3. destruct errors as [|e' errors].
        -- simpl in H2. subst n. simpl. now rewrite app_nil_r.
        -- destruct (n =? 0)%nat eqn:N.
           ++ apply Nat.eqb_eq in N. subst n. discriminate H2.
           ++ change (failures_between_pauses (c_set_parameter p v)
                        (write_pause self) (e :: e' :: errors))
                with (e_call (c_set_parameter p v) (Some e)
                      :: e_sleep (write_pause self)
                      :: failures_between_pauses (c_set_parameter p v)
                           (write_pause self) (e' :: errors)).
              simpl trace. now rewrite <- !app_assoc.
Qed.


(** X1. [_set_parameter_with_retries] calls [set_parameter] until it
    returns, at most [retries] times, and only after a [TimeoutException] or
    an [ATCommandException]; it pauses between two attempts (0.2 s on a
    local device, 5 s on a remote one) and not after the last.  It returns
    when an attempt does, passes on any other exception at once, and when
    the retries are used up raises an [XBeeException] that carries the
    message of the last failure (an empty one when [retries] is 0).  It
    leaves the updater's own fields alone. *)
Theorem set_parameter_with_retries_outcomes p v n s :
  let c := c_set_parameter p v in
  let r := _set_parameter_with_retries self p v n s in
  exists errors,
    Forall (fun e => retried_write e = true) errors
    /\ ses (snd r) = ses s
    /\ ((fst r = Ok tt /\ (List.length errors < n)%nat
         /\ trace (snd r)
            = trace s ++ failures_then_pause c (write_pause self) errors
              ++ [e_call c None])
        \/ (exists x,
               fst r = Raise x /\ retried_write x = false
               /\ (List.length errors < n)%nat
               /\ trace (snd r)
                  = trace s
                    ++ failures_then_pause c (write_pause self) errors
                    ++ [e_call c (Some x)])
        \/ (fst r = Raise (write_error p (last (map exn_msg errors) ""))
            /\ List.length errors = n
            /\ trace (snd r)
               = trace s
                 ++ failures_between_pauses c (write_pause self) errors)).
Proof. exact (set_parameter_loop_outcomes p v n "" s). Qed.

(** One round of the read loop. *)
Lemma read_parameter_step p n s :
  _read_parameter_with_retries self p (S n) s
  = let c := c_get_parameter p in
    let r0 := oracle (collab self) (trace s) c in
    let s1 := {| dev := keep_config (dev s) (resp_dev r0 (dev s));
                 ses := ses s;
                 trace := trace s ++ [e_call c (resp_exn r0)] |} in
    match resp_exn r0 with
    | None => (Ok (resp_bytes r0), s1)
    | Some e =>
        if retried_read e then
          _read_parameter_with_retries self p n
            {| dev := dev s1; ses := ses s1;
               trace := trace s1 ++ [e_sleep 200] |}
        else (Raise e, s1)
    end.
Proof.
  simpl. unfold try_except, bind, invoke, on, sleep, emit, ret,
    retried_read.
  destruct (resp_exn (oracle (collab self) (trace s) (c_get_parameter p)))
    as [e|]; [|reflexivity].
  destruct (existsb (isinstance e) _); reflexivity.
Qed.

(** X2. [_read_parameter_with_retries] calls [get_parameter] until it
    returns, at most [retries] times, and only after a [TimeoutException];
    it pauses 0.2 s after every timeout, the last one included.  It returns
    what the first answer holds, passes on any other exception at once, and
    after [retries] timeouts raises the [XBeeException] "Timeout reading
    parameter".  It leaves the updater's own fields alone. *)
Theorem read_parameter_with_retries_outcomes p n :
  forall s,
    let c := c_get_parameter p in
    let r := _read_parameter_with_retries self p n s in
    exists errors,
      Forall (fun e => retried_read e = true) errors
      /\ ses (snd r) = ses s
      /\ trace (snd r)
         = trace s ++ failures_then_pause c 200 errors
           ++ match fst r with
              | Ok _ => [e_call c None]
              | Raise x =>
                  if (List.length errors =? n)%nat then []
                  else [e_call c (Some x)]
              end
      /\ match fst r with
         | Ok b =>
             (List.length errors < n)%nat
             /\ b = resp_bytes
                      (oracle (collab self)
                         (trace s ++ failures_then_pause c 200 errors) c)
         | Raise x =>
             if (List.length errors =? n)%nat then x = read_error p
             else (List.length errors < n)%nat /\ retried_read x = false
         end.
Proof.
  induction n as [|n IH]; intros s; cbv zeta.
  - exists []. simpl. split; [constructor|]. split; [reflexivity|].
    split; [now rewrite app_nil_r | reflexivity].
  - rewrite read_parameter_step. cbv zeta.
    destruct (resp_exn (oracle (collab self) (trace s) (c_get_parameter p)))
      as [e|] eqn:E.
    2:{ exists []. simpl. split; [constructor|]. split; [reflexivity|].
        split; [reflexivity|]. split; [lia|]. now rewrite app_nil_r. }
    destruct (retried_read e) eqn:R.
    2:{ exists []. simpl. split; [constructor|]. split; [reflexivity|].
        split; [reflexivity|]. split; [lia | exact R]. }
    match goal with
    | |- context [_read_parameter_with_retries self p n ?s1] =>
        destruct (IH s1) as (errors & F & S1 & T & H); cbv zeta in *
    end.
    exists (e :: errors). split; [constructor; assumption|].
    split; [rewrite S1; reflexivity|].
    change (List.length (e :: errors) =? S n)%nat
      with (List.length errors =? n)%nat.
    split.
    + rewrite T. simpl. now rewrite <- !app_assoc.
    + destruct (fst (_read_parameter_with_retries self p n _)) as [b|x].
      * destruct H as [H1 H2]. split; [simpl; lia|].
        rewrite H2. simpl. now rewrite <- !app_assoc.
      * destruct (List.length errors =? n)%nat; [exact H|].
        destruct H as [H1 H2]. split; [simpl; lia | exact H2].
Qed.

(** *** The writes the device accepted *)

Lemma accepted_app t1 t2 : accepted (t1 ++ t2) = accepted t1 ++ accepted t2.
Proof.
  induction t1 as [|e r IH]; simpl; [reflexivity|].
  destruct e as [c o| | | |]; try exact IH.
  destruct c; try exact IH. destruct o; [exact IH|]. simpl. now rewrite IH.
Qed.

Lemma accepted_failures_then_pause c pause errors :
  accepted (failures_then_pause c pause errors) = [].
Proof.
  induction errors as [|e r IH]; simpl; [reflexivity|].
  destruct c; exact IH.
Qed.

Lemma accepted_failures_between_pauses c pause errors :
  accepted (failures_between_pauses c pause errors) = [].
Proof.
  induction errors as [|e r IH]; [reflexivity|].
  destruct r as [|e' r]; [destruct c; reflexivity|].
  change (failures_between_pauses c pause (e :: e' :: r))
    with (e_call c (Some e) :: e_sleep pause
          :: failures_between_pauses c pause (e' :: r)).
  destruct c; exact IH.
Qed.

(** A write with retries adds its parameter to the accepted writes exactly
    when it returns. *)
Lemma set_parameter_with_retries_accepted p v n s :
  accepted (trace (snd (_set_parameter_with_retries self p v n s)))
  = accepted (trace s)
    ++ match fst (_set_parameter_with_retries self p v n s) with
       | Ok _ => [(p, v)]
       | Raise _ => []
       end.
Proof.
  destruct (set_parameter_loop_outcomes p v n "" s)
    as (errors & _ & _ & H). cbv zeta in H.
  unfold _set_parameter_with_retries.
  destruct H as [(H1 & _ & H3) | [(x & H1 & _ & _ & H4) | (H1 & _ & H3)]];
    rewrite H1;
    [rewrite H3 | rewrite H4 | rewrite H3];
    rewrite ?accepted_app, ?accepted_failures_then_pause,
      ?accepted_failures_between_pauses; simpl;
    now rewrite ?app_nil_r.
Qed.

End RetryLoops.

Section ModeWrittenBack.
Import Py Updater Schedule.

Variable self : _ProfileUpdater.

Lemma report_step_device n c s :
  dev (snd (report_step self n c s)) = dev s.
Proof.
  unfold report_step. destruct (_progress_callback self && _); reflexivity.
Qed.

Lemma progress_device task p s :
  dev (snd (progress self task p s)) = dev s.
Proof.
  unfold progress, when. destruct (_progress_callback self); reflexivity.
Qed.

Lemma set_parameter_loop_mode p v n :
  mode_is_stable self ->
  forall msg s,
    operating_mode (dev (snd (set_parameter_loop self p v n msg s)))
    = operating_mode (dev s).
Proof.
  intros H. induction n as [|n IH]; intros msg s; [reflexivity|].
  rewrite set_parameter_loop_step. cbv zeta.
  destruct (resp_exn _) as [e|]; [|simpl; apply H].
  destruct (Attempts.retried_write e); [|simpl; apply H].
  rewrite IH. destruct (n =? 0)%nat; simpl; apply H.
Qed.

(** When no collaborator changes the operating mode, the mode written
    back is the one the handle reports when the phase is entered. *)
Lemma mode_written_back_stable s :
  mode_is_stable self -> mode_written_back self s = operating_mode (dev s).
Proof.
  intros H. unfold mode_written_back, reset_write.
  set (s0 := snd (enable_apply_changes false s)).
  assert (D0 : operating_mode (dev s0) = operating_mode (dev s))
    by reflexivity.
  rewrite <- D0.
  assert (P : progress self _TASK_UPDATE_SETTINGS (Some 0) s0
              = (Ok tt, snd (progress self _TASK_UPDATE_SETTINGS (Some 0) s0))).
  { unfold progress, when. now destruct (_progress_callback self). }
  rewrite (bind_Ok _ _ _ _ _ P).
  set (s1 := snd (progress self _TASK_UPDATE_SETTINGS (Some 0) s0)).
  assert (R : exists c1,
             report_step self (total_steps self) first_counters s1
             = (Ok c1, snd (report_step self (total_steps self)
                              first_counters s1))).
  { unfold report_step. destruct (_progress_callback self && _);
      eexists; reflexivity. }
  destruct R as [c1 R]. rewrite (bind_Ok _ _ _ _ _ R).
  unfold _set_parameter_with_retries.
  rewrite (set_parameter_loop_mode _ _ _ H), report_step_device.
  unfold s1. now rewrite progress_device.
Qed.

End ModeWrittenBack.

Section WritePlan.
Import Py Updater Attempts Frame Schedule.

Variable self : _ProfileUpdater.

Local Abbreviation okw := (fun c : call => negb (is_settings_write c)).
Local Abbreviation no_write m :=
  (Frame.holds okw (fun _ : session => tt) (fun _ : unit => True) m).

Lemma accepted_allowed evs :
  Forall (allowed okw) evs -> accepted evs = [].
Proof.
  induction 1 as [|e r He _ IH]; [reflexivity|].
  destruct e as [c o| | | |]; try exact IH.
  destruct c; try exact IH. simpl in He. discriminate He.
Qed.

Lemma no_write_accepted {A} (m : M A) s :
  no_write m -> accepted (trace (snd (m s))) = accepted (trace s).
Proof.
  intros H. destruct (H s I) as [(evs & T & F) _].
  now rewrite T, accepted_app, (accepted_allowed _ F), app_nil_r.
Qed.

Lemma follows_silent {A} (m : M A) s :
  accepted (trace (snd (m s))) = accepted (trace s) -> follows [] m s.
Proof.
  intros H. exists [], []. split; [reflexivity|]. split; [|reflexivity].
  now rewrite app_nil_r.
Qed.

Lemma follows_bind {A B} P1 P2 (m : M A) (f : A -> M B) s :
  follows P1 m s ->
  (forall a s1, m s = (Ok a, s1) -> follows P2 (f a) s1) ->
  follows (P1 ++ P2) (bind m f) s.
Proof.
  intros (d1 & r1 & E1 & A1 & K1) H2. unfold follows, bind.
  destruct (m s) as [[a|e] s1]; simpl in *.
  - rewrite (K1 a eq_refl), app_nil_r in E1. subst d1.
    destruct (H2 a s1 eq_refl) as (d2 & r2 & E2 & A2 & K2).
    exists (P1 ++ d2), r2. rewrite E2, A2, A1, !app_assoc. auto.
  - exists d1, (r1 ++ P2). rewrite E1, app_assoc.
    split; [reflexivity|]. split; [exact A1 | discriminate].
Qed.

Lemma follows_after {A B} P (m : M A) (f : A -> M B) s :
  follows [] m s ->
  (forall a s1, m s = (Ok a, s1) -> follows P (f a) s1) ->
  follows P (bind m f) s.
Proof. intros H1 H2. exact (follows_bind [] P m f s H1 H2). Qed.

Lemma follows_before {A B} P (m : M A) (f : A -> M B) s :
  follows P m s ->
  (forall a s1, m s = (Ok a, s1) -> follows [] (f a) s1) ->
  follows P (bind m f) s.
Proof.
  intros H1 H2. rewrite <- (app_nil_r P). now apply follows_bind.
Qed.

Lemma follows_write p v n s :
  follows [(p, v)] (_set_parameter_with_retries self p v n) s.
Proof.
  pose proof (set_parameter_with_retries_accepted self p v n s) as H.
  unfold follows.
  destruct (fst (_set_parameter_with_retries self p v n s)) as [u|e].
  - exists [(p, v)], []. auto.
  - exists [], [(p, v)]. split; [reflexivity|]. split; [exact H|].
    discriminate.
Qed.

Lemma follows_no_write {A} (m : M A) s : no_write m -> follows [] m s.
Proof. intros H. apply follows_silent. now apply no_write_accepted. Qed.

Lemma follows_report_step n c s : follows [] (report_step self n c) s.
Proof. apply follows_no_write, holds_report_step. Qed.

Lemma follows_ret {A} (a : A) s : follows [] (ret a) s.
Proof. now apply follows_silent. Qed.

Lemma follows_modify_ses f s : follows [] (modify_ses f) s.
Proof. now apply follows_silent. Qed.

Lemma follows_settings_loop n l :
  forall c s,
    follows
      (map (fun kv => (upper (Codec.name (snd kv)),
                       Codec.bytearray_value (snd kv)))
         (filter (fun kv => negb (_is_local self
                                  && String.eqb (upper (Codec.name (snd kv)))
                                       "AP")) l))
      (settings_loop self n l c) s.
Proof.
  induction l as [|[k setting] r IH]; intros c s.
  - apply follows_ret.
  - simpl settings_loop. simpl filter.
    apply follows_after; [apply follows_report_step|]. intros c1 s1 _.
    destruct (_is_local self && _).
    + simpl. apply follows_after; [apply follows_modify_ses|].
      intros; apply IH.
    + simpl negb. cbv iota.
      change (map ?f (?x :: ?t)) with ([f x] ++ map f t).
      apply follows_bind; [apply follows_write|]. intros; apply IH.
Qed.

Lemma follows_apply_changes_loop n :
  forall s, follows [("AC", Bytes [])] (apply_changes_loop self (S n)) s.
Proof.
  induction n as [|n IH]; intros s;
    (pose proof (set_parameter_with_retries_accepted self "AC" (Bytes [])
                   _PARAMETER_WRITE_RETRIES s) as H);
    unfold follows; simpl apply_changes_loop; unfold try_except;
    destruct (_set_parameter_with_retries self "AC" (Bytes [])
                _PARAMETER_WRITE_RETRIES s) as [[u|e] s1]; simpl in H |- *.
  - exists [("AC", Bytes [])], []. auto.
  - exists [], [("AC", Bytes [])]. rewrite app_nil_r in *.
    unfold on. destruct (existsb _ _); simpl;
      (split; [reflexivity|]); (split; [exact H | discriminate]).
  - exists [("AC", Bytes [])], []. auto.
  - unfold on. destruct (existsb _ _); simpl.
    + destruct (IH s1) as (d & r & E & Ac & K).
      exists d, r. rewrite app_nil_r in H. rewrite <- H. auto.
    + exists [], [("AC", Bytes [])]. rewrite app_nil_r in *.
      split; [reflexivity|]. split; [exact H | discriminate].
Qed.

Lemma follows_try_except_raise {A} P (m : M A) cls (g : exn -> exn) s :
  follows P m s ->
  follows P (try_except m (on cls (fun e => raise (g e)))) s.
Proof.
  intros (d & r & E & Ac & K). unfold follows, try_except.
  destruct (m s) as [[a|e] s1]; simpl in *; [exists d, r; auto|].
  unfold on. destruct (existsb _ _); simpl;
    exists d, r; (split; [exact E|]); (split; [exact Ac | discriminate]).
Qed.

Lemma no_write__check_port_settings_changed :
  _is_local self = true -> no_write (_check_port_settings_changed self).
Proof. intros L. now apply holds__check_port_settings_changed. Qed.

Lemma no_write_read_device_info_loop n :
  no_write (read_device_info_loop self n).
Proof. now apply holds_read_device_info_loop. Qed.

Lemma no_write_enable_apply_changes b : no_write (enable_apply_changes b).
Proof. apply holds_enable_apply_changes. Qed.

Lemma no_write_sleep ms : no_write (sleep ms).
Proof. apply holds_sleep. Qed.

#[local] Hint Resolve no_write__check_port_settings_changed
  no_write_read_device_info_loop no_write_enable_apply_changes
  no_write_sleep : frames.

(** The restore-defaults step writes RE and, on a local device, writes
    back as AP the operating mode the handle reports once the [RE] write
    has returned. *)
Lemma follows_reset_step_mode n c s :
  follows (("RE", Bytes [])
           :: (if _is_local self
               then [("AP",
                      Bytes [operating_mode
                               (dev (snd ((c1 <- report_step self n c ;;
                                           _set_parameter_with_retries self
                                             "RE" (Bytes [])
                                             _PARAMETER_WRITE_RETRIES) s)))])]
               else []))
    (reset_step self n c) s.
Proof.
  unfold reset_step.
  apply follows_after; [apply follows_report_step|]. intros c1 s1 E1.
  rewrite (bind_Ok _ _ _ _ _ E1).
  apply (follows_bind [("RE", Bytes [])]); [apply follows_write|].
  intros [] s2 E2. rewrite E2. simpl snd.
  apply follows_before; [|intros; apply follows_ret].
  unfold when. destruct (_is_local self); [|apply follows_ret].
  apply follows_after; [apply follows_modify_ses|]. intros [] s3 E3.
  apply modify_ses_inv in E3.
  apply follows_after; [now apply follows_silent|]. intros mode s4 E4.
  apply gets_inv in E4. destruct E4 as [-> ->]. subst s3. simpl.
  apply follows_write.
Qed.

Lemma follows_write_settings_mode s :
  follows (planned_writes self
             (operating_mode (dev (snd (reset_write self s)))))
    (write_settings self) s.
Proof.
  unfold write_settings, queue_settings, planned_writes, reset_write.
  fold first_counters.
  rewrite (app_assoc _ _ [("WR", Bytes []); ("AC", Bytes [])]).
  rewrite (app_assoc _ [("WR", Bytes [])] [("AC", Bytes [])]).
  apply follows_bind.
  - apply follows_after;
      [apply follows_no_write, holds_progress|]. intros [] s1 E1.
    rewrite (bind_Ok _ _ _ _ _ E1).
    rewrite <- app_assoc.
    apply follows_bind.
    { destruct (_ || _); [apply follows_reset_step_mode | apply follows_ret]. }
    intros c1 s2 _.
    apply follows_bind; [apply follows_settings_loop|]. intros c2 s3 _.
    unfold write_step.
    apply follows_after; [apply follows_report_step|]. intros c3 s4 _.
    apply follows_before; [apply follows_write | intros; apply follows_ret].
  - intros c s2 _. unfold apply_step.
    apply follows_after; [apply follows_report_step|]. intros c3 s3 _.
    apply follows_before;
      [apply (follows_apply_changes_loop 2) | intros; apply follows_ret].
Qed.

(** X3. The settings phase gets the device to accept writes in one order
    only, that of its plan: RE first when the settings are reset (and then,
    on a local device, AP with the operating mode the handle reports once
    the RE write has returned, which is the mode it reports when the phase
    is entered if no collaborator changes it), the settings of the profile
    in the order of the profile (without AP on a local device), WR, and AC
    last.  Whatever the outcome, the accepted writes are a beginning of
    that plan; when the phase returns and had something to do, they are
    the whole plan. *)
Theorem settings_are_written_in_profile_order s :
  (exists done rest,
      planned_writes self (mode_written_back self s) = done ++ rest
      /\ accepted (trace (snd (_update_device_settings self s)))
         = accepted (trace s) ++ done
      /\ (fst (_update_device_settings self s) = Ok tt ->
          nothing_to_update self = false -> rest = []))
  /\ (mode_is_stable self ->
      mode_written_back self s = operating_mode (dev s)).
Proof.
  split; [|apply mode_written_back_stable].
  set (s0 := {| dev := set_apply_changes false (dev s); ses := ses s;
                trace := trace s ++ [e_enable_apply_changes false] |}).
  pose proof (follows_write_settings_mode s0) as Hws.
  change (operating_mode (dev (snd (reset_write self s0))))
    with (mode_written_back self s) in Hws.
  set (mode := mode_written_back self s) in *.
  unfold _update_device_settings. fold (nothing_to_update self).
  destruct (nothing_to_update self).
  { exists [], (planned_writes self mode). simpl.
    rewrite app_nil_r. repeat split. discriminate. }
  cut (follows (planned_writes self mode)
         (by_fw <- gets (fun s => _protocol_changed_by_fw (ses s)) ;;
          if is_remote (_target self) && by_fw
             && (negb (List.length (profile_settings (_xbee_profile self))
                       =? 0)%nat
                 || reset_settings (_xbee_profile self))
          then raise (UpdateProfileException_
                        _ERROR_UPDATE_SETTINGS_PROTOCOL_CHANGE)
          else
            old_apply_settings_value <-
              gets (fun s => apply_changes_enabled (dev s)) ;;
            enable_apply_changes false ;;
            c <- try_except (write_settings self)
                   (on [XBeeException]
                       (fun e => raise (UpdateProfileException_
                                          (String.append _ERROR_UPDATE_SETTINGS
                                             (exn_msg e))))) ;;
            enable_apply_changes old_apply_settings_value ;;
            when (_is_local self) (_check_port_settings_changed self) ;;
            if is_str (_target self) then ret tt
            else
              by_settings <-
                gets (fun s => _protocol_changed_by_settings (ses s)) ;;
              when (network_settings_changed c || by_settings)
                (_ <- invoke self (if _is_local self then c_network_clear
                                   else c_network_remove_device) ;;
                 ret tt) ;;
              when (cache_settings_changed c || by_settings)
                (when (negb (_is_local self) && network_settings_changed c)
                   (sleep 15000) ;;
                 read_device_info_loop self _PARAMETER_READ_RETRIES)) s).
  { intros (d & r & E & Ac & K). exists d, r.
    split; [exact E|]. split; [exact Ac|]. intros H _. exact (K tt H). }
  apply follows_after; [now apply follows_silent|]. intros by_fw s1 E1.
  apply gets_inv in E1. destruct E1 as [_ ->].
  destruct (_ && _ && _).
  { exists [], (planned_writes self mode). simpl. rewrite app_nil_r.
    repeat split. discriminate. }
  apply follows_after; [now apply follows_silent|]. intros old s1 E1.
  apply gets_inv in E1. destruct E1 as [_ ->].
  apply follows_after;
    [apply follows_no_write, no_write_enable_apply_changes|].
  intros [] s1 E1.
  assert (s1 = s0) by (unfold s0; now inversion E1). subst s1.
  apply follows_before.
  { apply follows_try_except_raise. exact Hws. }
  intros c s2 _. apply follows_no_write.
  frame.
  apply holds_invoke. now destruct (_is_local self).
Qed.

End WritePlan.

(* --------------------------------------------------------------------- *)
(** ** The steps of the settings phase and their reports *)
(* --------------------------------------------------------------------- *)

Create HintDb unreported.

Section SettingsSchedule.
Import Py Updater Attempts Schedule.

Variable self : _ProfileUpdater.

Local Abbreviation N := (total_steps self).
Local Abbreviation cb := (_progress_callback self).

Lemma retries_failures_then_pause p v pause errors :
  Forall (is_retry p v)
    (failures_then_pause (c_set_parameter p v) pause errors).
Proof.
  induction errors as [|e r IH]; simpl; [constructor|].
  constructor; [simpl; auto|]. constructor; [exact I | exact IH].
Qed.

Lemma retries_failures_between_pauses p v pause errors :
  Forall (is_retry p v)
    (failures_between_pauses (c_set_parameter p v) pause errors).
Proof.
  induction errors as [|e r IH]; [constructor|].
  destruct r as [|e' r].
  - simpl. constructor; [simpl; auto | constructor].
  - change (failures_between_pauses (c_set_parameter p v) pause
              (e :: e' :: r))
      with (e_call (c_set_parameter p v) (Some e) :: e_sleep pause
            :: failures_between_pauses (c_set_parameter p v) pause
                 (e' :: r)).
    constructor; [simpl; auto|]. constructor; [exact I | exact IH].
Qed.

(** *** The writes of one step *)

Lemma does_write p v n s :
  does [(p, v)] (_set_parameter_with_retries self p v n) s.
Proof.
  destruct (set_parameter_loop_outcomes self p v n "" s)
    as (errors & _ & _ & H). cbv zeta in H.
  unfold does, _set_parameter_with_retries.
  destruct H as [(H1 & _ & H3) | [(x & H1 & _ & _ & H4) | (H1 & _ & H3)]].
  - eexists _, true. split; [exact H3|]. split.
    + apply carried_next;
        [apply retries_failures_then_pause | constructor].
    + split; [intros _; now exists tt | discriminate].
  - eexists _, false. split; [exact H4|]. split.
    + apply carried_stuck. apply Forall_app. split.
      * apply retries_failures_then_pause.
      * constructor; [simpl; auto | constructor].
    + split; [discriminate | intros _; now exists x].
  - eexists _, false. split; [exact H3|]. split.
    + apply carried_stuck, retries_failures_between_pauses.
    + split; [discriminate | intros _; eexists; exact H1].
Qed.

Lemma does_nothing {A} (m : M A) s a s' :
  m s = (Ok a, s') -> trace s' = trace s -> does [] m s.
Proof.
  intros E T. exists [], true. rewrite E. simpl.
  split; [now rewrite app_nil_r|]. split; [constructor|].
  split; [intros _; now exists a | discriminate].
Qed.

Lemma carried_out_app w1 e1 b1 :
  carried_out w1 e1 b1 ->
  if b1
  then forall w2 e2 b,
         carried_out w2 e2 b -> carried_out (w1 ++ w2) (e1 ++ e2) b
  else forall w2, carried_out (w1 ++ w2) e1 false.
Proof.
  induction 1 as [|p v r retries F|p v r retries rest b F C IH].
  - intros w2 e2 b H. exact H.
  - intros w2. now apply carried_stuck.
  - destruct b.
    + intros w2 e2 b H. rewrite <- app_assoc. simpl.
      apply carried_next; [exact F | now apply IH].
    + intros w2. simpl. apply carried_next; [exact F | apply IH].
Qed.

Lemma does_bind {A B} w1 w2 (m : M A) (f : A -> M B) s :
  does w1 m s ->
  (forall a s1, m s = (Ok a, s1) -> does w2 (f a) s1) ->
  does (w1 ++ w2) (bind m f) s.
Proof.
  intros (work1 & b1 & T1 & C1 & O1 & R1) H2. unfold does, bind.
  destruct (m s) as [r s1] eqn:E. simpl in *.
  destruct b1.
  - destruct (O1 eq_refl) as [a ->].
    destruct (H2 a s1 eq_refl) as (work2 & b2 & T2 & C2 & O2 & R2).
    exists (work1 ++ work2), b2. rewrite T2, T1, app_assoc.
    split; [reflexivity|]. split; [|now split].
    exact (carried_out_app _ _ _ C1 _ _ _ C2).
  - destruct (R1 eq_refl) as [e ->]. exists work1, false. simpl.
    split; [exact T1|]. split; [exact (carried_out_app _ _ _ C1 _)|].
    split; [discriminate | intros _; now exists e].
Qed.

Lemma does_ext {A} w (m m' : M A) s : m s = m' s -> does w m s -> does w m' s.
Proof. unfold does. now intros ->. Qed.

Lemma carried_out_stuck_retries p v work :
  carried_out [(p, v)] work false -> Forall (is_retry p v) work.
Proof.
  intros H. inversion H as [|? ? ? ? F|? ? ? ? ? ? F C]; subst; [exact F|].
  inversion C.
Qed.

Lemma carried_out_more_retries p v w r0 work b :
  Forall (is_retry p v) r0 -> carried_out ((p, v) :: w) work b ->
  carried_out ((p, v) :: w) (r0 ++ work) b.
Proof.
  intros F0 H. inversion H as [|? ? ? ? F|? ? ? ? ? ? F C]; subst.
  - apply carried_stuck, Forall_app. now split.
  - rewrite app_assoc. apply carried_next; [|exact C].
    apply Forall_app. now split.
Qed.

Lemma apply_changes_loop_step n s :
  apply_changes_loop self (S n) s
  = match _set_parameter_with_retries self "AC" (Bytes [])
            _PARAMETER_WRITE_RETRIES s with
    | (Ok u, s1) => (Ok u, s1)
    | (Raise e, s1) =>
        if existsb (isinstance e) [XBeeException]
        then if Nat.eqb n 0 then (Raise e, s1)
             else apply_changes_loop self n s1
        else (Raise e, s1)
    end.
Proof.
  cbn [apply_changes_loop]. unfold try_except, on.
  destruct (_set_parameter_with_retries self "AC" (Bytes [])
              _PARAMETER_WRITE_RETRIES s) as [[u|e] s1]; [reflexivity|].
  destruct (existsb _ _); [|reflexivity].
  now destruct (Nat.eqb n 0).
Qed.

Lemma does_apply_changes_loop n :
  forall s, does [("AC", Bytes [])] (apply_changes_loop self (S n)) s.
Proof.
  induction n as [|n IH]; intros s;
    (destruct (does_write "AC" (Bytes []) _PARAMETER_WRITE_RETRIES s)
       as (work & b & T & C & O & R));
    unfold does; rewrite apply_changes_loop_step;
    destruct (_set_parameter_with_retries self "AC" (Bytes [])
                _PARAMETER_WRITE_RETRIES s) as [[u|e] s1] eqn:E;
    simpl in T, O, R.
  - destruct b; [|destruct (R eq_refl); discriminate].
    exists work, true. split; [exact T|]. split; [exact C|].
    split; [intros _; now exists u | discriminate].
  - destruct b; [destruct (O eq_refl); discriminate|].
    exists work, false.
    destruct (existsb _ _); simpl;
      (split; [exact T|]); (split; [exact C|]);
      (split; [discriminate | intros _; now exists e]).
  - destruct b; [|destruct (R eq_refl); discriminate].
    exists work, true. split; [exact T|]. split; [exact C|].
    split; [intros _; now exists u | discriminate].
  - destruct b; [destruct (O eq_refl); discriminate|].
    destruct (existsb _ _).
    + change (Nat.eqb (S n) 0) with false. cbv iota.
      destruct (IH s1) as (work2 & b2 & T2 & C2 & O2 & R2).
      exists (work ++ work2), b2. rewrite T2, T, app_assoc.
      split; [reflexivity|]. split; [|now split].
      apply carried_out_more_retries; [|exact C2].
      now apply carried_out_stuck_retries.
    + exists work, false. split; [exact T|]. split; [exact C|].
      split; [discriminate | intros _; now exists e].
Qed.

(** *** The report before a step *)

Lemma report_step_exact c s :
  counters_ok cb N c ->
  exists c1 s1,
    report_step self N c s = (Ok c1, s1)
    /\ trace s1 = trace s ++ report_of self (setting_index c)
    /\ dev s1 = dev s /\ ses s1 = ses s
    /\ setting_index c1 = setting_index c
    /\ (cb = true -> previous_percent c1 = percent self (setting_index c)).
Proof.
  intros [_ Hp]. unfold report_step, report_of, percent_of, percent.
  destruct cb eqn:C; simpl.
  - rewrite (Hp eq_refl).
    destruct (setting_index c * 100 / N =? (setting_index c - 1) * 100 / N)
      eqn:E; simpl.
    + apply Z.eqb_eq in E. exists c, s. rewrite app_nil_r.
      repeat split. intros _. rewrite (Hp eq_refl). now rewrite E.
    + unfold bind, emit, ret. simpl. do 2 eexists.
      split; [reflexivity|]. simpl. repeat split.
  - exists c, s. rewrite app_nil_r. repeat split. discriminate.
Qed.

(** *** The steps one after the other *)

Lemma scheduled_app k A e1 b1 :
  scheduled self k A e1 b1 ->
  if b1
  then forall B e2 b,
         scheduled self (k + Z.of_nat (List.length A)) B e2 b ->
         scheduled self k (A ++ B) (e1 ++ e2) b
  else forall B, scheduled self k (A ++ B) e1 false.
Proof.
  induction 1 as [k|k w rest work C|k w rest work tail b C Sch IH].
  - intros B e2 b H. simpl in *. now rewrite Z.add_0_r in H.
  - intros B. now apply scheduled_stuck.
  - destruct b.
    + intros B e2 b H. rewrite <- !app_assoc. simpl.
      apply scheduled_next; [exact C|]. apply IH.
      change (List.length (w :: rest)) with (S (List.length rest)) in H.
      rewrite Nat2Z.inj_succ in H.
      now replace (k + 1 + Z.of_nat (List.length rest))
        with (k + Z.succ (Z.of_nat (List.length rest))) by lia.
    + intros B. simpl. apply scheduled_next; [exact C | apply IH].
Qed.

Lemma goes_through_ret {A} k (Q : A -> Prop) (a : A) s :
  Q a -> goes_through self k [] Q (ret a) s.
Proof.
  intros H. exists [], true. unfold ret. simpl.
  split; [now rewrite app_nil_r|]. split; [constructor|].
  split; [intros _; now exists a | discriminate].
Qed.

Lemma goes_through_bind {A B} k S1 S2 (Q1 : A -> Prop) (Q2 : B -> Prop)
  (m : M A) (f : A -> M B) s :
  goes_through self k S1 Q1 m s ->
  (forall a s1, m s = (Ok a, s1) -> Q1 a ->
                goes_through self (k + Z.of_nat (List.length S1)) S2 Q2
                  (f a) s1) ->
  goes_through self k (S1 ++ S2) Q2 (bind m f) s.
Proof.
  intros (e1 & b1 & T1 & C1 & O1 & R1) H2. unfold goes_through, bind.
  destruct (m s) as [r s1] eqn:E. simpl in *.
  destruct b1.
  - destruct (O1 eq_refl) as (a & -> & Qa).
    destruct (H2 a s1 eq_refl Qa) as (e2 & b2 & T2 & C2 & O2 & R2).
    exists (e1 ++ e2), b2. rewrite T2, T1, app_assoc.
    split; [reflexivity|]. split; [|now split].
    exact (scheduled_app _ _ _ _ C1 _ _ _ C2).
  - destruct (R1 eq_refl) as [e ->]. exists e1, false. simpl.
    split; [exact T1|]. split; [exact (scheduled_app _ _ _ _ C1 _)|].
    split; [discriminate | intros _; now exists e].
Qed.

Lemma goes_through_cast {A} k k' steps (Q Q' : A -> Prop) (m : M A) s :
  k = k' -> (forall a, Q a -> Q' a) ->
  goes_through self k steps Q m s -> goes_through self k' steps Q' m s.
Proof.
  intros <- HQ (evs & b & T & C & O & R). exists evs, b.
  split; [exact T|]. split; [exact C|]. split; [|exact R].
  intros Hb. destruct (O Hb) as (a & Ha & Qa). exists a. auto.
Qed.

Lemma goes_through_ext {A} k steps (Q : A -> Prop) (m m' : M A) s :
  m s = m' s ->
  goes_through self k steps Q m s -> goes_through self k steps Q m' s.
Proof. unfold goes_through. now intros ->. Qed.

(** One step: its report, its writes, and the steps after it. *)
Lemma goes_through_step {A} k w rest (Q : A -> Prop) c
  (body : counters -> M unit) (cont : counters -> M A) s :
  counters_ok cb N c -> setting_index c = k ->
  (forall c1 s1, report_step self N c s = (Ok c1, s1) ->
                 does w (body c1) s1) ->
  (forall c1 s2, setting_index c1 = k ->
                 (cb = true -> previous_percent c1 = percent self k) ->
                 goes_through self (k + 1) rest Q (cont c1) s2) ->
  goes_through self k (w :: rest) Q
    (c1 <- report_step self N c ;; body c1 ;; cont c1) s.
Proof.
  intros Hc Hk Hbody Hcont.
  destruct (report_step_exact c s Hc) as (c1 & s1 & R & T1 & _ & _ & I1 & P1).
  rewrite Hk in T1, I1, P1.
  destruct (Hbody c1 s1 R) as (work & b & T2 & C2 & O2 & R2).
  unfold goes_through. rewrite (bind_Ok _ _ _ _ _ R). unfold bind.
  destruct (body c1 s1) as [r s2] eqn:E. simpl in *.
  destruct b.
  - destruct (O2 eq_refl) as [[] ->].
    destruct (Hcont c1 s2 I1 P1) as (tail & b3 & T3 & C3 & O3 & R3).
    exists (report_of self k ++ work ++ tail), b3.
    rewrite T3, T2, T1, <- !app_assoc.
    split; [reflexivity|]. split; [|now split].
    now apply scheduled_next.
  - destruct (R2 eq_refl) as [e ->]. simpl.
    exists (report_of self k ++ work), false.
    rewrite T2, T1, <- !app_assoc.
    split; [reflexivity|]. split; [now apply scheduled_stuck|].
    split; [discriminate | intros _; now exists e].
Qed.

Local Abbreviation at_step k :=
  (fun c : counters => counters_ok cb N c /\ setting_index c = k).

Lemma next_counters_ok c1 c2 k :
  1 <= k -> setting_index c1 = k ->
  (cb = true -> previous_percent c1 = percent self k) ->
  setting_index c2 = setting_index c1 + 1 ->
  previous_percent c2 = previous_percent c1 ->
  at_step (k + 1) c2.
Proof.
  intros Hk I1 P1 I2 P2. split; [|lia].
  exact (counters_ok_next self c1 c2 k Hk I1 P1 I2 P2).
Qed.

(** *** The steps of the phase *)

Lemma goes_through_reset_step c s :
  counters_ok cb N c ->
  goes_through self (setting_index c)
    [reset_writes self
       (operating_mode
          (dev (snd ((c1 <- report_step self N c ;;
                      _set_parameter_with_retries self "RE" (Bytes [])
                        _PARAMETER_WRITE_RETRIES) s))))]
    (at_step (setting_index c + 1)) (reset_step self N c) s.
Proof.
  intros Hc.
  set (body := fun _ : counters =>
         _set_parameter_with_retries self "RE" (Bytes [])
           _PARAMETER_WRITE_RETRIES ;;
         when (_is_local self)
           (modify_ses (with_xpro_ap (Bytes [AT_MODE_code])) ;;
            mode <- gets (fun s => operating_mode (dev s)) ;;
            _set_parameter_with_retries self "AP" (Bytes [mode])
              _PARAMETER_WRITE_RETRIES)).
  set (cont := fun c1 : counters => ret (all_changed (next_index c1))).
  apply (goes_through_ext _ _ _
           (c1 <- report_step self N c ;; body c1 ;; cont c1)).
  { unfold reset_step, body, cont, bind.
    destruct (report_step self N c s) as [[c1|e] s1]; [|reflexivity].
    destruct (_set_parameter_with_retries self "RE" (Bytes [])
                _PARAMETER_WRITE_RETRIES s1) as [[[]|e] s2]; reflexivity. }
  apply goes_through_step; [exact Hc | reflexivity | |].
  - intros c1 s1 R. rewrite (bind_Ok _ _ _ _ _ R). unfold body, reset_writes.
    apply (does_bind [("RE", Bytes [])]); [apply does_write|].
    intros [] s2 E2. rewrite E2. simpl snd.
    unfold when. destruct (_is_local self).
    + apply (does_bind []);
        [now apply (does_nothing _ _ tt
                      {| dev := dev s2;
                         ses := with_xpro_ap (Bytes [AT_MODE_code]) (ses s2);
                         trace := trace s2 |})|].
      intros [] s3 E3. apply modify_ses_inv in E3. subst s3.
      apply (does_bind []);
        [now eapply does_nothing|].
      intros mode s4 E4. apply gets_inv in E4. destruct E4 as [-> ->].
      simpl. apply does_write.
    + now apply (does_nothing _ _ tt s2).
  - intros c1 s2 I1 P1. unfold cont. apply goes_through_ret.
    destruct Hc as [H1 _].
    apply (next_counters_ok c1); auto.
Qed.

Lemma goes_through_settings_loop l :
  forall c s,
    counters_ok cb N c ->
    goes_through self (setting_index c) (map (setting_writes self) l)
      (at_step (setting_index c + Z.of_nat (List.length l)))
      (settings_loop self N l c) s.
Proof.
  induction l as [|[key setting] r IH]; intros c s Hc.
  - simpl. apply goes_through_ret. split; [exact Hc | lia].
  - change (List.length ((key, setting) :: r)) with (S (List.length r)).
    rewrite Nat2Z.inj_succ. simpl settings_loop. simpl map.
    apply (goes_through_step _ _ _ _ c
             (fun _ =>
                if _is_local self
                   && String.eqb (upper (Codec.name setting)) "AP"
                then modify_ses (with_xpro_ap (Codec.bytearray_value setting))
                else _set_parameter_with_retries self
                       (upper (Codec.name setting))
                       (Codec.bytearray_value setting)
                       _PARAMETER_WRITE_RETRIES)
             (fun c1 => settings_loop self N r
                          (next_setting (upper (Codec.name setting)) c1)));
      [exact Hc | reflexivity | |].
    + intros c1 s1 _. unfold setting_writes. simpl snd.
      destruct (_is_local self && _).
      * now eapply does_nothing.
      * apply does_write.
    + intros c1 s2 I1 P1.
      set (c2 := next_setting (upper (Codec.name setting)) c1).
      destruct Hc as [H1 Hp].
      assert (Hc2 : at_step (setting_index c + 1) c2)
        by (apply (next_counters_ok c1); auto).
      destruct Hc2 as [Hc2 I2].
      pose proof (IH c2 s2 Hc2) as G. rewrite I2 in G.
      now replace (setting_index c + Z.succ (Z.of_nat (List.length r)))
        with (setting_index c + 1 + Z.of_nat (List.length r)) by lia.
Qed.

Lemma goes_through_write_step c s :
  counters_ok cb N c ->
  goes_through self (setting_index c) [[("WR", Bytes [])]]
    (at_step (setting_index c + 1)) (write_step self N c) s.
Proof.
  intros Hc. unfold write_step.
  apply (goes_through_step _ _ _ _ c
           (fun _ => _set_parameter_with_retries self "WR" (Bytes [])
                       _PARAMETER_WRITE_RETRIES)
           (fun c1 => ret (next_index c1)));
    [exact Hc | reflexivity | |].
  - intros c1 s1 _. apply does_write.
  - intros c1 s2 I1 P1. apply goes_through_ret. destruct Hc as [H1 _].
    apply (next_counters_ok c1); auto.
Qed.

Lemma goes_through_apply_step c s :
  counters_ok cb N c ->
  goes_through self (setting_index c) [[("AC", Bytes [])]]
    (fun _ => True) (apply_step self N c) s.
Proof.
  intros Hc. unfold apply_step.
  apply (goes_through_step _ _ _ _ c
           (fun _ => apply_changes_loop self _PARAMETER_READ_RETRIES)
           (fun _ => ret c));
    [exact Hc | reflexivity | |].
  - intros c1 s1 _. apply (does_apply_changes_loop 2).
  - intros c1 s2 _ _. now apply goes_through_ret.
Qed.

Lemma progress_first_report s :
  exists s1,
    progress self _TASK_UPDATE_SETTINGS (Some 0) s = (Ok tt, s1)
    /\ trace s1 = trace s ++ first_report self.
Proof.
  unfold progress, when, first_report, emit, ret.
  destruct cb; eexists; (split; [reflexivity|]); simpl;
    now rewrite ?app_nil_r.
Qed.

Lemma bind_Ok_assoc {A B C} (m : M A) (f : A -> M B) (g : B -> M C) s a s1 :
  m s = (Ok a, s1) -> bind (bind m f) g s = bind (f a) g s1.
Proof. intros H. unfold bind. now rewrite H. Qed.

(** The body of the [try]: the first report, then the steps. *)
Lemma write_settings_scheduled s :
  exists evs finished,
    trace (snd (write_settings self s))
    = trace s ++ first_report self ++ evs
    /\ scheduled self 1
         (step_writes self (operating_mode (dev (snd (reset_write self s)))))
         evs finished
    /\ (finished = true -> exists c, fst (write_settings self s) = Ok c)
    /\ (finished = false -> exists e, fst (write_settings self s) = Raise e).
Proof.
  destruct (progress_first_report s) as (s1 & P & T1).
  assert (Hc0 : counters_ok cb N first_counters)
    by (split; simpl; [lia | auto]).
  set (mode := operating_mode (dev (snd (reset_write self s)))).
  assert (Hmode : mode
                  = operating_mode
                      (dev (snd ((c1 <- report_step self N first_counters ;;
                                  _set_parameter_with_retries self "RE"
                                    (Bytes []) _PARAMETER_WRITE_RETRIES)
                                   s1)))).
  { unfold mode, reset_write. now rewrite (bind_Ok _ _ _ _ _ P). }
  set (r := if reset_settings (_xbee_profile self) || is_str (_target self)
            then 1 else 0).
  cut (goes_through self 1 (step_writes self mode) (fun _ => True)
         (c <- (c <- (if reset_settings (_xbee_profile self)
                         || is_str (_target self)
                      then reset_step self N first_counters
                      else ret first_counters) ;;
                c <- settings_loop self N
                       (profile_settings (_xbee_profile self)) c ;;
                write_step self N c) ;;
          apply_step self N c) s1).
  { intros (evs & b & T & C & O & R). exists evs, b.
    assert (E : write_settings self s
                = (c <- (c <- (if reset_settings (_xbee_profile self)
                                  || is_str (_target self)
                               then reset_step self N first_counters
                               else ret first_counters) ;;
                         c <- settings_loop self N
                                (profile_settings (_xbee_profile self)) c ;;
                         write_step self N c) ;;
                   apply_step self N c) s1).
    { unfold write_settings, queue_settings. fold first_counters.
      exact (bind_Ok_assoc _ _ _ _ _ _ P). }
    rewrite E, T, T1, <- app_assoc. split; [reflexivity|].
    split; [exact C|]. split.
    - intros H. destruct (O H) as (c & Hc & _). now exists c.
    - exact R. }
  set (Rl := if reset_settings (_xbee_profile self) || is_str (_target self)
             then [reset_writes self mode] else []).
  set (Sl := map (setting_writes self)
               (profile_settings (_xbee_profile self))).
  assert (Hsteps : step_writes self mode
                   = (Rl ++ Sl ++ [[("WR", Bytes [])]])
                     ++ [[("AC", Bytes [])]]).
  { unfold step_writes. fold Rl Sl. now rewrite <- !app_assoc. }
  rewrite Hsteps.
  apply (goes_through_bind _ _ _
           (at_step (1 + Z.of_nat (List.length
                                     (Rl ++ Sl ++ [[("WR", Bytes [])]]))))).
  2:{ intros c s2 _ [Hc Ic].
      apply (goes_through_cast (setting_index c) _ _ (fun _ => True));
        [exact Ic | auto |].
      now apply goes_through_apply_step. }
  apply (goes_through_bind _ _ _
           (at_step (1 + Z.of_nat (List.length Rl)))).
  { unfold Rl.
    destruct (reset_settings (_xbee_profile self) || is_str (_target self)).
    - rewrite Hmode.
      apply (goes_through_cast (setting_index first_counters) _ _
               (at_step (setting_index first_counters + 1)));
        [reflexivity | auto |].
      now apply goes_through_reset_step.
    - apply goes_through_ret. split; [exact Hc0 | reflexivity]. }
  intros c s2 _ [Hc Ic].
  apply (goes_through_bind _ _ _
           (at_step (1 + Z.of_nat (List.length Rl)
                     + Z.of_nat (List.length Sl)))).
  { apply (goes_through_cast (setting_index c) _ _
             (at_step (setting_index c
                       + Z.of_nat (List.length
                                     (profile_settings
                                        (_xbee_profile self)))))).
    - exact Ic.
    - intros c' [Hc' Ic']. split; [exact Hc'|].
      unfold Sl. rewrite length_map. lia.
    - now apply goes_through_settings_loop. }
  intros c' s3 _ [Hc' Ic'].
  apply (goes_through_cast (setting_index c') _ _
           (at_step (setting_index c' + 1))).
  - exact Ic'.
  - intros c'' [Hc'' Ic'']. split; [exact Hc''|].
    rewrite !length_app, !Nat2Z.inj_add. simpl List.length. lia.
  - now apply goes_through_write_step.
Qed.

(** *** The whole phase *)

#[local] Hint Resolve quiet_ret quiet_raise quiet_gets quiet_lift
  quiet_modify_dev quiet_modify_ses quiet_invoke quiet_sleep
  quiet_enable_apply_changes quiet__check_port_settings_changed
  quiet_read_device_info_loop : unreported.

#[local] Hint Resolve no_write__check_port_settings_changed
  no_write_read_device_info_loop no_write_enable_apply_changes
  no_write_sleep : frames.

Ltac hush :=
  repeat (first
    [ progress (unfold Updater.when)
    | match goal with
      | |- Updater.advances _ _ _ _ (Updater.bind _ _) =>
          apply quiet_bind; [|intro]
      | |- Updater.advances _ _ _ _ (if ?b then _ else _) => destruct b
      end
    | solve [auto with unreported] ]).

(** What follows the [try] block reports nothing and writes no setting. *)
Lemma after_the_writes (c : counters) (old : bool) s :
  exists after,
    trace (snd ((enable_apply_changes old ;;
                 when (_is_local self) (_check_port_settings_changed self) ;;
                 if is_str (_target self) then ret tt
                 else
                   by_settings <-
                     gets (fun s => _protocol_changed_by_settings (ses s)) ;;
                   when (network_settings_changed c || by_settings)
                     (_ <- invoke self (if _is_local self
                                        then c_network_clear
                                        else c_network_remove_device) ;;
                      ret tt) ;;
                   when (cache_settings_changed c || by_settings)
                     (when (negb (_is_local self)
                            && network_settings_changed c)
                        (sleep 15000) ;;
                      read_device_info_loop self _PARAMETER_READ_RETRIES))
                  s))
    = trace s ++ after
    /\ percents after = []
    /\ Forall (Frame.allowed (fun c => negb (is_settings_write c))) after.
Proof.
  match goal with
  | |- exists after, trace (snd (?m s)) = _ /\ _ =>
      assert (Q : advances N 0 0 (fun _ => True) m) by hush;
      assert (F : Frame.holds (fun c => negb (is_settings_write c))
                    (fun _ : session => tt) (fun _ : unit => True) m)
  end.
  { frame. apply holds_invoke. now destruct (_is_local self). }
  destruct (Q s) as (after & T & P & _).
  destruct (F s I) as [(after' & T' & Fa) _].
  assert (after' = after)
    by (apply (app_inv_head (trace s)); now rewrite <- T, <- T').
  subst after'. exists after. split; [exact T|].
  split; [exact (step_percent_still self _ _ P) | exact Fa].
Qed.

(** A phase that enters its [try] block: auto-apply is turned off, 0 is
    reported, the steps are gone through, and what follows reports nothing
    and writes no setting. *)
Lemma settings_phase_scheduled s :
  settings_skipped self s = false ->
  exists steps_evs finished after,
    trace (snd (_update_device_settings self s))
    = trace s ++ e_enable_apply_changes false :: first_report self
      ++ steps_evs ++ after
    /\ scheduled self 1 (step_writes self (mode_written_back self s))
         steps_evs finished
    /\ percents after = []
    /\ Forall (Frame.allowed (fun c => negb (is_settings_write c))) after
    /\ (finished = false -> after = [])
    /\ (fst (_update_device_settings self s) = Ok tt -> finished = true).
Proof.
  unfold settings_skipped. intros H. apply orb_false_iff in H.
  destruct H as [Hn Hu].
  unfold _update_device_settings. cbv zeta.
  fold (nothing_to_update self). rewrite Hn.
  rewrite (bind_Ok (gets _) _ s _ s eq_refl).
  unfold Handle.unreachable_for_settings in Hu. rewrite Hu.
  rewrite (bind_Ok (gets _) _ s _ s eq_refl).
  set (s0 := snd (enable_apply_changes false s)).
  assert (E0 : enable_apply_changes false s = (Ok tt, s0)) by reflexivity.
  assert (T0 : trace s0 = trace s ++ [e_enable_apply_changes false])
    by reflexivity.
  rewrite (bind_Ok _ _ _ _ _ E0).
  destruct (write_settings_scheduled s0) as (evs & b & T & C & O & R).
  change (operating_mode (dev (snd (reset_write self s0))))
    with (mode_written_back self s) in C.
  destruct (write_settings self s0) as [[c|e] s2] eqn:W; simpl in T, O, R.
  - destruct b; [|destruct (R eq_refl); discriminate].
    match goal with
    | |- context [bind (try_except ?m ?h) ?k s0] =>
        assert (TE : try_except m h s0 = (Ok c, s2))
          by (unfold try_except; now rewrite W);
        rewrite (bind_Ok _ k _ _ _ TE)
    end.
    destruct (after_the_writes c (apply_changes_enabled (dev s)) s2)
      as (after & Ta & Pa & Fa).
    exists evs, true, after. rewrite Ta, T, ?T0, <- !app_assoc. simpl.
    split; [reflexivity|]. split; [exact C|]. split; [exact Pa|].
    split; [exact Fa|]. split; [discriminate | reflexivity].
  - destruct b; [destruct (O eq_refl); discriminate|].
    match goal with
    | |- context [bind (try_except ?m ?h) ?k s0] =>
        assert (TE : exists e', try_except m h s0 = (Raise e', s2))
          by (unfold try_except, on, raise; rewrite W;
              destruct (existsb _ _); eexists; reflexivity);
        destruct TE as [e' TE];
        rewrite (bind_Raise _ k _ _ _ TE)
    end.
    exists evs, false, []. simpl. rewrite app_nil_r, T, ?T0, <- !app_assoc.
    simpl. split; [reflexivity|]. split; [exact C|].
    split; [reflexivity|]. split; [constructor|].
    split; [reflexivity | discriminate].
Qed.

Lemma settings_phase_skipped s :
  settings_skipped self s = true -> snd (_update_device_settings self s) = s.
Proof.
  unfold settings_skipped. intros H.
  unfold _update_device_settings. cbv zeta.
  fold (nothing_to_update self).
  destruct (nothing_to_update self); [reflexivity|].
  simpl in H. rewrite (bind_Ok (gets _) _ s _ s eq_refl).
  unfold Handle.unreachable_for_settings in H. now rewrite H.
Qed.

Lemma step_writes_length mode :
  Z.of_nat (List.length (step_writes self mode)) = N.
Proof.
  unfold step_writes, total_steps.
  rewrite !length_app, length_map, !Nat2Z.inj_add. simpl List.length.
  destruct (reset_settings (_xbee_profile self) || is_str (_target self));
    simpl List.length; lia.
Qed.

(** C4 (as the code has it).  During the settings phase
    ([_update_device_settings]) the percentages handed to the progress
    callback increase strictly, so that a value is handed over only when
    the integer percentage has grown; each of them is [k * 100 // total]
    for a step [k] between 0 and [total], with [total] the number of
    settings plus 2, plus 1 when the restore-defaults step is added; and a
    report of 100 comes directly after the [WR] write that returned and
    directly before the first attempt of the apply-changes [AC] write,
    whatever becomes of that attempt.  The reports are tied to the steps: a
    phase that returns at once or raises before its [try] block reports
    nothing; otherwise, after 0, the phase goes through its [total] steps
    in order (the restore-defaults step when it is added, one step for
    each setting, the [WR] step, the [AC] step), and at each step [k] it
    reaches it first hands [k * 100 // total] to the callback, if there is
    a callback and the value is not that of step [k - 1], and then makes
    the writes of the step; it starts a step only when the writes of the
    step before were accepted, and nothing is reported once it has left
    the steps. *)
Theorem settings_progress_is_reported_before_each_step (s : state) :
  exists evs,
    trace (snd (_update_device_settings self s)) = trace s ++ evs
    /\ StronglySorted Z.lt (percents evs)
    /\ Forall (fun p => exists k, 0 <= k <= total_steps self
                                  /\ p = k * 100 / total_steps self)
         (percents evs)
    /\ full_report_placed evs
    /\ (settings_skipped self s = true -> evs = [])
    /\ (settings_skipped self s = false ->
        exists steps_evs finished after,
          evs = e_enable_apply_changes false :: first_report self
                ++ steps_evs ++ after
          /\ scheduled self 1 (step_writes self (mode_written_back self s))
               steps_evs finished
          /\ Z.of_nat (List.length
                         (step_writes self (mode_written_back self s)))
             = total_steps self
          /\ percents after = []
          /\ (finished = false -> after = [])
          /\ (fst (_update_device_settings self s) = Ok tt ->
              finished = true)).
Proof.
  destruct (update_device_settings_events self s) as (evs & T & [S F] & P).
  exists evs. split; [exact T|]. split; [exact S|].
  split; [eapply Forall_impl; [|exact F]; simpl; intros p [_ K]; exact K|].
  split; [exact P|]. split.
  - intros H. apply settings_phase_skipped in H. rewrite H in T.
    apply (app_inv_head (trace s)). now rewrite app_nil_r, <- T.
  - intros H.
    destruct (settings_phase_scheduled s H)
      as (steps_evs & finished & after & T' & C & Pa & _ & Fa & O).
    exists steps_evs, finished, after.
    split; [apply (app_inv_head (trace s)); now rewrite <- T, <- T'|].
    split; [exact C|]. split; [apply step_writes_length|].
    split; [exact Pa|]. split; [exact Fa | exact O].
Qed.

End SettingsSchedule.

(* --------------------------------------------------------------------- *)
(** ** What the steps leave of the handle's own settings *)
(* --------------------------------------------------------------------- *)

Section KeepsRules.
Import Py Updater Handle.
Context {T : Type}.
Variable field : device -> T.

(** The setting is one of those the collaborators cannot change. *)
Hypothesis Hcfg : forall old new, field (keep_config old new) = field old.

Lemma keeps_still {A} (m : M A) :
  (forall s, dev (snd (m s)) = dev s) -> keeps field m.
Proof. intros H s. now rewrite H. Qed.

Lemma keeps_ret {A} (a : A) : keeps field (ret a).
Proof. now apply keeps_still. Qed.

Lemma keeps_raise {A} e : keeps field (@raise A e).
Proof. now apply keeps_still. Qed.

Lemma keeps_gets {A} (f : state -> A) : keeps field (gets f).
Proof. now apply keeps_still. Qed.

Lemma keeps_lift {A} (r : result A) : keeps field (lift r).
Proof. now apply keeps_still. Qed.

Lemma keeps_lift_opt {A} (o : option A) e : keeps field (lift_opt o e).
Proof. destruct o; now apply keeps_still. Qed.

Lemma keeps_emit e : keeps field (emit e).
Proof. now apply keeps_still. Qed.

Lemma keeps_modify_ses f : keeps field (modify_ses f).
Proof. now apply keeps_still. Qed.

Lemma keeps_modify_dev f :
  (forall d, field (f d) = field d) -> keeps field (modify_dev f).
Proof. intros H s. apply H. Qed.

Lemma keeps_invoke self c : keeps field (invoke self c).
Proof. intros s. unfold invoke. destruct (resp_exn _); apply Hcfg. Qed.

Lemma keeps_invoke_with_progress self c :
  keeps field (invoke_with_progress self c).
Proof.
  intros s. unfold invoke_with_progress. destruct (resp_exn _); apply Hcfg.
Qed.

Lemma keeps_bind {A B} (m : M A) (f : A -> M B) :
  keeps field m -> (forall a, keeps field (f a)) -> keeps field (bind m f).
Proof.
  intros Hm Hf s. unfold bind. specialize (Hm s).
  destruct (m s) as [[a|e] s1]; simpl in *; [|exact Hm].
  now rewrite (Hf a s1).
Qed.

Lemma keeps_try_except {A} (m : M A) (h : exn -> option (M A)) :
  keeps field m -> (forall e k, h e = Some k -> keeps field k) ->
  keeps field (try_except m h).
Proof.
  intros Hm Hh s. unfold try_except. specialize (Hm s).
  destruct (m s) as [[a|e] s1]; simpl in *; [exact Hm|].
  destruct (h e) as [k|] eqn:E; [|exact Hm].
  now rewrite (Hh e k E s1).
Qed.

Lemma keeps_try_except_on {A} (m : M A) cls (k : exn -> M A) :
  keeps field m -> (forall e, keeps field (k e)) ->
  keeps field (try_except m (on cls k)).
Proof.
  intros Hm Hk. apply keeps_try_except; [exact Hm|].
  intros e k' H. unfold on in H.
  destruct (existsb (isinstance e) cls); inversion H; subst. apply Hk.
Qed.

Lemma keeps_try_except_all {A} (m : M A) (k : exn -> M A) :
  keeps field m -> (forall e, keeps field (k e)) ->
  keeps field (try_except m (fun e => Some (k e))).
Proof.
  intros Hm Hk. apply keeps_try_except; [exact Hm|].
  intros e k' H. inversion H; subst. apply Hk.
Qed.

Lemma keeps_try_finally {A} (m : M A) (f : M unit) :
  keeps field m -> keeps field f -> keeps field (try_finally m f).
Proof.
  intros Hm Hf s. unfold try_finally. specialize (Hm s).
  destruct (m s) as [r s1]. specialize (Hf s1).
  destruct (f s1) as [[u|e] s2]; simpl in *; congruence.
Qed.

End KeepsRules.

Create HintDb keeps.

#[export] Hint Resolve keeps_ret keeps_raise keeps_gets keeps_lift
  keeps_lift_opt keeps_emit keeps_modify_ses keeps_invoke
  keeps_invoke_with_progress : keeps.

Ltac still :=
  repeat (first
    [ progress (unfold Updater.when)
    | match goal with
      | |- Handle.keeps _ (Updater.bind _ _) => apply keeps_bind; [|intro]
      | |- Handle.keeps _ (Updater.try_except _ (Updater.on _ _)) =>
          apply keeps_try_except_on; [|intro]
      | |- Handle.keeps _ (Updater.try_except _ (fun e => Some _)) =>
          apply keeps_try_except_all; [|intro]
      | |- Handle.keeps _ (Updater.try_finally _ _) => apply keeps_try_finally
      | |- Handle.keeps _ (if ?b then _ else _) => destruct b
      | |- Handle.keeps _ (match ?x with _ => _ end) => destruct x
      end
    | solve [auto with keeps] ]).

Section KeepsSteps.
Import Py Updater Handle.
Context {T : Type}.
Variable field : device -> T.
Variable self : _ProfileUpdater.

Hypothesis Hcfg : forall old new, field (keep_config old new) = field old.
(** Opening and closing the device does not change the setting. *)
Hypothesis Hopen : forall b d, field (set_is_open b d) = field d.

Local Abbreviation keeps := (Handle.keeps field).

Lemma keeps_progress task percent : keeps (progress self task percent).
Proof. unfold progress. still. Qed.

Lemma keeps_sleep ms : keeps (sleep ms).
Proof. unfold sleep. still. Qed.

Lemma keeps_device_open f : keeps (device_open self f).
Proof.
  unfold device_open. apply keeps_bind; [still|]. intro.
  now apply keeps_modify_dev.
Qed.

Lemma keeps_device_close : keeps device_close.
Proof.
  unfold device_close. apply keeps_bind; [still|]. intro.
  now apply keeps_modify_dev.
Qed.

#[local] Hint Resolve keeps_progress keeps_sleep keeps_device_open
  keeps_device_close : keeps.

Lemma keeps__uncompress_profile : keeps (_uncompress_profile self).
Proof. unfold _uncompress_profile. still. Qed.

#[local] Hint Resolve keeps__uncompress_profile : keeps.

Lemma keeps_asset_path : keeps (asset_path self).
Proof. unfold asset_path. still. Qed.

Lemma keeps__read_parameter_with_retries p n :
  keeps (_read_parameter_with_retries self p n).
Proof. induction n as [|n IH]; simpl; still. Qed.

Lemma keeps_set_parameter_loop p v n :
  forall msg, keeps (set_parameter_loop self p v n msg).
Proof. induction n as [|n IH]; intros msg; simpl; still. Qed.

Lemma keeps__set_parameter_with_retries p v n :
  keeps (_set_parameter_with_retries self p v n).
Proof. apply keeps_set_parameter_loop. Qed.

#[local] Hint Resolve keeps_asset_path keeps__read_parameter_with_retries
  keeps__set_parameter_with_retries : keeps.

Lemma keeps__read_device_parameters : keeps (_read_device_parameters self).
Proof. unfold _read_device_parameters. still. Qed.

Lemma keeps__update_firmware : keeps (_update_firmware self).
Proof. unfold _update_firmware. still. Qed.

Lemma keeps_get_setting_default_value n :
  keeps (get_setting_default_value self n).
Proof. unfold get_setting_default_value. still. Qed.

#[local] Hint Resolve keeps__read_device_parameters keeps__update_firmware
  keeps_get_setting_default_value : keeps.

Lemma keeps_port_defaults c : keeps (port_defaults self c).
Proof. unfold port_defaults. still. Qed.

#[local] Hint Resolve keeps_port_defaults : keeps.

Lemma keeps__check_port_settings_changed :
  keeps (_check_port_settings_changed self).
Proof. unfold _check_port_settings_changed. still. Qed.

Lemma keeps__check_protocol_changed_by_fw :
  keeps (_check_protocol_changed_by_fw self).
Proof. unfold _check_protocol_changed_by_fw. still. Qed.

Lemma keeps__check_protocol_changed_by_settings :
  keeps (_check_protocol_changed_by_settings self).
Proof. unfold _check_protocol_changed_by_settings. still. Qed.

Lemma keeps_report_step n c : keeps (report_step self n c).
Proof. unfold report_step. still. Qed.

#[local] Hint Resolve keeps__check_port_settings_changed
  keeps__check_protocol_changed_by_fw
  keeps__check_protocol_changed_by_settings keeps_report_step : keeps.

Lemma keeps_reset_step n c : keeps (reset_step self n c).
Proof. unfold reset_step. still. Qed.

Lemma keeps_settings_loop n l : forall c, keeps (settings_loop self n l c).
Proof. induction l as [|[k setting] r IH]; intros c; simpl; still. Qed.

Lemma keeps_write_step n c : keeps (write_step self n c).
Proof. unfold write_step. still. Qed.

Lemma keeps_apply_changes_loop n : keeps (apply_changes_loop self n).
Proof. induction n as [|n IH]; simpl; still. Qed.

#[local] Hint Resolve keeps_reset_step keeps_settings_loop keeps_write_step
  keeps_apply_changes_loop : keeps.

Lemma keeps_write_settings : keeps (write_settings self).
Proof. unfold write_settings, queue_settings, apply_step. still. Qed.

Lemma keeps_read_device_info_loop n : keeps (read_device_info_loop self n).
Proof. induction n as [|n IH]; simpl; still. Qed.

Lemma keeps_filesystem_errors (m : M unit) :
  keeps m -> keeps (try_except m filesystem_errors).
Proof.
  intros H. apply keeps_try_except; [exact H|].
  intros e k E. unfold filesystem_errors in E.
  destruct (isinstance e FileSystemNotSupportedException);
    [inversion E; subst; still|].
  destruct (isinstance e FileSystemException); inversion E; subst; still.
Qed.

Lemma keeps__legacy_update_file_system :
  keeps (_legacy_update_file_system self).
Proof.
  unfold _legacy_update_file_system. still.
  apply keeps_filesystem_errors. still.
Qed.

#[local] Hint Resolve keeps_write_settings keeps_read_device_info_loop
  keeps__legacy_update_file_system : keeps.

Lemma keeps__update_file_system : keeps (_update_file_system self).
Proof.
  unfold _update_file_system. still.
  apply keeps_filesystem_errors. still.
Qed.

End KeepsSteps.

Section KeepsPhases.
Import Py Updater Handle.
Context {T : Type}.
Variable field : device -> T.
Variable self : _ProfileUpdater.

Hypothesis Hcfg : forall old new, field (keep_config old new) = field old.
Hypothesis Hopen : forall b d, field (set_is_open b d) = field d.
(** The setting is not the auto-apply flag. *)
Hypothesis Happly : forall b d, field (set_apply_changes b d) = field d.

Local Abbreviation keeps := (Handle.keeps field).

Lemma keeps_enable_apply_changes b : keeps (enable_apply_changes b).
Proof.
  unfold enable_apply_changes. apply keeps_bind; [still|]. intro.
  now apply keeps_modify_dev.
Qed.

#[local] Hint Resolve keeps_enable_apply_changes keeps_progress keeps_sleep
  keeps_device_open keeps_device_close keeps__read_device_parameters
  keeps__update_firmware keeps__check_port_settings_changed
  keeps__check_protocol_changed_by_fw
  keeps__check_protocol_changed_by_settings keeps_write_settings
  keeps_read_device_info_loop keeps__update_file_system
  keeps__set_parameter_with_retries : keeps.

Lemma keeps__update_device_settings : keeps (_update_device_settings self).
Proof. unfold _update_device_settings. still. Qed.

#[local] Hint Resolve keeps__update_device_settings : keeps.

Lemma keeps_try_body : keeps (try_body self).
Proof.
  unfold try_body, read_and_check, update_steps, flash_decision, flash_phase,
    recovery_open, filesystem_phase, supported_or_raise.
  still.
Qed.

Lemma keeps_restore_operating_mode : keeps (restore_operating_mode self).
Proof. unfold restore_operating_mode. still. Qed.

Lemma keeps_restore_connection : keeps (restore_connection self).
Proof. unfold restore_connection. still. Qed.

End KeepsPhases.

Section HandleSettings.
Import Py Updater Handle.

Variable self : _ProfileUpdater.

(** X4. The timeout given to the call is the one in force while the update
    runs: on a device handle it is set before the first step and is still
    the handle's timeout when the [finally] block is entered, whatever the
    steps did.  With a serial port as target the updater never changes the
    timeout of the handle it creates. *)
Theorem call_timeout_is_in_force (d : device) :
  (is_str (_target self) = false ->
   sync_ops_timeout (dev (at_try self d)) = _timeout self
   /\ sync_ops_timeout (dev (at_cleanup self d)) = _timeout self)
  /\ (is_str (_target self) = true ->
      sync_ops_timeout (dev (snd (run self d))) = sync_ops_timeout d).
Proof.
  assert (K : sync_ops_timeout (dev (at_cleanup self d))
              = sync_ops_timeout (dev (at_try self d))).
  { unfold at_cleanup. now apply (keeps_try_body sync_ops_timeout). }
  split; intros Ht.
  - rewrite K, at_try_device, Ht. split; reflexivity.
  - rewrite run_state. unfold saved_timeout, cleanup. rewrite Ht.
    assert (C : keeps sync_ops_timeout
                  (restore_operating_mode self ;;
                   restore_sync_ops_timeout None ;;
                   restore_connection self)).
    { apply keeps_bind;
        [now apply keeps_restore_operating_mode | intro].
      apply keeps_bind; [now apply keeps_ret | intro].
      now apply keeps_restore_connection. }
    rewrite (C (at_cleanup self d)), K, at_try_device, Ht. reflexivity.
Qed.

(** X5. The settings are written with the auto-apply flag off.  When the
    [try] block of the settings phase returns, the flag is put back to what
    it was, and stays so whatever the rest of the phase does.  When the
    block raises, the phase ends there: the flag is left off, and the caller
    gets the update error made of an [XBeeException], or the exception
    itself when it is of another kind. *)
Theorem auto_apply_is_restored_only_after_the_writes (s : state)
  (Hwork : Attempts.nothing_to_update self = false)
  (Hreach : unreachable_for_settings self s = false) :
  let r := _update_device_settings self s in
  match write_settings self (snd (enable_apply_changes false s)) with
  | (Ok _, _) =>
      apply_changes_enabled (dev (snd r)) = apply_changes_enabled (dev s)
  | (Raise e, s1) =>
      r = (Raise (settings_error e), s1)
      /\ apply_changes_enabled (dev s1) = false
  end.
Proof.
  cbv zeta. unfold _update_device_settings.
  fold (Attempts.nothing_to_update self). rewrite Hwork.
  rewrite (bind_Ok (gets _) _ s _ s eq_refl).
  fold (unreachable_for_settings self s). rewrite Hreach.
  rewrite (bind_Ok (gets _) _ s _ s eq_refl).
  rewrite (bind_Ok (enable_apply_changes false) _ s tt
             (snd (enable_apply_changes false s)) eq_refl).
  pose proof (keeps_write_settings apply_changes_enabled self
                ltac:(reflexivity) (snd (enable_apply_changes false s))) as K.
  destruct (write_settings self (snd (enable_apply_changes false s)))
    as [[c|e] s1] eqn:W; simpl in K.
  - erewrite bind_Ok by (unfold try_except; rewrite W; reflexivity).
    rewrite (bind_Ok (enable_apply_changes _) _ s1 tt
               (snd (enable_apply_changes (apply_changes_enabled (dev s)) s1))
               eq_refl).
    match goal with
    | |- apply_changes_enabled (dev (snd (?m ?s2))) = _ =>
        assert (R : keeps apply_changes_enabled m)
    end.
    { still; try (apply keeps__check_port_settings_changed; reflexivity);
        try (apply keeps_read_device_info_loop; reflexivity);
        try (apply keeps_sleep; reflexivity). }
    rewrite R. reflexivity.
  - split; [|exact K].
    unfold bind, try_except. rewrite W. unfold on, settings_error.
    destruct (existsb (isinstance e) [XBeeException]); reflexivity.
Qed.

End HandleSettings.

Section HandleSettingsSample.
Import Py Updater Handle Scenarios.

Lemma auto_apply_is_restored_only_after_the_writes_witness :
  apply_changes_enabled
    (dev (snd (_update_device_settings unapplied_update
                 (init_state LocalXBee (_xbee_profile unapplied_update)
                    xbee3)))) = false
  /\ apply_changes_enabled
       (dev (snd (_update_device_settings plain_update
                    (init_state LocalXBee (_xbee_profile plain_update)
                       xbee3)))) = true.
Proof.
  split.
  - pose proof (auto_apply_is_restored_only_after_the_writes unapplied_update
                  (init_state LocalXBee (_xbee_profile unapplied_update)
                     xbee3) eq_refl eq_refl) as H.
    cbv zeta in H.
    destruct (write_settings unapplied_update _) as [[c|e] s1] eqn:W;
      [vm_compute in W; discriminate W|].
    destruct H as [H1 H2]. rewrite H1. exact H2.
  - pose proof (auto_apply_is_restored_only_after_the_writes plain_update
                  (init_state LocalXBee (_xbee_profile plain_update)
                     xbee3) eq_refl eq_refl) as H.
    cbv zeta in H.
    destruct (write_settings plain_update _) as [[c|e] s1] eqn:W;
      [exact H | vm_compute in W; discriminate W].
Defined.

End HandleSettingsSample.

(* --------------------------------------------------------------------- *)
(** ** The serial port after the settings *)
(* --------------------------------------------------------------------- *)

Section PortSettings.
Import Py Updater Port.

Lemma port_setting_other setting c :
  mem (upper (Codec.name setting)) _PARAMETERS_SERIAL_PORT = false ->
  port_setting setting c = Ok c.
Proof. intros H. unfold port_setting. now rewrite H. Qed.

Lemma mem_serial nm :
  mem nm _PARAMETERS_SERIAL_PORT
  = String.eqb nm "BD" || String.eqb nm "NB" || String.eqb nm "SB"
    || String.eqb nm "D7".
Proof.
  unfold mem, _PARAMETERS_SERIAL_PORT. simpl.
  rewrite !(String.eqb_sym nm). rewrite orb_false_r, !orb_assoc. reflexivity.
Qed.

(** What one round of the loop does to the flags and to the parameters. *)
Lemma port_setting_inv setting c c' :
  port_setting setting c = Ok c' ->
  let nm := upper (Codec.name setting) in
  baudrate_changed c' = baudrate_changed c || String.eqb nm "BD"
  /\ parity_changed c' = parity_changed c || String.eqb nm "NB"
  /\ stop_bits_changed c' = stop_bits_changed c || String.eqb nm "SB"
  /\ cts_flow_control_changed c'
     = cts_flow_control_changed c || String.eqb nm "D7"
  /\ (if String.eqb nm "BD"
      then baudrate_of (Codec.value setting) = Ok (baudrate (params c'))
      else baudrate (params c') = baudrate (params c))
  /\ (if String.eqb nm "NB"
      then parity_of (Codec.value setting) = Ok (parity (params c'))
      else parity (params c') = parity (params c))
  /\ (if String.eqb nm "SB"
      then stopbits_of (Codec.value setting) = Ok (stopbits (params c'))
      else stopbits (params c') = stopbits (params c))
  /\ (if String.eqb nm "D7"
      then rtscts (params c') = opt_eqb (Codec.value setting) _VALUE_CTS_ON
      else rtscts (params c') = rtscts (params c)).
Proof.
  cbv zeta. unfold port_setting. rewrite mem_serial.
  destruct (String.eqb (upper (Codec.name setting)) "BD") eqn:B.
  { apply String.eqb_eq in B. rewrite B. simpl.
    destruct (baudrate_of (Codec.value setting)) as [b|e]; [|discriminate].
    intros H. inversion H; subst. simpl.
    rewrite !orb_true_r, !orb_false_r. repeat split. }
  destruct (String.eqb (upper (Codec.name setting)) "NB") eqn:N.
  { apply String.eqb_eq in N. rewrite N. simpl.
    destruct (parity_of (Codec.value setting)) as [b|e]; [|discriminate].
    intros H. inversion H; subst. simpl.
    rewrite !orb_true_r, !orb_false_r. repeat split. }
  destruct (String.eqb (upper (Codec.name setting)) "SB") eqn:S.
  { apply String.eqb_eq in S. rewrite S. simpl.
    destruct (stopbits_of (Codec.value setting)) as [b|e]; [|discriminate].
    intros H. inversion H; subst. simpl.
    rewrite !orb_true_r, !orb_false_r. repeat split. }
  destruct (String.eqb (upper (Codec.name setting)) "D7") eqn:D; simpl;
    intros H; inversion H; subst; simpl;
    rewrite ?orb_true_r, ?orb_false_r; repeat split.
Qed.

Lemma port_settings_flags l :
  forall c c',
    port_settings l c = Ok c' ->
    baudrate_changed c' = baudrate_changed c || names "BD" l
    /\ parity_changed c' = parity_changed c || names "NB" l
    /\ stop_bits_changed c' = stop_bits_changed c || names "SB" l
    /\ cts_flow_control_changed c'
       = cts_flow_control_changed c || names "D7" l.
Proof.
  induction l as [|[k setting] r IH]; intros c c' H; simpl in H.
  - inversion H; subst. simpl. now rewrite !orb_false_r.
  - destruct (port_setting setting c) as [c1|e] eqn:E; [|discriminate].
    destruct (port_setting_inv _ _ _ E) as (B & N & S & D & _).
    destruct (IH c1 c' H) as (B' & N' & S' & D').
    unfold names in *. simpl.
    rewrite B', N', S', D', B, N, S, D, !orb_assoc. repeat split.
Qed.

(** X6. The loop over the profile settings of
    [_check_port_settings_changed] takes each port parameter from the last
    setting of the profile that names it (BD for the baud rate, NB for the
    parity, SB for the stop bits, D7 for the CTS flow control, which is on
    exactly when the value is "1"), and leaves the parameters no setting
    names as the port has them; a flag is raised for each parameter that is
    named. *)
Theorem port_settings_take_the_last_values l :
  forall c c',
    port_settings l c = Ok c' ->
    (baudrate_changed c' = baudrate_changed c || names "BD" l
     /\ parity_changed c' = parity_changed c || names "NB" l
     /\ stop_bits_changed c' = stop_bits_changed c || names "SB" l
     /\ cts_flow_control_changed c'
        = cts_flow_control_changed c || names "D7" l)
    /\ match last_named "BD" l with
       | Some st => baudrate_of (Codec.value st) = Ok (baudrate (params c'))
       | None => baudrate (params c') = baudrate (params c)
       end
    /\ match last_named "NB" l with
       | Some st => parity_of (Codec.value st) = Ok (parity (params c'))
       | None => parity (params c') = parity (params c)
       end
    /\ match last_named "SB" l with
       | Some st => stopbits_of (Codec.value st) = Ok (stopbits (params c'))
       | None => stopbits (params c') = stopbits (params c)
       end
    /\ match last_named "D7" l with
       | Some st =>
           rtscts (params c') = opt_eqb (Codec.value st) _VALUE_CTS_ON
       | None => rtscts (params c') = rtscts (params c)
       end.
Proof.
  intros c c' H. split; [now apply port_settings_flags|].
  revert c c' H.
  induction l as [|[k setting] r IH]; intros c c' H; simpl in H.
  - inversion H; subst. simpl. repeat split.
  - destruct (port_setting setting c) as [c1|e] eqn:E; [|discriminate].
    destruct (port_setting_inv _ _ _ E) as (_ & _ & _ & _ & B & N & S & D).
    destruct (IH c1 c' H) as (B' & N' & S' & D').
    simpl last_named. simpl snd.
    repeat split.
    + destruct (last_named "BD" r); [exact B'|].
      destruct (String.eqb _ "BD"); congruence.
    + destruct (last_named "NB" r); [exact N'|].
      destruct (String.eqb _ "NB"); congruence.
    + destruct (last_named "SB" r); [exact S'|].
      destruct (String.eqb _ "SB"); congruence.
    + destruct (last_named "D7" r); [exact D'|].
      destruct (String.eqb _ "D7"); congruence.
Qed.


Lemma port_settings_quiet l :
  sets_serial_port l = false -> forall c, port_settings l c = Ok c.
Proof.
  unfold sets_serial_port, names.
  induction l as [|[k setting] r IH]; intros H c; [reflexivity|].
  simpl in H |- *.
  assert (Hm : mem (upper (Codec.name setting)) _PARAMETERS_SERIAL_PORT
               = false).
  { rewrite mem_serial.
    destruct (String.eqb _ "BD"), (String.eqb _ "NB"), (String.eqb _ "SB"),
      (String.eqb _ "D7"); simpl in H; try discriminate H;
      rewrite ?orb_true_r in H; try discriminate H; reflexivity. }
  rewrite (port_setting_other _ _ Hm). apply IH.
  destruct (String.eqb _ "BD"), (String.eqb _ "NB"), (String.eqb _ "SB"),
    (String.eqb _ "D7"); simpl in H; try discriminate H;
    rewrite ?orb_true_r in H; try discriminate H; exact H.
Qed.

Variable self : _ProfileUpdater.

Lemma invoke_inv c s r s1 :
  invoke self c s = (Ok r, s1) ->
  trace s1 = trace s ++ [e_call c None]
  /\ r = oracle (collab self) (trace s) c.
Proof.
  unfold invoke.
  destruct (resp_exn (oracle (collab self) (trace s) c)) eqn:E;
    [discriminate|].
  intros H. inversion H; subst; clear H. simpl. rewrite ?E. auto.
Qed.

Lemma default_lookup_inv n s d s1 :
  get_setting_default_value self n s = (Ok d, s1) ->
  trace s1 = trace s ++ [e_call (c_get_setting_default_value n) None].
Proof.
  unfold get_setting_default_value. intros H.
  apply bind_inv in H. destruct H as (r & s2 & H1 & H2).
  apply invoke_inv in H1. unfold ret in H2. inversion H2; subst.
  exact (proj1 H1).
Qed.

(** The defaults fill in what the profile does not set, and only that. *)
Lemma port_defaults_inv c s c' s' :
  port_defaults self c s = (Ok c', s') ->
  exists lookups,
    trace s' = trace s ++ lookups
    /\ Forall is_default_lookup lookups
    /\ baudrate_changed c' = true /\ parity_changed c' = true
    /\ stop_bits_changed c' = true /\ cts_flow_control_changed c' = true
    /\ (baudrate_changed c = true ->
        baudrate (params c') = baudrate (params c))
    /\ (parity_changed c = true -> parity (params c') = parity (params c))
    /\ (stop_bits_changed c = true ->
        stopbits (params c') = stopbits (params c))
    /\ rtscts (params c')
       = (if cts_flow_control_changed c then rtscts (params c) else true).
Proof.
  unfold port_defaults. intros H.
  apply bind_inv in H. destruct H as (c1 & s1 & H1 & H).
  apply bind_inv in H. destruct H as (c2 & s2 & H2 & H).
  apply bind_inv in H. destruct H as (c3 & s3 & H3 & H).
  unfold ret in H. inversion H; subst c' s'. clear H.
  assert (L : forall n, is_default_lookup
                          (e_call (c_get_setting_default_value n) None))
    by (intros n; now exists n).
  (* baud rate *)
  assert (A1 : exists l1,
             trace s1 = trace s ++ l1 /\ Forall is_default_lookup l1
             /\ baudrate_changed c1 = true
             /\ parity_changed c1 = parity_changed c
             /\ stop_bits_changed c1 = stop_bits_changed c
             /\ cts_flow_control_changed c1 = cts_flow_control_changed c
             /\ (baudrate_changed c = true -> params c1 = params c)
             /\ parity (params c1) = parity (params c)
             /\ stopbits (params c1) = stopbits (params c)
             /\ rtscts (params c1) = rtscts (params c)).
  { destruct (baudrate_changed c) eqn:B.
    - unfold ret in H1. inversion H1; subst. exists [].
      rewrite app_nil_r. repeat split; auto.
    - apply bind_inv in H1. destruct H1 as (d & sa & Ha & H1).
      apply default_lookup_inv in Ha.
      apply bind_inv in H1. destruct H1 as (b & sb & Hb & H1).
      apply lift_inv in Hb. destruct Hb as [_ ->].
      unfold ret in H1. inversion H1; subst. eexists. split; [exact Ha|].
      simpl. repeat split; auto. discriminate. }
  destruct A1 as (l1 & T1 & F1 & B1 & N1 & S1 & D1 & P1 & Pn1 & Ps1 & Pr1).
  (* parity *)
  assert (A2 : exists l2,
             trace s2 = trace s1 ++ l2 /\ Forall is_default_lookup l2
             /\ baudrate_changed c2 = baudrate_changed c1
             /\ parity_changed c2 = true
             /\ stop_bits_changed c2 = stop_bits_changed c1
             /\ cts_flow_control_changed c2 = cts_flow_control_changed c1
             /\ baudrate (params c2) = baudrate (params c1)
             /\ (parity_changed c1 = true ->
                 parity (params c2) = parity (params c1))
             /\ stopbits (params c2) = stopbits (params c1)
             /\ rtscts (params c2) = rtscts (params c1)).
  { destruct (parity_changed c1) eqn:B.
    - unfold ret in H2. inversion H2; subst. exists [].
      rewrite app_nil_r. repeat split; auto.
    - apply bind_inv in H2. destruct H2 as (d & sa & Ha & H2).
      apply default_lookup_inv in Ha.
      apply bind_inv in H2. destruct H2 as (b & sb & Hb & H2).
      apply lift_inv in Hb. destruct Hb as [_ ->].
      unfold ret in H2. inversion H2; subst. eexists. split; [exact Ha|].
      simpl. repeat split; auto. discriminate. }
  destruct A2 as (l2 & T2 & F2 & B2 & N2 & S2 & D2 & Pb2 & Pn2 & Ps2 & Pr2).
  (* stop bits *)
  assert (A3 : exists l3,
             trace s3 = trace s2 ++ l3 /\ Forall is_default_lookup l3
             /\ baudrate_changed c3 = baudrate_changed c2
             /\ parity_changed c3 = parity_changed c2
             /\ stop_bits_changed c3 = true
             /\ cts_flow_control_changed c3 = cts_flow_control_changed c2
             /\ baudrate (params c3) = baudrate (params c2)
             /\ parity (params c3) = parity (params c2)
             /\ (stop_bits_changed c2 = true ->
                 stopbits (params c3) = stopbits (params c2))
             /\ rtscts (params c3) = rtscts (params c2)).
  { destruct (stop_bits_changed c2) eqn:B.
    - unfold ret in H3. inversion H3; subst. exists [].
      rewrite app_nil_r. repeat split; auto.
    - apply bind_inv in H3. destruct H3 as (d & sa & Ha & H3).
      apply default_lookup_inv in Ha.
      apply bind_inv in H3. destruct H3 as (b & sb & Hb & H3).
      apply lift_inv in Hb. destruct Hb as [_ ->].
      unfold ret in H3. inversion H3; subst. eexists. split; [exact Ha|].
      simpl. repeat split; auto. discriminate. }
  destruct A3 as (l3 & T3 & F3 & B3 & N3 & S3 & D3 & Pb3 & Pn3 & Ps3 & Pr3).
  exists (l1 ++ l2 ++ l3). split; [now rewrite T3, T2, T1, <- !app_assoc|].
  split; [repeat (apply Forall_app; split); assumption|].
  assert (Bc : baudrate_changed
                 (if cts_flow_control_changed c3 then c3
                  else with_rtscts true c3) = true)
    by (destruct (cts_flow_control_changed c3); simpl; congruence).
  assert (Nc : parity_changed
                 (if cts_flow_control_changed c3 then c3
                  else with_rtscts true c3) = true)
    by (destruct (cts_flow_control_changed c3); simpl; congruence).
  assert (Sc : stop_bits_changed
                 (if cts_flow_control_changed c3 then c3
                  else with_rtscts true c3) = true)
    by (destruct (cts_flow_control_changed c3); simpl; congruence).
  split; [exact Bc|]. split; [exact Nc|]. split; [exact Sc|].
  assert (Dc : cts_flow_control_changed c3 = cts_flow_control_changed c)
    by congruence.
  rewrite Dc.
  destruct (cts_flow_control_changed c) eqn:D; simpl.
  - split; [congruence|].
    split; [intros B; rewrite Pb3, Pb2; now rewrite (P1 B)|].
    split; [intros B; rewrite Pn3; rewrite Pn2; congruence|].
    split; [intros B; rewrite Ps3 by congruence; congruence|].
    congruence.
  - split; [reflexivity|].
    split; [intros B; rewrite Pb3, Pb2; now rewrite (P1 B)|].
    split; [intros B; rewrite Pn3; rewrite Pn2; congruence|].
    split; [intros B; rewrite Ps3 by congruence; congruence|].
    reflexivity.
Qed.


Lemma default_lookup_text n s d s1 :
  get_setting_default_value self n s = (Ok d, s1) ->
  trace s1 = trace s ++ lookup_unless false n
  /\ d = default_text self (trace s) n.
Proof.
  unfold get_setting_default_value. intros H.
  apply bind_inv in H. destruct H as (r & s2 & H1 & H2).
  apply invoke_inv in H1. destruct H1 as [T ->].
  unfold ret in H2. inversion H2; subst. now split.
Qed.

(** The look-ups [port_defaults] makes, and what it takes from them. *)
Lemma port_defaults_exact c s c' s' :
  port_defaults self c s = (Ok c', s') ->
  let bd := lookup_unless (baudrate_changed c) "BD" in
  let nb := lookup_unless (parity_changed c) "NB" in
  let sb := lookup_unless (stop_bits_changed c) "SB" in
  trace s' = trace s ++ bd ++ nb ++ sb
  /\ (baudrate_changed c = false ->
      baudrate_of (default_text self (trace s) "BD")
      = Ok (baudrate (params c')))
  /\ (parity_changed c = false ->
      parity_of (default_text self (trace s ++ bd) "NB")
      = Ok (parity (params c')))
  /\ (stop_bits_changed c = false ->
      stopbits_of (default_text self (trace s ++ bd ++ nb) "SB")
      = Ok (stopbits (params c'))).
Proof.
  cbv zeta. unfold port_defaults. intros H.
  apply bind_inv in H. destruct H as (c1 & s1 & H1 & H).
  apply bind_inv in H. destruct H as (c2 & s2 & H2 & H).
  apply bind_inv in H. destruct H as (c3 & s3 & H3 & H).
  unfold ret in H. inversion H; subst c' s'. clear H.
  (* baud rate *)
  assert (A1 : trace s1 = trace s ++ lookup_unless (baudrate_changed c) "BD"
               /\ parity_changed c1 = parity_changed c
               /\ stop_bits_changed c1 = stop_bits_changed c
               /\ (baudrate_changed c = false ->
                   baudrate_of (default_text self (trace s) "BD")
                   = Ok (baudrate (params c1)))).
  { destruct (baudrate_changed c) eqn:B.
    - unfold ret in H1. inversion H1; subst. simpl.
      rewrite app_nil_r. repeat split; auto. discriminate.
    - apply bind_inv in H1. destruct H1 as (d & sa & Ha & H1).
      apply default_lookup_text in Ha. destruct Ha as [Ta ->].
      apply bind_inv in H1. destruct H1 as (b & sb & Hb & H1).
      apply lift_inv in Hb. destruct Hb as [Hb ->].
      unfold ret in H1. inversion H1; subst. simpl.
      repeat split; auto. }
  destruct A1 as (T1 & N1 & S1 & V1).
  (* parity *)
  assert (A2 : trace s2 = trace s1 ++ lookup_unless (parity_changed c) "NB"
               /\ stop_bits_changed c2 = stop_bits_changed c
               /\ baudrate (params c2) = baudrate (params c1)
               /\ (parity_changed c = false ->
                   parity_of (default_text self (trace s1) "NB")
                   = Ok (parity (params c2)))).
  { rewrite <- N1, <- S1. destruct (parity_changed c1) eqn:B.
    - unfold ret in H2. inversion H2; subst. simpl.
      rewrite app_nil_r. repeat split; auto. discriminate.
    - apply bind_inv in H2. destruct H2 as (d & sa & Ha & H2).
      apply default_lookup_text in Ha. destruct Ha as [Ta ->].
      apply bind_inv in H2. destruct H2 as (b & sb & Hb & H2).
      apply lift_inv in Hb. destruct Hb as [Hb ->].
      unfold ret in H2. inversion H2; subst. simpl.
      repeat split; auto. }
  destruct A2 as (T2 & S2 & Pb2 & V2).
  (* stop bits *)
  assert (A3 : trace s3 = trace s2 ++ lookup_unless (stop_bits_changed c) "SB"
               /\ baudrate (params c3) = baudrate (params c2)
               /\ parity (params c3) = parity (params c2)
               /\ (stop_bits_changed c = false ->
                   stopbits_of (default_text self (trace s2) "SB")
                   = Ok (stopbits (params c3)))).
  { rewrite <- S2. destruct (stop_bits_changed c2) eqn:B.
    - unfold ret in H3. inversion H3; subst. simpl.
      rewrite app_nil_r. repeat split; auto. discriminate.
    - apply bind_inv in H3. destruct H3 as (d & sa & Ha & H3).
      apply default_lookup_text in Ha. destruct Ha as [Ta ->].
      apply bind_inv in H3. destruct H3 as (b & sb & Hb & H3).
      apply lift_inv in Hb. destruct Hb as [Hb ->].
      unfold ret in H3. inversion H3; subst. simpl.
      repeat split; auto. }
  destruct A3 as (T3 & Pb3 & Pn3 & V3).
  assert (P : params (if cts_flow_control_changed c3 then c3
                      else with_rtscts true c3)
              = {| baudrate := baudrate (params c3);
                   parity := parity (params c3);
                   stopbits := stopbits (params c3);
                   rtscts := rtscts (params
                               (if cts_flow_control_changed c3 then c3
                                else with_rtscts true c3)) |}).
  { destruct (cts_flow_control_changed c3); [|reflexivity].
    now destruct (params c3). }
  rewrite P. simpl.
  split; [now rewrite T3, T2, T1, <- !app_assoc|].
  split; [intros B; rewrite Pb3, Pb2; auto|].
  split; [intros B; rewrite Pn3, <- T1; auto|].
  intros B. rewrite app_assoc, <- T1, <- T2. auto.
Qed.

(** X7. [_check_port_settings_changed] leaves the port alone when the
    profile sets none of BD, NB, SB and D7 and the settings were not reset.
    Otherwise, when it returns, it has closed the device, applied the new
    parameters to the serial port and opened the device again, in that
    order.  Without a reset the applied parameters are those the loop over
    the profile settings gives and nothing is looked up.  After a reset (or
    for a serial port target) each of the baud rate, the parity and the
    stop bits that the profile does not set is looked up once, in that
    order and before the device is closed, and the applied value is the one
    decoded from the default that look-up answered; the others are those of
    the profile, and the CTS flow control is on when D7 is not set. *)
Theorem port_is_reopened_when_its_settings_change s :
  let l := profile_settings (_xbee_profile self) in
  let defaults :=
    reset_settings (_xbee_profile self) || is_str (_target self) in
  (sets_serial_port l = false -> defaults = false ->
   _check_port_settings_changed self s = (Ok tt, s))
  /\ (forall s',
         sets_serial_port l = true \/ defaults = true ->
         _check_port_settings_changed self s = (Ok tt, s') ->
         exists c pp,
           let bd := lookup_unless (baudrate_changed c) "BD" in
           let nb := lookup_unless (parity_changed c) "NB" in
           let sb := lookup_unless (stop_bits_changed c) "SB" in
           let lookups := if defaults then bd ++ nb ++ sb else [] in
           port_settings l (unchanged (serial_settings (dev s))) = Ok c
           /\ trace s'
              = trace s ++ lookups
                ++ [e_call c_close None; e_call (c_apply_settings pp) None;
                    e_call (c_open false) None]
           /\ Forall is_default_lookup lookups
           /\ is_open (dev s') = true
           /\ (defaults = false -> pp = params c)
           /\ (if baudrate_changed c || negb defaults
               then baudrate pp = baudrate (params c)
               else baudrate_of (default_text self (trace s) "BD")
                    = Ok (baudrate pp))
           /\ (if parity_changed c || negb defaults
               then parity pp = parity (params c)
               else parity_of (default_text self (trace s ++ bd) "NB")
                    = Ok (parity pp))
           /\ (if stop_bits_changed c || negb defaults
               then stopbits pp = stopbits (params c)
               else stopbits_of
                      (default_text self (trace s ++ bd ++ nb) "SB")
                    = Ok (stopbits pp))
           /\ rtscts pp
              = (if cts_flow_control_changed c || negb defaults
                 then rtscts (params c) else true)).
Proof.
  cbv zeta. split.
  - intros Hq Hd. unfold _check_port_settings_changed.
    rewrite (bind_Ok (gets _) _ s _ s eq_refl).
    fold (unchanged (serial_settings (dev s))).
    rewrite (port_settings_quiet _ Hq), Hd.
    reflexivity.
  - intros s' Hc H. unfold _check_port_settings_changed in H.
    apply bind_inv in H. destruct H as (pp0 & s0 & H0 & H).
    apply gets_inv in H0. destruct H0 as [-> ->].
    apply bind_inv in H. destruct H as (c & s0 & H0 & H).
    apply lift_inv in H0. destruct H0 as [Hc0 ->].
    fold (unchanged (serial_settings (dev s))) in Hc0.
    apply bind_inv in H. destruct H as (c2 & s2 & H2 & H).
    destruct (port_settings_flags _ _ _ Hc0) as (B & N & S & D).
    simpl in B, N, S, D.
    set (lookups := if reset_settings (_xbee_profile self)
                       || is_str (_target self)
                    then lookup_unless (baudrate_changed c) "BD"
                         ++ lookup_unless (parity_changed c) "NB"
                         ++ lookup_unless (stop_bits_changed c) "SB"
                    else []).
    assert (FL : Forall is_default_lookup lookups).
    { unfold lookups, lookup_unless.
      destruct (_ || _); [|constructor].
      destruct (baudrate_changed c), (parity_changed c),
        (stop_bits_changed c); simpl;
        repeat constructor; eexists; reflexivity. }
    assert (A : trace s2 = trace s ++ lookups
                /\ (baudrate_changed c2 || parity_changed c2
                    || stop_bits_changed c2 || cts_flow_control_changed c2
                    = true)
                /\ (reset_settings (_xbee_profile self)
                    || is_str (_target self) = false -> c2 = c)
                /\ (if baudrate_changed c
                       || negb (reset_settings (_xbee_profile self)
                                || is_str (_target self))
                    then baudrate (params c2) = baudrate (params c)
                    else baudrate_of (default_text self (trace s) "BD")
                         = Ok (baudrate (params c2)))
                /\ (if parity_changed c
                       || negb (reset_settings (_xbee_profile self)
                                || is_str (_target self))
                    then parity (params c2) = parity (params c)
                    else parity_of
                           (default_text self
                              (trace s
                               ++ lookup_unless (baudrate_changed c) "BD")
                              "NB")
                         = Ok (parity (params c2)))
                /\ (if stop_bits_changed c
                       || negb (reset_settings (_xbee_profile self)
                                || is_str (_target self))
                    then stopbits (params c2) = stopbits (params c)
                    else stopbits_of
                           (default_text self
                              (trace s
                               ++ lookup_unless (baudrate_changed c) "BD"
                               ++ lookup_unless (parity_changed c) "NB")
                              "SB")
                         = Ok (stopbits (params c2)))
                /\ rtscts (params c2)
                   = (if cts_flow_control_changed c
                         || negb (reset_settings (_xbee_profile self)
                                  || is_str (_target self))
                      then rtscts (params c) else true)).
    { unfold lookups.
      destruct (reset_settings (_xbee_profile self) || is_str (_target self))
        eqn:Df.
      - pose proof (port_defaults_inv _ _ _ _ H2)
          as (lk & _ & _ & B2 & N2 & S2 & D2 & Pb & Pn & Ps & Pr).
        destruct (port_defaults_exact _ _ _ _ H2) as (T & Vb & Vn & Vs).
        rewrite B2, !orb_false_r. split; [exact T|].
        split; [reflexivity|]. split; [discriminate|].
        split; [destruct (baudrate_changed c); auto|].
        split; [destruct (parity_changed c); auto|].
        split; [destruct (stop_bits_changed c); auto|].
        exact Pr.
      - unfold ret in H2. inversion H2; subst c2 s2.
        rewrite app_nil_r, !orb_true_r. split; [reflexivity|].
        split.
        + destruct Hc as [Hc|Hc]; [|discriminate Hc].
          unfold sets_serial_port in Hc. now rewrite B, N, S, D.
        + repeat split; auto. }
    destruct A as (T & Fl & Hn & Pb & Pn & Ps & Pr).
    unfold when in H. rewrite Fl in H.
    unfold try_except in H.
    destruct ((device_close ;;
               _ <- invoke self (c_apply_settings (params c2)) ;;
               device_open self false) s2) as [[u|e] s3] eqn:E.
    2:{ unfold on in H. destruct (existsb _ _); discriminate H. }
    inversion H; subst s3. clear H.
    apply bind_inv in E. destruct E as ([] & sa & Ea & E).
    unfold device_close in Ea.
    apply bind_inv in Ea. destruct Ea as ([] & sa0 & Ea0 & Ea).
    unfold emit in Ea0. inversion Ea0; subst sa0. clear Ea0.
    unfold modify_dev in Ea. inversion Ea; subst sa. clear Ea. simpl in E.
    apply bind_inv in E. destruct E as (r & sb & Eb & E).
    apply invoke_inv in Eb. destruct Eb as [Tb _]. simpl in Tb.
    unfold device_open in E.
    apply bind_inv in E. destruct E as (r' & sc & Ec & E).
    apply invoke_inv in Ec. destruct Ec as [Tc _].
    unfold modify_dev in E. inversion E; subst s'. clear E. simpl.
    exists c, (params c2). split; [exact Hc0|].
    split; [rewrite Tc, Tb, T, <- !app_assoc; reflexivity|].
    split; [exact FL|]. split; [reflexivity|].
    split; [intros Hd; now rewrite (Hn Hd)|].
    repeat split; assumption.
Qed.

End PortSettings.

Section PortSettingsSample.
Import Py Updater Port Scenarios.

Lemma port_settings_take_the_last_values_witness :
  let l := [setting "BD" XBeeSettingType.COMBO XBeeSettingFormat.NO_FORMAT
              "7" (Bytes [7]);
            setting "D7" XBeeSettingType.COMBO XBeeSettingFormat.NO_FORMAT
              "0" (Bytes [0])] in
  let c' := {| baudrate_changed := true; parity_changed := false;
               stop_bits_changed := false; cts_flow_control_changed := true;
               params := {| baudrate := 115200;
                            parity := FirmwareParity.NONE;
                            stopbits := FirmwareStopbits.SB_1;
                            rtscts := false |} |} in
  port_settings l (unchanged (serial_settings xbee3)) = Ok c'
  /\ baudrate_of (Some "7") = Ok 115200.
Proof.
  cbv zeta. split; [reflexivity|].
  exact (proj1 (proj2
    (port_settings_take_the_last_values
       [setting "BD" XBeeSettingType.COMBO XBeeSettingFormat.NO_FORMAT
          "7" (Bytes [7]);
        setting "D7" XBeeSettingType.COMBO XBeeSettingFormat.NO_FORMAT
          "0" (Bytes [0])]
       (unchanged (serial_settings xbee3))
       {| baudrate_changed := true; parity_changed := false;
          stop_bits_changed := false; cts_flow_control_changed := true;
          params := {| baudrate := 115200; parity := FirmwareParity.NONE;
                       stopbits := FirmwareStopbits.SB_1;
                       rtscts := false |} |}
       eq_refl))).
Defined.

End PortSettingsSample.

(* --------------------------------------------------------------------- *)
(** ** The first block of [update_profile] *)
(* --------------------------------------------------------------------- *)

Section FirstBlockGate.
Import Py Updater Frame Scenarios.

Ltac policy :=
  intros; simpl in *;
  try reflexivity; try assumption; try tauto;
  try match goal with
      | c : call |- _ => destruct c; simpl in *; try reflexivity;
                         try discriminate
      end.

(** X8. When the first block of [update_profile] fails (the device cannot
    be opened, its parameters cannot be read, or its hardware is not the
    profile's), nothing is done to the device: the run makes no flash call,
    no settings write and no file system operation, and the caller gets the
    error of that block whenever the [finally] block raises nothing. *)
Theorem failed_first_block_changes_nothing
  (self : _ProfileUpdater) (d : device) (e : exn)
  (Hfail : fst (after_read self d) = Raise e) :
  call_count is_flash (trace (snd (run self d))) = 0%nat
  /\ call_count is_settings_write (trace (snd (run self d))) = 0%nat
  /\ call_count is_filesystem_operation (trace (snd (run self d))) = 0%nat
  /\ (cleanup_outcome self d = Ok tt -> fst (run self d) = Raise e).
Proof.
  set (okc := fun c => negb (is_flash c || is_settings_write c
                             || is_filesystem_operation c)).
  destruct (after_read self d) as [r s1] eqn:E. simpl in Hfail. subst r.
  assert (C1 : at_cleanup self d = s1).
  { rewrite at_cleanup_unfold, E. reflexivity. }
  unfold after_read in E.
  assert (F : grows okc (at_try self d) s1 /\ _xpro_ap (ses s1) = NoneV).
  { pose proof (holds_read_and_check self okc _xpro_ap (fun _ => True))
      as H.
    assert (H' : holds okc _xpro_ap (fun _ => True) (read_and_check self))
      by (apply H; policy).
    pose proof (holds_grows _ _ _ _ (at_try self d) H' I) as G.
    pose proof (holds_kept _ _ _ _ (at_try self d) H' I) as K.
    rewrite E in G, K. simpl in G, K.
    rewrite at_try_session in K. split; [exact G | exact K]. }
  destruct F as [G1 A1].
  assert (G2 : grows okc s1 (snd (run self d))).
  { rewrite run_state, C1. unfold cleanup.
    rewrite (bind_Ok _ _ s1 tt s1).
    2:{ apply restore_operating_mode_skip. rewrite A1.
        unfold must_restore_ap. simpl. now rewrite andb_false_r. }
    apply (holds_grows okc (fun _ => tt) (fun _ => True)); [|exact I].
    apply holds_bind; [apply holds_restore_sync_ops_timeout | intros _].
    apply holds_restore_connection; policy. }
  assert (G : grows okc (at_try self d) (snd (run self d)))
    by (apply grows_trans with s1; assumption).
  assert (Z0 : forall kind,
             call_count kind (trace (at_try self d)) = 0%nat).
  { intros kind. rewrite at_try_trace.
    destruct (is_str (_target self)); reflexivity. }
  assert (W : forall kind,
             (forall c, okc c = true -> negb (kind c) = true) ->
             call_count kind (trace (snd (run self d))) = 0%nat).
  { intros kind Hk.
    rewrite (grows_call_count kind (at_try self d)); [apply Z0|].
    now apply (grows_weaken okc). }
  assert (Hokc : forall c, okc c = true ->
                           is_flash c = false /\ is_settings_write c = false
                           /\ is_filesystem_operation c = false).
  { unfold okc. intros c H. apply negb_true_iff in H.
    apply orb_false_iff in H. destruct H as [H ?].
    apply orb_false_iff in H. tauto. }
  split; [apply W; intros c H; apply negb_true_iff, (Hokc c H)|].
  split; [apply W; intros c H; apply negb_true_iff, (Hokc c H)|].
  split; [apply W; intros c H; apply negb_true_iff, (Hokc c H)|].
  intros Hc. rewrite (run_outcome self d Hc).
  unfold try_body. now rewrite (bind_Raise _ _ _ _ _ E).
Qed.

Lemma failed_first_block_changes_nothing_witness :
  fst (run frozen_update xbee2)
  = Raise (UpdateProfileException_ _ERROR_HARDWARE_NOT_COMPATIBLE)
  /\ call_count is_settings_write (trace (snd (run frozen_update xbee2)))
     = 0%nat.
Proof.
  destruct (failed_first_block_changes_nothing frozen_update xbee2
              (UpdateProfileException_ _ERROR_HARDWARE_NOT_COMPATIBLE))
    as (_ & H2 & _ & H4).
  - vm_compute. reflexivity.
  - split; [apply H4; vm_compute; reflexivity | exact H2].
Defined.

(** X9. On a device handle the first block returns only when the hardware
    version read from the device is the one of the profile: the steps that
    follow (flash, settings, file system) run on matching hardware only. *)
Theorem only_matching_hardware_is_updated
  (self : _ProfileUpdater) (d : device)
  (Hdevice : is_str (_target self) = false)
  (Hread : fst (after_read self d) = Ok tt) :
  exists hw,
    _device_hardware_version (ses (snd (after_read self d))) = Some hw
    /\ hardware_version (_xbee_profile self) = Some hw.
Proof.
  destruct (after_read self d) as [r s1] eqn:E. simpl in *. subst r.
  unfold after_read in E.
  assert (D0 : _xbee_device (ses (at_try self d)) = true).
  { rewrite at_try_session. simpl. now rewrite Hdevice. }
  unfold read_and_check in E.
  apply bind_inv in E. destruct E as (b & s0 & E0 & E).
  apply gets_inv in E0. destruct E0 as [-> ->]. rewrite D0 in E.
  apply bind_inv in E. destruct E as ([] & sa & _ & E).
  apply bind_inv in E. destruct E as (hw & sb & Eb & E).
  apply gets_inv in Eb. destruct Eb as [-> ->].
  apply bind_inv in E. destruct E as (code & sb & Eb & E).
  apply lift_opt_inv in Eb. destruct Eb as [Hhw ->].
  apply bind_inv in E. destruct E as ([] & sb & Eb & E).
  rewrite Hhw in Eb.
  destruct (opt_Z_eqb (Some code) (hardware_version (_xbee_profile self)))
    eqn:Q; simpl in Eb; [|discriminate Eb].
  unfold ret in Eb. inversion Eb; subst sb. clear Eb.
  exists code. split.
  - revert E.
    unfold _check_protocol_changed_by_fw,
      _check_protocol_changed_by_settings, bind, gets, ret, when,
      modify_ses. simpl.
    destruct (profile_protocol (ses sa) =? DIGI_MESH (collab self));
      intros E; inversion E; subst; simpl; exact Hhw.
  - destruct (hardware_version (_xbee_profile self)) as [h|];
      [|discriminate Q].
    simpl in Q. apply Z.eqb_eq in Q. now subst h.
Qed.

Lemma only_matching_hardware_is_updated_witness :
  hardware_version (_xbee_profile plain_update) = Some 0x41.
Proof.
  destruct (only_matching_hardware_is_updated plain_update xbee3)
    as (hw & H1 & H2).
  - reflexivity.
  - vm_compute. reflexivity.
  - vm_compute in H1. inversion H1; subst. exact H2.
Defined.

End FirstBlockGate.

(* --------------------------------------------------------------------- *)
(** ** The firmware and file system steps *)
(* --------------------------------------------------------------------- *)

Section TransferSteps.
Import Py Updater Frame Transfer.

Variable self : _ProfileUpdater.

Local Abbreviation extraction_only m :=
  (Frame.holds is_extraction (fun _ : session => tt) (fun _ : unit => True) m).

Lemma extraction_only_asset_path : extraction_only (asset_path self).
Proof. apply holds_asset_path; reflexivity. Qed.

Lemma invoke_with_progress_trace c s :
  exists reported o,
    trace (snd (invoke_with_progress self c s))
    = trace s ++ reported ++ [e_call c o]
    /\ Forall (fun e => exists t p, e = e_progress t p) reported
    /\ fst (invoke_with_progress self c s)
       = match o with
         | Some x => Raise x
         | None => Ok (oracle (collab self) (trace s) c)
         end.
Proof.
  unfold invoke_with_progress.
  set (r := oracle (collab self) (trace s) c).
  exists (if _progress_callback self then map report (resp_progress r)
          else []), (resp_exn r).
  split; [destruct (resp_exn r); reflexivity|]. split.
  - destruct (_progress_callback self); [|constructor].
    induction (resp_progress r) as [|[t p] l IH]; simpl; constructor;
      [now exists t, p | exact IH].
  - destruct (resp_exn r); reflexivity.
Qed.

(** The protected part of [_update_firmware]. *)
Lemma update_firmware_body s bres sb :
  (has_device <- gets (fun s => _xbee_device (ses s)) ;;
   asset_path self ;;
   asset_path self ;;
   _ <- invoke_with_progress self
          (if has_device then c_update_firmware
           else c_update_local_firmware (target_port self)) ;;
   ret tt) s = (bres, sb) ->
  exists pre,
    Forall (allowed is_extraction) pre
    /\ ((trace sb = trace s ++ pre /\ exists e, bres = Raise e)
        \/ exists o,
             trace sb = trace s ++ pre ++ [e_call (flash_call self s) o]
             /\ bres = match o with
                       | None => Ok tt
                       | Some x => Raise x
                       end).
Proof.
  rewrite (bind_Ok (gets _) _ s _ s eq_refl). fold (flash_call self s).
  pose proof (extraction_only_asset_path s I) as [(p1 & T1 & F1) _].
  unfold bind at 1.
  destruct (asset_path self s) as [[[]|e] s1]; simpl in T1.
  2:{ intros H. inversion H; subst. exists p1. split; [exact F1|].
      left. split; [exact T1 | now exists e]. }
  pose proof (extraction_only_asset_path s1 I) as [(p2 & T2 & F2) _].
  unfold bind at 1.
  destruct (asset_path self s1) as [[[]|e] s2]; simpl in T2.
  2:{ intros H. inversion H; subst. exists (p1 ++ p2).
      split; [apply Forall_app; now split|].
      left. rewrite T2, T1, app_assoc. split; [reflexivity | now exists e]. }
  destruct (invoke_with_progress_trace (flash_call self s) s2)
    as (rep & o & T3 & F3 & O3).
  unfold bind.
  destruct (invoke_with_progress self (flash_call self s) s2)
    as [[a|x] s3]; simpl in T3, O3; intros H; inversion H; subst;
    exists (p1 ++ p2 ++ rep);
    (split;
     [repeat (apply Forall_app; split); try assumption;
      eapply Forall_impl; [|exact F3]; intros ev (t & p & ->); exact I|]);
    right; exists o; rewrite T3, T2, T1, <- !app_assoc;
    (split; [reflexivity|]).
  - destruct o; [discriminate O3 | reflexivity].
  - destruct o as [x'|]; [|discriminate O3]. now inversion O3.
Qed.



Local Abbreviation connected m :=
  (Frame.holds (fun c => negb (is_disconnect c)) (fun _ : session => tt)
     (fun _ : unit => True) m).

Lemma connected_legacy_transfer : connected (legacy_transfer self).
Proof.
  unfold legacy_transfer. apply holds_filesystem_errors.
  assert (H1 : forall t p, connected (progress self t p))
    by (intros; apply holds_progress).
  assert (H2 : forall ms, connected (sleep ms))
    by (intros; apply holds_sleep).
  assert (H3 : connected (asset_path self))
    by (apply holds_asset_path; reflexivity).
  frame; auto.
Qed.

(** X11. On a local device with a local file system in the profile,
    [_legacy_update_file_system] always ends with one [disconnect] of the
    file system manager, whatever the transfer did; an
    [InvalidOperatingModeException] of that [disconnect] is dropped and the
    outcome of the transfer stands, any other exception of it replaces that
    outcome.  On a remote device with a remote image, nothing is done when
    the protocol is predicted to change, and the error says so; otherwise
    no [FileSystemException] leaves the step as such.  In the other cases
    the step does nothing. *)
Theorem legacy_file_system_always_disconnects s :
  let r := _legacy_update_file_system self s in
  if _is_local self && has_local_filesystem (_xbee_profile self) then
    exists pre o,
      trace (snd r) = trace s ++ pre ++ [e_call c_fs_disconnect o]
      /\ call_count is_disconnect pre = 0%nat
      /\ fst r = match o with
                 | Some x =>
                     if isinstance x InvalidOperatingModeException
                     then fst (legacy_transfer self s) else Raise x
                 | None => fst (legacy_transfer self s)
                 end
  else if negb (_is_local self) && has_remote_filesystem (_xbee_profile self)
  then
    if _protocol_changed_by_fw (ses s) || _protocol_changed_by_settings (ses s)
    then r = (Raise (UpdateProfileException_
                       _ERROR_UPDATE_FILESYSTEM_PROTOCOL_CHANGE), s)
    else forall e, fst r = Raise e -> isinstance e FileSystemException = false
  else r = (Ok tt, s).
Proof.
  cbv zeta. unfold _legacy_update_file_system.
  destruct (_is_local self && has_local_filesystem (_xbee_profile self)).
  - fold (legacy_transfer self). unfold try_finally.
    destruct (connected_legacy_transfer s I) as [(pre & T & F) _].
    destruct (legacy_transfer self s) as [rb sb]. simpl in T |- *.
    assert (Z : call_count is_disconnect pre = 0%nat)
      by (now apply allowed_call_count).
    unfold try_except, bind, invoke, on, ret.
    destruct (resp_exn (oracle (collab self) (trace sb) c_fs_disconnect))
      as [x|] eqn:X; simpl.
    + rewrite orb_false_r.
      destruct (isinstance x InvalidOperatingModeException) eqn:Q; simpl;
        exists pre, (Some x); rewrite T, <- app_assoc, Q; auto.
    + exists pre, None. rewrite T, <- app_assoc. auto.
  - destruct (negb (_is_local self)
              && has_remote_filesystem (_xbee_profile self));
      [|reflexivity].
    rewrite (bind_Ok (gets _) _ s _ s eq_refl).
    rewrite (bind_Ok (gets _) _ s _ s eq_refl).
    destruct (_protocol_changed_by_fw (ses s)
              || _protocol_changed_by_settings (ses s)); [reflexivity|].
    unfold try_except.
    match goal with
    | |- context [let (_, _) := ?body s in _] =>
        destruct (body s) as [[u|x] sb]
    end; simpl; [discriminate|].
    unfold on. destruct (existsb (isinstance x) _) eqn:X; simpl.
    + intros e H. now inversion H.
    + intros e H. inversion H; subst. simpl in X.
      now rewrite orb_false_r in X.
Qed.

End TransferSteps.

(* ===================================================================== *)
(** * The stored settings *)
(* ===================================================================== *)

Section DictKeys.
Import Py Stored.

Context {K : Type} (eqb : K -> K -> bool).
Hypothesis eqb_spec : forall x y, eqb x y = true <-> x = y.

Lemma key_eqb_refl x : eqb x x = true.
Proof. now apply eqb_spec. Qed.

Lemma key_eqb_sym x y : eqb x y = eqb y x.
Proof.
  destruct (eqb x y) eqn:A, (eqb y x) eqn:B; try reflexivity.
  - apply eqb_spec in A. subst. now rewrite key_eqb_refl in B.
  - apply eqb_spec in B. subst. now rewrite key_eqb_refl in A.
Qed.

Lemma keys_dict_set {V : Type} (d : list (K * V)) k v :
  map fst (dict_set eqb d k v) = add_key eqb (map fst d) k.
Proof.
  unfold add_key. induction d as [|[k' v'] r IH]; simpl; [reflexivity|].
  rewrite (key_eqb_sym k k').
  destruct (eqb k' k); simpl; [reflexivity|].
  rewrite IH. now destruct (existsb (eqb k) (map fst r)).
Qed.

Lemma add_key_again l k : add_key eqb (add_key eqb l k) k = add_key eqb l k.
Proof.
  unfold add_key. destruct (existsb (eqb k) l) eqn:E.
  - now rewrite E.
  - rewrite existsb_app. simpl. rewrite key_eqb_refl.
    now rewrite orb_true_r.
Qed.

Lemma filter_both {A} (p q : A -> bool) l :
  filter p (filter q l) = filter (fun x => p x && q x) l.
Proof.
  induction l as [|x l IH]; simpl; [reflexivity|].
  destruct (q x); simpl.
  - rewrite andb_true_r. destruct (p x); now rewrite IH.
  - now rewrite andb_false_r.
Qed.

Lemma fold_add_key ks :
  forall acc,
    fold_left (add_key eqb) ks acc
    = acc ++ filter (fun y => negb (existsb (eqb y) acc))
               (first_occurrences eqb ks).
Proof.
  induction ks as [|k r IH]; simpl; intros acc.
  - now rewrite app_nil_r.
  - rewrite IH. unfold add_key.
    destruct (existsb (eqb k) acc) eqn:E; simpl.
    + f_equal. rewrite filter_both. apply filter_ext. intros y.
      destruct (eqb y k) eqn:Y; simpl.
      * apply eqb_spec in Y. subst y. now rewrite E.
      * now rewrite andb_true_r.
    + rewrite <- app_assoc. simpl. f_equal. f_equal.
      rewrite filter_both. apply filter_ext. intros y.
      rewrite existsb_app. simpl. rewrite orb_false_r.
      now rewrite negb_orb.
Qed.

Lemma fold_add_key_empty ks :
  fold_left (add_key eqb) ks [] = first_occurrences eqb ks.
Proof. rewrite fold_add_key. simpl. apply filter_true. Qed.

Lemma NoDup_first_occurrences l : NoDup (first_occurrences eqb l).
Proof.
  induction l as [|x r IH]; simpl; constructor.
  - intros H. apply filter_In in H. destruct H as [_ H].
    now rewrite key_eqb_refl in H.
  - now apply NoDup_filter.
Qed.

Lemma dict_get_set {V : Type} (d : list (K * V)) k v k0 :
  dict_get eqb (dict_set eqb d k v) k0
  = if eqb k k0 then Some v else dict_get eqb d k0.
Proof.
  induction d as [|[k' v'] r IH]; simpl.
  - reflexivity.
  - destruct (eqb k' k) eqn:E; simpl.
    + apply eqb_spec in E. subst k'. now destruct (eqb k k0).
    + destruct (eqb k' k0) eqn:E0; [|exact IH].
      destruct (eqb k k0) eqn:E1; [|reflexivity].
      apply eqb_spec in E0, E1. subst. now rewrite key_eqb_refl in E.
Qed.

End DictKeys.

Section StoredKeys.
Import Py Codec Archive Samples Stored.

#[local] Arguments add_profile_setting : simpl never.

Lemma match_firmware_settings_keys k v els :
  forall acc acc',
    match_firmware_settings k v els acc = Ok acc' ->
    map fst acc'
    = match k with
      | Some c =>
          if has_match els (k, v)
          then add_key String.eqb (map fst acc) (upper c)
          else map fst acc
      | None => map fst acc
      end.
Proof.
  unfold has_match. simpl.
  induction els as [|e r IH]; simpl; intros acc acc' H.
  - inversion H; subst. now destruct k.
  - destruct (opt_string_eqb (fs_command e) k) eqn:E; simpl.
    + destruct (add_profile_setting k v e acc) as [acc1|x] eqn:Ha;
        [|discriminate].
      destruct (add_profile_setting_inv _ _ _ _ _ Ha)
        as (c & ps & -> & -> & _).
      rewrite (IH _ _ H), (keys_dict_set String.eqb String.eqb_eq).
      destruct (existsb _ r);
        [apply (add_key_again String.eqb String.eqb_eq) | reflexivity].
    + apply (IH _ _ H).
Qed.

Lemma parse_from_keys elements :
  forall raw acc d,
    parse_at_settings_from raw elements acc = Ok d ->
    map fst d
    = fold_left (add_key String.eqb) (matched_names raw elements)
        (map fst acc).
Proof.
  induction raw as [|[k v] r IH]; simpl; intros acc d H.
  - now inversion H.
  - destruct (match_firmware_settings k v elements acc) as [acc1|x] eqn:Hm;
      [|discriminate].
    rewrite fold_left_app, (IH _ _ H).
    rewrite (match_firmware_settings_keys _ _ _ _ _ Hm).
    destruct k as [c|]; [|reflexivity].
    now destruct (has_match elements (Some c, v)).
Qed.

(** X13. The settings of a parsed descriptor are stored under distinct
    names, in the order in which the profile first names them: the keys of
    [profile_settings] are the upper-case commands of the raw pairs that
    have a catalog entry, each at its first occurrence, and every setting
    is stored under its own name.  Two raw pairs whose commands differ in
    case only share one entry, at the position of the first. *)
Theorem settings_are_stored_in_profile_order
  (raw : raw_settings) (elements : list firmware_setting)
  (d : profile_settings)
  (Hparsed : parse_at_settings raw elements = Ok d) :
  map fst d = first_occurrences String.eqb (matched_names raw elements)
  /\ NoDup (map fst d)
  /\ Forall (fun entry => name (snd entry) = fst entry) d.
Proof.
  unfold parse_at_settings in Hparsed.
  assert (K : map fst d
              = first_occurrences String.eqb (matched_names raw elements)).
  { rewrite (parse_from_keys _ _ _ _ Hparsed).
    apply (fold_add_key_empty String.eqb String.eqb_eq). }
  split; [exact K|]. split.
  - rewrite K. apply (NoDup_first_occurrences String.eqb String.eqb_eq).
  - assert (B : Forall (built_from raw elements) d)
      by (apply (parse_from_built raw elements raw [] d);
          auto using incl_refl).
    eapply Forall_impl; [|exact B].
    intros entry (c & v & e & _ & _ & _ & F & N & _). congruence.
Qed.

Lemma settings_are_stored_in_profile_order_witness :
  exists d,
    parse_at_settings raw_mixed_case catalog_mixed_case = Ok d
    /\ map fst d = ["NI"; "D7"].
Proof.
  eexists. split; [reflexivity|].
  exact (proj1 (settings_are_stored_in_profile_order
                  raw_mixed_case catalog_mixed_case _ eq_refl)).
Defined.

End StoredKeys.

Section Payloads.
Import Py Codec Archive Samples Stored.

Lemma digit_range base c v : digit base c = Some v -> 0 <= v < base.
Proof.
  unfold digit.
  destruct ((48 <=? ord c) && (ord c <=? 57)) eqn:A.
  - apply andb_true_iff in A. destruct A as [A1 A2].
    apply Z.leb_le in A1. destruct (ord c - 48 <? base) eqn:L; [|discriminate].
    apply Z.ltb_lt in L. intros H. inversion H. lia.
  - destruct ((65 <=? ord c) && (ord c <=? 70)) eqn:B.
    + apply andb_true_iff in B. destruct B as [B1 B2].
      apply Z.leb_le in B1.
      destruct (ord c - 55 <? base) eqn:L; [|discriminate].
      apply Z.ltb_lt in L. intros H. inversion H. lia.
    + destruct ((97 <=? ord c) && (ord c <=? 102)) eqn:C.
      * apply andb_true_iff in C. destruct C as [C1 C2].
        apply Z.leb_le in C1.
        destruct (ord c - 87 <? base) eqn:L; [|discriminate].
        apply Z.ltb_lt in L. intros H. inversion H. lia.
      * destruct (99 <? base) eqn:L; [|discriminate].
        apply Z.ltb_lt in L. intros H. inversion H. lia.
Qed.

Lemma hex_pairs_bytes n :
  forall s l, (String.length s <= n)%nat -> hex_pairs s = Some l ->
              Forall is_byte l.
Proof.
  induction n as [|n IH]; intros s l Hn H.
  - destruct s; [|simpl in Hn; lia]. inversion H. constructor.
  - destruct s as [|a [|b r]]; simpl in H.
    + inversion H. constructor.
    + discriminate.
    + destruct (digit 16 a) as [h|] eqn:Da; [|discriminate].
      destruct (digit 16 b) as [lo|] eqn:Db; [|discriminate].
      destruct (hex_pairs r) as [t|] eqn:Hr; [|discriminate].
      inversion H; subst. constructor.
      * apply digit_range in Da. apply digit_range in Db.
        unfold is_byte. change (0 <= 16 * h + lo < 256). lia.
      * apply (IH r); [simpl in Hn; lia | exact Hr].
Qed.

Lemma utf8_bytes s : Forall is_byte (utf8 s).
Proof.
  induction s as [|c r IH]; simpl; [constructor|].
  apply Forall_app. split; [|exact IH].
  unfold is_byte.
  destruct c as [[] [] [] [] [] [] [] []]; vm_compute;
    repeat constructor; discriminate.
Qed.

Lemma bytearray_of_ints_inv l b :
  bytearray_of_ints l = Ok b -> b = Bytes l /\ Forall is_byte l.
Proof.
  unfold bytearray_of_ints.
  destruct (forallb _ l) eqn:F; [|discriminate].
  intros H. inversion H. split; [reflexivity|].
  apply Forall_forall. intros x Hx.
  rewrite forallb_forall in F. specialize (F x Hx).
  apply andb_true_iff in F. destruct F as [F1 F2].
  apply Z.leb_le in F1. apply Z.ltb_lt in F2. unfold is_byte. lia.
Qed.

Lemma hex_string_to_bytes_inv v b :
  hex_string_to_bytes v = Ok b -> exists l, b = Bytes l /\ Forall is_byte l.
Proof.
  unfold hex_string_to_bytes. destruct v as [s|]; [|discriminate].
  destruct (hex_pairs s) as [l|] eqn:H; [|discriminate].
  intros E. inversion E. exists l. split; [reflexivity|].
  now apply (hex_pairs_bytes (String.length s) s).
Qed.

Lemma bytearray_utf8_inv v b :
  bytearray_utf8 v = Ok b -> exists l, b = Bytes l /\ Forall is_byte l.
Proof.
  unfold bytearray_utf8. destruct v as [s|]; [|discriminate].
  intros E. inversion E. exists (utf8 s). split; [reflexivity|].
  apply utf8_bytes.
Qed.

Lemma ipv4_to_bytes_inv v b :
  ipv4_to_bytes v = Ok b -> exists l, b = Bytes l /\ Forall is_byte l.
Proof.
  unfold ipv4_to_bytes. destruct v as [s|]; [|discriminate].
  destruct (map_int _) as [l|]; [|discriminate].
  intros E. apply bytearray_of_ints_inv in E. now exists l.
Qed.

Lemma payload_kinds ty fmt v b :
  _setting_value_to_bytearray ty fmt v = Ok b ->
  if kept_as_text ty fmt v then b = raw_value v
  else exists l, b = Bytes l /\ Forall is_byte l.
Proof.
  intros Hencoded.
  destruct ty as [[]|]; simpl in *;
    try (eapply hex_string_to_bytes_inv; eassumption);
    try (inversion Hencoded; now (exists []; split; [|constructor]));
    try (now inversion Hencoded).
  destruct fmt as [[]|]; simpl in *;
    try (eapply hex_string_to_bytes_inv; eassumption);
    try (eapply bytearray_utf8_inv; eassumption);
    try (eapply ipv4_to_bytes_inv; eassumption);
    try (now inversion Hencoded).
  destruct v as [s|]; [|discriminate].
  destruct (contains _IPV6_SEPARATOR s); simpl.
  - now apply (bytearray_utf8_inv (Some s)).
  - now inversion Hencoded.
Qed.

(** X14. What [_setting_value_to_bytearray] returns, when it returns: a
    byte array whose items are all in [range(256)], except where the
    function falls through to its last line and hands back the value it
    was given, text or [None], unencoded: for a setting without a type,
    for a text setting without a format, and for an IPv6 text setting
    whose value holds no [':'].  A button or a setting of type [NO_TYPE]
    gets the empty byte array, whatever its value. *)
Theorem payload_is_bytes_or_the_text_itself
  (ty : option XBeeSettingType.t) (fmt : option XBeeSettingFormat.t)
  (v : option string) (b : Py.value)
  (Hencoded : _setting_value_to_bytearray ty fmt v = Ok b) :
  (if kept_as_text ty fmt v then b = raw_value v
   else exists l, b = Bytes l /\ Forall is_byte l)
  /\ (ty = Some XBeeSettingType.BUTTON \/ ty = Some XBeeSettingType.NO_TYPE ->
      b = Bytes []).
Proof.
  split; [now apply payload_kinds|].
  intros [-> | ->]; simpl in Hencoded; now inversion Hencoded.
Qed.

Lemma payload_is_bytes_or_the_text_itself_witness :
  Str "FE80" = raw_value (Some "FE80").
Proof.
  exact (proj1 (payload_is_bytes_or_the_text_itself
                  (Some XBeeSettingType.TEXT) (Some XBeeSettingFormat.IPV6)
                  (Some "FE80") (Str "FE80") eq_refl)).
Defined.

Lemma add_profile_setting_well_formed k v e acc acc' :
  add_profile_setting k v e acc = Ok acc' ->
  Forall well_formed acc -> Forall well_formed acc'.
Proof.
  unfold add_profile_setting, new_XBeeProfileSetting.
  destruct k as [c|]; [|discriminate].
  destruct (_setting_value_to_bytearray _ _ _) as [b|x] eqn:Hb;
    [|discriminate].
  simpl. destruct (setting_type_of e) as [ty|] eqn:Ht; [|discriminate].
  destruct (setting_format_of e) as [fmt|] eqn:Hf; [|discriminate].
  intros H Hacc. inversion H; subst. clear H.
  apply Forall_forall. intros [n x] Hin.
  apply In_dict_set in Hin. destruct Hin as [Hin|Hin].
  2:{ rewrite Forall_forall in Hacc. now apply Hacc. }
  inversion Hin; subst n x. exists ty, fmt. simpl.
  split; [reflexivity|]. split; [reflexivity|]. split; [exact Hb|].
  pose proof (payload_kinds (Some ty) (Some fmt) v b Hb) as K.
  destruct b as [l|s|].
  - destruct (kept_as_text (Some ty) (Some fmt) v).
    + destruct v; discriminate.
    + destruct K as (l' & E & F). now inversion E; subst.
  - destruct ty, fmt, v as [s'|]; simpl in K;
      try (destruct K as (l' & E & _); discriminate);
      try discriminate.
    destruct (contains _IPV6_SEPARATOR s') eqn:C; simpl in K.
    + destruct K as (l' & E & _). discriminate.
    + inversion K; subst. now repeat split.
  - destruct ty, fmt, v as [s'|]; simpl in K;
      try (destruct K as (l' & E & _); discriminate);
      try discriminate.
    destruct (contains _IPV6_SEPARATOR s') eqn:C; simpl in K.
    + destruct K as (l' & E & _). discriminate.
    + discriminate.
Qed.

Lemma match_firmware_settings_well_formed k v els :
  forall acc acc',
    match_firmware_settings k v els acc = Ok acc' ->
    Forall well_formed acc -> Forall well_formed acc'.
Proof.
  induction els as [|e r IH]; simpl; intros acc acc' H Hacc.
  - now inversion H; subst.
  - destruct (opt_string_eqb (fs_command e) k).
    + destruct (add_profile_setting k v e acc) as [acc1|x] eqn:Ha;
        [|discriminate].
      apply (IH _ _ H).
      now apply (add_profile_setting_well_formed _ _ _ _ _ Ha).
    + now apply (IH _ _ H).
Qed.

(** X15. Every setting of a parsed descriptor has a type and a format (a
    [control_type] or [format] text that names no member stops the
    parser), and holds the payload the codec gives for its type, format
    and value.  That payload is a byte array with items in [range(256)],
    with one exception: an IPv6 text setting whose value holds no [':']
    keeps that text as its payload. *)
Theorem stored_settings_are_well_formed
  (raw : raw_settings) (elements : list firmware_setting)
  (d : profile_settings)
  (Hparsed : parse_at_settings raw elements = Ok d) :
  Forall well_formed d.
Proof.
  unfold parse_at_settings in Hparsed.
  assert (G : forall raw acc d,
             parse_at_settings_from raw elements acc = Ok d ->
             Forall well_formed acc -> Forall well_formed d).
  { clear raw d Hparsed.
    induction raw as [|[k v] r IH]; simpl; intros acc d H Hacc.
    - now inversion H; subst.
    - destruct (match_firmware_settings k v elements acc) as [acc1|x] eqn:Hm;
        [|discriminate].
      apply (IH _ _ H).
      now apply (match_firmware_settings_well_formed _ _ _ _ _ Hm). }
  apply (G raw [] d Hparsed). constructor.
Qed.

Lemma stored_settings_are_well_formed_witness :
  exists d,
    parse_at_settings raw_NI_ID catalog_NI = Ok d /\ Forall well_formed d.
Proof.
  eexists. split; [reflexivity|].
  exact (stored_settings_are_well_formed raw_NI_ID catalog_NI _ eq_refl).
Defined.

End Payloads.

Section DottedText.
Import Py Codec Stored.

Lemma append_assoc (a b c : string) :
  String.append (String.append a b) c = String.append a (String.append b c).
Proof. induction a as [|x a IH]; simpl; [reflexivity | now rewrite IH]. Qed.

Lemma append_empty (a : string) : String.append a EmptyString = a.
Proof. induction a as [|x a IH]; simpl; [reflexivity | now rewrite IH]. Qed.

Lemma all_chars_append p a b :
  all_chars p (String.append a b) = all_chars p a && all_chars p b.
Proof.
  induction a as [|x a IH]; simpl; [reflexivity|].
  now rewrite IH, andb_assoc.
Qed.

Lemma all_chars_impl (p q : ascii -> bool) s :
  (forall c, p c = true -> q c = true) ->
  all_chars p s = true -> all_chars q s = true.
Proof.
  intros I. induction s as [|c r IH]; simpl; [reflexivity|].
  intros H. apply andb_true_iff in H. destruct H as [H1 H2].
  now rewrite (I _ H1), IH.
Qed.

(** What [int] and [split] see of a decimal digit. *)
Lemma decimal_digit_facts c :
  is_decimal_digit c = true ->
  is_space c = false /\ Ascii.eqb c "_" = false
  /\ Ascii.eqb c _IPV4_SEPARATOR = false
  /\ digit 10 c = Some (ord c - 48).
Proof.
  destruct c as [[] [] [] [] [] [] [] []]; vm_compute; intros H;
    try discriminate H; repeat split.
Qed.

Lemma digit_char_facts d :
  0 <= d < 10 ->
  is_decimal_digit (digit_char d) = true /\ ord (digit_char d) - 48 = d.
Proof.
  intros H.
  assert (C : d = 0 \/ d = 1 \/ d = 2 \/ d = 3 \/ d = 4 \/ d = 5 \/ d = 6
              \/ d = 7 \/ d = 8 \/ d = 9) by lia.
  repeat (destruct C as [C|C]; [subst d; now split|]). subst d. now split.
Qed.

Lemma decimal_value_append a b acc :
  decimal_value acc (String.append a b) = decimal_value (decimal_value acc a) b.
Proof.
  revert acc. induction a as [|x a IH]; simpl; intros acc; [reflexivity|].
  apply IH.
Qed.

(** The digits of a natural number: at least one, and they read back as the
    number. *)
Lemma decimal_digits_facts fuel :
  forall n, 0 <= n < Z.of_nat fuel ->
    all_chars is_decimal_digit (decimal_digits fuel n) = true
    /\ decimal_digits fuel n <> EmptyString
    /\ decimal_value 0 (decimal_digits fuel n) = n.
Proof.
  induction fuel as [|f IH]; intros n H; [lia|]. simpl decimal_digits.
  destruct (n <? 10) eqn:L.
  - apply Z.ltb_lt in L.
    destruct (digit_char_facts n) as [D V]; [lia|]. simpl.
    rewrite D. repeat split; [discriminate | lia].
  - apply Z.ltb_ge in L.
    assert (Hq : 0 <= n / 10 < Z.of_nat f).
    { split; [apply Z.div_pos; lia|].
      assert (n / 10 < n) by (apply Z.div_lt; lia). lia. }
    destruct (IH _ Hq) as (A & N & V).
    destruct (digit_char_facts (n mod 10)) as [D W];
      [apply Z.mod_pos_bound; lia|].
    split; [|split].
    + rewrite all_chars_append, A. simpl. now rewrite D.
    + destruct (decimal_digits f (n / 10)); [now elim N | discriminate].
    + rewrite decimal_value_append, V. simpl. rewrite W.
      rewrite (Z.div_mod n 10) at 3 by lia. lia.
Qed.

Lemma decimal_facts n :
  0 <= n ->
  all_chars is_decimal_digit (decimal n) = true
  /\ decimal n <> EmptyString
  /\ decimal_value 0 (decimal n) = n.
Proof. intros H. apply decimal_digits_facts. lia. Qed.

(** [int] on a string of decimal digits. *)
Lemma digits_decimal s :
  forall after_digit seen acc,
    all_chars is_decimal_digit s = true ->
    digits 10 after_digit seen acc s
    = match s with
      | EmptyString => if after_digit && seen then Some acc else None
      | String _ _ => Some (decimal_value acc s)
      end.
Proof.
  induction s as [|c r IH]; simpl; intros a sn acc H; [reflexivity|].
  apply andb_true_iff in H. destruct H as [Hc Hr].
  destruct (decimal_digit_facts c Hc) as (_ & U & _ & D).
  rewrite U, D, (IH _ _ _ Hr). now destruct r.
Qed.

Lemma rev_string_acc_twice s :
  forall a b,
    rev_string_acc (rev_string_acc s a) b
    = rev_string_acc a (String.append s b).
Proof.
  induction s as [|c r IH]; simpl; intros a b; [reflexivity|].
  now rewrite IH.
Qed.

Lemma all_chars_rev p s :
  forall a,
    all_chars p (rev_string_acc s a) = all_chars p s && all_chars p a.
Proof.
  induction s as [|c r IH]; simpl; intros a; [reflexivity|].
  rewrite IH. simpl. now rewrite andb_assoc, (andb_comm (all_chars p r)).
Qed.

Lemma lstrip_same s :
  all_chars (fun c => negb (is_space c)) s = true -> lstrip s = s.
Proof.
  destruct s as [|c r]; simpl; [reflexivity|].
  intros H. apply andb_true_iff in H. destruct H as [H _].
  apply negb_true_iff in H. now rewrite H.
Qed.

Lemma strip_same s :
  all_chars (fun c => negb (is_space c)) s = true -> strip s = s.
Proof.
  intros H. unfold strip. rewrite (lstrip_same s H).
  rewrite lstrip_same.
  - unfold rev_string. rewrite rev_string_acc_twice. simpl.
    apply append_empty.
  - unfold rev_string. rewrite all_chars_rev, H. reflexivity.
Qed.

Lemma int_decimal n : 0 <= n -> int 10 (decimal n) = Some n.
Proof.
  intros H. destruct (decimal_facts n H) as (A & N & V).
  assert (S : strip (decimal n) = decimal n).
  { apply strip_same. apply (all_chars_impl is_decimal_digit); [|exact A].
    intros c Hc. destruct (decimal_digit_facts c Hc) as (Sp & _).
    now rewrite Sp. }
  assert (D : digits 10 false false 0 (decimal n) = Some n).
  { rewrite (digits_decimal _ _ _ _ A).
    destruct (decimal n); [now elim N | now rewrite V]. }
  unfold int. rewrite S. rewrite <- D.
  destruct (decimal n) as [|c r]; [reflexivity|].
  simpl in A. apply andb_true_iff in A. destruct A as [Hc _].
  destruct c as [[] [] [] [] [] [] [] []]; try discriminate Hc;
    try reflexivity; now destruct r.
Qed.

Lemma split_acc_field p :
  forall cur,
    all_chars (fun c => negb (Ascii.eqb c _IPV4_SEPARATOR)) p = true ->
    (split_acc _IPV4_SEPARATOR cur p = [String.append cur p])
    /\ forall rest,
         split_acc _IPV4_SEPARATOR cur
           (String.append p (String _IPV4_SEPARATOR rest))
         = String.append cur p
           :: split_acc _IPV4_SEPARATOR EmptyString rest.
Proof.
  induction p as [|c r IH]; intros cur H.
  - simpl. rewrite append_empty. now split.
  - simpl in H. apply andb_true_iff in H. destruct H as [Hc Hr].
    apply negb_true_iff in Hc. simpl. rewrite Hc.
    destruct (IH (String.append cur (String c EmptyString)) Hr) as [E1 E2].
    rewrite append_assoc in E1. simpl in E1. split; [exact E1|].
    intros rest. rewrite E2, append_assoc. reflexivity.
Qed.

Lemma split_dotted l :
  Forall (fun n => 0 <= n) l -> l <> [] ->
  split _IPV4_SEPARATOR (dotted l) = map decimal l.
Proof.
  unfold split. induction l as [|x r IH]; intros H N; [now elim N|].
  inversion H as [|? ? Hx Hr]; subst.
  assert (F : all_chars (fun c => negb (Ascii.eqb c _IPV4_SEPARATOR))
                (decimal x) = true).
  { destruct (decimal_facts x Hx) as (A & _).
    apply (all_chars_impl is_decimal_digit); [|exact A].
    intros c Hc. destruct (decimal_digit_facts c Hc) as (_ & _ & P & _).
    now rewrite P. }
  destruct (split_acc_field (decimal x) EmptyString F) as [E1 E2].
  destruct r as [|y r'].
  - simpl. exact E1.
  - change (dotted (x :: y :: r'))
      with (String.append (decimal x)
              (String _IPV4_SEPARATOR (dotted (y :: r')))).
    rewrite E2. simpl String.append. rewrite IH; [reflexivity | exact Hr|].
    discriminate.
Qed.

Lemma map_int_decimal l :
  Forall (fun n => 0 <= n) l -> map_int (map decimal l) = Some l.
Proof.
  induction 1 as [|x r Hx Hr IH]; simpl; [reflexivity|].
  now rewrite (int_decimal x Hx), IH.
Qed.

(** X16. An IPv4 value in dotted decimal notation is encoded as the bytes
    it names: the fields are read back as the numbers they print, one byte
    each.  The encoder does not count the fields (one, four or six are
    taken alike), and a field above 255 makes it raise [ValueError]. *)
Theorem ipv4_text_is_encoded_field_by_field
  (octets : list Z)
  (Hfields : octets <> [])
  (Hnatural : Forall (fun n => 0 <= n) octets) :
  _setting_value_to_bytearray (Some XBeeSettingType.TEXT)
    (Some XBeeSettingFormat.IPV4) (Some (dotted octets))
  = if forallb (fun n => n <? 256) octets then Ok (Bytes octets)
    else Raise (Exn ValueError "byte must be in range(0, 256)").
Proof.
  simpl. unfold ipv4_to_bytes.
  rewrite (split_dotted octets Hnatural Hfields).
  rewrite (map_int_decimal octets Hnatural).
  unfold bytearray_of_ints.
  assert (E : forallb (fun n => (0 <=? n) && (n <? 256)) octets
              = forallb (fun n => n <? 256) octets).
  { clear Hfields.
    induction Hnatural as [|x r Hx Hr IH]; simpl; [reflexivity|].
    apply Z.leb_le in Hx. rewrite Hx. simpl. f_equal. apply IH. }
  now rewrite E.
Qed.

Lemma ipv4_text_is_encoded_field_by_field_witness :
  _setting_value_to_bytearray (Some XBeeSettingType.TEXT)
    (Some XBeeSettingFormat.IPV4) (Some "192.168.1.10")
  = Ok (Bytes [192; 168; 1; 10]).
Proof.
  apply (ipv4_text_is_encoded_field_by_field [192; 168; 1; 10]).
  - discriminate.
  - repeat constructor; discriminate.
Defined.

End DottedText.

Section EnumLookups.

(** X17. The look-ups of the setting enumerations invert the tags and the
    codes: [get] of a member's tag (or code) is that member, and [get]
    returns a member for its own tag (or code) only, so any other text or
    number, and a missing text, gives [None].  The tags are compared as
    they are: ["TEXT"] is no type and ["hex"] is no format. *)
Theorem enum_lookups_invert_the_tags :
  (forall x, XBeeSettingType.get (Some (XBeeSettingType.tag x)) = Some x)
  /\ (forall tg x, XBeeSettingType.get tg = Some x ->
                   tg = Some (XBeeSettingType.tag x))
  /\ (forall x, XBeeSettingFormat.get (Some (XBeeSettingFormat.tag x)) = Some x)
  /\ (forall tg x, XBeeSettingFormat.get tg = Some x ->
                   tg = Some (XBeeSettingFormat.tag x))
  /\ (forall x, FlashFirmwareOption.get (FlashFirmwareOption.code x) = Some x)
  /\ (forall c x, FlashFirmwareOption.get c = Some x ->
                  c = FlashFirmwareOption.code x)
  /\ XBeeSettingType.get (Some "TEXT") = None
  /\ XBeeSettingFormat.get (Some "hex") = None.
Proof.
  split; [intros []; reflexivity|].
  split.
  { intros [s|] x H; [|discriminate]. unfold XBeeSettingType.get in H.
    apply find_some in H. destruct H as [_ H].
    apply String.eqb_eq in H. now subst. }
  split; [intros []; reflexivity|].
  split.
  { intros [s|] x H; [|discriminate]. unfold XBeeSettingFormat.get in H.
    apply find_some in H. destruct H as [_ H].
    apply String.eqb_eq in H. now subst. }
  split; [intros []; reflexivity|].
  split.
  { intros c x H. unfold FlashFirmwareOption.get in H.
    apply find_some in H. destruct H as [_ H].
    apply Z.eqb_eq in H. now subst. }
  split; reflexivity.
Qed.

End EnumLookups.

(* ===================================================================== *)
(** * The archive and [profile.xml] *)
(* ===================================================================== *)

Section Integrity.
Import Py Archive Stored Package.

Lemma startswith_spec p :
  forall s, startswith s p = true <-> exists rest, s = String.append p rest.
Proof.
  induction p as [|a p IH]; simpl; intros s.
  - split; [intros _; now exists s | reflexivity].
  - destruct s as [|b s]; simpl.
    + split; [discriminate | intros [rest H]; discriminate].
    + rewrite andb_true_iff, Ascii.eqb_eq, IH. split.
      * intros [-> [rest ->]]. now exists rest.
      * intros [rest H]. inversion H; subst. split; [reflexivity|].
        now exists rest.
Qed.

Lemma fnmatch_empty name : fnmatchcase EmptyString name = true <-> name = "".
Proof. destruct name; simpl; split; congruence. Qed.

Lemma fnmatch_star pat name :
  fnmatchcase (String "*" pat) name = true
  <-> exists a b, name = String.append a b /\ fnmatchcase pat b = true.
Proof.
  simpl. induction name as [|c r IH].
  - rewrite orb_false_r. split.
    + intros H. now exists "", "".
    + intros (a & b & E & H). destruct a; [|discriminate].
      simpl in E. now subst b.
  - rewrite orb_true_iff. split.
    + intros [H|H].
      * now exists "", (String c r).
      * apply IH in H. destruct H as (a & b & -> & H).
        now exists (String c a), b.
    + intros (a & b & E & H). destruct a as [|x a]; simpl in E.
      * left. now subst b.
      * right. inversion E; subst. apply IH. now exists a, b.
Qed.

Lemma fnmatch_literal lit :
  all_chars (fun c => negb (Ascii.eqb c "*")) lit = true ->
  forall pat name,
    fnmatchcase (String.append lit pat) name = true
    <-> exists b, name = String.append lit b /\ fnmatchcase pat b = true.
Proof.
  induction lit as [|c lit IH]; intros L pat name.
  - simpl. split; [intros H; now exists name | now intros (b & -> & H)].
  - simpl in L. apply andb_true_iff in L. destruct L as [Lc L].
    apply negb_true_iff in Lc.
    change (String.append (String c lit) pat)
      with (String c (String.append lit pat)).
    simpl fnmatchcase. rewrite Lc.
    destruct name as [|x name].
    + split; [discriminate | intros (b & E & _); discriminate].
    + rewrite andb_true_iff, Ascii.eqb_eq, (IH L). split.
      * intros [-> (b & -> & H)]. now exists b.
      * intros (b & E & H). inversion E; subst. split; [reflexivity|].
        now exists b.
Qed.

(** The descriptor pattern matches the names that start with the folder
    name and end with the extension. *)
Lemma fnmatch_descriptor name :
  fnmatchcase (String.append _FIRMWARE_FOLDER_NAME _WILDCARD_XML) name = true
  <-> exists mid,
        name = String.append "radio_fw" (String.append mid ".xml").
Proof.
  change (String.append _FIRMWARE_FOLDER_NAME _WILDCARD_XML)
    with (String.append "radio_fw"
            (String "*" (String.append ".xml" EmptyString))).
  rewrite (fnmatch_literal "radio_fw" eq_refl). split.
  - intros (b & -> & H). apply fnmatch_star in H.
    destruct H as (mid & c & -> & H).
    apply (fnmatch_literal ".xml" eq_refl) in H.
    destruct H as (d & -> & H). apply fnmatch_empty in H. subst d.
    now exists mid.
  - intros (mid & ->). eexists. split; [reflexivity|].
    apply fnmatch_star. exists mid, ".xml". split; [reflexivity|].
    reflexivity.
Qed.

Lemma existsb_startswith files p :
  existsb (fun f => startswith f p) files = true
  <-> exists rest, In (String.append p rest) files.
Proof.
  rewrite existsb_exists. split.
  - intros (f & Hin & H). apply startswith_spec in H.
    destruct H as [rest ->]. now exists rest.
  - intros (rest & Hin). eexists. split; [exact Hin|].
    apply startswith_spec. now exists rest.
Qed.

Lemma existsb_name files n :
  existsb (String.eqb n) files = true <-> In n files.
Proof.
  rewrite existsb_exists. split.
  - intros (f & Hin & H). apply String.eqb_eq in H. now subst.
  - intros Hin. exists n. split; [exact Hin | apply String.eqb_refl].
Qed.

Lemma fnmatch_filter_empty files pat :
  Nat.eqb (List.length (fnmatch_filter files pat)) 0 = false
  <-> exists f, In f files /\ fnmatchcase pat f = true.
Proof.
  unfold fnmatch_filter. split.
  - destruct (filter (fnmatchcase pat) files) as [|f r] eqn:E;
      [discriminate|]. intros _.
    assert (H : In f (filter (fnmatchcase pat) files))
      by (rewrite E; now left).
    apply filter_In in H. now exists f.
  - intros (f & Hin & H).
    assert (I : In f (filter (fnmatchcase pat) files))
      by (apply filter_In; now split).
    now destruct (filter (fnmatchcase pat) files).
Qed.

(** X18. What [_check_profile_integrity] accepts.  The member list passes
    exactly when it holds [profile.xml] and a name that starts with
    [radio_fw] and ends with [.xml]; the two file-system flags then tell
    whether some name starts with [filesystem], with [remote_filesystem].
    Otherwise the check raises a [ReadProfileException], and the first
    failed test gives the message: no [profile.xml], then no name that
    starts with [radio_fw], then no descriptor among those names. *)
Theorem integrity_needs_manifest_and_descriptor (files : list string) :
  match _check_profile_integrity files with
  | Ok (has_local_filesystem, has_remote_filesystem) =>
      In "profile.xml" files
      /\ (exists mid,
             In (String.append "radio_fw" (String.append mid ".xml")) files)
      /\ (has_local_filesystem = true
          <-> exists rest, In (String.append "filesystem" rest) files)
      /\ (has_remote_filesystem = true
          <-> exists rest, In (String.append "remote_filesystem" rest) files)
  | Raise e =>
      exn_cls e = ReadProfileException
      /\ ((exn_msg e = "Profile XML file does not exist"
           /\ ~ In "profile.xml" files)
          \/ (exn_msg e = "Firmware folder does not exist"
              /\ In "profile.xml" files
              /\ ~ exists rest, In (String.append "radio_fw" rest) files)
          \/ (exn_msg e = "Firmware XML file does not exist"
              /\ In "profile.xml" files
              /\ (exists rest, In (String.append "radio_fw" rest) files)
              /\ ~ exists mid,
                     In (String.append "radio_fw" (String.append mid ".xml"))
                       files))
  end.
Proof.
  unfold _check_profile_integrity.
  destruct (existsb (String.eqb _PROFILE_XML_FILE_NAME) files) eqn:P; cbv beta iota delta [negb _throw_read_exception].
  2:{ split; [reflexivity|]. left. split; [reflexivity|].
      intros H. apply (existsb_name files "profile.xml") in H.
      change _PROFILE_XML_FILE_NAME with "profile.xml" in P. congruence. }
  apply (existsb_name files "profile.xml") in P.
  destruct (existsb (fun f => startswith f _FIRMWARE_FOLDER_NAME) files)
    eqn:F; cbv beta iota delta [negb _throw_read_exception].
  2:{ split; [reflexivity|]. right. left. split; [reflexivity|].
      split; [exact P|]. intros H.
      apply (existsb_startswith files "radio_fw") in H.
      change _FIRMWARE_FOLDER_NAME with "radio_fw" in F. congruence. }
  apply (existsb_startswith files "radio_fw") in F.
  destruct (Nat.eqb _ 0) eqn:X;
    cbv beta iota delta [negb _throw_read_exception exn_cls exn_msg
                           _ERROR_FIRMWARE_XML_NOT_EXIST].
  - split; [reflexivity|]. right. right. split; [reflexivity|].
    split; [exact P|]. split; [exact F|]. intros (mid & Hin).
    assert (N : Nat.eqb (List.length
                           (fnmatch_filter files
                              (String.append _FIRMWARE_FOLDER_NAME
                                 _WILDCARD_XML))) 0 = false).
    { apply fnmatch_filter_empty. eexists. split; [exact Hin|].
      apply fnmatch_descriptor. now exists mid. }
    congruence.
  - apply fnmatch_filter_empty in X. destruct X as (f & Hin & H).
    apply fnmatch_descriptor in H. destruct H as (mid & ->).
    split; [exact P|]. split; [now exists mid|].
    split; apply existsb_startswith.
Qed.

End Integrity.

Section ProfileDocument.
Import Py Archive Stored Package.

Lemma read_at_settings_snoc l kv :
  read_at_settings (l ++ [kv])
  = dict_set opt_string_eqb (read_at_settings l) (fst kv) (snd kv).
Proof. unfold read_at_settings. now rewrite fold_left_app. Qed.

Lemma read_at_settings_keys l :
  map fst (read_at_settings l)
  = fold_left (add_key opt_string_eqb) (map fst l) [].
Proof.
  induction l as [|kv l IH] using rev_ind; [reflexivity|].
  rewrite read_at_settings_snoc, map_app, fold_left_app. simpl.
  rewrite (keys_dict_set opt_string_eqb opt_string_eqb_eq). now rewrite IH.
Qed.

(** X19. The raw settings of a profile, as the loop over the [setting]
    elements of [profile.xml] leaves them: one entry per command, in the
    order in which the commands first appear, each with the text of the
    last element that names it.  A command that is set twice keeps the
    place of its first element and the value of its last. *)
Theorem raw_settings_keep_first_place_and_last_text
  (setting_elements : list (option string * option string)) :
  map fst (read_at_settings setting_elements)
  = first_occurrences opt_string_eqb (map fst setting_elements)
  /\ NoDup (map fst (read_at_settings setting_elements))
  /\ forall k,
       dict_get opt_string_eqb (read_at_settings setting_elements) k
       = last_text setting_elements k.
Proof.
  assert (K : map fst (read_at_settings setting_elements)
              = first_occurrences opt_string_eqb (map fst setting_elements)).
  { rewrite read_at_settings_keys.
    apply (fold_add_key_empty opt_string_eqb opt_string_eqb_eq). }
  split; [exact K|]. split.
  - rewrite K.
    apply (NoDup_first_occurrences opt_string_eqb opt_string_eqb_eq).
  - intros k. unfold last_text.
    induction setting_elements as [|kv l IH] using rev_ind; [reflexivity|].
    rewrite read_at_settings_snoc, rev_app_distr. simpl.
    rewrite (dict_get_set opt_string_eqb opt_string_eqb_eq).
    destruct (opt_string_eqb (fst kv) k); [reflexivity|].
    apply IH. rewrite read_at_settings_keys.
    apply (fold_add_key_empty opt_string_eqb opt_string_eqb_eq).
Qed.

Lemma int_of_element_inv el r :
  int_of_element el = Ok r ->
  match el with
  | None => r = None
  | Some text => exists s n, text = Some s /\ int 10 s = Some n /\ r = Some n
  end.
Proof.
  destruct el as [[s|]|]; simpl.
  - destruct (int 10 s) as [n|] eqn:E; [|discriminate].
    intros H. inversion H. now exists s, n.
  - discriminate.
  - intros H. now inversion H.
Qed.

Lemma int_of_element_errors el e :
  int_of_element el = Raise e ->
  (exn_cls e = TypeError /\ el = Some None)
  \/ (exn_cls e = ValueError
      /\ exists s, el = Some (Some s) /\ int 10 s = None).
Proof.
  destruct el as [[s|]|]; simpl.
  - destruct (int 10 s) eqn:E; [discriminate|].
    intros H. inversion H. right. split; [reflexivity|]. now exists s.
  - intros H. inversion H. now left.
  - discriminate.
Qed.

(** X20. What [_parse_xml_profile_file] makes of a parsed [profile.xml].
    When it returns: the firmware descriptor is [radio_fw/] followed by the
    text of [description_file]; the version and the flash option are the
    integers their elements print (version 0 and [FLASH_DIFFERENT] without
    element); the settings are reset unless [reset_settings] is there with
    a text other than [True], [true] or [1]; the raw settings are those of
    the [setting] elements.  When it raises: a [ReadProfileException] means
    that [description_file] is missing or that [flash_fw_action] holds an
    integer that is no option code; an element without text gives a
    [TypeError] and a text that is no integer a [ValueError], neither of
    them turned into a [ReadProfileException] here. *)
Theorem profile_document_defaults_and_errors (root : profile_document) :
  match _parse_xml_profile_file (Ok root) with
  | Ok p =>
      (exists text,
          pd_description_file root = Some (Some text)
          /\ _firmware_xml_file p = String.append "radio_fw/" text)
      /\ match pd_profile_version root with
         | None => _version p = 0
         | Some text => exists s, text = Some s /\ int 10 s = Some (_version p)
         end
      /\ match pd_flash_fw_action root with
         | None => _flash_firmware_option p = FlashFirmwareOption.FLASH_DIFFERENT
         | Some text =>
             exists s,
               text = Some s
               /\ int 10 s
                  = Some (FlashFirmwareOption.code (_flash_firmware_option p))
         end
      /\ (_reset_settings p = false
          <-> exists text,
                pd_reset_settings root = Some text
                /\ text <> Some "True" /\ text <> Some "true"
                /\ text <> Some "1")
      /\ _raw_settings p = read_at_settings (pd_settings root)
  | Raise e =>
      (exn_cls e = ReadProfileException
       /\ (pd_description_file root = None
           \/ exists s c,
                pd_flash_fw_action root = Some (Some s)
                /\ int 10 s = Some c /\ (c < 0 \/ 2 < c)))
      \/ (exn_cls e = TypeError
          /\ (pd_description_file root = Some None
              \/ pd_profile_version root = Some None
              \/ pd_flash_fw_action root = Some None))
      \/ (exn_cls e = ValueError
          /\ exists s,
               (pd_profile_version root = Some (Some s)
                \/ pd_flash_fw_action root = Some (Some s))
               /\ int 10 s = None)
  end.
Proof.
  unfold _parse_xml_profile_file, read_profile_document.
  destruct (pd_description_file root) as [[text|]|] eqn:D; simpl.
  3:{ left. split; [reflexivity | now left]. }
  2:{ right. left. split; [reflexivity | now left]. }
  destruct (int_of_element (pd_profile_version root)) as [version|e] eqn:V.
  2:{ destruct (int_of_element_errors _ _ V) as [[C E]|[C (s & E & I)]];
        unfold isinstance; rewrite C; simpl; right.
      - left. split; [exact C|]. right. now left.
      - right. split; [exact C|]. exists s. split; [now left | exact I]. }
  destruct (int_of_element (pd_flash_fw_action root)) as [code|e] eqn:F.
  2:{ destruct (int_of_element_errors _ _ F) as [[C E]|[C (s & E & I)]];
        unfold isinstance; rewrite C; simpl; right.
      - left. split; [exact C|]. right. now right.
      - right. split; [exact C|]. exists s. split; [now right | exact I]. }
  apply int_of_element_inv in V, F.
  destruct code as [c|].
  - destruct (pd_flash_fw_action root) as [ftext|]; [|discriminate].
    destruct F as (s & n & -> & I & N). inversion N; subst n.
    destruct (FlashFirmwareOption.get c) as [option|] eqn:G; simpl.
    + split; [now exists text|]. split.
      { destruct (pd_profile_version root) as [vt|].
        - destruct V as (s' & n & -> & I' & ->). now exists s'.
        - now subst version. }
      split.
      { exists s. split; [reflexivity|].
        unfold FlashFirmwareOption.get in G. apply find_some in G.
        destruct G as [_ G]. apply Z.eqb_eq in G. now rewrite G. }
      split; [|reflexivity].
      destruct (pd_reset_settings root) as [rt|].
      * unfold is_true_text. simpl. rewrite !orb_false_iff.
        split.
        -- intros (A & B & C & _). exists rt. split; [reflexivity|].
           repeat split; intros ->; simpl in *; discriminate.
        -- intros (t & E & A & B & C). inversion E; subst t.
           repeat split;
             match goal with
             | |- opt_string_eqb rt ?x = false =>
                 destruct (opt_string_eqb rt x) eqn:Q; [|reflexivity];
                 apply opt_string_eqb_eq in Q; congruence
             end.
      * split; [discriminate | intros (t & E & _); discriminate].
    + left. split; [reflexivity|]. right. exists s, c.
      split; [reflexivity|]. split; [exact I|].
      destruct (Z_lt_dec c 0); [now left|].
      destruct (Z_lt_dec 2 c); [now right|]. exfalso.
      assert (C : c = 0 \/ c = 1 \/ c = 2) by lia.
      destruct C as [-> | [-> | ->]]; discriminate G.
  - destruct (pd_flash_fw_action root) as [ftext|].
    { destruct F as (s & n & _ & _ & N). discriminate. }
    simpl. split; [now exists text|]. split.
    { destruct (pd_profile_version root) as [vt|].
      - destruct V as (s' & n & -> & I' & ->). now exists s'.
      - now subst version. }
    split; [reflexivity|]. split; [|reflexivity].
    destruct (pd_reset_settings root) as [rt|].
    * unfold is_true_text. simpl. rewrite !orb_false_iff.
      split.
      -- intros (A & B & C & _). exists rt. split; [reflexivity|].
         repeat split; intros ->; simpl in *; discriminate.
      -- intros (t & E & A & B & C). inversion E; subst t.
         repeat split;
           match goal with
           | |- opt_string_eqb rt ?x = false =>
               destruct (opt_string_eqb rt x) eqn:Q; [|reflexivity];
               apply opt_string_eqb_eq in Q; congruence
           end.
    * split; [discriminate | intros (t & E & _); discriminate].
Qed.

End ProfileDocument.

Section DefaultValue.
Import Py Archive Stored Package.

Lemma first_default_value_spec elements n v :
  first_default_value elements n = Some v
  <-> exists pre e post,
        elements = pre ++ e :: post
        /\ Forall (fun x => fs_command x <> Some n) pre
        /\ fs_command e = Some n
        /\ fs_default_value e = Some (Some v).
Proof.
  induction elements as [|x r IH]; simpl.
  - split; [discriminate | intros ([|? ?] & e & post & E & _); discriminate].
  - destruct (opt_string_eqb (fs_command x) (Some n)) eqn:C.
    + apply opt_string_eqb_eq in C. split.
      * intros H. exists [], x, r. split; [reflexivity|].
        split; [constructor|]. split; [exact C|].
        destruct (fs_default_value x) as [[t|]|]; congruence.
      * intros (pre & e & post & E & P & Ce & De).
        destruct pre as [|y pre]; simpl in E; inversion E; subst.
        -- now rewrite De.
        -- inversion P; subst. congruence.
    + assert (N : fs_command x <> Some n).
      { intros H. apply opt_string_eqb_eq in H. congruence. }
      rewrite IH. split.
      * intros (pre & e & post & -> & P & Ce & De).
        exists (x :: pre), e, post. split; [reflexivity|].
        split; [now constructor|]. now split.
      * intros (pre & e & post & E & P & Ce & De).
        destruct pre as [|y pre]; simpl in E; inversion E; subst.
        -- congruence.
        -- inversion P; subst. now exists pre, e, post.
Qed.

(** X21. [get_setting_default_value] answers from the first [setting]
    element of the firmware descriptor that carries the command: the
    result is a text exactly when that element has a [default_value] child
    with a text, and [None] when no element carries the command, or when
    the first that does has no default, whatever the elements after it
    hold.  When reading the descriptor raises a [ParseError], a
    [BadZipFile] or a [LargeZipFile] the method returns [None] as well;
    an exception of any other class leaves the method as it is. *)
Theorem default_value_comes_from_the_first_entry (setting_name : string) :
  (forall elements v,
      get_setting_default_value (Ok elements) setting_name = Ok (Some v)
      <-> exists pre e post,
            elements = pre ++ e :: post
            /\ Forall (fun x => fs_command x <> Some setting_name) pre
            /\ fs_command e = Some setting_name
            /\ fs_default_value e = Some (Some v))
  /\ (forall elements,
         exists r,
           get_setting_default_value (Ok elements) setting_name = Ok r)
  /\ (forall exc,
         get_setting_default_value (Raise exc) setting_name
         = match exn_cls exc with
           | ParseError | BadZipFile | LargeZipFile => Ok None
           | _ => Raise exc
           end)
  /\ get_setting_default_value (Ok catalog_BD_twice) "BD" = Ok None.
Proof.
  split; [|split; [|split]]; try reflexivity.
  - intros elements v. simpl. rewrite <- first_default_value_spec.
    split; congruence.
  - intros elements. now eexists.
  - intros [cls msg]. unfold get_setting_default_value, isinstance. simpl.
    destruct cls; reflexivity.
Qed.

End DefaultValue.

(* ===================================================================== *)
(** * Order of the file system calls *)
(* ===================================================================== *)

Section FileSystemOrder.
Import Py Updater Frame Transfer Ordering.

Variable self : _ProfileUpdater.

Lemma flags_after_app fl a b :
  flags_after fl (a ++ b) = flags_after (flags_after fl a) b.
Proof. apply fold_left_app. Qed.

Lemma formatted_first_app a :
  forall fl b,
    formatted_first fl (a ++ b)
    = formatted_first fl a && formatted_first (flags_after fl a) b.
Proof.
  induction a as [|e r IH]; simpl; intros fl b; [reflexivity|].
  now rewrite IH, andb_assoc.
Qed.

Lemma neutral_events fl evs :
  Forall (allowed is_neutral) evs ->
  formatted_first fl evs = true /\ flags_after fl evs = fl.
Proof.
  induction 1 as [|e r He _ IH]; simpl; [now split|].
  assert (E : flags_after_event fl e = fl
              /\ match e with
                 | e_call c_fm_put_dir _ => fst fl
                 | e_call c_fs_put_dir _ => snd fl
                 | _ => true
                 end = true).
  { destruct e as [c o| | | |]; simpl; try (now split).
    destruct c; simpl in He; try discriminate; now split. }
  destruct E as [E1 E2]. unfold flags_after. simpl.
  rewrite E1, E2. exact IH.
Qed.

Lemma ordered_neutral {A} (P : bool * bool -> Prop) (m : M A) :
  Frame.holds is_neutral (fun _ : session => tt) (fun _ : unit => True) m ->
  ordered P P m.
Proof.
  intros H s fl HP. destruct (H s I) as [(evs & T & F) _].
  destruct (neutral_events fl evs F) as [E1 E2].
  exists evs. rewrite E2. auto.
Qed.

Lemma ordered_bind {A B} (P Q R : bool * bool -> Prop)
  (m : M A) (f : A -> M B) :
  ordered P Q m -> (forall a, ordered Q R (f a)) -> ordered P R (bind m f).
Proof.
  intros Hm Hf s fl HP. destruct (Hm s fl HP) as (e1 & T1 & F1 & Q1).
  unfold bind. destruct (m s) as [[a|x] s1]; simpl in *.
  - destruct (Hf a s1 _ (Q1 a eq_refl)) as (e2 & T2 & F2 & Q2).
    exists (e1 ++ e2). rewrite T2, T1, app_assoc, formatted_first_app, F1.
    rewrite flags_after_app. auto.
  - exists e1. repeat split; auto. discriminate.
Qed.

(** Handlers that leave the state as it is. *)
Lemma ordered_try_except {A} (P Q : bool * bool -> Prop) (m : M A)
  (h : exn -> option (M A)) :
  ordered P Q m ->
  (forall e k, h e = Some k -> forall s, snd (k s) = s) ->
  ordered P (fun _ => True) (try_except m h).
Proof.
  intros Hm Hh s fl HP. destruct (Hm s fl HP) as (evs & T & F & _).
  exists evs. split; [|now split].
  unfold try_except. destruct (m s) as [[a|x] s1]; simpl in *; [exact T|].
  destruct (h x) as [k|] eqn:E; [|exact T].
  now rewrite (Hh _ _ E s1).
Qed.

Lemma ordered_try_finally {A} (P Q R : bool * bool -> Prop) (m : M A)
  (f : M unit) :
  ordered P Q m -> ordered (fun _ => True) R f ->
  ordered P (fun _ => True) (try_finally m f).
Proof.
  intros Hm Hf s fl HP. destruct (Hm s fl HP) as (e1 & T1 & F1 & _).
  unfold try_finally. destruct (m s) as [r s1]; simpl in *.
  destruct (Hf s1 (flags_after fl e1) I) as (e2 & T2 & F2 & _).
  exists (e1 ++ e2). split; [|split; [|auto]].
  - destruct (f s1) as [[u|x] s2]; simpl in *;
      now rewrite T2, T1, app_assoc.
  - now rewrite formatted_first_app, F1.
Qed.

Lemma filesystem_errors_keep e k :
  filesystem_errors e = Some k -> forall s, snd (k s) = s.
Proof.
  unfold filesystem_errors.
  destruct (isinstance e FileSystemNotSupportedException);
    [intros H; now inversion H|].
  destruct (isinstance e FileSystemException); [|discriminate].
  intros H; now inversion H.
Qed.

Lemma ordered_format_fm :
  ordered (fun _ => True) (fun fl => fst fl = true)
    (invoke self c_fm_format).
Proof.
  intros s fl _. unfold invoke.
  set (r := oracle (collab self) (trace s) c_fm_format).
  exists [e_call c_fm_format (resp_exn r)].
  destruct (resp_exn r); simpl; repeat split; auto; discriminate.
Qed.

Lemma ordered_format_fs :
  ordered (fun _ => True) (fun fl => snd fl = true)
    (invoke self c_fs_format_filesystem).
Proof.
  intros s fl _. unfold invoke.
  set (r := oracle (collab self) (trace s) c_fs_format_filesystem).
  exists [e_call c_fs_format_filesystem (resp_exn r)].
  destruct (resp_exn r); simpl; repeat split; auto; discriminate.
Qed.

Lemma reports_are_neutral reported :
  Forall (fun e => exists t p, e = e_progress t p) reported ->
  Forall (allowed is_neutral) reported.
Proof.
  intros F. eapply Forall_impl; [|exact F]. intros e (t & p & ->). exact I.
Qed.

Lemma ordered_put_dir_fm :
  ordered (fun fl => fst fl = true) (fun _ => True)
    (invoke_with_progress self c_fm_put_dir).
Proof.
  intros s fl Hfl.
  destruct (invoke_with_progress_trace self c_fm_put_dir s)
    as (rep & o & T & F & _).
  exists (rep ++ [e_call c_fm_put_dir o]). split; [exact T|].
  split; [|auto].
  destruct (neutral_events fl rep (reports_are_neutral rep F)) as [E1 E2].
  rewrite formatted_first_app, E1, E2. simpl. now rewrite Hfl.
Qed.

Lemma ordered_put_dir_fs :
  ordered (fun fl => snd fl = true) (fun _ => True)
    (invoke_with_progress self c_fs_put_dir).
Proof.
  intros s fl Hfl.
  destruct (invoke_with_progress_trace self c_fs_put_dir s)
    as (rep & o & T & F & _).
  exists (rep ++ [e_call c_fs_put_dir o]). split; [exact T|].
  split; [|auto].
  destruct (neutral_events fl rep (reports_are_neutral rep F)) as [E1 E2].
  rewrite formatted_first_app, E1, E2. simpl. now rewrite Hfl.
Qed.

Local Abbreviation neutral m :=
  (Frame.holds is_neutral (fun _ : session => tt) (fun _ : unit => True) m).

Lemma neutral_invoke c : is_neutral c = true -> neutral (invoke self c).
Proof. intros H. now apply holds_invoke. Qed.

Lemma neutral_asset_path : neutral (asset_path self).
Proof. apply holds_asset_path; reflexivity. Qed.

Lemma neutral_progress t p : neutral (progress self t p).
Proof. apply holds_progress. Qed.

Lemma neutral_ret {A} (a : A) : neutral (ret a).
Proof. apply holds_ret. Qed.

(** The transfer through the file system API. *)
Lemma ordered_api_transfer :
  ordered (fun _ => True) (fun _ => True)
    (try_except
       (_ <- invoke self c_get_file_manager ;;
        progress self _TASK_FORMAT_FILESYSTEM None ;;
        _ <- invoke self c_fm_format ;;
        asset_path self ;;
        _ <- invoke_with_progress self c_fm_put_dir ;;
        ret tt)
       filesystem_errors).
Proof.
  apply ordered_try_except with (Q := fun _ => True);
    [|exact filesystem_errors_keep].
  eapply ordered_bind;
    [apply ordered_neutral, neutral_invoke; reflexivity | intros _].
  eapply ordered_bind; [apply ordered_neutral, neutral_progress | intros _].
  eapply ordered_bind; [apply ordered_format_fm | intros _].
  eapply ordered_bind; [apply ordered_neutral, neutral_asset_path | intros _].
  eapply ordered_bind; [apply ordered_put_dir_fm | intros _].
  apply ordered_neutral, neutral_ret.
Qed.

Lemma ordered_legacy_transfer :
  ordered (fun _ => True) (fun _ => True) (legacy_transfer self).
Proof.
  unfold legacy_transfer.
  apply ordered_try_except with (Q := fun _ => True);
    [|exact filesystem_errors_keep].
  eapply ordered_bind; [apply ordered_neutral, neutral_progress | intros _].
  eapply ordered_bind; [apply ordered_neutral, holds_sleep | intros _].
  eapply ordered_bind;
    [apply ordered_neutral, neutral_invoke; reflexivity | intros _].
  eapply ordered_bind; [apply ordered_neutral, neutral_progress | intros _].
  eapply ordered_bind; [apply ordered_format_fs | intros _].
  eapply ordered_bind; [apply ordered_neutral, neutral_asset_path | intros _].
  eapply ordered_bind; [apply ordered_put_dir_fs | intros _].
  apply ordered_neutral, neutral_ret.
Qed.

Lemma ordered_legacy :
  ordered (fun _ => True) (fun _ => True) (_legacy_update_file_system self).
Proof.
  unfold _legacy_update_file_system.
  destruct (_is_local self && has_local_filesystem (_xbee_profile self)).
  - fold (legacy_transfer self).
    apply ordered_try_finally with (Q := fun _ => True) (R := fun _ => True);
      [apply ordered_legacy_transfer|].
    apply ordered_neutral. apply holds_try_except_on.
    + apply holds_bind; [now apply holds_invoke | intros; apply holds_ret].
    + intros e. apply holds_ret.
  - apply ordered_neutral.
    destruct (negb (_is_local self)
              && has_remote_filesystem (_xbee_profile self));
      [|apply holds_ret].
    apply holds_bind; [apply holds_gets | intros by_fw].
    apply holds_bind; [apply holds_gets | intros by_settings].
    destruct (by_fw || by_settings); [apply holds_raise|].
    apply holds_try_except_on.
    + apply holds_bind; [apply neutral_asset_path | intros _].
      apply holds_bind;
        [now apply holds_invoke_with_progress | intros; apply holds_ret].
    + intros e. apply holds_raise.
Qed.

(** X23. The file system of the device is never written before it is
    formatted: in what [_update_file_system] does, through the file system
    API or through the legacy manager, each [put_dir] comes after a
    [format] of the same manager that returned.  A format that raises
    ends the transfer, so that a profile's files never land on a file
    system that still holds the old ones. *)
Theorem file_system_is_formatted_before_it_is_written (s : state) :
  (exists evs,
      trace (snd (_update_file_system self s)) = trace s ++ evs
      /\ formatted_first (false, false) evs = true)
  /\ (exists evs,
         trace (snd (_legacy_update_file_system self s)) = trace s ++ evs
         /\ formatted_first (false, false) evs = true).
Proof.
  split.
  - assert (H : ordered (fun _ => True) (fun _ => True)
                  (_update_file_system self)).
    { unfold _update_file_system.
      eapply ordered_bind with (Q := fun _ => True).
      - apply ordered_neutral.
        destruct (has_local_filesystem (_xbee_profile self));
          [|apply holds_ret].
        apply holds_bind; [now apply holds_invoke | intros; apply holds_ret].
      - intros [|]; [apply ordered_api_transfer | apply ordered_legacy]. }
    destruct (H s (false, false) I) as (evs & T & F & _). now exists evs.
  - destruct (ordered_legacy s (false, false) I) as (evs & T & F & _).
    now exists evs.
Qed.

End FileSystemOrder.

(* ===================================================================== *)
(** * Recovery through a serial port *)
(* ===================================================================== *)

Section Recovery.
Import Py Updater Frame Transfer Ordering.

Variable self : _ProfileUpdater.
Variable port : string.
Hypothesis Hport : _target self = SerialPort port.

Lemma recovery_is_local : _is_local self = true.
Proof. unfold _is_local. now rewrite Hport. Qed.

Lemma recovery_target_port : target_port self = port.
Proof. unfold target_port. now rewrite Hport. Qed.

(** The first block of a recovery touches nothing but the fields. *)
Lemma recovery_first_block d :
  at_try self d = init_state (_target self) (_xbee_profile self) d
  /\ exists s1,
       read_and_check self (at_try self d) = (Ok tt, s1)
       /\ trace s1 = [] /\ dev s1 = d
       /\ _xbee_device (ses s1) = false
       /\ _was_connected (ses s1) = false
       /\ _device_firmware_version (ses s1) = Some 0
       /\ _device_hardware_version (ses s1) = None.
Proof.
  assert (E : at_try self d = init_state (_target self) (_xbee_profile self) d).
  { unfold at_try, change_sync_ops_timeout, bind, gets, init_state,
      init_session. simpl. now rewrite Hport. }
  split; [exact E|]. rewrite E.
  unfold read_and_check, bind, gets, modify_ses, init_state, init_session.
  simpl. rewrite Hport. simpl. eexists. split; [reflexivity|].
  simpl. repeat split.
Qed.

Lemma update_firmware_shape s res s' :
  _update_firmware self s = (res, s') ->
  exists pre,
    Forall (allowed is_extraction) pre
    /\ ((trace s' = trace s ++ pre /\ exists e, res = Raise e)
        \/ (exists x,
               trace s' = trace s ++ pre ++ [e_call (flash_call self s) (Some x)]
               /\ exists e, res = Raise e)
        \/ (trace s' = trace s ++ pre ++ [e_call (flash_call self s) None]
            /\ res = Ok tt)).
Proof.
  intros R. unfold _update_firmware, try_except in R.
  destruct ((has_device <- gets (fun s => _xbee_device (ses s)) ;;
             asset_path self ;;
             asset_path self ;;
             _ <- invoke_with_progress self
                    (if has_device then c_update_firmware
                     else c_update_local_firmware (target_port self)) ;;
             ret tt) s) as [bres sb] eqn:B.
  destruct (update_firmware_body self s bres sb B) as (pre & F & H).
  exists pre. split; [exact F|].
  assert (S' : s' = sb /\ (forall e, bres = Raise e -> exists e', res = Raise e')
               /\ (bres = Ok tt -> res = Ok tt)).
  { destruct bres as [[]|e].
    - inversion R. repeat split; auto. discriminate.
    - unfold on in R. destruct (existsb _ _); inversion R;
        (split; [reflexivity|]); (split; [eauto | discriminate]). }
  destruct S' as (-> & Hr & Ho).
  destruct H as [[T [e He]]|(o & T & Hb)].
  - left. split; [exact T | eauto].
  - right. destruct o as [x|].
    + left. exists x. split; [exact T | eauto].
    + right. split; [exact T | auto].
Qed.

Lemma recovery_open_shape s :
  _xbee_device (ses s) = false ->
  exists o s',
    recovery_open self s
    = (match o with Some x => Raise x | None => Ok tt end, s')
    /\ trace s' = trace s ++ [e_call (c_open true) o]
    /\ _xbee_device (ses s') = true
    /\ _was_connected (ses s') = _was_connected (ses s).
Proof.
  intros H.
  unfold recovery_open, device_open.
  unfold bind, gets, when, modify_ses, invoke, modify_dev, ret.
  simpl. rewrite H. simpl.
  match goal with
  | |- context [resp_exn ?r] => destruct (resp_exn r) as [x|] eqn:X
  end.
  - exists (Some x). eexists. split; [reflexivity|]. simpl. auto.
  - exists None. eexists. split; [reflexivity|]. simpl. auto.
Qed.

Local Abbreviation connection x := (_xbee_device x, _was_connected x).

Lemma recovery_after_open s :
  let s' := snd ((_update_device_settings self ;; filesystem_phase self) s) in
  (exists rest, trace s' = trace s ++ rest)
  /\ connection (ses s') = connection (ses s).
Proof.
  cbv zeta.
  assert (H : Frame.holds (fun _ => true) (fun x => connection x)
                (fun _ => True)
                (_update_device_settings self ;; filesystem_phase self)).
  { apply holds_bind; [|intros _].
    - apply holds__update_device_settings; reflexivity.
    - apply holds_filesystem_phase; reflexivity. }
  destruct (H s I) as [(rest & T & _) K]. split; [now exists rest | exact K].
Qed.

Lemma flash_phase_recovery b s :
  _xbee_device (ses s) = false -> _device_hardware_version (ses s) = None ->
  flash_phase self b s = _update_firmware self s.
Proof.
  intros D V. unfold flash_phase, supported_or_raise.
  unfold bind, gets, when, ret.
  simpl. rewrite D. simpl. rewrite V.
  now destruct (_update_firmware self s) as [[[]|e] s'].
Qed.

Lemma update_firmware_connection s :
  connection (ses (snd (_update_firmware self s))) = connection (ses s).
Proof.
  apply (holds_kept (fun _ => true) (fun x => connection x) (fun _ => True)).
  - apply holds__update_firmware; reflexivity.
  - exact I.
Qed.

End Recovery.

(** X22. A recovery through a serial port programs the firmware before
    anything else.  When the profile forbids the flash and names a firmware
    version other than 0, the run stops at once with the firmware
    compatibility error, and nothing has been called.  In every other case,
    also when the flash option alone would not ask for it, the local
    firmware update of the port is the first call after the extraction of
    the archive; when it fails nothing else is called; when it returns the
    next call opens the device with forced settings, and only then come
    the settings and the file system.  If that open fails the run stops
    there.  When the [finally] block raises nothing, the device it created
    is closed at the end. *)
Theorem serial_port_is_flashed_before_it_is_opened
  (self : Updater._ProfileUpdater) (d : Updater.device) (port : string)
  (Hport : Updater._target self = Updater.SerialPort port) :
  let profile := Updater._xbee_profile self in
  let t := Updater.trace (Updater.at_cleanup self d) in
  let outcome := fst (Updater.try_body self (Updater.at_try self d)) in
  let flash := Updater.e_call (Updater.c_update_local_firmware port) in
  if match Updater.flash_firmware_option profile with
     | FlashFirmwareOption.DONT_FLASH =>
         negb (Updater.firmware_version profile =? 0)
     | _ => false
     end
  then
    outcome = Py.Raise (Updater.UpdateProfileException_
                          Updater._ERROR_FIRMWARE_NOT_COMPATIBLE)
    /\ t = []
  else
    exists pre,
      Forall (Frame.allowed Transfer.is_extraction) pre
      /\ ((t = pre /\ exists e, outcome = Py.Raise e)
          \/ (exists x,
                 t = pre ++ [flash (Some x)]
                 /\ exists e, outcome = Py.Raise e)
          \/ (exists o rest,
                 t = pre ++ flash None
                         :: Updater.e_call (Updater.c_open true) o :: rest
                 /\ (forall x, o = Some x ->
                               rest = [] /\ outcome = Py.Raise x)
                 /\ (Updater.cleanup_outcome self d = Py.Ok tt ->
                     Updater.is_open
                       (Updater.dev (snd (Updater.run self d))) = false))).
Proof.
  cbv zeta.
  destruct (recovery_first_block self port Hport d)
    as (E0 & s1 & R & T1 & D1 & X1 & W1 & F1 & V1).
  assert (L : Updater._is_local self = true)
    by (apply (recovery_is_local self port Hport)).
  assert (TB : Updater.try_body self (Updater.at_try self d)
               = Updater.update_steps self s1).
  { unfold Updater.try_body. now rewrite (bind_Ok _ _ _ _ _ R). }
  unfold Updater.at_cleanup. rewrite TB.
  set (refused :=
         match Updater.flash_firmware_option (Updater._xbee_profile self) with
         | FlashFirmwareOption.DONT_FLASH =>
             negb (Updater.firmware_version (Updater._xbee_profile self) =? 0)
         | _ => false
         end).
  assert (FD : Updater.flash_decision self s1
               = if refused
                 then (Py.Raise (Updater.UpdateProfileException_
                                   Updater._ERROR_FIRMWARE_NOT_COMPATIBLE), s1)
                 else (Py.Ok (match Updater.flash_firmware_option
                                      (Updater._xbee_profile self) with
                              | FlashFirmwareOption.FLASH_ALWAYS => true
                              | FlashFirmwareOption.FLASH_DIFFERENT =>
                                  negb (0 =? Updater.firmware_version
                                               (Updater._xbee_profile self))
                              | FlashFirmwareOption.DONT_FLASH => false
                              end), s1)).
  { unfold Updater.flash_decision, Updater.bind, Updater.gets, refused.
    simpl. rewrite F1.
    destruct (Updater.flash_firmware_option (Updater._xbee_profile self));
      destruct (Updater.firmware_version (Updater._xbee_profile self));
      reflexivity. }
  destruct refused.
  { unfold Updater.update_steps. rewrite (bind_Raise _ _ _ _ _ FD).
    simpl. now split. }
  set (after_flash :=
         Updater.bind (Updater.recovery_open self)
           (fun _ => Updater.bind (Updater._update_device_settings self)
                       (fun _ => Updater.filesystem_phase self))).
  assert (E1 : Updater.update_steps self s1
               = match Updater._update_firmware self s1 with
                 | (Py.Ok _, s2) => after_flash s2
                 | (Py.Raise e, s2) => (Py.Raise e, s2)
                 end).
  { unfold Updater.update_steps. rewrite (bind_Ok _ _ _ _ _ FD).
    unfold Updater.bind at 1.
    rewrite (flash_phase_recovery self _ s1 X1 V1).
    now destruct (Updater._update_firmware self s1) as [[[]|e] s2]. }
  rewrite E1.
  pose proof (update_firmware_connection self s1) as KC.
  destruct (Updater._update_firmware self s1) as [res s2] eqn:U.
  destruct (update_firmware_shape self s1 res s2 U) as (pre & Fp & H).
  unfold Transfer.flash_call in H. rewrite X1, T1 in H.
  rewrite (recovery_target_port self port Hport) in H. simpl in H, KC.
  exists pre. split; [exact Fp|].
  destruct H as [[T [e ->]]|[(x & T & e & ->)|[T ->]]].
  - left. simpl. split; [exact T | now exists e].
  - right. left. exists x. simpl. split; [exact T | now exists e].
  - right. right.
    assert (X2 : Updater._xbee_device (Updater.ses s2) = false)
      by (inversion KC; congruence).
    assert (W2 : Updater._was_connected (Updater.ses s2) = false)
      by (inversion KC; congruence).
    destruct (recovery_open_shape self s2 X2) as (o & s3 & RO & T3 & X3 & W3).
    assert (AC : Updater.at_cleanup self d
                 = match o with
                   | Some _ => s3
                   | None =>
                       snd (Updater.bind (Updater._update_device_settings self)
                              (fun _ => Updater.filesystem_phase self) s3)
                   end).
    { unfold Updater.at_cleanup. rewrite TB, E1.
      unfold after_flash.
      destruct o; [now rewrite (bind_Raise _ _ _ _ _ RO)|].
      now rewrite (bind_Ok _ _ _ _ _ RO). }
    assert (KR : Updater._xbee_device (Updater.ses (Updater.at_cleanup self d))
                 = true
                 /\ Updater._was_connected
                      (Updater.ses (Updater.at_cleanup self d)) = false).
    { rewrite AC. destruct o; [split; congruence|].
      destruct (recovery_after_open self s3) as [_ K]. simpl in K.
      inversion K. split; congruence. }
    assert (C : Updater.cleanup_outcome self d = Py.Ok tt ->
                Updater.is_open (Updater.dev (snd (Updater.run self d)))
                = false).
    { intros C. rewrite (run_state self d).
      unfold Updater.cleanup_outcome in C.
      destruct (Updater.cleanup self (Updater.saved_timeout self d)
                  (Updater.at_cleanup self d)) as [rc sc] eqn:CL.
      simpl in C. subst rc. simpl.
      rewrite (cleanup_open self _ _ _ L (proj1 KR) CL). exact (proj2 KR). }
    simpl. unfold after_flash. destruct o as [x|].
    + exists (Some x), []. rewrite (bind_Raise _ _ _ _ _ RO). simpl.
      rewrite T3, T, <- app_assoc. simpl.
      split; [reflexivity|]. split; [|exact C].
      intros y Hy. inversion Hy; subst. now split.
    + destruct (recovery_after_open self s3) as [(rest & TR) _].
      exists None, rest. rewrite (bind_Ok _ _ _ _ _ RO). simpl in TR |- *.
      split; [now rewrite TR, T3, T, <- !app_assoc|].
      split; [discriminate | exact C].
Qed.

Lemma serial_port_is_flashed_before_it_is_opened_witness :
  exists pre o rest,
    Updater.trace (Updater.at_cleanup Ordering.recovery_update
                     Ordering.unopened)
    = pre ++ Updater.e_call (Updater.c_update_local_firmware "COM1") None
          :: Updater.e_call (Updater.c_open true) o :: rest
    /\ Updater.is_open
         (Updater.dev (snd (Updater.run Ordering.recovery_update
                              Ordering.unopened))) = false.
Proof.
  destruct (serial_port_is_flashed_before_it_is_opened
              Ordering.recovery_update Ordering.unopened "COM1" eq_refl)
    as (pre & _ & [[_ [e O]]|[(x & _ & e & O)|(o & rest & T & _ & C)]]).
  - exfalso. vm_compute in O. discriminate O.
  - exfalso. vm_compute in O. discriminate O.
  - exists pre, o, rest. split; [exact T|]. apply C. vm_compute. reflexivity.
Defined.

(* ===================================================================== *)
(** * The scratch directory of a run *)
(* ===================================================================== *)

Section ScratchDirectory.
Import Py Updater Frame Scratch.

Variable self : _ProfileUpdater.

Local Abbreviation tidy m := (preserves one_directory m).
Local Abbreviation aside m :=
  (Frame.holds leaves_archive _profile_folder (fun _ : bool => True) m).

Lemma created_app a b : created (a ++ b) = (created a + created b)%nat.
Proof. unfold created. now rewrite filter_app, length_app. Qed.

Lemma call_count_app kind a b :
  call_count kind (a ++ b) = (call_count kind a + call_count kind b)%nat.
Proof. unfold call_count. now rewrite calls_app, filter_app, length_app. Qed.

Lemma aside_events evs :
  Forall (allowed leaves_archive) evs ->
  created evs = 0%nat /\ call_count is_extractall evs = 0%nat.
Proof.
  induction 1 as [|e r He _ [IH1 IH2]]; [now split|].
  change (e :: r) with ([e] ++ r).
  rewrite created_app, call_count_app, IH1, IH2.
  destruct e as [c o| | | |]; try (now split).
  destruct c; simpl in He; try discriminate; now split.
Qed.

Lemma tidy_aside {A} (m : M A) : aside m -> tidy m.
Proof.
  intros H s [I1 I2]. destruct (H s I) as [(evs & T & F) K].
  destruct (aside_events evs F) as [E1 E2].
  unfold one_directory. rewrite T, K, created_app, call_count_app, E1, E2.
  split; lia.
Qed.

Lemma tidy_bind {A B} (m : M A) (f : A -> M B) :
  tidy m -> (forall a, tidy (f a)) -> tidy (bind m f).
Proof.
  intros Hm Hf s HI. specialize (Hm s HI). unfold bind.
  destruct (m s) as [[a|x] s1]; simpl in *; [now apply Hf | exact Hm].
Qed.

Lemma tidy_try_except {A} (m : M A) (h : exn -> option (M A)) :
  tidy m -> (forall e k, h e = Some k -> tidy k) -> tidy (try_except m h).
Proof.
  intros Hm Hh s HI. specialize (Hm s HI). unfold try_except.
  destruct (m s) as [[a|x] s1]; simpl in *; [exact Hm|].
  destruct (h x) as [k|] eqn:E; [now apply (Hh _ _ E) | exact Hm].
Qed.

Lemma tidy_try_except_on {A} (m : M A) cls (k : exn -> M A) :
  tidy m -> (forall e, tidy (k e)) -> tidy (try_except m (on cls k)).
Proof.
  intros Hm Hk. apply tidy_try_except; [exact Hm|].
  intros e k'. unfold on. destruct (existsb _ _); [|discriminate].
  intros H. inversion H. apply Hk.
Qed.

Lemma tidy_filesystem_errors (m : M unit) :
  tidy m -> tidy (try_except m filesystem_errors).
Proof.
  intros Hm. apply tidy_try_except; [exact Hm|].
  intros e k. unfold filesystem_errors.
  destruct (isinstance e FileSystemNotSupportedException);
    [intros H; inversion H; apply tidy_aside, holds_raise|].
  destruct (isinstance e FileSystemException); [|discriminate].
  intros H; inversion H; apply tidy_aside, holds_raise.
Qed.

Lemma tidy_try_finally {A} (m : M A) (f : M unit) :
  tidy m -> tidy f -> tidy (try_finally m f).
Proof.
  intros Hm Hf s HI. specialize (Hm s HI). unfold try_finally.
  destruct (m s) as [r s1]; simpl in *. specialize (Hf s1 Hm).
  destruct (f s1) as [[u|x] s2]; exact Hf.
Qed.

Lemma tidy_when b (m : M unit) : tidy m -> tidy (when b m).
Proof.
  intros H. destruct b; [exact H | apply tidy_aside, holds_ret].
Qed.

Lemma tidy_gets {A} (f : state -> A) : tidy (gets f).
Proof. apply tidy_aside, holds_gets. Qed.

Lemma tidy_ret {A} (a : A) : tidy (ret a).
Proof. apply tidy_aside, holds_ret. Qed.

Lemma tidy_invoke c : leaves_archive c = true -> tidy (invoke self c).
Proof. intros H. now apply tidy_aside, holds_invoke. Qed.

Lemma tidy_invoke_with_progress c :
  leaves_archive c = true -> tidy (invoke_with_progress self c).
Proof. intros H. now apply tidy_aside, holds_invoke_with_progress. Qed.

Lemma tidy_progress t p : tidy (progress self t p).
Proof. apply tidy_aside, holds_progress. Qed.

(** The accessors extract the archive once: they do nothing when
    [_profile_folder] is set, and set it as soon as the directory exists. *)
Lemma tidy_asset_path : tidy (asset_path self).
Proof.
  intros s [I1 I2]. unfold asset_path.
  rewrite (bind_Ok (gets _) _ s _ s eq_refl).
  destruct (_profile_folder (ses s)) eqn:P.
  { simpl. unfold one_directory. rewrite P. now split. }
  simpl. assert (I3 : call_count is_extractall (trace s) = 0%nat) by lia.
  unfold _uncompress_profile.
  unfold bind, try_except, invoke, on, modify_ses, ret, raise.
  destruct (resp_exn (oracle (collab self) (trace s) c_mkdtemp))
    as [x|] eqn:X1; simpl.
  - assert (G : one_directory
                  {| dev := keep_config (dev s)
                              (resp_dev (oracle (collab self) (trace s)
                                           c_mkdtemp) (dev s));
                     ses := ses s;
                     trace := trace s ++ [e_call c_mkdtemp (Some x)] |}).
    { unfold one_directory. simpl.
      rewrite created_app, call_count_app, P, I1, I3.
      unfold created, call_count. simpl. split; lia. }
    destruct (isinstance x PermissionError || (isinstance x FileExistsError
                                               || false)); exact G.
  - match goal with
    | |- context [resp_exn ?r] => destruct (resp_exn r) as [y|] eqn:X2
    end; simpl.
    + unfold one_directory. simpl.
      rewrite !created_app, !call_count_app, I1, I3.
      unfold created, call_count. simpl. split; lia.
    + match goal with
      | |- context [resp_exn ?r] => destruct (resp_exn r) as [z|] eqn:X3
      end; simpl; unfold one_directory; simpl;
        rewrite !created_app, !call_count_app, I1, I3;
        unfold created, call_count; simpl; split; lia.
Qed.

Lemma tidy__update_firmware : tidy (_update_firmware self).
Proof.
  unfold _update_firmware. apply tidy_try_except_on.
  - apply tidy_bind; [apply tidy_gets | intros has_device].
    apply tidy_bind; [apply tidy_asset_path | intros _].
    apply tidy_bind; [apply tidy_asset_path | intros _].
    apply tidy_bind; [|intros _; apply tidy_ret].
    apply tidy_invoke_with_progress. now destruct has_device.
  - intros e. apply tidy_aside, holds_raise.
Qed.

Lemma tidy__legacy_update_file_system :
  tidy (_legacy_update_file_system self).
Proof.
  unfold _legacy_update_file_system.
  destruct (_is_local self && has_local_filesystem (_xbee_profile self)).
  - apply tidy_try_finally.
    + apply tidy_filesystem_errors.
      apply tidy_bind; [apply tidy_progress | intros _].
      apply tidy_bind; [apply tidy_aside, holds_sleep | intros _].
      apply tidy_bind; [now apply tidy_invoke | intros _].
      apply tidy_bind; [apply tidy_progress | intros _].
      apply tidy_bind; [now apply tidy_invoke | intros _].
      apply tidy_bind; [apply tidy_asset_path | intros _].
      apply tidy_bind; [now apply tidy_invoke_with_progress | intros _].
      apply tidy_ret.
    + apply tidy_try_except_on; [|intros e; apply tidy_ret].
      apply tidy_bind; [now apply tidy_invoke | intros _; apply tidy_ret].
  - destruct (negb (_is_local self)
              && has_remote_filesystem (_xbee_profile self));
      [|apply tidy_ret].
    apply tidy_bind; [apply tidy_gets | intros by_fw].
    apply tidy_bind; [apply tidy_gets | intros by_settings].
    destruct (by_fw || by_settings); [apply tidy_aside, holds_raise|].
    apply tidy_try_except_on; [|intros e; apply tidy_aside, holds_raise].
    apply tidy_bind; [apply tidy_asset_path | intros _].
    apply tidy_bind; [now apply tidy_invoke_with_progress | intros _].
    apply tidy_ret.
Qed.

Lemma tidy__update_file_system : tidy (_update_file_system self).
Proof.
  unfold _update_file_system. apply tidy_bind.
  - destruct (has_local_filesystem (_xbee_profile self)); [|apply tidy_ret].
    apply tidy_bind; [now apply tidy_invoke | intros r; apply tidy_ret].
  - intros [|]; [|apply tidy__legacy_update_file_system].
    apply tidy_filesystem_errors.
    apply tidy_bind; [now apply tidy_invoke | intros _].
    apply tidy_bind; [apply tidy_progress | intros _].
    apply tidy_bind; [now apply tidy_invoke | intros _].
    apply tidy_bind; [apply tidy_asset_path | intros _].
    apply tidy_bind; [now apply tidy_invoke_with_progress | intros _].
    apply tidy_ret.
Qed.

Lemma tidy_supported_or_raise l msg : tidy (supported_or_raise l msg).
Proof. apply tidy_aside, holds_supported_or_raise. Qed.

Lemma tidy_recovery_open : tidy (recovery_open self).
Proof.
  unfold recovery_open. apply tidy_bind; [apply tidy_gets | intros d].
  apply tidy_when.
  apply tidy_bind;
    [apply tidy_aside, holds_modify_ses; reflexivity | intros _].
  apply tidy_bind.
  - unfold device_open. apply tidy_bind; [now apply tidy_invoke | intros _].
    apply tidy_aside, holds_modify_dev.
  - intros _. apply tidy_bind; [apply tidy_gets | intros hw].
    apply tidy_aside, holds_modify_ses; reflexivity.
Qed.

Lemma tidy_update_steps : tidy (update_steps self).
Proof.
  unfold update_steps.
  apply tidy_bind; [apply tidy_aside, holds_flash_decision | intros b].
  apply tidy_bind.
  { unfold flash_phase. apply tidy_bind; [apply tidy_gets | intros d].
    apply tidy_when.
    apply tidy_bind; [apply tidy_supported_or_raise | intros _].
    apply tidy__update_firmware. }
  intros _. apply tidy_bind; [apply tidy_recovery_open | intros _].
  apply tidy_bind.
  { apply tidy_aside, holds__update_device_settings; reflexivity. }
  intros _. unfold filesystem_phase. apply tidy_when.
  apply tidy_bind; [apply tidy_supported_or_raise | intros _].
  apply tidy__update_file_system.
Qed.

Lemma tidy_update_profile : tidy (update_profile self).
Proof.
  unfold update_profile.
  apply tidy_bind;
    [apply tidy_aside, holds_change_sync_ops_timeout | intros old].
  apply tidy_try_finally.
  - unfold try_body.
    apply tidy_bind; [|intros _; apply tidy_update_steps].
    apply tidy_aside, holds_read_and_check; reflexivity.
  - apply tidy_aside, holds_cleanup; reflexivity.
Qed.

(** X24. A run creates at most one scratch directory.  Whatever fails, and
    however many of the accessors [firmware_description_file],
    [bootloader_file], [file_system_path] and [remote_file_system_image]
    the steps read, [tempfile.mkdtemp()] returns at most once in a run of
    [update_profile], and the archive is extracted at most once, after the
    directory was created: the accessors do nothing once [_profile_folder]
    is set, and it is set as soon as the directory exists. *)
Theorem one_scratch_directory_per_run (d : device) :
  let s := snd (run self d) in
  created (trace s) = (if _profile_folder (ses s) then 1 else 0)%nat
  /\ (created (trace s) <= 1)%nat
  /\ (call_count is_extractall (trace s) <= created (trace s))%nat.
Proof.
  cbv zeta.
  assert (H : one_directory (snd (run self d))).
  { unfold run. apply tidy_update_profile.
    unfold one_directory, created, call_count. simpl.
    split; [reflexivity | lia]. }
  destruct H as [H1 H2]. split; [exact H1|]. split; [|exact H2].
  rewrite H1. destruct (_profile_folder _); lia.
Qed.

End ScratchDirectory.

(* ===================================================================== *)
(** * What the settings phase refreshes *)
(* ===================================================================== *)

Section RefreshAfterSettings.
Import Py Updater Frame Refresh.

Variable self : _ProfileUpdater.

Local Abbreviation flags c :=
  (network_settings_changed c, cache_settings_changed c).

Ltac both H Hn Hc :=
  pose proof (f_equal fst H) as Hn; pose proof (f_equal snd H) as Hc;
  cbn [fst snd] in Hn, Hc.

Lemma ret_inv {A} (a b : A) s s1 : ret a s = (Ok b, s1) -> b = a /\ s1 = s.
Proof. unfold ret. intros H. now inversion H. Qed.

Lemma report_step_flags n c s c' s' :
  report_step self n c s = (Ok c', s') -> flags c' = flags c.
Proof.
  unfold report_step.
  destruct (_progress_callback self
            && negb (percent_of n c =? previous_percent c)).
  - unfold bind, emit, ret. intros H. now inversion H.
  - unfold ret. intros H. now inversion H.
Qed.

Lemma reset_step_flags n c s c' s' :
  reset_step self n c s = (Ok c', s') -> flags c' = (true, true).
Proof.
  unfold reset_step. intros H.
  apply bind_inv in H as (c1 & s1 & _ & H).
  apply bind_inv in H as (u & s2 & _ & H).
  apply bind_inv in H as (u' & s3 & _ & H).
  apply ret_inv in H as [-> _]. reflexivity.
Qed.

Lemma settings_loop_flags n l :
  forall c s c' s',
    settings_loop self n l c s = (Ok c', s') ->
    flags c'
    = (network_settings_changed c
       || existsb (fun kv => mem (upper (Codec.name (snd kv)))
                               _PARAMETERS_NETWORK) l,
       cache_settings_changed c
       || existsb (fun kv => mem (upper (Codec.name (snd kv)))
                               _PARAMETERS_CACHE) l).
Proof.
  induction l as [|[k setting] r IH]; intros c s c' s' H.
  - apply ret_inv in H as [-> _]. simpl. now rewrite !orb_false_r.
  - cbn [settings_loop] in H.
    apply bind_inv in H as (c1 & s1 & H1 & H).
    apply bind_inv in H as (u & s2 & _ & H).
    apply report_step_flags in H1. both H1 Fn Fc.
    rewrite (IH _ _ _ _ H). cbn [existsb snd].
    unfold next_setting. cbn [network_settings_changed cache_settings_changed].
    now rewrite Fn, Fc, !orb_assoc.
Qed.

Lemma write_settings_flags s c s' :
  write_settings self s = (Ok c, s') ->
  flags c
  = (restores_defaults self || names_any _PARAMETERS_NETWORK self,
     restores_defaults self || names_any _PARAMETERS_CACHE self).
Proof.
  unfold write_settings, queue_settings. intros H.
  apply bind_inv in H as (c3 & s3 & H & HA).
  assert (E : c = c3).
  { unfold apply_step in HA.
    apply bind_inv in HA as (c4 & s4 & _ & HA).
    apply bind_inv in HA as (u & s5 & _ & HA).
    now apply ret_inv in HA as [-> _]. }
  subst c3.
  apply bind_inv in H as (u & s0 & _ & H).
  apply bind_inv in H as (c1 & s1 & H1 & H).
  apply bind_inv in H as (c2 & s2 & H2 & H).
  unfold write_step in H.
  apply bind_inv in H as (c5 & s5 & H5 & H).
  apply bind_inv in H as (u' & s6 & _ & H).
  apply ret_inv in H as [-> _].
  apply report_step_flags in H5. apply settings_loop_flags in H2.
  unfold next_index. cbn [network_settings_changed cache_settings_changed].
  both H5 N5 C5. both H2 N2 C2.
  rewrite N5, C5, N2, C2.
  unfold restores_defaults, names_any.
  destruct (reset_settings (_xbee_profile self) || is_str (_target self)).
  - apply reset_step_flags in H1. both H1 N1 C1.
    now rewrite N1, C1.
  - apply ret_inv in H1 as [-> _]. reflexivity.
Qed.

Lemma try_except_raise_inv {A} (m : M A) cls (k : exn -> exn) s a s' :
  try_except m (on cls (fun e => raise (k e))) s = (Ok a, s') ->
  m s = (Ok a, s').
Proof.
  unfold try_except, on, raise. destruct (m s) as [[a0|x] s1]; [auto|].
  destruct (existsb _ _); discriminate.
Qed.

Local Abbreviation before_refresh m :=
  (Frame.holds is_not_refresh _protocol_changed_by_settings
     (fun _ : bool => True) m).

Lemma before_refresh_step {A} (m : M A) s a s' :
  before_refresh m -> m s = (Ok a, s') ->
  grows is_not_refresh s s'
  /\ _protocol_changed_by_settings (ses s')
     = _protocol_changed_by_settings (ses s).
Proof.
  intros H E. destruct (H s I) as [G K]. rewrite E in G, K. now split.
Qed.

Lemma not_refresh_counts evs :
  Forall (allowed is_not_refresh) evs ->
  call_count is_network_drop evs = 0%nat
  /\ call_count is_info_read evs = 0%nat.
Proof.
  intros F. split; apply allowed_call_count;
    (eapply Forall_impl; [|exact F]); intros [c o| | | |] H; simpl in *; auto;
    unfold is_not_refresh in H; apply negb_true_iff in H;
    apply orb_false_iff in H; destruct H as [H1 H2];
    now rewrite ?H1, ?H2.
Qed.

(** The loop that reads the device information again ends, when it
    returns, with a read that went through, and drops nothing. *)
Lemma read_device_info_loop_inv n :
  forall s s',
    read_device_info_loop self (S n) s = (Ok tt, s') ->
    exists retries,
      trace s' = trace s ++ retries ++ [e_call c_read_device_info None]
      /\ call_count is_network_drop retries = 0%nat.
Proof.
  induction n as [|n IH]; intros s s' H; cbn [read_device_info_loop] in H;
    unfold try_except in H;
    destruct ((_ <- invoke self c_read_device_info ;; ret tt) s)
      as [[u|x] s1] eqn:E.
  - inversion H; subst. apply bind_inv in E as (r & s2 & E & R).
    apply ret_inv in R as [_ ->]. apply invoke_inv in E as [T _].
    now exists [].
  - unfold on in H. destruct (existsb _ _); [|discriminate].
    simpl in H. discriminate H.
  - inversion H; subst. apply bind_inv in E as (r & s2 & E & R).
    apply ret_inv in R as [_ ->]. apply invoke_inv in E as [T _].
    now exists [].
  - unfold on in H. destruct (existsb _ _); [|discriminate].
    simpl in H. apply bind_inv in H as (u & s2 & H1 & H).
    unfold sleep, emit in H1. inversion H1; subst s2. clear H1.
    destruct (IH _ _ H) as (retries & T & C). simpl in T.
    assert (T1 : exists o, trace s1 = trace s ++ [e_call c_read_device_info o]).
    { unfold bind, invoke in E. destruct (resp_exn _) as [y|]; inversion E;
        simpl; eauto. }
    destruct T1 as [o T1].
    exists (e_call c_read_device_info o
            :: e_sleep (if _is_local self then 200 else 5000) :: retries).
    split; [rewrite T, T1, <- !app_assoc; reflexivity|].
    unfold call_count in *. simpl. exact C.
Qed.

(** The refresh part of a phase that had something to do. *)
Lemma refresh_after_work (s : state)
  (Hdevice : is_str (_target self) = false)
  (Hwork : Attempts.nothing_to_update self = false)
  (Hdone : fst (_update_device_settings self s) = Ok tt) :
  exists pre post,
    trace (snd (_update_device_settings self s))
    = trace s ++ pre
      ++ (if network_is_stale self s
          then [e_call (drop_call self) None] else [])
      ++ post
    /\ call_count is_network_drop pre = 0%nat
    /\ call_count is_info_read pre = 0%nat
    /\ call_count is_network_drop post = 0%nat
    /\ if cache_is_stale self s
       then exists retries,
              post = retries ++ [e_call c_read_device_info None]
       else post = [].
Proof.
  destruct (_update_device_settings self s) as [r sf] eqn:U.
  simpl in Hdone. subst r. simpl.
  unfold _update_device_settings in U.
  fold (Attempts.nothing_to_update self) in U. rewrite Hwork in U.
  apply bind_inv in U as (by_fw & s0 & G0 & U).
  apply gets_inv in G0 as [-> ->].
  destruct (is_remote (_target self) && _protocol_changed_by_fw (ses s)
            && (negb (Nat.eqb (List.length
                                 (profile_settings (_xbee_profile self))) 0)
                || reset_settings (_xbee_profile self))); [discriminate U|].
  apply bind_inv in U as (old & s0 & G0 & U).
  apply gets_inv in G0 as [-> ->].
  apply bind_inv in U as (u1 & s1 & E1 & U).
  apply bind_inv in U as (c & s2 & E2 & U).
  apply try_except_raise_inv in E2.
  apply bind_inv in U as (u3 & s3 & E3 & U).
  apply bind_inv in U as (u4 & s4 & E4 & U).
  rewrite Hdevice in U.
  apply bind_inv in U as (by_settings & s4' & G4 & U).
  apply gets_inv in G4 as [-> ->].
  apply bind_inv in U as (u5 & s5 & E5 & E6).
  (* the part before the refresh *)
  assert (B1 : before_refresh (enable_apply_changes false))
    by apply holds_enable_apply_changes.
  assert (B2 : before_refresh (write_settings self))
    by (apply holds_write_settings; reflexivity).
  assert (B3 : before_refresh
                 (enable_apply_changes (apply_changes_enabled (dev s))))
    by apply holds_enable_apply_changes.
  assert (B4 : before_refresh
                 (when (_is_local self) (_check_port_settings_changed self))).
  { unfold when. destruct (_is_local self) eqn:L; [|apply holds_ret].
    apply holds__check_port_settings_changed; auto; reflexivity. }
  destruct (before_refresh_step _ _ _ _ B1 E1) as [G1 K1].
  destruct (before_refresh_step _ _ _ _ B2 E2) as [G2 K2].
  destruct (before_refresh_step _ _ _ _ B3 E3) as [G3 K3].
  destruct (before_refresh_step _ _ _ _ B4 E4) as [G4 K4].
  pose proof (grows_trans _ _ _ _ (grows_trans _ _ _ _
                (grows_trans _ _ _ _ G1 G2) G3) G4) as [pre [T F]].
  destruct (not_refresh_counts pre F) as [C1 C2].
  assert (K : _protocol_changed_by_settings (ses s4)
              = _protocol_changed_by_settings (ses s)) by congruence.
  apply write_settings_flags in E2. both E2 Fn Fc.
  rewrite Fn, K in E5. rewrite Fc, K, Fn in E6.
  fold (network_is_stale self s) in E5. fold (cache_is_stale self s) in E6.
  fold (drop_call self) in E5.
  exists pre.
  (* the drop *)
  assert (D : trace s5
              = trace s4 ++ (if network_is_stale self s
                             then [e_call (drop_call self) None] else [])).
  { unfold when in E5. destruct (network_is_stale self s).
    - apply bind_inv in E5 as (r & s5' & E5 & R).
      apply ret_inv in R as [_ ->].
      now apply invoke_inv in E5 as [T5 _].
    - apply ret_inv in E5 as [_ ->]. now rewrite app_nil_r. }
  (* the new read *)
  unfold when in E6. destruct (cache_is_stale self s).
  - apply bind_inv in E6 as (u6 & s6 & E6 & E7).
    assert (S6 : exists w, trace s6 = trace s5 ++ w
                           /\ call_count is_network_drop w = 0%nat).
    { destruct (negb (_is_local self)
                && (restores_defaults self
                    || names_any _PARAMETERS_NETWORK self)).
      - unfold sleep, emit in E6. inversion E6. simpl.
        now exists [e_sleep 15000].
      - apply ret_inv in E6 as [_ ->]. exists []. now rewrite app_nil_r. }
    destruct S6 as (w & T6 & W6).
    destruct u6.
    change _PARAMETER_READ_RETRIES with 3%nat in E7.
    destruct (read_device_info_loop_inv _ _ _ E7) as (retries & T7 & C7).
    exists (w ++ retries ++ [e_call c_read_device_info None]).
    split; [rewrite T7, T6, D, T, <- !app_assoc; reflexivity|].
    split; [exact C1|]. split; [exact C2|]. split.
    + unfold call_count in *.
      rewrite !calls_app, !filter_app, !length_app in *.
      rewrite W6, C7. reflexivity.
    + exists (w ++ retries). now rewrite <- app_assoc.
  - apply ret_inv in E6 as [_ ->]. exists [].
    split; [rewrite D, T, <- !app_assoc, app_nil_r; reflexivity|].
    repeat split; auto.
Qed.

(** X25. What the settings phase refreshes once the settings are written.
    On a device handle, when the phase returns: if the profile holds no
    setting and asks for no reset, the phase has done nothing at all, even
    when a protocol change is predicted.  Otherwise the calls up to the end
    of the serial port check touch neither the network nor the device
    information; then, if the profile restored the defaults, wrote one of
    the network parameters (ID, CH, HP, CM, BR, EE, KY) or is predicted to
    change the protocol, the network is dropped, by [clear] on a local
    device and by [remove_device] on a remote one, exactly once and before
    anything is read again; then, if the defaults were restored, one of the
    cached parameters (NI, CE, SM, BR, MY) was written or the protocol is
    predicted to change, the device information is read until a read goes
    through, and otherwise nothing more is called.  A setting counts by its
    name, even the AP setting, which the loop does not write. *)
Theorem stale_network_and_cache_are_refreshed (s : state)
  (Hdevice : is_str (_target self) = false)
  (Hdone : fst (_update_device_settings self s) = Ok tt) :
  (Attempts.nothing_to_update self = true ->
   snd (_update_device_settings self s) = s)
  /\ (Attempts.nothing_to_update self = false ->
      exists pre post,
        trace (snd (_update_device_settings self s))
        = trace s ++ pre
          ++ (if network_is_stale self s
              then [e_call (drop_call self) None] else [])
          ++ post
        /\ call_count is_network_drop pre = 0%nat
        /\ call_count is_info_read pre = 0%nat
        /\ call_count is_network_drop post = 0%nat
        /\ if cache_is_stale self s
           then exists retries,
                  post = retries ++ [e_call c_read_device_info None]
           else post = []).
Proof.
  split.
  - intros Hidle. unfold _update_device_settings.
    fold (Attempts.nothing_to_update self). now rewrite Hidle.
  - intros Hwork. exact (refresh_after_work s Hdevice Hwork Hdone).
Qed.

End RefreshAfterSettings.

Section RefreshSample.
Import Py Updater Frame Refresh Scenarios.

Lemma stale_network_and_cache_are_refreshed_witness :
  exists pre post,
    trace (snd (_update_device_settings network_update
                  (init_state LocalXBee (_xbee_profile network_update)
                     xbee3)))
    = pre ++ [e_call c_network_clear None] ++ post
    /\ call_count is_network_drop pre = 0%nat
    /\ post = [].
Proof.
  destruct (stale_network_and_cache_are_refreshed network_update
              (init_state LocalXBee (_xbee_profile network_update) xbee3)
              eq_refl eq_refl) as [_ H].
  destruct (H eq_refl) as (pre & post & T & C & _ & _ & P).
  exists pre, post. split; [exact T|]. split; [exact C | exact P].
Defined.

End RefreshSample.

(* ===================================================================== *)
(** * Hardware the libraries do not support *)
(* ===================================================================== *)

Section UnsupportedHardware.
Import Py Updater Frame Hardware.

Variable self : _ProfileUpdater.
Variable d : device.
Hypothesis Hdevice : is_str (_target self) = false.

Ltac policy :=
  intros; simpl in *;
  try reflexivity; try assumption; try tauto;
  try match goal with
      | c : call |- _ => destruct c; simpl in *; try reflexivity;
                         try discriminate
      end.

Lemma device_at_try : _xbee_device (ses (at_try self d)) = true.
Proof. rewrite at_try_session. simpl. now rewrite Hdevice. Qed.

(** The hardware version the first block leaves in the updater is the
    profile's. *)
Lemma hardware_after_first_block s1 :
  after_read self d = (Ok tt, s1) ->
  exists hw,
    _device_hardware_version (ses s1) = Some hw
    /\ hardware_version (_xbee_profile self) = Some hw
    /\ _xbee_device (ses s1) = true.
Proof.
  intros E.
  assert (D1 : _xbee_device (ses s1) = true).
  { pose proof (holds_kept (fun _ => true) _xbee_device (fun _ => True)
                  (read_and_check self) (at_try self d)
                  ltac:(apply holds_read_and_check; policy) I) as K.
    unfold after_read in E. rewrite E in K. simpl in K.
    now rewrite K, device_at_try. }
  unfold after_read, read_and_check in E.
  apply bind_inv in E. destruct E as (b & s0 & E0 & E).
  apply gets_inv in E0. destruct E0 as [-> ->]. rewrite device_at_try in E.
  apply bind_inv in E. destruct E as ([] & sa & _ & E).
  apply bind_inv in E. destruct E as (hw & sb & Eb & E).
  apply gets_inv in Eb. destruct Eb as [-> ->].
  apply bind_inv in E. destruct E as (code & sb & Eb & E).
  apply lift_opt_inv in Eb. destruct Eb as [Hhw ->].
  apply bind_inv in E. destruct E as ([] & sb & Eb & E).
  rewrite Hhw in Eb.
  destruct (opt_Z_eqb (Some code) (hardware_version (_xbee_profile self)))
    eqn:Q; simpl in Eb; [|discriminate Eb].
  unfold ret in Eb. inversion Eb; subst sb. clear Eb.
  exists code. split; [|split; [|exact D1]].
  - revert E.
    unfold _check_protocol_changed_by_fw,
      _check_protocol_changed_by_settings, bind, gets, ret, when,
      modify_ses. simpl.
    destruct (profile_protocol (ses sa) =? DIGI_MESH (collab self));
      intros E; inversion E; subst; simpl; exact Hhw.
  - destruct (hardware_version (_xbee_profile self)) as [h|];
      [|discriminate Q].
    simpl in Q. apply Z.eqb_eq in Q. now subst h.
Qed.

Lemma flash_decision_state s : snd (flash_decision self s) = s.
Proof.
  unfold flash_decision, bind, gets, ret, raise. simpl.
  destruct (flash_firmware_option (_xbee_profile self)); try reflexivity.
  now destruct (negb _).
Qed.

(** The run, cut at the first block and at the [finally] block, for a kind
    of call that neither of them makes. *)
Lemma guarded_run (kind : call -> bool) :
  (forall f, kind (c_open f) = false) -> kind c_close = false ->
  (forall p, kind (c_get_parameter p) = false) ->
  (forall p v, kind (c_set_parameter p v) = false) ->
  (forall s1, after_read self d = (Ok tt, s1) ->
              grows (fun c => negb (kind c)) s1 (snd (update_steps self s1))) ->
  call_count kind (trace (snd (run self d))) = 0%nat.
Proof.
  intros K1 K2 K3 K4 Hsteps.
  set (okc := fun c => negb (kind c)).
  assert (G1 : grows okc (at_try self d) (snd (after_read self d))).
  { unfold after_read.
    apply (holds_grows okc (fun _ => tt) (fun _ => True)); [|exact I].
    apply holds_read_and_check; unfold okc; intros;
      rewrite ?K1, ?K3; reflexivity. }
  assert (G2 : grows okc (snd (after_read self d)) (at_cleanup self d)).
  { rewrite at_cleanup_unfold.
    destruct (after_read self d) as [[[]|e] s1] eqn:E; simpl;
      [now apply Hsteps | apply grows_refl]. }
  assert (G3 : grows okc (at_cleanup self d) (snd (run self d))).
  { rewrite run_state.
    apply (holds_grows okc (fun _ => tt) (fun _ => True)); [|exact I].
    apply holds_cleanup; unfold okc; intros; rewrite ?K1, ?K2, ?K4;
      reflexivity. }
  rewrite (grows_call_count kind _ _ G3), (grows_call_count kind _ _ G2),
    (grows_call_count kind _ _ G1).
  rewrite at_try_trace, Hdevice. reflexivity.
Qed.

Lemma unsupported_raises supported msg s hw :
  _device_hardware_version (ses s) = Some hw ->
  unsupported supported hw = true ->
  supported_or_raise supported msg s = (Raise (UpdateProfileException_ msg), s).
Proof.
  intros H U. unfold supported_or_raise, bind, gets. simpl. rewrite H.
  unfold unsupported in U. apply negb_true_iff in U. now rewrite U.
Qed.

Lemma no_flash_on_unsupported_hardware hw s1 :
  hardware_version (_xbee_profile self) = Some hw ->
  unsupported (firmware_SUPPORTED_HARDWARE_VERSIONS (collab self)) hw = true ->
  after_read self d = (Ok tt, s1) ->
  grows (fun c => negb (is_flash c)) s1 (snd (update_steps self s1)).
Proof.
  intros Hp U E.
  destruct (hardware_after_first_block s1 E) as (h & Hh & Hp' & D1).
  assert (h = hw) by congruence. subst h.
  unfold update_steps. unfold bind at 1.
  pose proof (flash_decision_state s1) as FS.
  destruct (flash_decision self s1) as [[ff|e] s1']; simpl in FS; subst s1';
    [|apply grows_refl].
  unfold bind at 1.
  assert (FP : flash_phase self ff s1
               = if ff
                 then (Raise (UpdateProfileException_
                                ERROR_HARDWARE_VERSION_NOT_SUPPORTED), s1)
                 else (Ok tt, s1)).
  { unfold flash_phase. unfold bind at 1, gets. simpl. rewrite D1. simpl.
    destruct ff; [|reflexivity]. unfold when, bind.
    now rewrite (unsupported_raises _ _ _ _ Hh U). }
  rewrite FP. destruct ff; [apply grows_refl|].
  apply (holds_grows _ _xbee_device (fun b => b = true)); [|exact D1].
  apply holds_after_flash; policy.
Qed.

Lemma no_file_system_on_unsupported_hardware hw s1 :
  hardware_version (_xbee_profile self) = Some hw ->
  unsupported (filesystem_SUPPORTED_HARDWARE_VERSIONS (collab self)) hw = true ->
  after_read self d = (Ok tt, s1) ->
  grows (fun c => negb (is_filesystem_operation c)) s1
    (snd (update_steps self s1)).
Proof.
  intros Hp U E.
  destruct (hardware_after_first_block s1 E) as (h & Hh & Hp' & D1).
  assert (h = hw) by congruence. subst h.
  set (okc := fun c => negb (is_filesystem_operation c)).
  set (kept := fun x => (_device_hardware_version x, _xbee_device x)).
  set (J := fun p : option Z * bool => p = (Some hw, true)).
  assert (JD : forall x, J (kept x) -> _xbee_device x = true)
    by (unfold J, kept; intros x H; now inversion H).
  apply (holds_grows okc kept J); [|unfold J, kept; now rewrite Hh, D1].
  unfold update_steps.
  apply holds_bind; [apply holds_flash_decision | intros ff].
  apply holds_bind; [apply holds_flash_phase; policy | intros _].
  apply holds_bind; [now apply holds_recovery_open | intros _].
  apply holds_bind; [apply holds__update_device_settings; policy | intros _].
  intros s HJ. unfold J, kept in HJ. inversion HJ as [[Hv Hx]].
  unfold filesystem_phase, when.
  destruct (has_filesystem (_xbee_profile self)).
  - unfold bind. rewrite (unsupported_raises _ _ _ _ Hv U). simpl.
    apply extends_refl.
  - apply extends_refl.
Qed.

End UnsupportedHardware.

(** X26. Hardware the libraries do not list is left alone.  On a device
    handle, when the hardware version of the profile is not one of the
    firmware library's supported versions, the run makes no flash call,
    whatever the flash option; when it is not one of the file system
    library's supported versions, the run makes no file system operation,
    although the profile may hold a file system.  A profile without a
    hardware version passes the first block on no device. *)
Theorem unsupported_hardware_is_left_alone
  (self : Updater._ProfileUpdater) (d : Updater.device)
  (Hdevice : Updater.is_str (Updater._target self) = false) :
  (forall hw,
      Updater.hardware_version (Updater._xbee_profile self) = Some hw ->
      Hardware.unsupported
        (Updater.firmware_SUPPORTED_HARDWARE_VERSIONS (Updater.collab self))
        hw = true ->
      Updater.call_count Updater.is_flash
        (Updater.trace (snd (Updater.run self d))) = 0%nat)
  /\ (forall hw,
         Updater.hardware_version (Updater._xbee_profile self) = Some hw ->
         Hardware.unsupported
           (Updater.filesystem_SUPPORTED_HARDWARE_VERSIONS
              (Updater.collab self)) hw = true ->
         Updater.call_count Updater.is_filesystem_operation
           (Updater.trace (snd (Updater.run self d))) = 0%nat)
  /\ (Updater.hardware_version (Updater._xbee_profile self) = None ->
      fst (Updater.after_read self d) <> Py.Ok tt).
Proof.
  split; [|split].
  - intros hw Hp U. apply (guarded_run self d Hdevice); try reflexivity.
    intros s1 E.
    now apply (no_flash_on_unsupported_hardware self d Hdevice hw).
  - intros hw Hp U. apply (guarded_run self d Hdevice); try reflexivity.
    intros s1 E.
    now apply (no_file_system_on_unsupported_hardware self d Hdevice hw).
  - intros Hp Hr.
    destruct (Updater.after_read self d) as [r s1] eqn:E. simpl in Hr.
    subst r.
    destruct (hardware_after_first_block self d Hdevice s1 E)
      as (h & _ & Hp' & _).
    congruence.
Qed.

Lemma unsupported_hardware_is_left_alone_witness :
  Updater.call_count Updater.is_flash
    (Updater.trace (snd (Updater.run Hardware.odd_update
                           Hardware.odd_device))) = 0%nat
  /\ Updater.call_count Updater.is_filesystem_operation
       (Updater.trace (snd (Updater.run Hardware.odd_update
                              Hardware.odd_device))) = 0%nat.
Proof.
  destruct (unsupported_hardware_is_left_alone Hardware.odd_update
              Hardware.odd_device eq_refl) as (H1 & H2 & _).
  split; [apply (H1 0x50) | apply (H2 0x50)]; reflexivity.
Defined.

(* --------------------------------------------------------------------- *)
(** ** The operating mode over a whole run *)
(* --------------------------------------------------------------------- *)

Section OperatingModeRun.
Import Py Updater Attempts Frame Schedule Refresh.

Variable self : _ProfileUpdater.
Hypothesis Hlocal : _is_local self = true.

Local Abbreviation okw := (fun c : call => negb (is_settings_write c)).
Local Abbreviation ap_kept m :=
  (Frame.holds okw _xpro_ap (fun _ : value => True) m).
Local Abbreviation RE_accepted :=
  (e_call (c_set_parameter "RE" (Bytes [])) None).

Ltac policy :=
  intros; simpl in *;
  try reflexivity; try assumption; try tauto;
  try match goal with
      | c : call |- _ => destruct c; simpl in *; try reflexivity;
                         try discriminate
      end.

(** *** The restore-defaults step *)

Lemma report_step_calls n c s :
  exists c1 s1 report,
    report_step self n c s = (Ok c1, s1)
    /\ trace s1 = trace s ++ report /\ calls report = [].
Proof.
  unfold report_step. destruct (_progress_callback self && _).
  - unfold bind, emit, ret. simpl. do 3 eexists.
    split; [reflexivity|]. simpl. split; reflexivity.
  - exists c, s, []. unfold ret. now rewrite app_nil_r.
Qed.

(** A reset writes the current mode back at once and withholds the
    transparent-mode byte. *)
Lemma reset_step_writes_mode_back n c s c' s' :
  reset_step self n c s = (Ok c', s') ->
  let s2 := snd ((c1 <- report_step self n c ;;
                  _set_parameter_with_retries self "RE" (Bytes [])
                    _PARAMETER_WRITE_RETRIES) s) in
  _xpro_ap (ses s') = Bytes [AT_MODE_code]
  /\ exists report retries_RE retries_AP,
       trace s2 = trace s ++ report ++ retries_RE ++ [RE_accepted]
       /\ trace s'
          = trace s2 ++ retries_AP
            ++ [e_call (c_set_parameter "AP"
                          (Bytes [operating_mode (dev s2)])) None]
       /\ calls report = []
       /\ Forall (is_retry "RE" (Bytes [])) retries_RE
       /\ Forall (is_retry "AP" (Bytes [operating_mode (dev s2)]))
            retries_AP.
Proof.
  unfold reset_step. rewrite Hlocal. unfold when. intros H.
  apply bind_inv in H as (c1 & s1 & H1 & H).
  apply bind_inv in H as ([] & s2 & H2 & H).
  apply bind_inv in H as ([] & s3 & H3 & H).
  unfold ret in H. assert (s3 = s') by now inversion H. subst s3. clear H.
  apply bind_inv in H3 as ([] & s4 & Ha & H3).
  apply modify_ses_inv in Ha.
  apply bind_inv in H3 as (mode & s5 & Hb & H3).
  apply gets_inv in Hb as [-> ->].
  rewrite (bind_Ok _ _ _ _ _ H1), H2. cbv zeta. simpl snd.
  destruct (report_step_calls n c s) as (c1' & s1' & report & R & T1 & C1).
  rewrite H1 in R. inversion R; subst c1' s1'. clear R.
  apply set_parameter_with_retries_ok in H2 as (rRE & T2 & F2 & _ & _).
  apply set_parameter_with_retries_ok in H3 as (rAP & T3 & F3 & _ & S3).
  subst s4. simpl in *. split; [now rewrite S3|].
  exists report, rRE, rAP.
  split; [now rewrite T2, T1, <- !app_assoc|].
  split; [exact T3|]. repeat split; assumption.
Qed.

(** *** The steps before the settings phase *)

#[local] Hint Resolve holds_device_open holds_enable_apply_changes
  holds_progress holds_report_step holds_sleep
  holds__check_port_settings_changed holds_read_device_info_loop
  holds_restore_sync_ops_timeout holds_restore_connection : frames.

Lemma ap_kept_recovery_open : ap_kept (recovery_open self).
Proof. unfold recovery_open. frame. Qed.

Lemma ap_kept_before_settings : ap_kept (before_settings self).
Proof.
  unfold before_settings.
  apply holds_bind; [apply holds_read_and_check; policy | intros _].
  apply holds_bind; [apply holds_flash_decision | intros ff].
  apply holds_bind; [apply holds_flash_phase; policy | intros _].
  apply ap_kept_recovery_open.
Qed.

Lemma ap_kept_filesystem_phase : ap_kept (filesystem_phase self).
Proof. apply holds_filesystem_phase; policy. Qed.

Lemma try_body_unfold s :
  try_body self s
  = (before_settings self ;; _update_device_settings self ;;
     filesystem_phase self) s.
Proof.
  unfold try_body, update_steps, before_settings, bind.
  destruct (read_and_check self s) as [[[]|e] s1]; [|reflexivity].
  destruct (flash_decision self s1) as [[ff|e] s2]; [|reflexivity].
  destruct (flash_phase self ff s2) as [[[]|e] s3]; [|reflexivity].
  destruct (recovery_open self s3) as [[[]|e] s4]; reflexivity.
Qed.

(** *** Where AP is written in the steps of the phase *)

Lemma no_AP_allowed evs :
  Forall (allowed okw) evs -> call_count is_AP_write evs = 0%nat.
Proof.
  intros F. apply allowed_call_count.
  eapply Forall_impl; [|exact F]. intros [c o| | | |] He; simpl in *; auto.
  destruct c; simpl in *; try reflexivity. discriminate He.
Qed.

Lemma no_AP_retries p v retries :
  p <> "AP" -> Forall (is_retry p v) retries ->
  call_count is_AP_write retries = 0%nat.
Proof.
  intros Hp F. apply allowed_call_count.
  eapply Forall_impl; [|exact F]. intros [c o| | | |] He; simpl in *; auto.
  destruct c; simpl in *; try reflexivity.
  destruct o; [|contradiction]. destruct He as [-> _].
  apply negb_true_iff. now apply String.eqb_neq.
Qed.

Lemma no_AP_carried_out w work b :
  Forall (fun pv => fst pv <> "AP") w -> carried_out w work b ->
  call_count is_AP_write work = 0%nat.
Proof.
  intros Hw C. induction C as [|p v r retries F|p v r retries rest b F C IH].
  - reflexivity.
  - inversion Hw; subst. now apply (no_AP_retries p v).
  - inversion Hw as [|? ? Hp Hr]; subst. simpl in Hp.
    rewrite call_count_app, (no_AP_retries p v retries Hp F).
    change (e_call (c_set_parameter p v) None :: rest)
      with ([e_call (c_set_parameter p v) None] ++ rest).
    rewrite call_count_app, (IH Hr). unfold call_count. simpl.
    apply String.eqb_neq in Hp. now rewrite Hp.
Qed.

Lemma no_AP_report k : call_count is_AP_write (report_of self k) = 0%nat.
Proof. unfold report_of. now destruct (_ && _). Qed.

Lemma no_AP_scheduled k steps evs b :
  Forall (Forall (fun pv => fst pv <> "AP")) steps ->
  scheduled self k steps evs b -> call_count is_AP_write evs = 0%nat.
Proof.
  intros Hs C.
  induction C as [k|k w rest work C|k w rest work tail b C Sch IH].
  - reflexivity.
  - inversion Hs; subst.
    now rewrite call_count_app, no_AP_report, (no_AP_carried_out w work false).
  - inversion Hs as [|? ? Hw Hr]; subst.
    now rewrite !call_count_app, no_AP_report,
      (no_AP_carried_out w work true), (IH Hr).
Qed.

Lemma no_AP_in_the_loop :
  Forall (Forall (fun pv : string * value => fst pv <> "AP"))
    (map (setting_writes self) (profile_settings (_xbee_profile self))
     ++ [[("WR", Bytes [])]; [("AC", Bytes [])]]).
Proof.
  apply Forall_app. split.
  - apply Forall_forall. intros w Hw. apply in_map_iff in Hw.
    destruct Hw as (kv & <- & _). unfold setting_writes.
    rewrite Hlocal. simpl.
    destruct (String.eqb (upper (Codec.name (snd kv))) "AP") eqn:E;
      [constructor|].
    constructor; [|constructor]. simpl. now apply String.eqb_neq.
  - repeat constructor; simpl; discriminate.
Qed.

Lemma retries_are_attempts p v l :
  Forall (is_retry p v) l -> Forall (is_attempt p v) l.
Proof. apply Forall_impl. intros e H. now left. Qed.

Lemma carried_out_nil_inv work b :
  carried_out [] work b -> work = [] /\ b = true.
Proof. intros H. inversion H. now split. Qed.

Lemma carried_out_cons_inv p v r work b :
  carried_out ((p, v) :: r) work b ->
  (b = false /\ Forall (is_retry p v) work)
  \/ exists retries rest,
       work = retries ++ e_call (c_set_parameter p v) None :: rest
       /\ Forall (is_retry p v) retries
       /\ carried_out r rest b.
Proof.
  intros H. inversion H as [|? ? ? ? F|? ? ? retries rest ? F C]; subst.
  - left. now split.
  - right. now exists retries, rest.
Qed.

Lemma scheduled_cons_inv k w rest evs b :
  scheduled self k (w :: rest) evs b ->
  exists work,
    (b = false /\ evs = report_of self k ++ work
     /\ carried_out w work false)
    \/ exists tail,
         evs = report_of self k ++ work ++ tail
         /\ carried_out w work true
         /\ scheduled self (k + 1) rest tail b.
Proof.
  intros H. inversion H as [|? ? ? work C|? ? ? work tail ? C Sch]; subst.
  - exists work. left. now repeat split.
  - exists work. right. now exists tail.
Qed.

(** In the steps of the phase AP is written by the restore-defaults step
    only, right after the [RE] write went through. *)
Lemma scheduled_mode_written_back mode evs b :
  scheduled self 1 (step_writes self mode) evs b ->
  exists x aps y,
    evs = x ++ aps ++ y
    /\ call_count is_AP_write x = 0%nat
    /\ call_count is_AP_write y = 0%nat
    /\ Forall (is_attempt "AP" (Bytes [mode])) aps
    /\ (aps <> [] ->
        restores_defaults self = true
        /\ exists x', x = x' ++ [RE_accepted]).
Proof.
  unfold step_writes, reset_writes. fold (restores_defaults self).
  rewrite Hlocal.
  destruct (restores_defaults self); simpl app.
  2:{ intros C. exists evs, [], []. rewrite !app_nil_r.
      split; [reflexivity|].
      split; [exact (no_AP_scheduled _ _ _ _ no_AP_in_the_loop C)|].
      split; [reflexivity|]. split; [constructor|]. congruence. }
  intros C.
  assert (RE : forall retries,
             Forall (is_retry "RE" (Bytes [])) retries ->
             call_count is_AP_write retries = 0%nat)
    by (intros retries; apply no_AP_retries; discriminate).
  apply scheduled_cons_inv in C.
  destruct C as (work & [(-> & -> & C1) | (tail & -> & C1 & C2)]).
  - (* the step was not completed *)
    apply carried_out_cons_inv in C1.
    destruct C1 as [[_ F] | (retries & rest' & -> & F & C3)].
    + exists (report_of self 1 ++ work), [], [].
      rewrite !app_nil_r. split; [reflexivity|].
      split; [now rewrite call_count_app, no_AP_report, (RE _ F)|].
      split; [reflexivity|]. split; [constructor|]. congruence.
    + apply carried_out_stuck_retries in C3.
      exists (report_of self 1 ++ retries ++ [RE_accepted]), rest', [].
      rewrite app_nil_r, <- !app_assoc. split; [reflexivity|].
      split; [now rewrite !call_count_app, no_AP_report, (RE _ F)|].
      split; [reflexivity|].
      split; [now apply retries_are_attempts|].
      intros _. split; [reflexivity|].
      exists (report_of self 1 ++ retries). now rewrite <- app_assoc.
  - (* the step was completed *)
    apply carried_out_cons_inv in C1.
    destruct C1 as [[C1 _] | (retries & rest' & -> & F & C3)];
      [discriminate C1|].
    apply carried_out_cons_inv in C3.
    destruct C3 as [[C3 _] | (retries' & rest'' & -> & F' & C4)];
      [discriminate C3|].
    apply carried_out_nil_inv in C4. destruct C4 as [-> _].
    exists (report_of self 1 ++ retries ++ [RE_accepted]),
      (retries' ++ [e_call (c_set_parameter "AP" (Bytes [mode])) None]),
      tail.
    split; [now rewrite <- !app_assoc; simpl; rewrite <- !app_assoc|].
    split; [now rewrite !call_count_app, no_AP_report, (RE _ F)|].
    split; [exact (no_AP_scheduled _ _ _ _ no_AP_in_the_loop C2)|].
    split.
    + apply Forall_app. split; [now apply retries_are_attempts|].
      constructor; [now right | constructor].
    + intros _. split; [reflexivity|].
      exists (report_of self 1 ++ retries). now rewrite <- app_assoc.
Qed.

(** *** The [try] block *)

Lemma at_try_no_calls d : call_count is_AP_write (trace (at_try self d)) = 0%nat.
Proof. rewrite at_try_trace. now destruct (is_str (_target self)). Qed.

Lemma AP_before_cleanup d :
  exists before aps after,
    trace (at_cleanup self d) = before ++ aps ++ after
    /\ call_count is_AP_write before = 0%nat
    /\ call_count is_AP_write after = 0%nat
    /\ Forall (is_attempt "AP"
                 (Bytes [mode_written_back self (at_settings self d)])) aps
    /\ (aps <> [] ->
        restores_defaults self = true
        /\ exists before', before = before' ++ [RE_accepted]).
Proof.
  unfold at_cleanup. rewrite try_body_unfold. unfold at_settings.
  pose proof (ap_kept_before_settings (at_try self d) I)
    as [(pre & Tpre & Fpre) _].
  destruct (before_settings self (at_try self d)) as [[[]|e] se] eqn:B;
    simpl in Tpre |- *.
  2:{ rewrite (bind_Raise _ _ _ _ _ B). simpl.
      exists (trace se), [], []. rewrite !app_nil_r.
      split; [reflexivity|].
      split; [now rewrite Tpre, call_count_app, at_try_no_calls,
                (no_AP_allowed _ Fpre)|].
      split; [reflexivity|]. split; [constructor|]. congruence. }
  rewrite (bind_Ok _ _ _ _ _ B).
  assert (Hse : call_count is_AP_write (trace se) = 0%nat)
    by now rewrite Tpre, call_count_app, at_try_no_calls,
         (no_AP_allowed _ Fpre).
  (* the file system phase, if it is reached *)
  assert (Hfs : exists evs_fs,
               trace (snd ((_update_device_settings self ;;
                            filesystem_phase self) se))
               = trace (snd (_update_device_settings self se)) ++ evs_fs
               /\ call_count is_AP_write evs_fs = 0%nat
               /\ (fst (_update_device_settings self se) <> Ok tt ->
                   evs_fs = [])).
  { unfold bind.
    destruct (_update_device_settings self se) as [[[]|e] sf]; simpl.
    - pose proof (ap_kept_filesystem_phase sf I) as [(evs & T & F) _].
      exists evs. split; [exact T|]. split; [now apply no_AP_allowed|].
      congruence.
    - exists []. now rewrite app_nil_r. }
  destruct Hfs as (evs_fs & Tfs & Cfs & _). rewrite Tfs.
  destruct (settings_skipped self se) eqn:Sk.
  - rewrite (settings_phase_skipped self se Sk).
    exists (trace se ++ evs_fs), [], []. rewrite !app_nil_r.
    split; [reflexivity|].
    split; [now rewrite call_count_app, Hse, Cfs|].
    split; [reflexivity|]. split; [constructor|]. congruence.
  - destruct (settings_phase_scheduled self se Sk)
      as (steps_evs & fin & after0 & T & C & _ & Fa & _ & _).
    destruct (scheduled_mode_written_back _ _ _ C)
      as (x & aps & y & -> & Cx & Cy & Faps & Hx).
    exists (trace se ++ e_enable_apply_changes false :: first_report self
            ++ x), aps, (y ++ after0 ++ evs_fs).
    split; [rewrite T, <- !app_assoc; simpl; now rewrite <- !app_assoc|].
    split.
    { rewrite call_count_app, Hse.
      change (e_enable_apply_changes false :: first_report self ++ x)
        with ([e_enable_apply_changes false] ++ first_report self ++ x).
      rewrite !call_count_app, Cx. unfold first_report.
      now destruct (_progress_callback self). }
    split; [now rewrite !call_count_app, Cy, (no_AP_allowed _ Fa), Cfs|].
    split; [exact Faps|].
    intros Ha. destruct (Hx Ha) as (Hr & x' & ->).
    split; [exact Hr|].
    exists (trace se ++ e_enable_apply_changes false :: first_report self
            ++ x').
    rewrite <- !app_assoc. simpl. now rewrite <- !app_assoc.
Qed.

(** *** The [finally] block *)

Lemma after_restore old s :
  exists rest,
    trace (snd ((restore_sync_ops_timeout old ;; restore_connection self) s))
    = trace s ++ rest
    /\ call_count is_settings_write rest = 0%nat.
Proof.
  assert (F : Frame.holds okw (fun _ : session => tt) (fun _ : unit => True)
                (restore_sync_ops_timeout old ;; restore_connection self)).
  { apply holds_bind; [apply holds_restore_sync_ops_timeout | intros _].
    apply holds_restore_connection; policy. }
  destruct (F s I) as [(rest & T & Fr) _]. exists rest.
  split; [exact T | now apply allowed_call_count].
Qed.

Lemma enable_apply_changes_inv b s :
  enable_apply_changes b s
  = (Ok tt, {| dev := set_apply_changes b (dev s); ses := ses s;
               trace := trace s ++ [e_enable_apply_changes b] |}).
Proof. reflexivity. Qed.

(** What the [finally] block adds to the trace. *)
Lemma AP_in_cleanup d :
  let sc := at_cleanup self d in
  exists fin,
    trace (snd (run self d)) = trace sc ++ fin
    /\ if must_restore_ap self (_xpro_ap (ses sc)) (operating_mode (dev sc))
       then exists work rest b,
              fin = e_enable_apply_changes true :: work ++ rest
              /\ carried_out [("AP", _xpro_ap (ses sc)); ("WR", Bytes [])]
                   work b
              /\ call_count is_settings_write rest = 0%nat
              /\ (if b
                  then exists rest',
                         rest = e_enable_apply_changes
                                  (apply_changes_enabled (dev sc)) :: rest'
                  else rest = [])
       else call_count is_settings_write fin = 0%nat.
Proof.
  cbv zeta. rewrite run_state. unfold cleanup.
  set (sc := at_cleanup self d). set (old := saved_timeout self d).
  destruct (must_restore_ap self (_xpro_ap (ses sc))
              (operating_mode (dev sc))) eqn:Hm.
  2:{ rewrite (bind_Ok _ _ _ _ _ (restore_operating_mode_skip self sc Hm)).
      destruct (after_restore old sc) as (rest & T & C).
      exists rest. now split. }
  (* the restore of the operating mode *)
  set (s1 := {| dev := set_apply_changes true (dev sc); ses := ses sc;
                trace := trace sc ++ [e_enable_apply_changes true] |}).
  assert (R : restore_operating_mode self sc
              = (_set_parameter_with_retries self "AP" (_xpro_ap (ses sc))
                   _PARAMETER_WRITE_RETRIES ;;
                 _set_parameter_with_retries self "WR" (Bytes [])
                   _PARAMETER_WRITE_RETRIES ;;
                 enable_apply_changes (apply_changes_enabled (dev sc))) s1).
  { unfold restore_operating_mode.
    rewrite (bind_Ok (gets _) _ sc _ sc eq_refl).
    rewrite (bind_Ok (gets _) _ sc _ sc eq_refl).
    rewrite Hm. unfold when.
    rewrite (bind_Ok (gets _) _ sc _ sc eq_refl).
    now rewrite (bind_Ok _ _ _ _ _ (enable_apply_changes_inv true sc)). }
  destruct (does_write self "AP" (_xpro_ap (ses sc))
              _PARAMETER_WRITE_RETRIES s1) as (w1 & b1 & T1 & C1 & O1 & R1).
  destruct (_set_parameter_with_retries self "AP" (_xpro_ap (ses sc))
              _PARAMETER_WRITE_RETRIES s1) as [[[]|e] s2] eqn:E1;
    simpl in T1, O1, R1.
  2:{ destruct b1; [destruct (O1 eq_refl); discriminate|].
      assert (R' : restore_operating_mode self sc = (Raise e, s2))
        by (rewrite R; apply (bind_Raise _ _ _ _ _ E1)).
      rewrite (bind_Raise _ _ _ _ _ R'). simpl.
      exists (e_enable_apply_changes true :: w1).
      split; [rewrite T1; unfold s1; simpl; now rewrite <- app_assoc|].
      exists w1, [], false. rewrite app_nil_r.
      split; [reflexivity|].
      split; [exact (carried_out_app _ _ _ C1 [("WR", Bytes [])])|].
      now split. }
  destruct b1; [|destruct (R1 eq_refl); discriminate].
  destruct (does_write self "WR" (Bytes []) _PARAMETER_WRITE_RETRIES s2)
    as (w2 & b2 & T2 & C2 & O2 & R2).
  destruct (_set_parameter_with_retries self "WR" (Bytes [])
              _PARAMETER_WRITE_RETRIES s2) as [[[]|e] s3] eqn:E2;
    simpl in T2, O2, R2.
  2:{ destruct b2; [destruct (O2 eq_refl); discriminate|].
      assert (R' : restore_operating_mode self sc = (Raise e, s3)).
      { rewrite R, (bind_Ok _ _ _ _ _ E1).
        apply (bind_Raise _ _ _ _ _ E2). }
      rewrite (bind_Raise _ _ _ _ _ R'). simpl.
      exists (e_enable_apply_changes true :: w1 ++ w2).
      split; [rewrite T2, T1; unfold s1; simpl; now rewrite <- !app_assoc|].
      exists (w1 ++ w2), [], false. rewrite app_nil_r.
      split; [reflexivity|].
      split; [exact (carried_out_app _ _ _ C1 _ _ _ C2)|].
      now split. }
  destruct b2; [|destruct (R2 eq_refl); discriminate].
  set (s4 := {| dev := set_apply_changes (apply_changes_enabled (dev sc))
                         (dev s3);
                ses := ses s3;
                trace := trace s3
                         ++ [e_enable_apply_changes
                               (apply_changes_enabled (dev sc))] |}).
  assert (R' : restore_operating_mode self sc = (Ok tt, s4)).
  { rewrite R, (bind_Ok _ _ _ _ _ E1), (bind_Ok _ _ _ _ _ E2).
    apply enable_apply_changes_inv. }
  rewrite (bind_Ok _ _ _ _ _ R').
  destruct (after_restore old s4) as (rest' & T4 & C4).
  exists (e_enable_apply_changes true :: (w1 ++ w2)
          ++ e_enable_apply_changes (apply_changes_enabled (dev sc))
             :: rest').
  split.
  { rewrite T4. unfold s4. simpl. rewrite T2, T1. unfold s1. simpl.
    rewrite <- !app_assoc. reflexivity. }
  exists (w1 ++ w2),
    (e_enable_apply_changes (apply_changes_enabled (dev sc)) :: rest'), true.
  split; [reflexivity|].
  split; [exact (carried_out_app _ _ _ C1 _ _ _ C2)|].
  split; [exact C4 | now exists rest'].
Qed.

(** *** What is withheld when the [try] block returns *)

Local Abbreviation same_ses m :=
  (Frame.holds (fun _ : call => true) (fun x : session => x)
     (fun _ : session => True) m).

Lemma same_ses_inv {A} (m : M A) s r s' :
  same_ses m -> m s = (r, s') -> ses s' = ses s.
Proof.
  intros H E. destruct (H s I) as [_ K]. now rewrite E in K.
Qed.

Lemma settings_phase_withholds s s' :
  _update_device_settings self s = (Ok tt, s') ->
  _xpro_ap (ses s')
  = withheld_ap (profile_settings (_xbee_profile self))
      (if restores_defaults self then Bytes [AT_MODE_code]
       else _xpro_ap (ses s)).
Proof.
  intros U. unfold _update_device_settings in U. cbv zeta in U.
  unfold restores_defaults.
  destruct (Nat.eqb (List.length (profile_settings (_xbee_profile self))) 0
            && negb (reset_settings (_xbee_profile self))
            && negb (is_str (_target self))) eqn:Hn.
  { apply ret_inv in U as [_ ->].
    apply andb_true_iff in Hn as [Hn Hs].
    apply andb_true_iff in Hn as [Hl Hr].
    apply negb_true_iff in Hs, Hr. rewrite Hs, Hr. simpl.
    apply Nat.eqb_eq in Hl.
    destruct (profile_settings (_xbee_profile self)); [reflexivity|].
    discriminate Hl. }
  apply bind_inv in U as (by_fw & s0 & G0 & U).
  apply gets_inv in G0 as [-> ->].
  destruct (is_remote (_target self) && _protocol_changed_by_fw (ses s)
            && (negb (Nat.eqb (List.length
                                 (profile_settings (_xbee_profile self))) 0)
                || reset_settings (_xbee_profile self))); [discriminate U|].
  apply bind_inv in U as (old & s0 & G0 & U).
  apply gets_inv in G0 as [-> ->].
  apply bind_inv in U as ([] & s1 & E1 & U).
  rewrite enable_apply_changes_inv in E1. inversion E1; subst s1. clear E1.
  apply bind_inv in U as (c & s2 & E2 & U).
  apply try_except_raise_inv in E2.
  (* after the try block *)
  assert (K2 : ses s' = ses s2).
  { revert U.
    match goal with
    | |- ?m s2 = _ -> _ =>
        intros U; apply (same_ses_inv m s2 (Ok tt) s'); [|exact U]
    end.
    frame; try (apply holds__check_port_settings_changed; policy). }
  rewrite K2. clear U K2.
  (* the try block *)
  unfold write_settings, queue_settings in E2.
  apply bind_inv in E2 as (c1 & sq & Q & A).
  apply bind_inv in Q as ([] & sa & P & Q).
  apply bind_inv in Q as (c2 & sb & Rs & Q).
  apply bind_inv in Q as (c3 & sc & L & W).
  apply (same_ses_inv _ _ _ _
           (holds_apply_step self (fun _ => true) (fun x => x)
              (fun _ => True) (fun _ _ _ => eq_refl) _ _)) in A.
  apply (same_ses_inv _ _ _ _
           (holds_write_step self (fun _ => true) (fun x => x)
              (fun _ => True) (fun _ _ _ => eq_refl) _ _)) in W.
  apply (same_ses_inv _ _ _ _
           (holds_progress self (fun _ => true) (fun x => x)
              (fun _ => True) _ _)) in P.
  apply (settings_loop_withholds self Hlocal) in L.
  rewrite A, W, L. f_equal.
  destruct (reset_settings (_xbee_profile self) || is_str (_target self)).
  - now apply reset_step_writes_mode_back in Rs as [Rs _].
  - apply ret_inv in Rs as [_ ->]. now rewrite P.
Qed.

Lemma withheld_at_cleanup d :
  fst (try_body self (at_try self d)) = Ok tt ->
  _xpro_ap (ses (at_cleanup self d))
  = withheld_ap (profile_settings (_xbee_profile self))
      (if restores_defaults self then Bytes [AT_MODE_code] else NoneV).
Proof.
  unfold at_cleanup. rewrite try_body_unfold.
  pose proof (ap_kept_before_settings (at_try self d) I) as [_ Kpre].
  destruct (before_settings self (at_try self d)) as [[[]|e] se] eqn:B;
    simpl in Kpre.
  2:{ rewrite (bind_Raise _ _ _ _ _ B). discriminate. }
  rewrite (bind_Ok _ _ _ _ _ B).
  destruct (_update_device_settings self se) as [[[]|e] sf] eqn:U.
  2:{ rewrite (bind_Raise _ _ _ _ _ U). discriminate. }
  rewrite (bind_Ok _ _ _ _ _ U). intros _.
  pose proof (ap_kept_filesystem_phase sf I) as [_ Kfs]. rewrite Kfs.
  rewrite (settings_phase_withholds _ _ U), Kpre, at_try_session.
  reflexivity.
Qed.

End OperatingModeRun.

Section OperatingModeClaim.
Import Py Updater Attempts Frame Schedule Refresh Scenarios.

(** C7 (as the code has it).  On a local target:
    the settings loop never writes AP, and the payload of an AP setting of
    the profile is withheld;
    a reset does not withhold the current mode: right after the [RE] write
    it writes back as AP the operating mode the handle reports at that
    moment (its mode when the phase is entered, if no collaborator changes
    it), and records the transparent-mode byte as the withheld value;
    over a whole run, before the [finally] block the only attempts to write
    AP are those of that write-back, directly after the accepted [RE]
    write, and there is none without a reset;
    when the [try] block returns, the withheld value is the payload of the
    last AP setting of the profile, or else the transparent-mode byte after
    a reset and nothing without one;
    the [finally] block writes the withheld value exactly when it is a
    non-empty byte array whose first byte differs from the device's current
    mode and is 1 (API) or 2 (escaped API): it enables auto-apply, writes
    AP and then [WR], and sets the auto-apply flag back to what it was when
    both went through; when one of them fails the block ends there, and
    when the test fails it writes nothing. *)
Theorem operating_mode_is_deferred
  (self : _ProfileUpdater) (Hlocal : _is_local self = true) :
  (forall n l c s,
      call_count is_AP_write (trace (snd (settings_loop self n l c s)))
      = call_count is_AP_write (trace s))
  /\ (forall n l c s c' s',
         settings_loop self n l c s = (Ok c', s') ->
         _xpro_ap (ses s') = withheld_ap l (_xpro_ap (ses s)))
  /\ (forall n c s c' s',
         reset_step self n c s = (Ok c', s') ->
         let s2 := snd ((c1 <- report_step self n c ;;
                         _set_parameter_with_retries self "RE" (Bytes [])
                           _PARAMETER_WRITE_RETRIES) s) in
         _xpro_ap (ses s') = Bytes [AT_MODE_code]
         /\ exists report retries_RE retries_AP,
              trace s2
              = trace s ++ report ++ retries_RE
                ++ [e_call (c_set_parameter "RE" (Bytes [])) None]
              /\ trace s'
                 = trace s2 ++ retries_AP
                   ++ [e_call (c_set_parameter "AP"
                                 (Bytes [operating_mode (dev s2)])) None]
              /\ calls report = []
              /\ Forall (is_retry "RE" (Bytes [])) retries_RE
              /\ Forall (is_retry "AP" (Bytes [operating_mode (dev s2)]))
                   retries_AP)
  /\ (mode_is_stable self ->
      forall s, mode_written_back self s = operating_mode (dev s))
  /\ (forall d,
         exists before aps after,
           trace (at_cleanup self d) = before ++ aps ++ after
           /\ call_count is_AP_write before = 0%nat
           /\ call_count is_AP_write after = 0%nat
           /\ Forall (is_attempt "AP"
                        (Bytes [mode_written_back self (at_settings self d)]))
                aps
           /\ (aps <> [] ->
               restores_defaults self = true
               /\ exists before',
                    before
                    = before'
                      ++ [e_call (c_set_parameter "RE" (Bytes [])) None]))
  /\ (forall d,
         fst (try_body self (at_try self d)) = Ok tt ->
         _xpro_ap (ses (at_cleanup self d))
         = withheld_ap (profile_settings (_xbee_profile self))
             (if restores_defaults self then Bytes [AT_MODE_code]
              else NoneV))
  /\ (forall ap mode,
         must_restore_ap self ap mode = true
         <-> exists b rest,
               ap = Bytes (b :: rest) /\ b <> mode
               /\ (b = API_MODE_code \/ b = ESCAPED_API_MODE_code))
  /\ (forall d,
         let sc := at_cleanup self d in
         exists fin,
           trace (snd (run self d)) = trace sc ++ fin
           /\ if must_restore_ap self (_xpro_ap (ses sc))
                   (operating_mode (dev sc))
              then exists work rest b,
                     fin = e_enable_apply_changes true :: work ++ rest
                     /\ carried_out
                          [("AP", _xpro_ap (ses sc)); ("WR", Bytes [])]
                          work b
                     /\ call_count is_settings_write rest = 0%nat
                     /\ (if b
                         then exists rest',
                                rest
                                = e_enable_apply_changes
                                    (apply_changes_enabled (dev sc))
                                  :: rest'
                         else rest = [])
              else call_count is_settings_write fin = 0%nat)
  /\ (forall s,
         must_restore_ap self (_xpro_ap (ses s)) (operating_mode (dev s))
         = false ->
         restore_operating_mode self s = (Ok tt, s))
  /\ (forall s s',
         must_restore_ap self (_xpro_ap (ses s)) (operating_mode (dev s))
         = true ->
         restore_operating_mode self s = (Ok tt, s') ->
         exists evs1 evs2,
           trace s'
           = trace s ++ [e_enable_apply_changes true] ++ evs1
             ++ [e_call (c_set_parameter "AP" (_xpro_ap (ses s))) None]
             ++ evs2
             ++ [e_call (c_set_parameter "WR" (Bytes [])) None;
                 e_enable_apply_changes (apply_changes_enabled (dev s))]
           /\ Forall (is_retry "AP" (_xpro_ap (ses s))) evs1
           /\ Forall (is_retry "WR" (Bytes [])) evs2
           /\ apply_changes_enabled (dev s')
              = apply_changes_enabled (dev s)).
Proof.
  split; [exact (settings_loop_no_AP_write self Hlocal)|].
  split; [exact (settings_loop_withholds self Hlocal)|].
  split; [exact (reset_step_writes_mode_back self Hlocal)|].
  split; [intros H s; now apply mode_written_back_stable|].
  split; [exact (AP_before_cleanup self Hlocal)|].
  split; [exact (withheld_at_cleanup self Hlocal)|].
  split; [exact (must_restore_ap_spec self Hlocal)|].
  split; [exact (AP_in_cleanup self)|].
  split; [exact (restore_operating_mode_skip self)|].
  exact (restore_operating_mode_writes self).
Qed.

Lemma operating_mode_is_deferred_witness :
  _is_local deferred_update = true
  /\ call_count is_AP_write (trace (at_cleanup deferred_update xbee3)) = 0%nat
  /\ _xpro_ap (ses (at_cleanup deferred_update xbee3)) = Bytes [1]
  /\ call_count is_AP_write (trace (snd (run deferred_update xbee3))) = 1%nat
  /\ (forall n l c s,
         call_count is_AP_write
           (trace (snd (settings_loop deferred_update n l c s)))
         = call_count is_AP_write (trace s)).
Proof.
  split; [reflexivity|]. split; [vm_compute; reflexivity|].
  split; [vm_compute; reflexivity|]. split; [vm_compute; reflexivity|].
  exact (proj1 (operating_mode_is_deferred deferred_update eq_refl)).
Defined.
End OperatingModeClaim.
